(** * offlineimap: the Maildir folder store and the Maildir repository

    A shallow embedding of [offlineimap/folder/Maildir.py] and
    [offlineimap/repository/Maildir.py].

    - Python [str] values are [string]s, message uids ([long]) are [Z],
      flag lists are [list ascii].
    - The message cache [self.messagelist] is a [gmap Z msg]; it is [None]
      until [cachemessagelist] has run.
    - The operating system is an explicit [World]: a small POSIX file
      system (a table of files and directories in directory order, hard
      links, directories that may be read-only, no symbolic links), the
      clock, and the trace of every system call and collaborator call
      the program makes.
    - Methods are functions in a state-and-exception monad: an exception
      keeps the state reached when it was raised.
    - [ui.debug], [ui.makefolder] and [print] only feed the logging sink
      and are left out of the trace. *)

From Stdlib Require Import ZArith Ascii String DecimalString DecimalPos.
From stdpp Require Import gmap strings list sorting.

Local Open Scope Z_scope.

(* ===================================================================== *)
(** ** Characters and strings (the [str] methods the code uses) *)
(* ===================================================================== *)

Definition ord (c : ascii) : Z := Z.of_N (N_of_ascii c).

Definition in_range (lo hi c : ascii) : bool :=
  (ord lo <=? ord c) && (ord c <=? ord hi).

Definition is_digit (c : ascii) : bool := in_range "0" "9" c.
Definition is_upper (c : ascii) : bool := in_range "A" "Z" c.
Definition is_hexlower (c : ascii) : bool := is_digit c || in_range "a" "f" c.
Definition newline : ascii := "010"%char.
Definition not_newline (c : ascii) : bool := negb (Ascii.eqb c newline).
Definition is_slash (c : ascii) : bool := Ascii.eqb c "/".

(** [string.whitespace] of the C locale. *)
Definition is_space (c : ascii) : bool :=
  (ord c =? 32) || ((9 <=? ord c) && (ord c <=? 13)).

Fixpoint str_forall (p : ascii -> bool) (s : string) : bool :=
  match s with
  | EmptyString => true
  | String c r => p c && str_forall p r
  end.

Fixpoint str_of_list (l : list ascii) : string :=
  match l with
  | [] => EmptyString
  | c :: r => String c (str_of_list r)
  end.

Fixpoint list_of_str (s : string) : list ascii :=
  match s with
  | EmptyString => []
  | String c r => c :: list_of_str r
  end.

(** [lit_match lit s]: [s] with the prefix [lit] removed, when it starts
    with [lit]. *)
Fixpoint lit_match (lit s : string) : option string :=
  match lit, s with
  | EmptyString, _ => Some s
  | String a lit', String b s' => if Ascii.eqb a b then lit_match lit' s' else None
  | String _ _, EmptyString => None
  end.

(** [s.startswith(p)] *)
Definition startswith (p s : string) : bool :=
  match lit_match p s with Some _ => true | None => false end.

(** [s.find(needle) != -1] *)
Fixpoint contains (needle s : string) : bool :=
  startswith needle s ||
  match s with
  | EmptyString => false
  | String _ r => contains needle r
  end.

(** [s.endswith('/')] *)
Fixpoint endswith_slash (s : string) : bool :=
  match s with
  | EmptyString => false
  | String c EmptyString => is_slash c
  | String _ r => endswith_slash r
  end.

(** [s.split(sep)] for a one-character separator: never empty. *)
Fixpoint split_on (sep : ascii) (s : string) : list string :=
  match s with
  | EmptyString => [EmptyString]
  | String c r =>
      if Ascii.eqb c sep then EmptyString :: split_on sep r
      else match split_on sep r with
           | [] => [String c EmptyString]
           | w :: ws => String c w :: ws
           end
  end.

(** [sep.join(parts)] *)
Fixpoint join_with (sep : string) (parts : list string) : string :=
  match parts with
  | [] => EmptyString
  | [p] => p
  | p :: ps => p +:+ sep +:+ join_with sep ps
  end.

(** [s.rstrip('/')] *)
Fixpoint rstrip_slash (s : string) : string :=
  match s with
  | EmptyString => EmptyString
  | String c r =>
      let r' := rstrip_slash r in
      if is_slash c && String.eqb r' EmptyString then EmptyString else String c r'
  end.

Fixpoint lstrip (s : string) : string :=
  match s with
  | EmptyString => EmptyString
  | String c r => if is_space c then lstrip r else s
  end.

Fixpoint rstrip (s : string) : string :=
  match s with
  | EmptyString => EmptyString
  | String c r =>
      let r' := rstrip r in
      if is_space c && String.eqb r' EmptyString then EmptyString else String c r'
  end.

(** [s.strip()] *)
Definition strip (s : string) : string := lstrip (rstrip s).

(** [s.replace(old, new)]: [skip] counts the characters of a match of
    [old] that are still to be dropped. *)
Fixpoint replace_aux (old new : string) (skip : nat) (s : string) : string :=
  match s with
  | EmptyString => EmptyString
  | String c r =>
      match skip with
      | S n => replace_aux old new n r
      | O => if startswith old s
             then new +:+ replace_aux old new (Nat.pred (String.length old)) r
             else String c (replace_aux old new O r)
      end
  end.

Definition str_replace (old new s : string) : string :=
  match old with
  | EmptyString =>
      (* Python puts [new] before every character and at the end *)
      new +:+ String.concat EmptyString
                (map (fun c => String c new) (list_of_str s))
  | _ => replace_aux old new O s
  end.

(** [long(digits)] for a string of decimal digits. *)
Fixpoint digits_value (acc : Z) (s : string) : Z :=
  match s with
  | EmptyString => acc
  | String c r => digits_value (10 * acc + (ord c - 48)) r
  end.

(** ['%d' % n] *)
Definition str_of_Z (n : Z) : string := NilZero.string_of_int (Z.to_int n).

(* ===================================================================== *)
(** ** The [re] patterns of the two modules

    A backtracking matcher for the operators the patterns use: literals,
    greedy repetition of a character class, sequence, one capture group
    and [$].  [run] tries the longest repetition first and falls back,
    as [re] does. *)
(* ===================================================================== *)

Inductive regex : Type :=
| RLit (lit : string)
| RMany (cls : ascii -> bool) (lo : nat) (hi : option nat)
| RSeq (r1 r2 : regex)
| RGroup (r : regex)
| REnd.

Fixpoint many {T : Type} (cls : ascii -> bool) (lo : nat) (hi : option nat)
    (k : string -> option T) (s : string) : option T :=
  let stop := match lo with O => k s | S _ => None end in
  match s with
  | EmptyString => stop
  | String c r =>
      if cls c && negb (bool_decide (hi = Some O))
      then match many cls (Nat.pred lo) (Nat.pred <$> hi) k r with
           | Some t => Some t
           | None => stop
           end
      else stop
  end.

Fixpoint run {T : Type} (r : regex) (cap : option string) (s : string)
    (k : option string -> string -> option T) : option T :=
  match r with
  | RLit lit =>
      match lit_match lit s with
      | Some rest => k cap rest
      | None => None
      end
  | RMany cls lo hi => many cls lo hi (k cap) s
  | RSeq r1 r2 => run r1 cap s (fun cap' rest => run r2 cap' rest k)
  | RGroup r1 =>
      run r1 cap s (fun _ rest =>
        k (Some (substring 0 (String.length s - String.length rest) s)) rest)
  | REnd =>
      match s with
      | EmptyString => k cap s
      | String c EmptyString => if Ascii.eqb c newline then k cap s else None
      | _ => None
      end
  end.

(** [pattern.search(s)]: the leftmost match; the result is [group(1)]. *)
Fixpoint re_search (r : regex) (s : string) : option string :=
  match run r None s (fun cap _ => Some (default EmptyString cap)) with
  | Some g => Some g
  | None =>
      match s with
      | EmptyString => None
      | String _ rest => re_search r rest
      end
  end.

(** [re.sub(pattern, '', s)]: every leftmost non-overlapping match is
    removed; [skip] counts the characters of the current match that are
    still to be dropped. *)
Fixpoint re_sub_aux (r : regex) (skip : nat) (s : string) : string :=
  match s with
  | EmptyString => EmptyString
  | String c rest =>
      match skip with
      | S n => re_sub_aux r n rest
      | O =>
          match run r None s
                  (fun _ tl => Some (String.length s - String.length tl)%nat) with
          | Some (S n) => re_sub_aux r n rest
          | _ => String c (re_sub_aux r O rest)
          end
      end
  end.

Definition re_sub (r : regex) (s : string) : string := re_sub_aux r O s.

Definition star (cls : ascii -> bool) : regex := RMany cls 0 None.
Definition plus (cls : ascii -> bool) : regex := RMany cls 1 None.
Definition exactly (n : nat) (cls : ascii -> bool) : regex := RMany cls n (Some n).

(** [re.compile(',FMD5=([0-9a-f]{32})')] *)
Definition foldermatchre : regex :=
  RSeq (RLit ",FMD5=") (RGroup (exactly 32 is_hexlower)).

(** [re.compile(',U=(\d+)')] *)
Definition uidmatchre : regex := RSeq (RLit ",U=") (RGroup (plus is_digit)).

(** [re.compile(':.*2,([A-Z]+)')] *)
Definition flagmatchre : regex :=
  RSeq (RLit ":") (RSeq (star not_newline) (RSeq (RLit "2,") (RGroup (plus is_upper)))).

(** The info pattern of [savemessageflags]: a group holding a colon and
    a greedy run of any characters but newline, then the end anchor. *)
Definition infore : regex :=
  RSeq (RGroup (RSeq (RLit ":") (star not_newline))) REnd.

(** The pattern [savemessageflags] removes: 2, and a greedy run of
    capital letters (possibly none). *)
Definition oldflagsre : regex := RSeq (RLit "2,") (star is_upper).

(* ===================================================================== *)
(** ** [md5.new(s).hexdigest()] (RFC 1321) on 32-bit words held in [Z] *)
(* ===================================================================== *)

Module MD5.

Definition mask32 : Z := 0xFFFFFFFF.
Definition add32 (x y : Z) : Z := Z.land (x + y) mask32.
Definition not32 (x : Z) : Z := Z.lxor x mask32.
Definition rotl32 (x c : Z) : Z :=
  Z.land (Z.lor (Z.shiftl x c) (Z.shiftr x (32 - c))) mask32.

Definition K : list Z :=
  [ 0xd76aa478; 0xe8c7b756; 0x242070db; 0xc1bdceee; 0xf57c0faf; 0x4787c62a;
    0xa8304613; 0xfd469501; 0x698098d8; 0x8b44f7af; 0xffff5bb1; 0x895cd7be;
    0x6b901122; 0xfd987193; 0xa679438e; 0x49b40821; 0xf61e2562; 0xc040b340;
    0x265e5a51; 0xe9b6c7aa; 0xd62f105d; 0x02441453; 0xd8a1e681; 0xe7d3fbc8;
    0x21e1cde6; 0xc33707d6; 0xf4d50d87; 0x455a14ed; 0xa9e3e905; 0xfcefa3f8;
    0x676f02d9; 0x8d2a4c8a; 0xfffa3942; 0x8771f681; 0x6d9d6122; 0xfde5380c;
    0xa4beea44; 0x4bdecfa9; 0xf6bb4b60; 0xbebfbc70; 0x289b7ec6; 0xeaa127fa;
    0xd4ef3085; 0x04881d05; 0xd9d4d039; 0xe6db99e5; 0x1fa27cf8; 0xc4ac5665;
    0xf4292244; 0x432aff97; 0xab9423a7; 0xfc93a039; 0x655b59c3; 0x8f0ccc92;
    0xffeff47d; 0x85845dd1; 0x6fa87e4f; 0xfe2ce6e0; 0xa3014314; 0x4e0811a1;
    0xf7537e82; 0xbd3af235; 0x2ad7d2bb; 0xeb86d391 ].

Definition shifts : list Z :=
  [ 7; 12; 17; 22; 7; 12; 17; 22; 7; 12; 17; 22; 7; 12; 17; 22;
    5; 9; 14; 20; 5; 9; 14; 20; 5; 9; 14; 20; 5; 9; 14; 20;
    4; 11; 16; 23; 4; 11; 16; 23; 4; 11; 16; 23; 4; 11; 16; 23;
    6; 10; 15; 21; 6; 10; 15; 21; 6; 10; 15; 21; 6; 10; 15; 21 ].

Definition bytes_of_str (s : string) : list Z := map ord (list_of_str s).

(** The [n] low bytes of [x], least significant first. *)
Definition le_bytes (n : nat) (x : Z) : list Z :=
  map (fun i => Z.land (Z.shiftr x (8 * Z.of_nat i)) 255) (seq 0 n).

Definition pad (msg : list Z) : list Z :=
  let len := Z.of_nat (length msg) in
  msg ++ [128] ++ replicate (Z.to_nat ((55 - len) mod 64)) 0
      ++ le_bytes 8 ((8 * len) mod 2 ^ 64).

Fixpoint le_word (bytes : list Z) : Z :=
  match bytes with
  | [] => 0
  | b :: r => b + 256 * le_word r
  end.

Fixpoint words (n : nat) (bytes : list Z) : list Z :=
  match n with
  | O => []
  | S n' => le_word (take 4 bytes) :: words n' (drop 4 bytes)
  end.

Definition state : Type := Z * Z * Z * Z.

Definition round (M : list Z) (st : state) (i : nat) : state :=
  let '(a, b, c, d) := st in
  let iz := Z.of_nat i in
  let '(f, g) :=
    if iz <? 16 then (Z.lor (Z.land b c) (Z.land (not32 b) d), iz)
    else if iz <? 32 then (Z.lor (Z.land d b) (Z.land (not32 d) c), (5 * iz + 1) mod 16)
    else if iz <? 48 then (Z.lxor (Z.lxor b c) d, (3 * iz + 5) mod 16)
    else (Z.lxor c (Z.lor b (not32 d)), (7 * iz) mod 16) in
  let f' := add32 (add32 (add32 f a) (nth i K 0)) (nth (Z.to_nat g) M 0) in
  (d, add32 b (rotl32 f' (nth i shifts 0)), b, c).

Definition block (st : state) (chunk : list Z) : state :=
  let '(a0, b0, c0, d0) := st in
  let '(a, b, c, d) := foldl (round (words 16 chunk)) st (seq 0 64) in
  (add32 a0 a, add32 b0 b, add32 c0 c, add32 d0 d).

Fixpoint blocks (n : nat) (st : state) (bytes : list Z) : state :=
  match n with
  | O => st
  | S n' => blocks n' (block st (take 64 bytes)) (drop 64 bytes)
  end.

Definition digest (s : string) : list Z :=
  let bytes := pad (bytes_of_str s) in
  let '(a, b, c, d) :=
    blocks (length bytes / 64) (0x67452301, 0xefcdab89, 0x98badcfe, 0x10325476) bytes in
  le_bytes 4 a ++ le_bytes 4 b ++ le_bytes 4 c ++ le_bytes 4 d.

Definition hexdigit (n : Z) : ascii :=
  ascii_of_N (Z.to_N (if n <? 10 then 48 + n else 87 + n)).

Definition hexdigest (s : string) : string :=
  str_of_list (flat_map (fun b => [hexdigit (b / 16); hexdigit (b mod 16)]) (digest s)).

End MD5.

Arguments MD5.hexdigest : simpl never.

(* ===================================================================== *)
(** ** [os.path] (posixpath) *)
(* ===================================================================== *)

(** [os.path.join(a, b)] *)
Definition path_join (a b : string) : string :=
  if startswith "/" b then b
  else if String.eqb a "" || endswith_slash a then a +:+ b
  else a +:+ "/" +:+ b.

(** [(p[:i], p[i:])] with [i = p.rfind('/') + 1]. *)
Fixpoint cut_last_slash (p : string) : string * string :=
  match p with
  | EmptyString => (EmptyString, EmptyString)
  | String c r =>
      let '(h, t) := cut_last_slash r in
      if negb (String.eqb h "") then (String c h, t)
      else if is_slash c then ("/", r)
      else ("", String c r)
  end.

Definition trim_head (head : string) : string :=
  if negb (String.eqb head "") && negb (str_forall is_slash head)
  then rstrip_slash head else head.

(** [os.path.split(p)] *)
Definition path_split (p : string) : string * string :=
  let '(head, tail) := cut_last_slash p in (trim_head head, tail).

Definition basename (p : string) : string := snd (cut_last_slash p).
Definition dirname (p : string) : string := trim_head (fst (cut_last_slash p)).

(** The loop of [os.path.normpath] over the components. *)
Fixpoint norm_comps (initial_slashes : bool) (acc comps : list string) : list string :=
  match comps with
  | [] => acc
  | comp :: rest =>
      if String.eqb comp "" || String.eqb comp "." then norm_comps initial_slashes acc rest
      else if negb (String.eqb comp "..")
              || (negb initial_slashes && bool_decide (acc = []))
              || bool_decide (last acc = Some "..")
      then norm_comps initial_slashes (acc ++ [comp]) rest
      else norm_comps initial_slashes (removelast acc) rest
  end.

(** [os.path.normpath(path)] *)
Definition normpath (path : string) : string :=
  if String.eqb path "" then "."
  else
    let initial := startswith "/" path in
    let lead := if startswith "//" path && negb (startswith "///" path) then "//"
                else if initial then "/" else "" in
    let body := lead +:+ join_with "/" (norm_comps initial [] (split_on "/" path)) in
    if String.eqb body "" then "." else body.

(** [os.path.abspath(path)] in the working directory [cwd]. *)
Definition abspath (cwd path : string) : string :=
  normpath (if startswith "/" path then path else path_join cwd path).

Fixpoint common_prefix_len (a b : list string) : nat :=
  match a, b with
  | x :: a', y :: b' => if String.eqb x y then S (common_prefix_len a' b') else O
  | _, _ => O
  end.

Definition nonempty_comps (p : string) : list string :=
  filter (fun x => x ≠ "") (split_on "/" p).

(** [os.path.relpath(path, start)]; [None] is the [ValueError] for an
    empty [path]. *)
Definition relpath (cwd path start : string) : option string :=
  if String.eqb path "" then None
  else
    let start_list := nonempty_comps (abspath cwd start) in
    let path_list := nonempty_comps (abspath cwd path) in
    let i := common_prefix_len start_list path_list in
    let rel_list := replicate (length start_list - i) ".." ++ drop i path_list in
    match rel_list with
    | [] => Some "."
    | first :: more => Some (foldl path_join first more)
    end.

(* ===================================================================== *)
(** ** Exceptions, the world, and the monad *)
(* ===================================================================== *)

(** The exceptions the code meets.  An [OfflineImapError] carries its
    message and its severity, by the name of the constant of
    [OfflineImapError.ERROR] it is raised with. *)
Inductive exn : Type :=
| OSError (errno : Z)
| IOError (msg : string)
| TypeError
| KeyError
| ValueError
| AssertionError (msg : string)
| OfflineImapError (msg : string) (severity : string)
| NotImplementedError
| RuntimeError (msg : string).

Definition ENOENT : Z := 2.
Definition EEXIST : Z := 17.
Definition ENOTDIR : Z := 20.
Definition EISDIR : Z := 21.
Definition EINVAL : Z := 22.
Definition ENOTEMPTY : Z := 39.
Definition EPERM : Z := 1.
Definition EACCES : Z := 13.

(** A resolved path: the components below the root directory. *)
Definition path : Type := list string.

(** A directory entry names a directory or the inode of a regular file
    (hard links share the inode). *)
Inductive node : Type :=
| Dir
| File (ino : nat).

#[export] Instance node_eq_dec : EqDecision node.
Proof. solve_decision. Defined.

(** Every call that leaves the process, in program order. *)
Inductive event : Type :=
| EListdir (p : string)
| EExists (p : string)
| EIsdir (p : string)
| EGetatime (p : string)
| ERead (p : string)
| EWrite (p content : string)
| ELink (src dst : string)
| EUnlink (p : string)
| ERename (src dst : string)
| EMkdir (p : string)
| ESleep (secs : Z)
| ERemoteGetfolder (name : string)
| ERemoteGetfolders
| ERemoteCopy (src : string) (uid : Z) (dst : string)
| ERemoteSetExpunge (folder : string) (on : bool)
| ERemoteDelete (folder : string) (uid : Z)
| ERemoteDoexpunge (folder : string)
| ERemoteForget
| EStatusGetfolders
| EStatusCache (folder : string)
| EStatusSave (folder : string)
| EStatusForget
| ELocalMoveFile (folder filename : string) (newuid : Z) (flags : list ascii).

Record World : Type := mkWorld {
  fs : list (path * node);       (* directory entries, in directory order *)
  inodes : list string;          (* contents of the regular files, by inode *)
  cwd : string;                  (* os.getcwd() *)
  now : Z;                       (* time.time(), whole seconds *)
  lasttime : Z;                  (* module global of folder/Maildir.py *)
  timeseq : Z;                   (* module global of folder/Maildir.py *)
  pid : Z;                       (* os.getpid() *)
  hostname : string;             (* socket.gethostname() *)
  stat_atime : path -> Z;        (* st_atime of each path *)
  readonly : list path;          (* directories the process may not modify *)
  trace : list event
}.

Inductive result (A : Type) : Type :=
| Ok (a : A)
| Raise (e : exn).
Arguments Ok {A} a.
Arguments Raise {A} e.

(** A computation over a state [S]: its outcome and the state it leaves. *)
Definition M (S A : Type) : Type := S -> result A * S.

Definition ret {S A : Type} (a : A) : M S A := fun s => (Ok a, s).
Definition raise {S A : Type} (e : exn) : M S A := fun s => (Raise e, s).
Definition bind {S A B : Type} (c : M S A) (k : A -> M S B) : M S B :=
  fun s => match c s with
           | (Ok a, s') => k a s'
           | (Raise e, s') => (Raise e, s')
           end.
Definition get {S : Type} : M S S := fun s => (Ok s, s).
Definition modify {S : Type} (f : S -> S) : M S unit := fun s => (Ok tt, f s).

(** [try: c except <handles>: handler] *)
Definition try_except {S A : Type} (c : M S A) (handles : exn -> bool)
    (handler : exn -> M S A) : M S A :=
  fun s => match c s with
           | (Raise e, s') => if handles e then handler e s' else (Raise e, s')
           | ok => ok
           end.

(** [c] in the body of a loop over a generator suspended inside
    [try: yield ... finally: cleanup]: when [c] raises, the generator is
    closed, [cleanup] runs, what it raises is dropped, and the exception
    of [c] goes on. *)
Definition on_close {S A : Type} (c : M S A) (cleanup : M S unit) : M S A :=
  fun s => match c s with
           | (Raise e, s') => (Raise e, snd (cleanup s'))
           | ok => ok
           end.

Definition is_OSError (e : exn) : bool :=
  match e with OSError _ => true | _ => false end.
(** [e.errno == n] for an [OSError] *)
Definition has_errno (n : Z) (e : exn) : bool :=
  match e with OSError errno => errno =? n | _ => false end.
Definition is_NotImplementedError (e : exn) : bool :=
  match e with NotImplementedError => true | _ => false end.

Notation "'let*' x ':=' c 'in' k" := (bind c (fun x => k))
  (at level 10, x name, c at level 100, k at level 200).
Notation "'let*' ' p ':=' c 'in' k" := (bind c (fun x => match x with p => k end))
  (at level 10, p strict pattern, c at level 100, k at level 200).
Notation "c ';;' k" := (bind c (fun _ => k))
  (at level 100, k at level 200, right associativity).

(** States that contain the world. *)
Class HasWorld (S : Type) : Type := {
  the_world : S -> World;
  with_world : World -> S -> S
}.

#[export] Instance World_HasWorld : HasWorld World :=
  {| the_world := fun w => w; with_world := fun w _ => w |}.

(** Run a computation on the world inside a larger state. *)
Definition os {S A : Type} `{HasWorld S} (c : M World A) : M S A :=
  fun s => let '(r, w) := c (the_world s) in (r, with_world w s).

(* ===================================================================== *)
(** ** The file system calls *)
(* ===================================================================== *)

Definition logged (e : event) (w : World) : World :=
  mkWorld (fs w) (inodes w) (cwd w) (now w) (lasttime w) (timeseq w)
          (pid w) (hostname w) (stat_atime w) (readonly w) (trace w ++ [e]).

Definition with_fs (f : list (path * node)) (w : World) : World :=
  mkWorld f (inodes w) (cwd w) (now w) (lasttime w) (timeseq w)
          (pid w) (hostname w) (stat_atime w) (readonly w) (trace w).

Definition with_inodes (i : list string) (w : World) : World :=
  mkWorld (fs w) i (cwd w) (now w) (lasttime w) (timeseq w)
          (pid w) (hostname w) (stat_atime w) (readonly w) (trace w).

Definition with_clock (t : Z) (w : World) : World :=
  mkWorld (fs w) (inodes w) (cwd w) t (lasttime w) (timeseq w)
          (pid w) (hostname w) (stat_atime w) (readonly w) (trace w).

Definition with_timeseq (lt ts : Z) (w : World) : World :=
  mkWorld (fs w) (inodes w) (cwd w) (now w) lt ts
          (pid w) (hostname w) (stat_atime w) (readonly w) (trace w).

Definition log (e : event) : M World unit := modify (logged e).
Definition set_fs (f : list (path * node)) : M World unit := modify (with_fs f).
Definition set_inodes (i : list string) : M World unit := modify (with_inodes i).
Definition set_clock (t : Z) : M World unit := modify (with_clock t).
Definition set_timeseq (lt ts : Z) : M World unit := modify (with_timeseq lt ts).

(** Path resolution as the kernel does it, without symbolic links:
    relative paths start at the working directory, empty and [.]
    components are skipped, [..] steps up and stays at the root. *)
Definition resolve (w : World) (p : string) : path :=
  norm_comps true [] (split_on "/" (if startswith "/" p then p else cwd w +:+ "/" +:+ p)).

Definition path_eqb (a b : path) : bool := bool_decide (a = b).

Fixpoint lookup_path (f : list (path * node)) (p : path) : option node :=
  match f with
  | [] => None
  | (q, n) :: rest => if path_eqb q p then Some n else lookup_path rest p
  end.

(** The root directory always exists. *)
Definition stat (w : World) (p : path) : option node :=
  match p with
  | [] => Some Dir
  | _ => lookup_path (fs w) p
  end.

Definition parent (p : path) : path := removelast p.

(** The process may create and remove entries in directory [d]. *)
Definition may_modify (w : World) (d : path) : bool :=
  negb (bool_decide (d ∈ readonly w)).

Definition remove_path (p : path) (f : list (path * node)) : list (path * node) :=
  filter (fun e => e.1 ≠ p) f.

(** [strip_prefix d p]: the components of [p] below [d]. *)
Fixpoint strip_prefix (d p : path) : option path :=
  match d, p with
  | [], _ => Some p
  | x :: d', y :: p' => if String.eqb x y then strip_prefix d' p' else None
  | _ :: _, [] => None
  end.

(** The names in directory [d], in directory order. *)
Definition children (f : list (path * node)) (d : path) : list string :=
  omap (fun e => match strip_prefix d e.1 with
                 | Some [name] => Some name
                 | _ => None
                 end) f.

Definition missing (w : World) (p : path) : Z :=
  match stat w (parent p) with
  | Some (File _) => ENOTDIR
  | _ => ENOENT
  end.

(** [os.listdir(p)] *)
Definition os_listdir (p : string) : M World (list string) :=
  log (EListdir p) ;;
  let* w := get in
  match String.eqb p "", stat w (resolve w p) with
  | false, Some Dir => ret (children (fs w) (resolve w p))
  | false, Some (File _) => raise (OSError ENOTDIR)
  | _, _ => raise (OSError (missing w (resolve w p)))
  end.

(** [os.path.exists(p)] *)
Definition os_path_exists (p : string) : M World bool :=
  log (EExists p) ;;
  let* w := get in
  ret (negb (String.eqb p "") && bool_decide (is_Some (stat w (resolve w p)))).

(** [os.path.isdir(p)] *)
Definition os_path_isdir (p : string) : M World bool :=
  log (EIsdir p) ;;
  let* w := get in
  ret (negb (String.eqb p "") && bool_decide (stat w (resolve w p) = Some Dir)).

(** [os.path.getatime(p)] *)
Definition os_path_getatime (p : string) : M World Z :=
  log (EGetatime p) ;;
  let* w := get in
  match String.eqb p "", stat w (resolve w p) with
  | false, Some _ => ret (stat_atime w (resolve w p))
  | _, _ => raise (OSError (missing w (resolve w p)))
  end.

(** [os.unlink(p)] *)
Definition os_unlink (p : string) : M World unit :=
  log (EUnlink p) ;;
  let* w := get in
  match String.eqb p "", stat w (resolve w p) with
  | false, Some n =>
      if may_modify w (parent (resolve w p))
      then match n with
           | File _ => set_fs (remove_path (resolve w p) (fs w))
           | Dir => raise (OSError EISDIR)
           end
      else raise (OSError EACCES)
  | _, _ => raise (OSError (missing w (resolve w p)))
  end.

(** [os.mkdir(p, 0o700)] *)
Definition os_mkdir (p : string) : M World unit :=
  log (EMkdir p) ;;
  let* w := get in
  match String.eqb p "", stat w (resolve w p), stat w (parent (resolve w p)) with
  | false, Some _, _ => raise (OSError EEXIST)
  | false, None, Some Dir =>
      if may_modify w (parent (resolve w p))
      then set_fs (fs w ++ [(resolve w p, Dir)])
      else raise (OSError EACCES)
  | _, _, _ => raise (OSError (missing w (resolve w p)))
  end.

(** [os.link(src, dst)] *)
Definition os_link (src dst : string) : M World unit :=
  log (ELink src dst) ;;
  let* w := get in
  match String.eqb src "" || String.eqb dst "", stat w (resolve w src) with
  | false, Some (File i) =>
      match stat w (resolve w dst), stat w (parent (resolve w dst)) with
      | Some _, _ => raise (OSError EEXIST)
      | None, Some Dir =>
          if may_modify w (parent (resolve w dst))
          then set_fs (fs w ++ [(resolve w dst, File i)])
          else raise (OSError EACCES)
      | None, _ => raise (OSError (missing w (resolve w dst)))
      end
  | false, Some Dir => raise (OSError EPERM)
  | _, _ => raise (OSError ENOENT)
  end.

(** Renaming the directory [a] to [b]: the subtree moves. *)
Definition move_subtree (a b : path) (f : list (path * node)) : list (path * node) :=
  map (fun e => match strip_prefix a e.1 with
                | Some below => (b ++ below, e.2)
                | None => e
                end) f.

(** [os.rename(src, dst)] *)
Definition os_rename (src dst : string) : M World unit :=
  log (ERename src dst) ;;
  let* w := get in
  let a := resolve w src in
  let b := resolve w dst in
  let allowed := may_modify w (parent a) && may_modify w (parent b) in
  match String.eqb src "" || String.eqb dst "", stat w a, stat w (parent b) with
  | false, Some (File i), Some Dir =>
      if negb allowed then raise (OSError EACCES)
      else match stat w b with
           | Some Dir => raise (OSError EISDIR)
           | Some (File j) =>
               if bool_decide (i = j) then ret tt     (* two names of one file *)
               else set_fs (remove_path a (remove_path b (fs w)) ++ [(b, File i)])
           | None => set_fs (remove_path a (fs w) ++ [(b, File i)])
           end
  | false, Some Dir, Some Dir =>
      if path_eqb a b then ret tt
      else if bool_decide (is_Some (strip_prefix a b)) || path_eqb a []
      then raise (OSError EINVAL)
      else if negb allowed then raise (OSError EACCES)
      else match stat w b with
           | Some (File _) => raise (OSError ENOTDIR)
           | Some Dir =>
               match children (fs w) b with
               | [] => set_fs (move_subtree a b (remove_path b (fs w)))
               | _ :: _ => raise (OSError ENOTEMPTY)
               end
           | None => set_fs (move_subtree a b (fs w))
           end
  | false, Some _, _ => raise (OSError (missing w b))
  | _, _, _ => raise (OSError ENOENT)
  end.

(** [open(p).read()] of a whole file. *)
Definition file_read (p : string) : M World string :=
  log (ERead p) ;;
  let* w := get in
  match String.eqb p "", stat w (resolve w p) with
  | false, Some (File i) => ret (default "" (inodes w !! i))
  | false, Some Dir => raise (IOError "Is a directory")
  | _, _ => raise (IOError "No such file or directory")
  end.

(** [f = open(p, 'wt'); f.write(content); f.close()]: an existing file is
    truncated in place, so every hard link sees the new content. *)
Definition file_write (p content : string) : M World unit :=
  log (EWrite p content) ;;
  let* w := get in
  match String.eqb p "", stat w (resolve w p), stat w (parent (resolve w p)) with
  | false, Some (File i), _ => set_inodes (<[i := content]> (inodes w))
  | false, Some Dir, _ => raise (IOError "Is a directory")
  | false, None, Some Dir =>
      if may_modify w (parent (resolve w p))
      then set_inodes (inodes w ++ [content]) ;;
           set_fs (fs w ++ [(resolve w p, File (length (inodes w)))])
      else raise (IOError "Permission denied")
  | _, _, _ => raise (IOError "No such file or directory")
  end.

(** [time.sleep(secs)]: the clock moves on. *)
Definition time_sleep (secs : Z) : M World unit :=
  log (ESleep secs) ;;
  let* w := get in
  set_clock (now w + secs).

(** [for x in xs: body(x)] *)
Fixpoint for_each {S A : Type} (xs : list A) (body : A -> M S unit) : M S unit :=
  match xs with
  | [] => ret tt
  | x :: rest => body x ;; for_each rest body
  end.

(** [[f(x) for x in xs]] with an effectful [f]. *)
Fixpoint map_m {S A B : Type} (f : A -> M S B) (xs : list A) : M S (list B) :=
  match xs with
  | [] => ret []
  | x :: rest => let* y := f x in let* ys := map_m f rest in ret (y :: ys)
  end.

(** The order of [list.sort()] on one-character strings. *)
Definition char_le (a b : ascii) : Prop := ord a <= ord b.

#[export] Instance char_le_dec : RelDecision char_le.
Proof. intros a b. unfold char_le. apply _. Defined.

(** [flags.sort()] *)
Definition sort_flags (flags : list ascii) : list ascii := merge_sort char_le flags.

(** An argument of a constructor call: a string or the repository
    object. *)
Inductive arg : Type :=
| AStr (s : string)
| ARepository.

Definition arg_str (a : arg) : string :=
  match a with
  | AStr s => s
  | ARepository => "<MaildirRepository>"
  end.

(* ===================================================================== *)
(** ** offlineimap/folder/Maildir.py *)
(* ===================================================================== *)

Module MaildirFolder.

(** A value of the message cache: [{'uid': .., 'flags': .., 'filename': ..}] *)
Record msg : Type := mkMsg {
  uid : Z;
  flags : list ascii;
  filename : string
}.

(** The attributes [__init__] sets ([repository] is a back reference the
    methods below never follow).  [BaseFolder] is not among the sources:
    its accessors [getname] and [getroot] return the attributes of the
    same name, and the result of its [getvisiblename], whose MD5 is the
    folder's fingerprint, is carried as [visiblename]. *)
Record t : Type := mkFolder {
  name : string;
  root : string;
  sep : string;
  messagelist : option (gmap Z msg);
  accountname : string;
  visiblename : string
}.

(** [__init__(self, root, name, sep, repository, accountname)]: five
    arguments after [self]; a call with any other number of arguments is
    a [TypeError].  [BaseFolder.__init__] is not among the sources and
    is taken to leave the visible name equal to the name. *)
Definition __init__ (args : list arg) : result t :=
  match args with
  | [root; name; sep; repository; accountname] =>
      Ok (mkFolder (arg_str name) (arg_str root) (arg_str sep) None
            (arg_str accountname) (arg_str name))
  | _ => Raise TypeError
  end.

(** The state a method runs in: the folder object and the world. *)
Record St : Type := mkSt {
  self : t;
  world : World
}.

#[export] Instance St_HasWorld : HasWorld St :=
  {| the_world := world; with_world := fun w s => mkSt (self s) w |}.

Definition with_messagelist (m : option (gmap Z msg)) (s : St) : St :=
  mkSt (mkFolder (name (self s)) (root (self s)) (sep (self s)) m
                 (accountname (self s)) (visiblename (self s)))
       (world s).

Definition set_messagelist (m : option (gmap Z msg)) : M St unit :=
  modify (with_messagelist m).

(** [gettimeseq()]; the lock only serialises callers. *)
Definition gettimeseq : M World (Z * Z) :=
  let* w := get in
  let thistime := now w in
  if thistime =? lasttime w
  then set_timeseq (lasttime w) (timeseq w + 1) ;; ret (thistime, timeseq w + 1)
  else set_timeseq thistime 0 ;; ret (thistime, 0).

Definition getaccountname : M St string := let* s := get in ret (accountname (self s)).
Definition getname : M St string := let* s := get in ret (name (self s)).
Definition getroot : M St string := let* s := get in ret (root (self s)).
Definition getvisiblename : M St string := let* s := get in ret (visiblename (self s)).

Definition getfullname : M St string :=
  let* r := getroot in
  let* n := getname in
  ret (path_join r n).

Definition getuidvalidity : M St Z := ret 42.

(** The body of the loop [for file in files] of [_scanfolder]: the state
    of the loop is [retval] and [nouidcounter]. *)
Definition scan_file (visible : string) (st : gmap Z msg * Z) (file : string)
    : gmap Z msg * Z :=
  let '(retval, nouidcounter) := st in
  let messagename := basename file in
  let foldermatch := re_search foldermatchre messagename in
  let '(uid, nouidcounter) :=
    match foldermatch with
    | None => (nouidcounter, nouidcounter - 1)
    | Some fmd5 =>
        if negb (String.eqb (MD5.hexdigest visible) fmd5)
        then (nouidcounter, nouidcounter - 1)
        else match re_search uidmatchre messagename with
             | None => (nouidcounter, nouidcounter - 1)
             | Some digits => (digits_value 0 digits, nouidcounter)
             end
    end in
  let flags :=
    match re_search flagmatchre messagename with
    | Some letters => list_of_str letters
    | None => []
    end in
  (<[uid := mkMsg uid (sort_flags flags) file]> retval, nouidcounter).

Definition scan_files (visible : string) (files : list string) : gmap Z msg :=
  (foldl (scan_file visible) (∅, -1) files).1.

Definition _scanfolder : M St (gmap Z msg) :=
  let* listed :=
    map_m (fun dirannex =>
             let* fullname := getfullname in
             let fulldirname := path_join fullname dirannex in
             let* names := os (os_listdir fulldirname) in
             ret (map (fun filename => path_join fulldirname filename) names))
          ["new"; "cur"] in
  let files := concat listed in
  let* visible := getvisiblename in
  ret (scan_files visible files).

Definition cachemessagelist : M St unit :=
  let* m := _scanfolder in
  set_messagelist (Some m).

Definition getmessagelist : M St (option (gmap Z msg)) :=
  let* s := get in ret (messagelist (self s)).

(** [self.messagelist[uid]]: subscripting [None] is a [TypeError], a
    missing key a [KeyError]. *)
Definition messagelist_item (uid : Z) : M St msg :=
  let* s := get in
  match messagelist (self s) with
  | None => raise TypeError
  | Some m => match m !! uid with
              | Some r => ret r
              | None => raise KeyError
              end
  end.

(** [uid in self.messagelist] *)
Definition messagelist_contains (uid : Z) : M St bool :=
  let* s := get in
  match messagelist (self s) with
  | None => raise TypeError
  | Some m => ret (bool_decide (is_Some (m !! uid)))
  end.

Definition getmessage (uid : Z) : M St string :=
  let* r := messagelist_item uid in
  let* retval := os (file_read (filename r)) in
  ret (str_replace (String "013" (String "010" "")) (String "010" "") retval).

Definition getmessageflags (uid : Z) : M St (list ascii) :=
  let* r := messagelist_item uid in
  ret (flags r).

Definition savemessageflags (uid : Z) (flags : list ascii) : M St unit :=
  let* r := messagelist_item uid in
  let oldfilename := filename r in
  let '(_, newname) := path_split oldfilename in
  let* fullname := getfullname in
  let newpath := if bool_decide ("S"%char ∈ flags)
                 then path_join fullname "cur"
                 else path_join fullname "new" in
  let '(infostr, newname) :=
    match re_search infore newname with
    | Some info => (info, default "" (head (split_on ":" newname)))
    | None => (":", newname)
    end in
  let infostr := re_sub oldflagsre infostr in
  let flags := sort_flags flags in
  let infostr := infostr +:+ "2," +:+ str_of_list flags in
  let newname := newname +:+ infostr in
  let newfilename := path_join newpath newname in
  if negb (String.eqb newfilename oldfilename)
  then
    os (os_rename oldfilename newfilename) ;;
    let* r := messagelist_item uid in
    let* s := get in
    set_messagelist (insert uid (mkMsg (MaildirFolder.uid r) flags newfilename)
                       <$> messagelist (self s))
  else ret tt.

(** The [while 1] loop of [savemessage]; [remaining] is [16 - attempts],
    so the loop raises once [attempts > 15], and [tried] is the name of
    the attempt before, which the error message quotes. *)
Fixpoint choose_name (remaining : nat) (tried : string) (uid : Z) (tmpdir : string)
    : M St string :=
  match remaining with
  | O => raise (IOError ("Couldn't write to file " +:+ tried))
  | S remaining' =>
      let* '(timeval, timeseq) := os gettimeseq in
      let* s := get in
      let messagename :=
        str_of_Z timeval +:+ "_" +:+ str_of_Z timeseq +:+ "."
        +:+ str_of_Z (pid (world s)) +:+ "." +:+ hostname (world s)
        +:+ ",U=" +:+ str_of_Z uid
        +:+ ",FMD5=" +:+ MD5.hexdigest (visiblename (self s)) in
      let* taken := os (os_path_exists (path_join tmpdir messagename)) in
      if taken : bool
      then os (time_sleep 2) ;; choose_name remaining' messagename uid tmpdir
      else ret messagename
  end.

Definition savemessage (uid : Z) (content : string) (flags : list ascii) : M St Z :=
  if uid <? 0 then ret uid
  else
    let* known := messagelist_contains uid in
    if known : bool then savemessageflags uid flags ;; ret uid
    else
      let* fullname := getfullname in
      let newdir := if bool_decide ("S"%char ∈ flags)
                    then path_join fullname "cur"
                    else path_join fullname "new" in
      let tmpdir := path_join fullname "tmp" in
      let* messagename := choose_name 16 "None" uid tmpdir in
      let tmpmessagename := default "" (head (split_on "," messagename)) in
      os (file_write (path_join tmpdir tmpmessagename) content) ;;
      os (os_link (path_join tmpdir tmpmessagename) (path_join newdir messagename)) ;;
      os (os_unlink (path_join tmpdir tmpmessagename)) ;;
      let* s := get in
      match messagelist (self s) with
      | None => raise TypeError
      | Some m =>
          set_messagelist (Some (<[uid := mkMsg uid [] (path_join newdir messagename)]> m))
      end ;;
      savemessageflags uid flags ;;
      ret uid.

Definition deletemessage (uid : Z) : M St unit :=
  let* known := messagelist_contains uid in
  if negb known then ret tt
  else
    let* r := messagelist_item uid in
    try_except (os (os_unlink (filename r))) is_OSError
      (fun _ =>
         let* newmsglist := _scanfolder in
         match newmsglist !! uid with
         | Some r' => os (os_unlink (filename r'))
         | None => ret tt
         end) ;;
    let* s := get in
    set_messagelist (delete uid <$> messagelist (self s)).

End MaildirFolder.

(* ===================================================================== *)
(** ** offlineimap/repository/Maildir.py *)
(* ===================================================================== *)

(** [os.makedirs(name, 0o700)].  Each recursive call is on a strictly
    shorter [head], so [String.length name] levels are enough; the last
    level is the plain [mkdir]. *)
Fixpoint makedirs_rec (depth : nat) (name : string) : M World unit :=
  let '(head, tail) := path_split name in
  let '(head, tail) := if String.eqb tail "" then path_split head else (head, tail) in
  match depth with
  | S depth' =>
      let* missing_head :=
        (if negb (String.eqb head "") && negb (String.eqb tail "")
         then let* there := os_path_exists head in ret (negb there)
         else ret false) in
      if missing_head : bool
      then
        try_except (makedirs_rec depth' head) is_OSError
          (fun e => if has_errno EEXIST e then ret tt else raise e) ;;
        if String.eqb tail "." then ret tt else os_mkdir name
      else os_mkdir name
  | O => os_mkdir name
  end.

Definition os_makedirs (name : string) : M World unit :=
  makedirs_rec (String.length name) name.

Module MaildirRepository.

(** The remote repository, an external collaborator: what each call
    answers, given the calls made so far. *)
Record Remote : Type := mkRemote {
  remote_getsep : string;
  remote_getfolder : list event -> string -> result unit;
  remote_getfolders : list event -> result (list string);
  remotecopymessage : list event -> string -> Z -> string -> result Z;
  remote_deletemessage : list event -> string -> Z -> result unit;
  remote_doexpunge : list event -> string -> result unit
}.

(** A value of a status folder's [messagelist]: [{'uid': .., 'flags': ..}] *)
Record smsg : Type := mkSmsg {
  s_uid : Z;
  s_flags : list ascii
}.

(** The status repository, an external collaborator: its folders and
    what [cachemessagelist] loads for each.  Loading and saving a status
    folder enter the trace and are taken not to fail.  [syncmoves] keeps
    the status folder objects in a [set] and in a [dict], and iterates
    over both; the order of such an iteration is the interpreter's, by
    the hashes of the objects and keys and the history of the container.
    It is not modelled: [status_order] is the order in which the folders
    with the names in [X] come, given the calls made so far, and all
    that is known of it is that it enumerates [X]. *)
Record Status : Type := mkStatus {
  status_getsep : string;
  status_getfolders : list string;
  status_load : string -> gmap Z smsg;
  status_order : list event -> gset string -> list string;
  status_order_enumerates : forall tr X, status_order tr X ≡ₚ elements X
}.

(** The attributes of the repository object, with the configuration it
    reads: [conf_sep] is the option [sep] when set, [conf_restoreatime]
    the option [restoreatime], [dryrun] is [self.account.dryrun], and
    [root] is [getlocalroot()], the expanded option [localfolders]. *)
Record t : Type := mkRepo {
  root : string;
  folders : option (list MaildirFolder.t);
  folder_atimes : list (string * Z * Z);
  deletecounter : Z;
  conf_sep : option string;
  conf_restoreatime : bool;
  dryrun : bool
}.

(** The state a method runs in: the repository object, the world, and
    the two locals of [syncmoves] that live across its loop: [cache],
    the status folders by name with their message lists, and
    [dirty_status]. *)
Record St : Type := mkSt {
  self : t;
  world : World;
  cache : gmap string (gmap Z smsg);
  dirty_status : gset string
}.

#[export] Instance St_HasWorld : HasWorld St :=
  {| the_world := world;
     with_world := fun w s => mkSt (self s) w (cache s) (dirty_status s) |}.

Definition set_self (r : t) : M St unit :=
  modify (fun s => mkSt r (world s) (cache s) (dirty_status s)).

Definition set_folders (f : option (list MaildirFolder.t)) : M St unit :=
  let* s := get in
  set_self (mkRepo (root (self s)) f (folder_atimes (self s)) (deletecounter (self s))
              (conf_sep (self s)) (conf_restoreatime (self s)) (dryrun (self s))).

Definition set_folder_atimes (a : list (string * Z * Z)) : M St unit :=
  let* s := get in
  set_self (mkRepo (root (self s)) (folders (self s)) a (deletecounter (self s))
              (conf_sep (self s)) (conf_restoreatime (self s)) (dryrun (self s))).

Definition set_deletecounter (n : Z) : M St unit :=
  let* s := get in
  set_self (mkRepo (root (self s)) (folders (self s)) (folder_atimes (self s)) n
              (conf_sep (self s)) (conf_restoreatime (self s)) (dryrun (self s))).

Definition set_cache (c : gmap string (gmap Z smsg)) : M St unit :=
  modify (fun s => mkSt (self s) (world s) c (dirty_status s)).

Definition set_dirty_status (d : gset string) : M St unit :=
  modify (fun s => mkSt (self s) (world s) (cache s) d).

(** [__init__]: the object with its first attributes, then the creation
    of the top-level directory when it is missing. *)
Definition __init__ (localroot : string) (sep : option string)
    (restoreatime dry : bool) : M World t :=
  let* is_dir := os_path_isdir localroot in
  (if is_dir : bool then ret tt else os_mkdir localroot) ;;
  ret (mkRepo localroot None [] 0 sep restoreatime dry).

(** [_append_folder_atimes] *)
Definition _append_folder_atimes (foldername : string) : M St unit :=
  let* s := get in
  let p := path_join (root (self s)) foldername in
  let* new_atime := os (os_path_getatime (path_join p "new")) in
  let* cur_atime := os (os_path_getatime (path_join p "cur")) in
  let* s := get in
  set_folder_atimes (folder_atimes (self s) ++ [(p, new_atime, cur_atime)]).

(** [getsep]: [self.getconf('sep', '.').strip()] *)
Definition getsep : M St string :=
  let* s := get in ret (strip (default "." (conf_sep (self s)))).

Definition reserved : list string := ["new"; "cur"; "tmp"].

(** [assert cond, msg], the interpreter running without [-O]. *)
Definition assert {S : Type} (cond : bool) (msg : string) : M S unit :=
  if cond then ret tt else raise (AssertionError msg).

(** [except OSError as e: if e.errno == 17 and os.path.isdir(full_path):
    pass else: raise] *)
Definition tolerate_existing (full_path : string) (e : exn) : M St unit :=
  if has_errno EEXIST e
  then let* is_dir := os (os_path_isdir full_path) in
       if is_dir : bool then ret tt else raise e
  else raise e.

Definition makefolder (foldername : string) : M St unit :=
  let* s := get in
  if dryrun (self s) then ret tt
  else
    let full_path := abspath (cwd (world s)) (path_join (root (self s)) foldername) in
    let* sep := getsep in
    (if String.eqb sep "/"
     then for_each (split_on "/" foldername) (fun component =>
            assert (negb (bool_decide (component ∈ reserved)))
              "When using nested folders (/ as a Maildir separator), folder names may not contain 'new', 'cur', 'tmp'.")
     else ret tt) ;;
    assert (negb (contains "../" foldername)) "Folder names may not contain ../" ;;
    assert (negb (startswith "/" foldername)) "Folder names may not begin with /" ;;
    try_except (os (os_makedirs full_path)) is_OSError (tolerate_existing full_path) ;;
    for_each ["cur"; "new"; "tmp"] (fun subdir =>
      try_except (os (os_mkdir (path_join full_path subdir))) is_OSError
        (tolerate_existing full_path)).

(** [deletefolder] only warns. *)
Definition deletefolder (foldername : string) : M St unit := ret tt.

(** The repository module calls [folder.Maildir.MaildirFolder] with four
    arguments and uses two methods, [_parse_filename] and [_move_file],
    that folder/Maildir.py does not define.  What the module uses of the
    class is therefore taken as parameters: [construct] is the
    constructor call, [_parse_filename] returns
    [(prefix, uid, fmd5, flags)] with an absent uid as [None], and
    [_move_file] answers with the file system it leaves, or raises. *)
Section WithFolderClass.
Variable construct : list arg -> result MaildirFolder.t.

(** [_getfolders_scandir(root, extension)].  The recursion follows the
    directory tree; [depth] is what is left of the interpreter's
    recursion limit, whose exhaustion is a [RuntimeError]. *)
Fixpoint _getfolders_scandir (depth : nat) (root : string) (extension : option string)
    : M St (list MaildirFolder.t) :=
  match depth with
  | O => raise (RuntimeError "maximum recursion depth exceeded")
  | S depth' =>
      let toppath :=
        match extension with
        | Some ext => if String.eqb ext "" then root else path_join root ext
        | None => root
        end in
      let* names := os (os_listdir toppath) in
      let* found :=
        map_m (fun dirname =>
          if String.eqb dirname "" && bool_decide (is_Some extension) then ret []
          else if bool_decide (dirname ∈ ["cur"; "new"; "tmp"]) then ret []
          else
            let fullname := path_join toppath dirname in
            let* is_dir := os (os_path_isdir fullname) in
            if negb is_dir then ret []
            else
              let foldername :=
                match extension with
                | Some ext => if String.eqb ext "" then dirname else path_join ext dirname
                | None => dirname
                end in
              let* has_cur := os (os_path_isdir (path_join fullname "cur")) in
              let* has_new := if has_cur : bool
                              then os (os_path_isdir (path_join fullname "new"))
                              else ret false in
              let* has_tmp := if has_new : bool
                              then os (os_path_isdir (path_join fullname "tmp"))
                              else ret false in
              let* here :=
                (if has_tmp : bool
                 then
                   let* s := get in
                   (if conf_restoreatime (self s)
                    then _append_folder_atimes foldername else ret tt) ;;
                   let* s := get in
                   let* sep := getsep in
                   match construct [AStr (MaildirRepository.root (self s));
                                        AStr foldername; AStr sep; ARepository] with
                   | Ok f => ret [f]
                   | Raise e => raise e
                   end
                 else ret []) in
              let* sep := getsep in
              let* below :=
                (if String.eqb sep "/" && negb (String.eqb dirname "")
                 then _getfolders_scandir depth' root (Some foldername)
                 else ret []) in
              ret (here ++ below))
          (names ++ [""]) in
      ret (concat found)
  end.

Definition recursion_limit : nat := 1000.

Definition getfolders : M St (list MaildirFolder.t) :=
  let* s := get in
  match folders (self s) with
  | Some fs => ret fs
  | None =>
      let* fs := _getfolders_scandir recursion_limit (root (self s)) None in
      set_folders (Some fs) ;;
      ret fs
  end.

Definition forgetfolders : M St unit := set_folders None.

Definition getfolder (foldername : string) : M St MaildirFolder.t :=
  let* folders := getfolders in
  match List.find (fun f => String.eqb foldername (MaildirFolder.name f)) folders with
  | Some f => ret f
  | None =>
      raise (OfflineImapError
               ("getfolder() asked for a nonexisting folder '" +:+ foldername +:+ "'.")
               "FOLDER")
  end.

End WithFolderClass.

(** What [_getmoves] yields for one marker. *)
Record move : Type := mkMove {
  fn : string;
  oldfolder : string;
  newfolder : string;
  old_filename : string;
  filename : string;
  fullname : string
}.

(** [uid < 0] for a parsed uid; in Python 2 [None] orders below every
    number. *)
Definition uid_negative (uid : option Z) : bool :=
  match uid with
  | Some n => n <? 0
  | None => true
  end.

(** [XXX make config option]: the interval is a constant of [syncmoves]. *)
Definition save_interval : Z := 100.

Section MoveEngine.
Variable construct : list arg -> result MaildirFolder.t.
Variable _parse_filename :
  MaildirFolder.t -> string -> option string * option Z * option string * list ascii.
Variable _move_file :
  MaildirFolder.t -> string -> Z -> list ascii -> World -> result (list (path * node)).
Variable remote : Remote.
Variable status : Status.

(** A call to a collaborator: it enters the trace, then answers. *)
Definition call {A : Type} (e : event) (answer : list event -> result A) : M St A :=
  let* s := get in
  os (log e) ;;
  match answer (trace (world s)) with
  | Ok a => ret a
  | Raise x => raise x
  end.

(** [os.listdir(os.path.join(folder.getfullname(), "mv"))] under the
    [try] of [_getmoves]: an [OSError] moves on to the next folder.  The
    listing is the only call of the generator that can raise one ([open]
    raises [IOError], [relpath] a [ValueError]), and exceptions of the
    consumer do not pass through the generator. *)
Definition list_markers (folder : MaildirFolder.t) : M St (list string) :=
  let folder_fullname := path_join (MaildirFolder.root folder) (MaildirFolder.name folder) in
  try_except (os (os_listdir (path_join folder_fullname "mv"))) is_OSError
    (fun _ => ret []).

(** The tuple [_getmoves] yields for [entry] of [folder]. *)
Definition read_move (folder : MaildirFolder.t) (entry : string) : M St move :=
  let folder_fullname := path_join (MaildirFolder.root folder) (MaildirFolder.name folder) in
  let fn := path_join (path_join folder_fullname "mv") entry in
  let* content := os (file_read fn) in
  let newdest := strip content in
  let* s := get in
  match relpath (cwd (world s)) newdest (root (self s)) with
  | None => raise ValueError
  | Some rel =>
      ret (mkMove fn (MaildirFolder.name folder) (dirname (dirname rel)) entry
             (path_join (basename (dirname newdest)) (basename newdest)) newdest)
  end.

(** [next(self._getmoves(), False)]: the generator runs up to its first
    [yield]. *)
Fixpoint first_move (folders : list MaildirFolder.t) : M St bool :=
  match folders with
  | [] => ret false
  | folder :: rest =>
      let* entries := list_markers folder in
      match entries with
      | [] => first_move rest
      | entry :: _ => read_move folder entry ;; ret true
      end
  end.

(** [cache[name]] *)
Definition cache_item (name : string) : M St (gmap Z smsg) :=
  let* s := get in
  match cache s !! name with
  | Some m => ret m
  | None => raise KeyError
  end.

(** [for status in dirty_status: status.save()] then
    [dirty_status.clear()] *)
Definition checkpoint : M St unit :=
  let* s := get in
  for_each (status_order status (trace (world s)) (dirty_status s))
    (fun name => os (log (EStatusSave name))) ;;
  set_dirty_status ∅.

(** The part of the loop body after the copy: lines 312 to 333. *)
Definition commit (x : move) (local_newfolder : MaildirFolder.t)
    (remote_old status_old status_new : string)
    (uid newuid : Z) (old_flags flags : list ascii) : M St unit :=
  let* s := get in
  set_deletecounter (deletecounter (self s) + 1) ;;
  let* s := get in
  (if negb (deletecounter (self s) mod save_interval =? 0)
   then os (log (ERemoteSetExpunge remote_old false))
   else ret tt) ;;
  call (ERemoteDelete remote_old uid)
       (fun tr => remote_deletemessage remote tr remote_old uid) ;;
  os (log (ELocalMoveFile (MaildirFolder.name local_newfolder) (filename x) newuid flags)) ;;
  let* s := get in
  match _move_file local_newfolder (filename x) newuid flags (world s) with
  | Ok f => os (set_fs f)
  | Raise e => raise e
  end ;;
  let* new_list := cache_item status_new in
  let* s := get in
  set_cache (<[status_new := <[newuid := mkSmsg newuid old_flags]> new_list]> (cache s)) ;;
  let* old_list := cache_item status_old in
  let* s := get in
  (if bool_decide (is_Some (old_list !! uid))
   then set_cache (<[status_old := delete uid old_list]> (cache s))
   else ret tt) ;;
  let* s := get in
  set_dirty_status ({[status_old]} ∪ ({[status_new]} ∪ dirty_status s)) ;;
  let* s := get in
  if deletecounter (self s) mod save_interval =? 0 then checkpoint else ret tt.

(** The body of the loop of [syncmoves] for one marker; [continue] is
    the return of [tt]. *)
Definition replay (x : move) : M St unit :=
  if String.eqb (oldfolder x) (newfolder x) then ret tt
  else
    let* there := os (os_path_exists (fullname x)) in
    if negb there then ret tt
    else
      let* local_oldfolder := getfolder construct (oldfolder x) in
      let* local_newfolder := getfolder construct (newfolder x) in
      let* sep := getsep in
      let remote_old := str_replace sep (remote_getsep remote) (oldfolder x) in
      let remote_new := str_replace sep (remote_getsep remote) (newfolder x) in
      call (ERemoteGetfolder remote_old) (fun tr => remote_getfolder remote tr remote_old) ;;
      call (ERemoteGetfolder remote_new) (fun tr => remote_getfolder remote tr remote_new) ;;
      let status_old := str_replace sep (status_getsep status) (oldfolder x) in
      let status_new := str_replace sep (status_getsep status) (newfolder x) in
      cache_item status_old ;;
      cache_item status_new ;;
      let '(_, _, _, old_flags) := _parse_filename local_oldfolder (old_filename x) in
      let '(_, uid, _, flags) := _parse_filename local_oldfolder (filename x) in
      if uid_negative uid then ret tt
      else
        let uid := default 0 uid in
        let* copied :=
          try_except
            (let* newuid := call (ERemoteCopy remote_old uid remote_new)
                              (fun tr => remotecopymessage remote tr remote_old uid remote_new) in
             ret (Some newuid))
            is_NotImplementedError (fun _ => ret None) in
        match copied with
        | None => ret tt
        | Some newuid =>
            if newuid <=? 0 then ret tt
            else commit x local_newfolder remote_old status_old status_new
                   uid newuid old_flags flags
        end.

(** One step of [for ... in self._getmoves_postdelete()]: the body and
    the [finally] of the generator, [os.unlink(x[0])].  When the body
    returns, the [finally] runs as the loop resumes the generator, and an
    error of the unlink is raised in the loop.  When the body raises,
    the loop is left and the suspended generator is closed as its last
    reference goes: the [finally] runs before the exception reaches the
    caller of [syncmoves], and an error of the unlink is reported on
    the error stream and dropped. *)
Definition process (x : move) : M St unit :=
  on_close (replay x) (os (os_unlink (fn x))) ;;
  os (os_unlink (fn x)).

(** The loop of [syncmoves] over one folder's markers: each marker is
    read when the generator reaches it. *)
Definition process_folder (folder : MaildirFolder.t) : M St unit :=
  let* entries := list_markers folder in
  for_each entries (fun entry =>
    let* x := read_move folder entry in
    process x).

(** Lines 233 to 247: the look for a first marker, then the status
    folders are loaded into [cache]; the answer is whether there is
    anything to do. *)
Definition syncmoves_setup : M St bool :=
  let* folders := getfolders construct in
  let* any := first_move folders in
  if negb any then ret false
  else
    set_cache ∅ ;;
    os (log EStatusGetfolders) ;;
    for_each (status_getfolders status) (fun name =>
      os (log (EStatusCache name)) ;;
      let* s := get in
      set_cache (<[name := status_load status name]> (cache s))) ;;
    set_dirty_status ∅ ;;
    ret true.

(** Lines 249 to 333: the loop over the markers. *)
Definition syncmoves_loop : M St unit :=
  let* folders := getfolders construct in
  for_each folders process_folder.

(** Lines 335 to 345. *)
Definition syncmoves_finish : M St unit :=
  let* remotefolders := call ERemoteGetfolders (remote_getfolders remote) in
  for_each remotefolders (fun name =>
    call (ERemoteDoexpunge name) (fun tr => remote_doexpunge remote tr name)) ;;
  let* s := get in
  for_each (status_order status (trace (world s)) (dom (cache s)))
    (fun name => os (log (EStatusSave name))) ;;
  forgetfolders ;;
  os (log ERemoteForget) ;;
  os (log EStatusForget).

Definition syncmoves : M St unit :=
  let* any := syncmoves_setup in
  if negb any then ret tt
  else syncmoves_loop ;; syncmoves_finish.

End MoveEngine.

End MaildirRepository.

(* ===================================================================== *)
(** ** Notions used to state the properties *)
(* ===================================================================== *)

(** The uid [_scanfolder] reads off a file name: present when the name
    carries this folder's fingerprint and a [,U=] field; every other
    file gets the next placeholder. *)
Definition owned_uid (visible file : string) : option Z :=
  match re_search foldermatchre (basename file) with
  | None => None
  | Some fmd5 =>
      if negb (String.eqb (MD5.hexdigest visible) fmd5) then None
      else digits_value 0 <$> re_search uidmatchre (basename file)
  end.

(** The flags [_scanfolder] reads off a file name. *)
Definition name_flags (file : string) : list ascii :=
  sort_flags (match re_search flagmatchre (basename file) with
              | Some letters => list_of_str letters
              | None => []
              end).

(** Every record sits under its own uid and has its flags in ascending
    order. *)
Definition record_ok (u : Z) (r : MaildirFolder.msg) : Prop :=
  MaildirFolder.uid r = u /\ Sorted char_le (MaildirFolder.flags r).

(** The directory of one partition of the folder. *)
Definition partition_dir (s : MaildirFolder.St) (dirannex : string) : string :=
  path_join (path_join (MaildirFolder.root (MaildirFolder.self s))
                       (MaildirFolder.name (MaildirFolder.self s)))
            dirannex.

(** The files [_scanfolder] collects from one partition, in directory
    order. *)
Definition listed_files (s : MaildirFolder.St) (dirannex : string) : list string :=
  map (fun filename => path_join (partition_dir s dirannex) filename)
      (children (fs (MaildirFolder.world s))
                (resolve (MaildirFolder.world s) (partition_dir s dirannex))).

(** The records a rescan builds from the files that [new] and [cur]
    hold in the world of [s]. *)
Definition rescanned (s : MaildirFolder.St) : gmap Z MaildirFolder.msg :=
  MaildirFolder.scan_files (MaildirFolder.visiblename (MaildirFolder.self s))
    (listed_files s "new" ++ listed_files s "cur").

(** What [os.unlink(p)] does in the world [w], the trace left aside:
    the error it raises, or the file table it leaves. *)
Definition unlink_outcome (w : World) (p : string) : exn + list (path * node) :=
  match os_unlink p w with
  | (Ok _, w') => inr (fs w')
  | (Raise e, _) => inl e
  end.

(** The error [os.listdir(p)] raises in the world [w], if any. *)
Definition listdir_error (w : World) (p : string) : option exn :=
  match os_listdir p w with
  | (Ok _, _) => None
  | (Raise e, _) => Some e
  end.

(** The events [tr] that a run from [w] to [w'] added to the trace. *)
Definition added (w w' : World) (tr : list event) : Prop :=
  trace w' = trace w ++ tr.

Definition is_listdir (e : event) : bool :=
  match e with EListdir _ => true | _ => false end.
Definition is_status_save (e : event) : bool :=
  match e with EStatusSave _ => true | _ => false end.

(** The calls on the remote repository and its folders. *)
Definition is_remote (e : event) : bool :=
  match e with
  | ERemoteGetfolder _ | ERemoteGetfolders | ERemoteCopy _ _ _
  | ERemoteSetExpunge _ _ | ERemoteDelete _ _ | ERemoteDoexpunge _
  | ERemoteForget => true
  | _ => false
  end.

(** The remote calls that change the remote store. *)
Definition is_remote_update (e : event) : bool :=
  match e with
  | ERemoteCopy _ _ _ | ERemoteSetExpunge _ _ | ERemoteDelete _ _
  | ERemoteDoexpunge _ => true
  | _ => false
  end.

(** The system calls that change the file system. *)
Definition is_fs_mutation (e : event) : bool :=
  match e with
  | EWrite _ _ | ELink _ _ | EUnlink _ | ERename _ _ | EMkdir _
  | ELocalMoveFile _ _ _ _ => true
  | _ => false
  end.

(** The calls that only read the local file system. *)
Definition is_local_read (e : event) : bool :=
  match e with
  | EListdir _ | EIsdir _ | EGetatime _ | EExists _ | ERead _ => true
  | _ => false
  end.

(** The calls the move engine makes to find its folder handles: local
    reads and [remoterepos.getfolder]. *)
Definition is_lookup (e : event) : bool :=
  match e with
  | ERemoteGetfolder _ => true
  | _ => is_local_read e
  end.

(** The uid of a parsed file name [(prefix, uid, fmd5, flags)]. *)
Definition parsed_uid (t : option string * option Z * option string * list ascii)
    : option Z := t.1.1.2.

(** [os.path.exists(fullname)] is false for the destination of [x]. *)
Definition destination_missing (x : MaildirRepository.move) (s : MaildirRepository.St)
    : Prop :=
  MaildirRepository.fullname x = "" \/
  stat (MaildirRepository.world s)
       (resolve (MaildirRepository.world s) (MaildirRepository.fullname x)) = None.

Definition not_status_save (e : event) : bool := negb (is_status_save e).

(** The separator [getsep] answers with, and the names of the remote
    and of the status folder that go with a local folder name. *)
Definition separator (s : MaildirRepository.St) : string :=
  strip (default "." (MaildirRepository.conf_sep (MaildirRepository.self s))).
Definition remote_name (remote : MaildirRepository.Remote) (s : MaildirRepository.St)
    (folder : string) : string :=
  str_replace (separator s) (MaildirRepository.remote_getsep remote) folder.
Definition status_name (status : MaildirRepository.Status) (s : MaildirRepository.St)
    (folder : string) : string :=
  str_replace (separator s) (MaildirRepository.status_getsep status) folder.

Section RepositoryNotions.
Import MaildirRepository.

(** [frame keep P s s']: on the way from [s] to [s'] the trace grew by
    events that satisfy [P]; the dirty set, the counter of replayed
    markers and the configured separator are the same; and so are the
    status caches when [keep] is set. *)
Definition frame (keep : bool) (P : event -> bool) (s s' : St) : Prop :=
  (exists tr, added (world s) (world s') tr /\ forallb P tr = true) /\
  (keep = true -> cache s' = cache s) /\
  dirty_status s' = dirty_status s /\
  deletecounter (self s') = deletecounter (self s) /\
  conf_sep (self s') = conf_sep (self s).

(** Every run of [c] is a [frame keep P]. *)
Definition quiet {A : Type} (keep : bool) (P : event -> bool) (c : M St A) : Prop :=
  forall s r s', c s = (r, s') -> frame keep P s s'.

End RepositoryNotions.

(* ===================================================================== *)
(** ** Concrete worlds used by the examples below *)
(* ===================================================================== *)

Module Fixtures.

(** MD5 of the folder name INBOX, as in the example data quoted in
    [syncmoves]. *)
Definition fp_inbox : string := "7e33429f656f1e6e9d79b29c3f82c57e".

Definition base_world (files : list (path * node)) (contents : list string) : World :=
  mkWorld files contents "/" 1700000100 0 0 4242 "host" (fun _ => 0) [] [].

(** The same world with the directories [dirs] read-only. *)
Definition with_readonly (dirs : list path) (w : World) : World :=
  mkWorld (fs w) (inodes w) (cwd w) (now w) (lasttime w) (timeseq w)
          (pid w) (hostname w) (stat_atime w) dirs (trace w).

(** The directories of a Maildir folder [name] under /Mail. *)
Definition maildir (name : string) : list (path * node) :=
  [ (["Mail"; name], Dir);
    (["Mail"; name; "cur"], Dir);
    (["Mail"; name; "new"], Dir);
    (["Mail"; name; "tmp"], Dir) ].

(** /Mail/INBOX with the given entries. *)
Definition inbox_world (entries : list (path * node)) (contents : list string) : World :=
  base_world ((["Mail"], Dir) :: maildir "INBOX" ++ entries) contents.

Definition inbox (cache : option (gmap Z MaildirFolder.msg)) : MaildirFolder.t :=
  MaildirFolder.mkFolder "INBOX" "/Mail" "." cache "account" "INBOX".

(** Two names that carry uid 5 and the fingerprint of INBOX. *)
Definition name5 : string :=
  "1700000000_0.123.host,U=5,FMD5=7e33429f656f1e6e9d79b29c3f82c57e:2,S".
Definition name5' : string :=
  "1700000001_0.123.host,U=5,FMD5=7e33429f656f1e6e9d79b29c3f82c57e:2,ST".
Definition base5 : string :=
  "1700000000_0.123.host,U=5,FMD5=7e33429f656f1e6e9d79b29c3f82c57e".

Definition record5 : MaildirFolder.msg :=
  MaildirFolder.mkMsg 5 ["S"%char] ("/Mail/INBOX/cur/" +:+ name5).

(** A folder with message 5 in [cur], and its loaded cache. *)
Definition one_message : MaildirFolder.St :=
  MaildirFolder.mkSt (inbox (Some {[ 5 := record5 ]}))
    (inbox_world [(["Mail"; "INBOX"; "cur"; name5], File 0)] ["hello"]).

(** The same folder before its cache is loaded. *)
Definition not_yet_scanned : MaildirFolder.St :=
  MaildirFolder.mkSt (inbox None)
    (inbox_world [(["Mail"; "INBOX"; "cur"; name5], File 0)] ["hello"]).

(** The cache says message 5 is in [new]; a mail client has moved the
    file to [cur] since, and [cur] is read-only now. *)
Definition stale_record : MaildirFolder.msg :=
  MaildirFolder.mkMsg 5 [] ("/Mail/INBOX/new/" +:+ base5).
Definition stale : MaildirFolder.St :=
  MaildirFolder.mkSt (inbox (Some {[ 5 := stale_record ]}))
    (with_readonly [["Mail"; "INBOX"; "cur"]]
       (inbox_world [(["Mail"; "INBOX"; "cur"; name5], File 0)] ["hello"])).

(** The same folder with [cur] writable. *)
Definition moved : MaildirFolder.St :=
  MaildirFolder.mkSt (inbox (Some {[ 5 := stale_record ]}))
    (inbox_world [(["Mail"; "INBOX"; "cur"; name5], File 0)] ["hello"]).

(** Message 7, flagged S, in [cur] under a name with a colon before
    its info string. *)
Definition colon_record : MaildirFolder.msg :=
  MaildirFolder.mkMsg 7 ["S"%char] "/Mail/INBOX/cur/a:b:2,S".
Definition colon_in_name : MaildirFolder.St :=
  MaildirFolder.mkSt (inbox (Some {[ 7 := colon_record ]}))
    (inbox_world [(["Mail"; "INBOX"; "cur"; "a:b:2,S"], File 0)] ["hello"]).

(** A file whose flag field repeats a letter. *)
Definition repeated_flag : MaildirFolder.St :=
  MaildirFolder.mkSt (inbox None)
    (inbox_world [(["Mail"; "INBOX"; "cur"; "1700000000_0.123.host:2,SS"], File 0)]
                 ["hello"]).

(** Two files of [cur] carry uid 5; the two worlds list them in
    opposite orders. *)
Definition twice5_ab : MaildirFolder.St :=
  MaildirFolder.mkSt (inbox None)
    (inbox_world [(["Mail"; "INBOX"; "cur"; name5], File 0);
                  (["Mail"; "INBOX"; "cur"; name5'], File 1)] ["hello"; "again"]).
Definition twice5_ba : MaildirFolder.St :=
  MaildirFolder.mkSt (inbox None)
    (inbox_world [(["Mail"; "INBOX"; "cur"; name5'], File 1);
                  (["Mail"; "INBOX"; "cur"; name5], File 0)] ["hello"; "again"]).

(** Two different messages, listed in opposite orders. *)
Definition name6 : string :=
  "1700000002_0.123.host,U=6,FMD5=7e33429f656f1e6e9d79b29c3f82c57e:2,".
Definition two_messages_ab : World :=
  inbox_world [(["Mail"; "INBOX"; "cur"; name5], File 0);
               (["Mail"; "INBOX"; "cur"; name6], File 1)] ["hello"; "again"].
Definition two_messages_ba : World :=
  inbox_world [(["Mail"; "INBOX"; "cur"; name6], File 1);
               (["Mail"; "INBOX"; "cur"; name5], File 0)] ["hello"; "again"].

(** A freshly delivered message in [new], without an info suffix, cached
    under the placeholder -1; and message 5, flagged S, still in [new]. *)
Definition delivered_record : MaildirFolder.msg :=
  MaildirFolder.mkMsg (-1) [] "/Mail/INBOX/new/1700000050.4711.mx".
Definition seen_in_new_record : MaildirFolder.msg :=
  MaildirFolder.mkMsg 5 ["S"%char] ("/Mail/INBOX/new/" +:+ name5).
Definition delivered : MaildirFolder.St :=
  MaildirFolder.mkSt
    (inbox (Some {[ -1 := delivered_record; 5 := seen_in_new_record ]}))
    (inbox_world [(["Mail"; "INBOX"; "new"; "1700000050.4711.mx"], File 0);
                  (["Mail"; "INBOX"; "new"; name5], File 1)] ["fresh"; "hello"]).

End Fixtures.

Module RepoFixtures.
Import MaildirRepository Fixtures.

(** Modelled from the spec: the method [_parse_filename], missing from
    folder/Maildir.py, as the Identity Codec's [parse] of section 4.2
    over the file name grammar of section 6; absent fields are [None]. *)
Definition codec_parse (f : MaildirFolder.t) (filename : string)
    : option string * option Z * option string * list ascii :=
  (head (split_on "," (basename filename)),
   digits_value 0 <$> re_search uidmatchre (basename filename),
   re_search foldermatchre (basename filename),
   match re_search flagmatchre (basename filename) with
   | Some letters => list_of_str letters
   | None => []
   end).

(** Modelled from the spec: the method [_move_file], missing from
    folder/Maildir.py: it renames the file inside its partition so that
    its name carries the new id (section 4.5, step 4). *)
Definition codec_move_file (f : MaildirFolder.t) (filename : string) (newuid : Z)
    (flags : list ascii) (w : World) : result (list (path * node)) :=
  let fullname := path_join (MaildirFolder.root f) (MaildirFolder.name f) in
  let token := default "" (head (split_on ":" (default "" (head (split_on "," (basename filename)))))) in
  let newname := token +:+ ",U=" +:+ str_of_Z newuid
                 +:+ ",FMD5=" +:+ MD5.hexdigest (MaildirFolder.visiblename f)
                 +:+ ":2," +:+ str_of_list (sort_flags flags) in
  match os_rename (path_join fullname filename)
                  (path_join (path_join fullname (dirname filename)) newname) w with
  | (Ok _, w') => Ok (fs w')
  | (Raise e, _) => Raise e
  end.

(** A remote store that has every folder, copies every message and
    answers with the uid plus 1000. *)
Definition willing_remote : Remote :=
  mkRemote "/" (fun _ _ => Ok tt) (fun _ => Ok ["INBOX"; "INBOX/Archive"])
           (fun _ _ uid _ => Ok (uid + 1000)) (fun _ _ _ => Ok tt) (fun _ _ => Ok tt).

(** A remote store that does not have the folder INBOX/Archive yet. *)
Definition remote_without_archive : Remote :=
  mkRemote "/"
           (fun _ name => if String.eqb name "INBOX" then Ok tt
                          else Raise (OfflineImapError "no such folder" "FOLDER"))
           (fun _ => Ok ["INBOX"])
           (fun _ _ uid _ => Ok (uid + 1000)) (fun _ _ _ => Ok tt) (fun _ _ => Ok tt).

(** A status repository with the two folders, empty so far.  A set or
    dict of its folder objects is iterated in the reverse of the order
    of [elements]: for the two folders, INBOX comes first. *)
Definition status_store : Status :=
  mkStatus "." ["INBOX"; "INBOX.Archive"] (fun _ => ∅)
           (fun _ X => reverse (elements X))
           (fun _ X => reverse_Permutation (elements X)).

(** /Mail with the folders INBOX and INBOX.Archive, separator [.], and
    the given entries. *)
Definition mail_world (entries : list (path * node)) (contents : list string) : World :=
  base_world ((["Mail"], Dir) :: maildir "INBOX" ++ maildir "INBOX.Archive"
              ++ (["Mail"; "INBOX"; "mv"], Dir) :: entries) contents.

Definition repository (sep : option string) (dry : bool) (counter : Z) : t :=
  mkRepo "/Mail" None [] counter sep false dry.

(** The handles of the two folders, and a repository object whose
    folder list holds them: [MaildirFolder.__init__] cannot be called
    the way discovery calls it, so the list is given. *)
Definition inbox_handle : MaildirFolder.t := inbox None.
Definition archive_handle : MaildirFolder.t :=
  MaildirFolder.mkFolder "INBOX.Archive" "/Mail" "." None "account" "INBOX.Archive".
Definition discovered (counter : Z) : t :=
  mkRepo "/Mail" (Some [inbox_handle; archive_handle]) [] counter None false false.

Definition start (r : t) (w : World) : St := mkSt r w ∅ ∅.

(** The state after [makefolder("a/b/c")] under the separator [/]. *)
Definition after_makefolder : St :=
  (makefolder "a/b/c"
     (start (repository (Some "/") false 0) (base_world [(["Mail"], Dir)] []))).2.

End RepoFixtures.

Module MoveFixtures.
Import MaildirRepository Fixtures RepoFixtures.

(** A message that never got a uid, moved from INBOX to INBOX.Archive:
    the marker in INBOX/mv names its new place. *)
Definition delivered_name : string := "1700000050.4711.mx:2,S".
Definition placeholder_marker : World :=
  mail_world [ (["Mail"; "INBOX"; "mv"; delivered_name], File 0);
               (["Mail"; "INBOX.Archive"; "cur"; delivered_name], File 1) ]
             [ "/Mail/INBOX.Archive/cur/" +:+ delivered_name; "body" ].

(** The tuple [_getmoves] yields for that marker. *)
Definition placeholder_move : move :=
  mkMove ("/Mail/INBOX/mv/" +:+ delivered_name) "INBOX" "INBOX.Archive"
         delivered_name ("cur/" +:+ delivered_name)
         ("/Mail/INBOX.Archive/cur/" +:+ delivered_name).

(** A marker that names a place inside its own folder. *)
Definition same_folder_move : move :=
  mkMove "/Mail/INBOX/mv/m" "INBOX" "INBOX" "m" ("cur/" +:+ name5)
         ("/Mail/INBOX/cur/" +:+ name5).

(** Message 1 moved from INBOX to INBOX.Archive, and the tuple of its
    marker. *)
Definition first_name : string :=
  "1700000000_0.123.host,U=1,FMD5=7e33429f656f1e6e9d79b29c3f82c57e:2,S".
Definition one_move : World :=
  mail_world [ (["Mail"; "INBOX"; "mv"; first_name], File 0);
               (["Mail"; "INBOX.Archive"; "cur"; first_name], File 1) ]
             [ "/Mail/INBOX.Archive/cur/" +:+ first_name; "body" ].
Definition first_move_tuple : move :=
  mkMove ("/Mail/INBOX/mv/" +:+ first_name) "INBOX" "INBOX.Archive"
         first_name ("cur/" +:+ first_name)
         ("/Mail/INBOX.Archive/cur/" +:+ first_name).

(** The state of [syncmoves] when its loop starts: the status folders
    are loaded. *)
Definition loaded (r : t) (w : World) : St :=
  mkSt r w {[ "INBOX" := ∅; "INBOX.Archive" := ∅ ]} ∅.

(** The name of the [i]-th message, with uid [i + 1] and the fingerprint
    of INBOX. *)
Definition numbered_name (i : nat) : string :=
  str_of_Z (1700000000 + Z.of_nat i) +:+ "_0.123.host,U=" +:+ str_of_Z (Z.of_nat i + 1)
  +:+ ",FMD5=" +:+ fp_inbox +:+ ":2,S".

(** [n] markers in INBOX/mv, in this order; marker [i] is the file of
    inode [i]. *)
Definition markers (n : nat) : list (path * node) :=
  map (fun i => (["Mail"; "INBOX"; "mv"; numbered_name i], File i)) (seq 0 n).

(** 100 markers: the first names the new place of message 1 in
    INBOX.Archive, the other 99 name places inside INBOX itself. *)
Definition one_move_of_100 : World :=
  mail_world (markers 100 ++
              [ (["Mail"; "INBOX.Archive"; "cur"; numbered_name 0], File 100) ])
             (("/Mail/INBOX.Archive/cur/" +:+ numbered_name 0)
              :: map (fun i => "/Mail/INBOX/cur/" +:+ numbered_name i) (seq 1 99)
              ++ ["body"]).

(** 100 markers, each naming the new place of its message in
    INBOX.Archive, where the message is. *)
Definition hundred_moves : World :=
  mail_world (markers 100 ++
              map (fun i => (["Mail"; "INBOX.Archive"; "cur"; numbered_name i],
                             File (100 + i))) (seq 0 100))
             (map (fun i => "/Mail/INBOX.Archive/cur/" +:+ numbered_name i) (seq 0 100)
              ++ replicate 100 "body").

(** A remote store that copies every message and then fails to delete
    the original. *)
Definition remote_delete_fails : Remote :=
  mkRemote "/" (fun _ _ => Ok tt) (fun _ => Ok ["INBOX"; "INBOX/Archive"])
           (fun _ _ uid _ => Ok (uid + 1000))
           (fun _ _ _ => Raise (OfflineImapError "delete failed" "MESSAGE"))
           (fun _ _ => Ok tt).

(** [syncmoves] up to the end of its loop. *)
Definition setup_and_loop (remote : Remote) : M St unit :=
  let* any := syncmoves_setup MaildirFolder.__init__ status_store in
  if negb any then ret tt
  else syncmoves_loop MaildirFolder.__init__ codec_parse codec_move_file remote status_store.

(** The markers processed so far: the unlinks below INBOX/mv. *)
Definition is_marker_unlink (e : event) : bool :=
  match e with
  | EUnlink p => startswith "/Mail/INBOX/mv/" p
  | _ => false
  end.
Definition marker_unlinks (tr : list event) : list event :=
  filter (fun e => is_marker_unlink e = true) tr.

(** The events up to the first saved status folder. *)
Fixpoint before_first_save (tr : list event) : list event :=
  match tr with
  | [] => []
  | e :: rest => if is_status_save e then [] else e :: before_first_save rest
  end.

End MoveFixtures.

(* ===================================================================== *)
(** ** Further notions used to state the properties *)
(* ===================================================================== *)

(** Every regular file of the table names an inode that exists. *)
Definition inodes_allocated (w : World) : Prop :=
  forall (p : path) (i : nat),
    lookup_path (fs w) p = Some (File i) -> (i < length (inodes w))%nat.

Definition crlf : string := String "013" (String "010" "").
Definition lf : string := String "010" "".

Definition is_sleep (e : event) : bool :=
  match e with ESleep _ => true | _ => false end.

(** The base name [savemessageflags] builds from the old base name and
    the flags (lines 191 to 199 of folder/Maildir.py). *)
Definition flagged_name (newname : string) (flags : list ascii) : string :=
  let '(infostr, newname) :=
    match re_search infore newname with
    | Some info => (info, default "" (head (split_on ":" newname)))
    | None => (":", newname)
    end in
  newname +:+ (re_sub oldflagsre infostr +:+ "2," +:+ str_of_list (sort_flags flags)).

(** The partition a message with these flags belongs to. *)
Definition flags_partition (flags : list ascii) : string :=
  if bool_decide ("S"%char ∈ flags) then "cur" else "new".

(** The location [savemessageflags] computes for a message. *)
Definition flagged_path (s : MaildirFolder.St) (oldfilename : string) (flags : list ascii)
    : string :=
  path_join (partition_dir s (flags_partition flags))
            (flagged_name (basename oldfilename) flags).

(** The name [savemessage] gives a new message (lines 151 to 157 of
    folder/Maildir.py). *)
Definition message_name (timeval timeseq pid : Z) (host : string) (uid : Z)
    (visible : string) : string :=
  str_of_Z timeval +:+ "_" +:+ str_of_Z timeseq +:+ "."
  +:+ str_of_Z pid +:+ "." +:+ host
  +:+ ",U=" +:+ str_of_Z uid
  +:+ ",FMD5=" +:+ MD5.hexdigest visible.

(** The files, their contents and the identity of the process are the
    same in both worlds. *)
Definition same_files (w w' : World) : Prop :=
  fs w' = fs w /\ inodes w' = inodes w /\ cwd w' = cwd w /\
  readonly w' = readonly w /\ pid w' = pid w /\ hostname w' = hostname w.

(** The number of [time.sleep] calls in a trace. *)
Definition sleeps (tr : list event) : nat :=
  length (List.filter is_sleep tr).

Definition is_exists_or_sleep (e : event) : bool :=
  match e with EExists _ | ESleep _ => true | _ => false end.

(** The characters of ['%d' % n]. *)
Definition is_numeric (c : ascii) : bool := is_digit c || Ascii.eqb c "-".

(** A character [gethostname] must not answer with for the names of
    [savemessage] to be read back: the separators of the name's fields
    and of paths. *)
Definition is_plain (c : ascii) : bool :=
  negb (is_slash c) && negb (Ascii.eqb c ":") && negb (Ascii.eqb c ",").

(** A message name with its fields: a prefix, the uid field and the
    fingerprint field; and the same name with the info string for the
    flag letters at its end. *)
Definition encoded_name (prefix digits fmd5 : string) : string :=
  prefix +:+ ",U=" +:+ digits +:+ ",FMD5=" +:+ fmd5.
Definition encoded_full_name (prefix digits fmd5 letters : string) : string :=
  prefix +:+ ",U=" +:+ digits +:+ ",FMD5=" +:+ fmd5 +:+ ":2," +:+ letters.

(** The lexicographic order on the pairs [gettimeseq] returns. *)
Definition timeseq_lt (p q : Z * Z) : Prop :=
  p.1 < q.1 \/ (p.1 = q.1 /\ p.2 < q.2).

(** The files of a listing that do not carry the folder's fingerprint
    and a uid: the ones [_scanfolder] numbers from -1 downwards. *)
Definition foreign_files (visible : string) (files : list string) : list string :=
  filter (fun f => owned_uid visible f = None) files.

(** From [w] to [w'] the file system has only gained directories:
    every entry is still there, every new entry is a directory, and
    the contents of the files and the working directory are the same. *)
Definition only_new_directories (w w' : World) : Prop :=
  cwd w' = cwd w /\ inodes w' = inodes w /\
  forall p : path,
    match stat w p with
    | Some n => stat w' p = Some n
    | None => stat w' p = None \/ stat w' p = Some Dir
    end.

(** A name of one directory entry: not empty, no slash, and neither
    [.] nor [..]. *)
Definition is_entry_name (name : string) : Prop :=
  name <> "" /\ name <> "." /\ name <> ".." /\
  str_forall (fun c => negb (is_slash c)) name = true.

Section MoreRepositoryNotions.
Import MaildirRepository.

(** Every run of [c] leaves the repository object alone and only adds
    directories. *)
Definition builds {A : Type} (c : M St A) : Prop :=
  forall s r s', c s = (r, s') ->
    self s' = self s /\ cache s' = cache s /\ dirty_status s' = dirty_status s /\
    only_new_directories (world s) (world s').

End MoreRepositoryNotions.

(** Every run of [c] relates the state before to the state after by
    [R]. *)
Definition keeps {S A : Type} (R : S -> S -> Prop) (c : M S A) : Prop :=
  forall s r s', c s = (r, s') -> R s s'.

(** The calls of a directory scan. *)
Definition is_scan_call (e : event) : bool :=
  match e with
  | EListdir _ | EIsdir _ | EGetatime _ => true
  | _ => false
  end.

(** The calls that look at one path without listing a directory. *)
Definition is_probe (e : event) : bool :=
  match e with
  | EIsdir _ | EGetatime _ => true
  | _ => false
  end.

Section EngineNotions.
Import MaildirRepository.

(** From [s] to [s'] nothing but calls that satisfy [P] has happened:
    the files are the same, the trace grew by such calls, and of the
    repository object only the folder list and the recorded access
    times may differ. *)
Definition scanned_by (P : event -> bool) (s s' : St) : Prop :=
  same_files (world s) (world s') /\
  (exists tr, added (world s) (world s') tr /\ forallb P tr = true) /\
  cache s' = cache s /\ dirty_status s' = dirty_status s /\
  root (self s') = root (self s) /\
  deletecounter (self s') = deletecounter (self s) /\
  conf_sep (self s') = conf_sep (self s) /\
  conf_restoreatime (self s') = conf_restoreatime (self s) /\
  dryrun (self s') = dryrun (self s).

(** Nothing but a directory scan has happened. *)
Definition scanned : St -> St -> Prop := scanned_by is_scan_call.

(** The trace has only grown. *)
Definition extended (s s' : St) : Prop :=
  exists tr, added (world s) (world s') tr.

(** Where the lookups of the loop body lead when none of them fails:
    to the state [s7], after the test of the destination, the scans of
    the two local lookups (if the folder list was not cached), and the
    two lookups on the remote repository, with both status folders
    found in the cache. *)
Definition looked_up (remote : Remote) (status : Status) (x : move) (s s7 : St)
    (scan : list event) : Prop :=
  scanned_by is_lookup s s7 /\
  forallb is_scan_call scan = true /\
  added (world s) (world s7)
    (EExists (fullname x) :: scan ++
       [ERemoteGetfolder (remote_name remote s (oldfolder x));
        ERemoteGetfolder (remote_name remote s (newfolder x))]) /\
  remote_getfolder remote (trace (world s) ++ EExists (fullname x) :: scan)
    (remote_name remote s (oldfolder x)) = Ok tt /\
  remote_getfolder remote
    (trace (world s) ++ EExists (fullname x) :: scan ++
       [ERemoteGetfolder (remote_name remote s (oldfolder x))])
    (remote_name remote s (newfolder x)) = Ok tt /\
  is_Some (cache s !! status_name status s (oldfolder x)) /\
  is_Some (cache s !! status_name status s (newfolder x)).

End EngineNotions.

(** What [os.path.isdir(p)] answers in the world [w]. *)
Definition isdir_now (w : World) (p : string) : bool :=
  negb (String.eqb p "") && bool_decide (stat w (resolve w p) = Some Dir).

(** A directory with the three partitions. *)
Definition is_maildir (w : World) (dir : string) : bool :=
  isdir_now w dir && isdir_now w (path_join dir "cur") &&
  isdir_now w (path_join dir "new") && isdir_now w (path_join dir "tmp").

(** The names of the folders right below [root]: the entries of [root]
    in directory order, and then the empty name for [root] itself,
    that are Maildir directories and are not called like a partition. *)
Definition flat_folder_names (w : World) (root : string) : list string :=
  List.filter (fun d => negb (bool_decide (d ∈ ["cur"; "new"; "tmp"])) &&
                        is_maildir w (path_join root d))
              (children (fs w) (resolve w root) ++ [""]).

(** The folder objects for [names], made in this order with the
    constructor call of [_getfolders_scandir]; the first call that
    raises ends it. *)
Fixpoint construct_each (construct : list arg -> result MaildirFolder.t)
    (root sep : string) (names : list string) : result (list MaildirFolder.t) :=
  match names with
  | [] => Ok []
  | name :: rest =>
      match construct [AStr root; AStr name; AStr sep; ARepository] with
      | Raise e => Raise e
      | Ok f =>
          match construct_each construct root sep rest with
          | Ok l => Ok (f :: l)
          | Raise e => Raise e
          end
      end
  end.

(** The results of [g] on [xs] in order, up to the first that raises. *)
Fixpoint results_of {A B : Type} (g : A -> result B) (xs : list A) : result (list B) :=
  match xs with
  | [] => Ok []
  | x :: rest =>
      match g x with
      | Raise e => Raise e
      | Ok y =>
          match results_of g rest with
          | Ok ys => Ok (y :: ys)
          | Raise e => Raise e
          end
      end
  end.

(** The calls of the move engine up to and including the copy on the
    remote store. *)
Definition is_lookup_or_copy (e : event) : bool :=
  match e with
  | ERemoteCopy _ _ _ => true
  | _ => is_lookup e
  end.

(** The status folders saved in a trace, in the order of the saves. *)
Definition saves (tr : list event) : list event :=
  filter (fun e => is_status_save e = true) tr.

(** The state in which the call [e] has just been made. *)
Definition called (e : event) (s : MaildirRepository.St) : MaildirRepository.St :=
  MaildirRepository.mkSt (MaildirRepository.self s) (logged e (MaildirRepository.world s))
    (MaildirRepository.cache s) (MaildirRepository.dirty_status s).

(** The calls with which [syncmoves] expunges the remote folders. *)
Definition is_expunge_call (e : event) : bool :=
  match e with
  | ERemoteGetfolders | ERemoteDoexpunge _ => true
  | _ => false
  end.

(** The status cache is as it was. *)
Definition same_cache (s s' : MaildirRepository.St) : Prop :=
  MaildirRepository.cache s' = MaildirRepository.cache s.

(** The calls of a directory scan that does not look at access times. *)
Definition is_dir_call (e : event) : bool :=
  match e with
  | EListdir _ | EIsdir _ => true
  | _ => false
  end.

(** With [restoreatime] off in [s], nothing but such calls has happened
    on the way to [s'] and no access time was recorded. *)
Definition plain_scan (s s' : MaildirRepository.St) : Prop :=
  MaildirRepository.conf_restoreatime (MaildirRepository.self s) = false ->
  scanned_by is_dir_call s s' /\
  MaildirRepository.folder_atimes (MaildirRepository.self s')
  = MaildirRepository.folder_atimes (MaildirRepository.self s).

(** The status cache holds the same folders. *)
Definition same_folders (s s' : MaildirRepository.St) : Prop :=
  forall name : string,
    is_Some (MaildirRepository.cache s' !! name) <->
    is_Some (MaildirRepository.cache s !! name).

(** The absolute path with the components [comps]. *)
Definition rooted (comps : list string) : string :=
  String "/" (join_with "/" comps).

(** The check of [inodes_allocated] on a concrete table. *)
Definition inodes_allocatedb (w : World) : bool :=
  forallb (fun e : path * node =>
             match e.2 with
             | File i => (i <? length (inodes w))%nat
             | _ => true
             end) (fs w).

Module MoreFixtures.
Import MaildirRepository Fixtures RepoFixtures.

(** A remote store whose folders cannot copy a message to another
    folder of the server. *)
Definition unwilling_remote : Remote :=
  mkRemote "/" (fun _ _ => Ok tt) (fun _ => Ok ["INBOX"; "INBOX/Archive"])
           (fun _ _ _ _ => Raise NotImplementedError) (fun _ _ _ => Ok tt) (fun _ _ => Ok tt).

End MoreFixtures.

(* ===================================================================== *)
(** * Properties *)
(* ===================================================================== *)

(** ** The monad and the system calls *)

Lemma bind_ok {S A B : Type} (c : M S A) (k : A -> M S B) (s s' : S) (a : A) :
  c s = (Ok a, s') -> bind c k s = k a s'.
Proof. intros H. unfold bind. rewrite H. reflexivity. Qed.

Lemma bind_raise {S A B : Type} (c : M S A) (k : A -> M S B) (s s' : S) (e : exn) :
  c s = (Raise e, s') -> bind c k s = (Raise e, s').
Proof. intros H. unfold bind. rewrite H. reflexivity. Qed.

#[export] Instance char_le_total : Total char_le.
Proof. intros a b. unfold char_le. lia. Qed.

Lemma sort_flags_sorted (l : list ascii) : Sorted char_le (sort_flags l).
Proof. apply (Sorted_merge_sort char_le). Qed.

Lemma sort_flags_perm (l : list ascii) : sort_flags l ≡ₚ l.
Proof. apply merge_sort_Permutation. Qed.

(** [os.listdir] answers with the entries of a directory, raises an
    [OSError] otherwise, and adds itself to the trace; nothing else of
    the world changes. *)
Lemma os_listdir_spec (p : string) (w : World) :
  os_listdir p w =
  (match (if String.eqb p "" then None else stat w (resolve w p)) with
   | Some Dir => Ok (children (fs w) (resolve w p))
   | Some (File _) => Raise (OSError ENOTDIR)
   | None => Raise (OSError (missing w (resolve w p)))
   end, logged (EListdir p) w).
Proof.
  unfold os_listdir, bind, log, modify, get, ret, raise. simpl.
  change (stat (logged (EListdir p) w)) with (stat w).
  change (resolve (logged (EListdir p) w)) with (resolve w).
  change (missing (logged (EListdir p) w)) with (missing w).
  destruct (String.eqb p ""); [reflexivity|].
  destruct (stat w (resolve w p)) as [[|i]|]; reflexivity.
Qed.

Lemma os_listdir_inv (p : string) (w w' : World) (r : result (list string)) :
  os_listdir p w = (r, w') ->
  w' = logged (EListdir p) w /\
  (forall names, r = Ok names -> names = children (fs w) (resolve w p)) /\
  (forall e, r = Raise e -> is_OSError e = true).
Proof.
  rewrite os_listdir_spec.
  destruct (if String.eqb p "" then None else stat w (resolve w p)) as [[|i]|];
    intros [= <- <-]; repeat split; intros ? [=]; subst; reflexivity.
Qed.

(** [os.unlink] removes the name of a regular file in a directory the
    process may modify, raises an [OSError] otherwise, and adds itself
    to the trace. *)
Lemma os_unlink_spec (p : string) (w : World) :
  os_unlink p w =
  match (if String.eqb p "" then None else stat w (resolve w p)) with
  | Some n =>
      if may_modify w (parent (resolve w p))
      then match n with
           | File _ => (Ok tt, with_fs (remove_path (resolve w p) (fs w))
                                       (logged (EUnlink p) w))
           | Dir => (Raise (OSError EISDIR), logged (EUnlink p) w)
           end
      else (Raise (OSError EACCES), logged (EUnlink p) w)
  | None => (Raise (OSError (missing w (resolve w p))), logged (EUnlink p) w)
  end.
Proof.
  unfold os_unlink, bind, log, set_fs, modify, get, ret, raise. simpl.
  change (stat (logged (EUnlink p) w)) with (stat w).
  change (resolve (logged (EUnlink p) w)) with (resolve w).
  change (missing (logged (EUnlink p) w)) with (missing w).
  change (may_modify (logged (EUnlink p) w)) with (may_modify w).
  destruct (String.eqb p ""); [reflexivity|].
  destruct (stat w (resolve w p)) as [[|i]|]; try reflexivity;
    destruct (may_modify w (parent (resolve w p))); reflexivity.
Qed.

Lemma os_unlink_trace (p : string) (w w' : World) (r : result unit) :
  os_unlink p w = (r, w') -> added w w' [EUnlink p].
Proof.
  rewrite os_unlink_spec. unfold added.
  destruct (if String.eqb p "" then None else stat w (resolve w p)) as [[|i]|];
    try destruct (may_modify w (parent (resolve w p)));
    intros [= <- <-]; reflexivity.
Qed.

Lemma os_unlink_raises_OSError (p : string) (w w' : World) (e : exn) :
  os_unlink p w = (Raise e, w') -> is_OSError e = true.
Proof.
  rewrite os_unlink_spec.
  destruct (if String.eqb p "" then None else stat w (resolve w p)) as [[|i]|];
    try destruct (may_modify w (parent (resolve w p)));
    intros [= <- <-]; reflexivity.
Qed.

Lemma lookup_path_remove (p : path) (f : list (path * node)) :
  lookup_path (remove_path p f) p = None.
Proof.
  induction f as [|[q n] f IH]; [reflexivity|].
  unfold remove_path in *. simpl.
  rewrite filter_cons. simpl. destruct (decide (q ≠ p)) as [Hne|Heq]; [|exact IH].
  simpl. unfold path_eqb. rewrite bool_decide_eq_false_2 by exact Hne. exact IH.
Qed.

(** After a successful [os.unlink] the name is gone. *)
Lemma os_unlink_removes (p : string) (w w' : World) :
  os_unlink p w = (Ok tt, w') -> stat w' (resolve w' p) = None.
Proof.
  rewrite os_unlink_spec.
  destruct (String.eqb p ""); [intros [=]|].
  destruct (stat w (resolve w p)) as [[|i]|] eqn:Hst;
    try destruct (may_modify w (parent (resolve w p))); intros [= <-].
  change (resolve (with_fs _ (logged _ w)) p) with (resolve w p).
  unfold stat in *. simpl. destruct (resolve w p) as [|c q]; [discriminate|].
  apply lookup_path_remove.
Qed.

(** ** The directory scan *)

Section Scan.
Import MaildirFolder.
Variable visible : string.

Lemma scan_file_eq (m : gmap Z msg) (c : Z) (file : string) :
  scan_file visible (m, c) file =
  match owned_uid visible file with
  | Some u => (<[u := mkMsg u (name_flags file) file]> m, c)
  | None => (<[c := mkMsg c (name_flags file) file]> m, c - 1)
  end.
Proof.
  unfold scan_file, owned_uid, name_flags.
  destruct (re_search foldermatchre (basename file)) as [fmd5|]; [|reflexivity].
  destruct (negb (String.eqb (MD5.hexdigest visible) fmd5)); [reflexivity|].
  destruct (re_search uidmatchre (basename file)); reflexivity.
Qed.

(** The placeholder counter stays negative. *)
Lemma scan_counter_negative (files : list string) (m : gmap Z msg) (c : Z) :
  c < 0 -> (foldl (scan_file visible) (m, c) files).2 < 0.
Proof.
  revert m c. induction files as [|f files IH]; intros m c Hc; [exact Hc|].
  cbn [foldl]. rewrite scan_file_eq. destruct (owned_uid visible f); apply IH; lia.
Qed.

Lemma scan_records_ok (files : list string) (m : gmap Z msg) (c : Z) :
  map_Forall record_ok m ->
  map_Forall record_ok (foldl (scan_file visible) (m, c) files).1.
Proof.
  revert m c. induction files as [|f files IH]; intros m c Hm; [exact Hm|].
  cbn [foldl]. rewrite scan_file_eq.
  destruct (owned_uid visible f) as [u|]; apply IH;
    apply map_Forall_insert_2; try exact Hm;
    (split; [reflexivity|apply sort_flags_sorted]).
Qed.

(** The record under a non-negative uid comes from the last listed file
    that carries this uid. *)
Lemma scan_lookup (files : list string) (m : gmap Z msg) (c u : Z) :
  c < 0 -> 0 <= u ->
  (foldl (scan_file visible) (m, c) files).1 !! u =
  match last (filter (fun f => owned_uid visible f = Some u) files) with
  | Some f => Some (mkMsg u (name_flags f) f)
  | None => m !! u
  end.
Proof.
  intros Hc Hu. revert m c Hc.
  induction files as [|f files IH]; intros m c Hc; [reflexivity|].
  cbn [foldl]. rewrite scan_file_eq, filter_cons.
  destruct (owned_uid visible f) as [u'|] eqn:Hf.
  - rewrite IH by exact Hc.
    destruct (decide (Some u' = Some u)) as [[= ->]|Hne].
    + rewrite last_cons.
      destruct (last (filter _ files)); [reflexivity|]. apply lookup_insert_eq.
    + destruct (last (filter _ files)); [reflexivity|].
      apply lookup_insert_ne. congruence.
  - rewrite IH by lia.
    destruct (decide (None = Some u)) as [[=]|_].
    destruct (last (filter _ files)); [reflexivity|].
    apply lookup_insert_ne. lia.
Qed.

(** Among files with pairwise distinct uids at most one carries [u], so
    a permutation lists the same files for [u]. *)
Lemma filter_owned_perm (u : Z) (l l' : list string) :
  NoDup (omap (owned_uid visible) l) -> l ≡ₚ l' ->
  filter (fun f => owned_uid visible f = Some u) l =
  filter (fun f => owned_uid visible f = Some u) l'.
Proof.
  intros Hnd Hp.
  assert (Hlen : forall k, NoDup (omap (owned_uid visible) k) ->
            (length (filter (fun f => owned_uid visible f = Some u) k) <= 1)%nat).
  { clear. induction k as [|f k IH]; intros Hnd; [simpl; lia|].
    simpl in Hnd. rewrite filter_cons.
    destruct (owned_uid visible f) as [u'|] eqn:Hf.
    - apply NoDup_cons in Hnd as [Hnot Hnd].
      destruct (decide (Some u' = Some u)) as [[= ->]|_]; [|auto].
      simpl. destruct (filter _ k) as [|g k'] eqn:Hk; [simpl; lia|].
      exfalso. apply Hnot.
      assert (Hg : g ∈ filter (fun f => owned_uid visible f = Some u) k)
        by (rewrite Hk; left).
      apply list_elem_of_filter in Hg as [Hg1 Hg2].
      apply list_elem_of_omap. exists g. split; assumption.
    - destruct (decide (None = Some u)) as [[=]|_]. auto. }
  assert (Hp' : filter (fun f => owned_uid visible f = Some u) l ≡ₚ
                filter (fun f => owned_uid visible f = Some u) l')
    by (rewrite Hp; reflexivity).
  pose proof (Hlen l Hnd) as H1.
  destruct (filter _ l) as [|a [|b t]] eqn:El.
  - apply Permutation_nil_l in Hp'. congruence.
  - apply Permutation_singleton_l in Hp'. congruence.
  - simpl in H1. lia.
Qed.

End Scan.

Section Rescan.
Import MaildirFolder.

(** [_scanfolder] lists [new], then [cur], and scans the files found; it
    stops at the first listing that fails. *)
Lemma scanfolder_unfold (s : St) :
  _scanfolder s =
  match os_listdir (partition_dir s "new") (world s) with
  | (Raise e, w1) => (Raise e, mkSt (self s) w1)
  | (Ok names_new, w1) =>
      match os_listdir (partition_dir s "cur") w1 with
      | (Raise e, w2) => (Raise e, mkSt (self s) w2)
      | (Ok names_cur, w2) =>
          (Ok (scan_files (visiblename (self s))
                 (map (path_join (partition_dir s "new")) names_new ++
                  map (path_join (partition_dir s "cur")) names_cur)),
           mkSt (self s) w2)
      end
  end.
Proof.
  unfold _scanfolder, partition_dir. cbn [map_m].
  unfold bind, getfullname, getroot, getname, getvisiblename, get, ret, os. simpl.
  destruct (os_listdir _ (world s)) as [[names_new|e] w1]; [|reflexivity]. simpl.
  destruct (os_listdir _ w1) as [[names_cur|e] w2]; [|reflexivity]. simpl.
  rewrite app_nil_r. reflexivity.
Qed.

Lemma scanfolder_ok (s s' : St) (m : gmap Z msg) :
  _scanfolder s = (Ok m, s') ->
  m = scan_files (visiblename (self s)) (listed_files s "new" ++ listed_files s "cur")
  /\ self s' = self s
  /\ fs (world s') = fs (world s)
  /\ added (world s) (world s')
       [EListdir (partition_dir s "new"); EListdir (partition_dir s "cur")].
Proof.
  rewrite scanfolder_unfold.
  destruct (os_listdir _ (world s)) as [[names_new|e] w1] eqn:H1; [|intros [=]].
  destruct (os_listdir _ w1) as [[names_cur|e] w2] eqn:H2; intros [= <- <-].
  apply os_listdir_inv in H1 as (-> & Hn & _), H2 as (-> & Hc & _).
  rewrite (Hn _ eq_refl), (Hc _ eq_refl).
  repeat split; try reflexivity.
  unfold added. simpl. rewrite <- app_assoc. reflexivity.
Qed.

(** Whatever its outcome, [_scanfolder] leaves the folder object and the
    file system alone and only lists [new] and then [cur], stopping at a
    listing that fails; it can only raise an [OSError]. *)
Lemma scanfolder_frame (s s' : St) (r : result (gmap Z msg)) :
  _scanfolder s = (r, s') ->
  self s' = self s /\ fs (world s') = fs (world s) /\
  (forall e, r = Raise e -> is_OSError e = true) /\
  (added (world s) (world s') [EListdir (partition_dir s "new")] \/
   added (world s) (world s')
     [EListdir (partition_dir s "new"); EListdir (partition_dir s "cur")]).
Proof.
  rewrite scanfolder_unfold.
  destruct (os_listdir _ (world s)) as [[names_new|e] w1] eqn:H1.
  - destruct (os_listdir _ w1) as [[names_cur|e] w2] eqn:H2; intros [= <- <-];
      apply os_listdir_inv in H1 as (-> & _ & _), H2 as (-> & _ & He);
      (repeat split; try reflexivity; [intros ? [=]; subst; auto|]);
      right; unfold added; simpl; rewrite <- app_assoc; reflexivity.
  - intros [= <- <-]. apply os_listdir_inv in H1 as (-> & _ & He).
    repeat split; try reflexivity; [intros ? [=]; subst; auto|].
    left. reflexivity.
Qed.

(** C4 (as corrected): after a successful rescan every cached record
    sits under its own uid, the cached uids are pairwise distinct, and
    every record's flags are in ascending ASCII order.  The order is not
    strict: a file name that repeats a flag letter yields the letter
    twice. *)
Theorem rescan_records_sorted (s s' : St) (m : gmap Z msg) :
  _scanfolder s = (Ok m, s') ->
  NoDup (map fst (map_to_list m)) /\
  forall (u : Z) (r : msg), m !! u = Some r ->
    uid r = u /\ Sorted char_le (flags r).
Proof.
  intros H. apply scanfolder_ok in H as (-> & _).
  split; [apply NoDup_fst_map_to_list|].
  intros u r Hr.
  exact (scan_records_ok _ _ ∅ (-1) (map_Forall_empty _) u r Hr).
Qed.

(** C3 (as corrected): two rescans of the same folder whose partitions
    list the same files in different orders cache the same record under
    every non-negative uid, provided that within each partition no two
    files carry the same uid. *)
Theorem rescan_order_independent (f : t) (w1 w2 : World) (s1' s2' : St)
    (m1 m2 : gmap Z msg) :
  _scanfolder (mkSt f w1) = (Ok m1, s1') ->
  _scanfolder (mkSt f w2) = (Ok m2, s2') ->
  listed_files (mkSt f w1) "new" ≡ₚ listed_files (mkSt f w2) "new" ->
  listed_files (mkSt f w1) "cur" ≡ₚ listed_files (mkSt f w2) "cur" ->
  NoDup (omap (owned_uid (visiblename f)) (listed_files (mkSt f w1) "new")) ->
  NoDup (omap (owned_uid (visiblename f)) (listed_files (mkSt f w1) "cur")) ->
  forall u : Z, 0 <= u -> m1 !! u = m2 !! u.
Proof.
  intros H1 H2 Pn Pc Nn Nc u Hu.
  apply scanfolder_ok in H1 as (-> & _). apply scanfolder_ok in H2 as (-> & _).
  cbn [self]. unfold scan_files.
  rewrite !scan_lookup by lia. rewrite !filter_app.
  rewrite (filter_owned_perm _ u _ _ Nn Pn), (filter_owned_perm _ u _ _ Nc Pc).
  reflexivity.
Qed.

Lemma deletemessage_unfold (s : St) (m : gmap Z msg) (u : Z) (r : msg) :
  messagelist (self s) = Some m ->
  m !! u = Some r ->
  deletemessage u s =
  match os_unlink (filename r) (world s) with
  | (Ok _, w1) => (Ok tt, with_messagelist (Some (delete u m)) (mkSt (self s) w1))
  | (Raise e, w1) =>
      if is_OSError e then
        match _scanfolder (mkSt (self s) w1) with
        | (Raise e2, s2) => (Raise e2, s2)
        | (Ok nm, s2) =>
            match nm !! u with
            | None => (Ok tt, with_messagelist (delete u <$> messagelist (self s2)) s2)
            | Some r' =>
                match os_unlink (filename r') (world s2) with
                | (Ok _, w3) =>
                    (Ok tt, with_messagelist (delete u <$> messagelist (self s2))
                              (mkSt (self s2) w3))
                | (Raise e3, w3) => (Raise e3, mkSt (self s2) w3)
                end
            end
        end
      else (Raise e, mkSt (self s) w1)
  end.
Proof.
  intros Hm Hu.
  unfold deletemessage, messagelist_contains, messagelist_item, try_except, bind, get, ret, os,
    set_messagelist, modify.
  cbn [the_world with_world St_HasWorld self world].
  rewrite Hm, Hu.
  rewrite bool_decide_eq_true_2 by eauto. cbn [negb]. cbv beta. rewrite Hm, Hu.
  destruct (os_unlink (filename r) (world s)) as [[[]|e] w1].
  - cbn [self world]. rewrite Hm. reflexivity.
  - destruct (is_OSError e); [|reflexivity].
    destruct (_scanfolder {| self := self s; world := w1 |}) as [[nm|e2] [f2 w2]]; [|reflexivity].
    cbn [self world].
    destruct (nm !! u) as [r'|]; [|reflexivity].
    cbn [self world].
    destruct (os_unlink (filename r') w2) as [[[]|e3] w3]; reflexivity.
Qed.

(** The world after a call that only entered the trace. *)
Lemma unlink_outcome_same (w w' : World) (p : string) :
  fs w' = fs w -> cwd w' = cwd w -> readonly w' = readonly w ->
  unlink_outcome w' p = unlink_outcome w p.
Proof.
  intros Hfs Hcwd Hro. unfold unlink_outcome. rewrite !os_unlink_spec.
  unfold resolve, stat, may_modify, missing, stat. rewrite Hfs, Hcwd, Hro.
  destruct (String.eqb p ""); [reflexivity|].
  match goal with |- context [match ?x with [] => Some Dir | _ => _ end] =>
    destruct x as [|c q] eqn:E end.
  - destruct (negb _); reflexivity.
  - destruct (lookup_path (fs w) (c :: q)) as [[|i]|]; [| |reflexivity];
      destruct (negb _); reflexivity.
Qed.

Lemma listdir_error_same (w w' : World) (p : string) :
  fs w' = fs w -> cwd w' = cwd w -> listdir_error w' p = listdir_error w p.
Proof.
  intros Hfs Hcwd. unfold listdir_error. rewrite !os_listdir_spec.
  unfold resolve, stat, missing, stat. rewrite Hfs, Hcwd.
  destruct (String.eqb p ""); [reflexivity|].
  match goal with |- context [match ?x with [] => Some Dir | _ => _ end] =>
    destruct x as [|c q] eqn:E end; [reflexivity|].
  destruct (lookup_path (fs w) (c :: q)) as [[|i]|]; reflexivity.
Qed.

(** A listing that does not fail answers with the entries of the
    directory. *)
Lemma os_listdir_run (p : string) (w : World) :
  os_listdir p w =
  (match listdir_error w p with
   | Some e => Raise e
   | None => Ok (children (fs w) (resolve w p))
   end, logged (EListdir p) w).
Proof.
  unfold listdir_error. rewrite os_listdir_spec.
  destruct (if String.eqb p "" then None else stat w (resolve w p)) as [[|i]|]; reflexivity.
Qed.

Lemma listdir_error_OSError (w : World) (p : string) (e : exn) :
  listdir_error w p = Some e -> is_OSError e = true.
Proof.
  unfold listdir_error. destruct (os_listdir p w) as [[names|e'] w'] eqn:E; [intros [=]|].
  intros [= <-]. apply os_listdir_inv in E as (_ & _ & He). exact (He _ eq_refl).
Qed.

(** A rescan in full: which listing fails decides what it raises, and
    when none fails it answers with the records of the files listed. *)
Lemma scanfolder_run (s : St) :
  _scanfolder s =
  match listdir_error (world s) (partition_dir s "new") with
  | Some e => (Raise e, mkSt (self s) (logged (EListdir (partition_dir s "new")) (world s)))
  | None =>
      (match listdir_error (world s) (partition_dir s "cur") with
       | Some e => Raise e
       | None => Ok (rescanned s)
       end,
       mkSt (self s) (logged (EListdir (partition_dir s "cur"))
                        (logged (EListdir (partition_dir s "new")) (world s))))
  end.
Proof.
  rewrite scanfolder_unfold. rewrite os_listdir_run.
  destruct (listdir_error (world s) (partition_dir s "new")); [reflexivity|].
  rewrite os_listdir_run.
  rewrite (listdir_error_same (world s) (logged _ (world s))) by reflexivity.
  destruct (listdir_error (world s) (partition_dir s "cur")); reflexivity.
Qed.

(** C1 (as corrected): [deletemessage] on a cached uid starts with the
    unlink of the cached location.  When that unlink succeeds, nothing
    else is called and the record leaves the cache.  When it raises,
    one rescan follows: the listing of [new] and then of [cur], the
    second only when the first did not fail.  A listing that fails
    ends [deletemessage] with its error, and the cache keeps the
    record.  When the rescan does not find the uid, no further call is
    made and the record leaves the cache.  When it finds the uid, the
    location it found, and no other, is unlinked once: if that unlink
    succeeds the record leaves the cache, and if it raises,
    [deletemessage] raises its error and the cache keeps the record.
    The file system is left as the one successful unlink leaves it,
    and untouched when there is none. *)
Theorem deletemessage_outcomes (s : St) (m : gmap Z msg) (u : Z) (r : msg) :
  messagelist (self s) = Some m ->
  m !! u = Some r ->
  exists (res : result unit) (s' : St) (tr : list event),
    deletemessage u s = (res, s') /\
    added (world s) (world s') (EUnlink (filename r) :: tr) /\
    match unlink_outcome (world s) (filename r) with
    | inr f =>
        tr = [] /\ res = Ok tt /\
        messagelist (self s') = Some (delete u m) /\ fs (world s') = f
    | inl _ =>
        match listdir_error (world s) (partition_dir s "new") with
        | Some e =>
            tr = [EListdir (partition_dir s "new")] /\ res = Raise e /\
            is_OSError e = true /\
            messagelist (self s') = Some m /\ fs (world s') = fs (world s)
        | None =>
            match listdir_error (world s) (partition_dir s "cur") with
            | Some e =>
                tr = [EListdir (partition_dir s "new"); EListdir (partition_dir s "cur")] /\
                res = Raise e /\ is_OSError e = true /\
                messagelist (self s') = Some m /\ fs (world s') = fs (world s)
            | None =>
                match rescanned s !! u with
                | None =>
                    tr = [EListdir (partition_dir s "new");
                          EListdir (partition_dir s "cur")] /\
                    res = Ok tt /\
                    messagelist (self s') = Some (delete u m) /\
                    fs (world s') = fs (world s)
                | Some r' =>
                    tr = [EListdir (partition_dir s "new");
                          EListdir (partition_dir s "cur"); EUnlink (filename r')] /\
                    match unlink_outcome (world s) (filename r') with
                    | inr f =>
                        res = Ok tt /\
                        messagelist (self s') = Some (delete u m) /\ fs (world s') = f
                    | inl e =>
                        res = Raise e /\ is_OSError e = true /\
                        messagelist (self s') = Some m /\ fs (world s') = fs (world s)
                    end
                end
            end
        end
    end.
Proof.
  intros Hm Hu. rewrite (deletemessage_unfold s m u r Hm Hu).
  unfold unlink_outcome at 1.
  destruct (os_unlink (filename r) (world s)) as [[[]|e] w1] eqn:Hun.
  - (* the first unlink succeeds *)
    eexists _, _, []. split; [reflexivity|].
    split; [exact (os_unlink_trace _ _ _ _ Hun)|]. repeat split.
  - rewrite (os_unlink_raises_OSError _ _ _ _ Hun).
    assert (Hw1 : w1 = logged (EUnlink (filename r)) (world s)).
    { revert Hun. rewrite os_unlink_spec.
      destruct (if String.eqb (filename r) "" then None else _) as [[|i]|];
        try destruct (may_modify _ _); intros [= _ <-]; reflexivity. }
    subst w1. clear Hun. rewrite scanfolder_run. cbn [self world].
    change (partition_dir (mkSt (self s) (logged (EUnlink (filename r)) (world s))))
      with (partition_dir s).
    change (rescanned (mkSt (self s) (logged (EUnlink (filename r)) (world s))))
      with (rescanned s).
    rewrite !(listdir_error_same (world s) (logged _ (world s))) by reflexivity.
    destruct (listdir_error (world s) (partition_dir s "new")) as [e1|] eqn:E1.
    { eexists _, _, [_]. split; [reflexivity|]. cbn [self world].
      split; [unfold added; cbn [trace logged]; rewrite <- !app_assoc; reflexivity|].
      repeat split; [exact (listdir_error_OSError _ _ _ E1)|exact Hm]. }
    destruct (listdir_error (world s) (partition_dir s "cur")) as [e2|] eqn:E2.
    { eexists _, _, [_; _]. split; [reflexivity|]. cbn [self world].
      split; [unfold added; cbn [trace logged]; rewrite <- !app_assoc; reflexivity|].
      repeat split; [exact (listdir_error_OSError _ _ _ E2)|exact Hm]. }
    destruct (rescanned s !! u) as [r'|].
    2:{ eexists _, _, [_; _]. split; [reflexivity|].
        cbn [self world with_messagelist messagelist]. rewrite Hm.
        split; [unfold added; cbn [trace logged]; rewrite <- !app_assoc; reflexivity|].
        repeat split. }
    cbn [self world].
    set (w2 := logged (EListdir (partition_dir s "cur"))
                 (logged (EListdir (partition_dir s "new"))
                    (logged (EUnlink (filename r)) (world s)))).
    rewrite <- (unlink_outcome_same (world s) w2 (filename r')) by reflexivity.
    unfold unlink_outcome.
    destruct (os_unlink (filename r') w2) as [[[]|e3] w3] eqn:Hun2;
      pose proof (os_unlink_trace _ _ _ _ Hun2) as Ht3;
      (eexists _, _, [_; _; _]; split; [reflexivity|]);
      cbn [self world with_messagelist messagelist]; rewrite ?Hm;
      (split; [unfold added in *; rewrite Ht3; unfold w2; cbn [trace logged];
               rewrite <- !app_assoc; reflexivity|]);
      (split; [reflexivity|]).
    + repeat split.
    + split; [reflexivity|]. split; [exact (os_unlink_raises_OSError _ _ _ _ Hun2)|].
      split; [reflexivity|].
      revert Hun2. rewrite os_unlink_spec.
      destruct (if String.eqb (filename r') "" then None else _) as [[|i]|];
        try destruct (may_modify _ _); intros [= _ <-]; reflexivity.
Qed.

(** ** Deleting an id that is not cached *)

(** C10: for an id that is absent from the loaded cache, [deletemessage]
    returns without an error and leaves the folder object and the world,
    trace included, exactly as they were: no system call, no cache
    change. *)
Theorem deletemessage_absent_is_silent (s : St) (m : gmap Z msg) (uid : Z) :
  messagelist (self s) = Some m ->
  m !! uid = None ->
  deletemessage uid s = (Ok tt, s).
Proof.
  intros Hm Hu. unfold deletemessage, messagelist_contains, bind, get, ret.
  rewrite Hm, Hu. rewrite bool_decide_eq_false_2; [reflexivity|].
  intros [x Hx]; discriminate.
Qed.

(** ** Saving under a placeholder id *)

(** C6: for a negative uid, [savemessage] returns the uid and leaves the
    folder object and the world, trace included, exactly as they were: no
    file is written and the cache is not touched. *)
Theorem savemessage_placeholder_is_noop
    (s : St) (uid : Z) (content : string) (flags : list ascii) :
  uid < 0 ->
  savemessage uid content flags s = (Ok uid, s).
Proof.
  intros Hneg. unfold savemessage.
  destruct (Z.ltb_spec uid 0) as [_|Hge]; [reflexivity|lia].
Qed.

End Rescan.

(** ** Strings, paths and patterns *)

#[local] Arguments String.append !s1 s2 / : simpl nomatch.

Lemma str_app_nil_r (s : string) : s +:+ "" = s.
Proof. induction s as [|c s IH]; simpl; [reflexivity|]. rewrite IH. reflexivity. Qed.

Lemma str_app_assoc (a b c : string) : (a +:+ b) +:+ c = a +:+ (b +:+ c).
Proof. induction a as [|x a IH]; simpl; [reflexivity|]. rewrite IH. reflexivity. Qed.

Lemma str_length_app (a b : string) :
  String.length (a +:+ b) = (String.length a + String.length b)%nat.
Proof. induction a as [|x a IH]; simpl; [reflexivity|]. rewrite IH. reflexivity. Qed.

Lemma str_forall_app (p : ascii -> bool) (a b : string) :
  str_forall p (a +:+ b) = str_forall p a && str_forall p b.
Proof.
  induction a as [|x a IH]; simpl; [reflexivity|].
  rewrite IH. apply andb_assoc.
Qed.

Lemma str_forall_impl (p q : ascii -> bool) (s : string) :
  (forall c, p c = true -> q c = true) ->
  str_forall p s = true -> str_forall q s = true.
Proof.
  intros Hpq. induction s as [|c s IH]; simpl; [reflexivity|].
  intros [Hc Hs]%andb_true_iff. rewrite (Hpq c Hc). simpl. auto.
Qed.

Lemma str_forall_of_list (p : ascii -> bool) (l : list ascii) :
  Forall (fun c => p c = true) l -> str_forall p (str_of_list l) = true.
Proof.
  induction 1 as [|c l Hc Hl IH]; simpl; [reflexivity|].
  rewrite Hc, IH. reflexivity.
Qed.

Lemma substring_all (s : string) : substring 0 (String.length s) s = s.
Proof. induction s as [|c s IH]; simpl; [reflexivity|]. rewrite IH. reflexivity. Qed.

Lemma is_upper_not_slash (c : ascii) : is_upper c = true -> is_slash c = false.
Proof.
  unfold is_upper, in_range, is_slash. intros H.
  destruct (Ascii.eqb_spec c "/") as [->|]; [|reflexivity].
  vm_compute in H. discriminate.
Qed.

Lemma is_upper_not_newline (c : ascii) : is_upper c = true -> not_newline c = true.
Proof.
  unfold is_upper, in_range, not_newline. intros H.
  destruct (Ascii.eqb_spec c newline) as [->|]; [|reflexivity].
  vm_compute in H. discriminate.
Qed.

(** *** [os.path] *)

Lemma cut_no_slash (s : string) :
  str_forall (fun c => negb (is_slash c)) s = true -> cut_last_slash s = ("", s).
Proof.
  induction s as [|c s IH]; simpl; [reflexivity|].
  intros [Hc Hs]%andb_true_iff. rewrite (IH Hs). simpl.
  apply negb_true_iff in Hc. rewrite Hc. reflexivity.
Qed.

Lemma cut_after_slash (pre tail : string) :
  str_forall (fun c => negb (is_slash c)) tail = true ->
  cut_last_slash (pre +:+ String "/" tail) = (pre +:+ "/", tail).
Proof.
  intros Ht. induction pre as [|c pre IH]; simpl.
  - rewrite (cut_no_slash _ Ht). reflexivity.
  - rewrite IH. destruct pre; reflexivity.
Qed.

Lemma endswith_slash_app (a b : string) :
  b <> "" -> endswith_slash (a +:+ b) = endswith_slash b.
Proof.
  intros Hb. induction a as [|c a IH]; [reflexivity|].
  simpl. rewrite IH. destruct (a +:+ b) eqn:E; [|reflexivity].
  destruct a; [simpl in E; contradiction|discriminate].
Qed.

(** Joining a name that does not start with a slash appends it, with a
    slash in between if needed. *)
Lemma path_join_suffix (a b : string) :
  startswith "/" b = false -> exists pre, path_join a b = pre +:+ b.
Proof.
  intros Hb. unfold path_join. rewrite Hb.
  destruct (String.eqb a "" || endswith_slash a).
  - exists a. reflexivity.
  - exists (a +:+ "/"). rewrite str_app_assoc. reflexivity.
Qed.

Lemma path_join_plain (a b : string) :
  startswith "/" b = false -> a <> "" -> endswith_slash a = false ->
  path_join a b = a +:+ String "/" b.
Proof.
  intros Hb Ha He. unfold path_join. rewrite Hb, He.
  destruct (String.eqb_spec a ""); [contradiction|]. reflexivity.
Qed.

(** *** The patterns of [savemessageflags] *)

Lemma many_all {T : Type} (cls : ascii -> bool) (k : string -> option T) (s : string) (t : T) :
  str_forall cls s = true -> k "" = Some t ->
  many cls 0 None k s = Some t.
Proof.
  intros Hs Hk. induction s as [|c s IH]; simpl; [exact Hk|].
  simpl in Hs. apply andb_true_iff in Hs as [Hc Hs].
  rewrite Hc. simpl. rewrite (IH Hs). reflexivity.
Qed.

(** The info pattern finds the first colon and runs to the end of a
    name without newlines. *)
Lemma search_info (base rest : string) :
  str_forall (fun c => negb (Ascii.eqb c ":")) base = true ->
  str_forall not_newline rest = true ->
  re_search infore (base +:+ String ":" rest) = Some (String ":" rest).
Proof.
  intros Hb Hr. induction base as [|c base IH].
  - simpl. rewrite (many_all not_newline _ rest (String ":" rest) Hr).
    + reflexivity.
    + simpl. rewrite substring_all. reflexivity.
  - simpl in Hb. apply andb_true_iff in Hb as [Hc Hb].
    apply negb_true_iff in Hc.
    cbn [append re_search]. unfold infore at 1. cbn [run lit_match].
    rewrite Ascii.eqb_sym, Hc. exact (IH Hb).
Qed.

Lemma split_head (sep : ascii) (base rest : string) :
  str_forall (fun c => negb (Ascii.eqb c sep)) base = true ->
  head (split_on sep (base +:+ String sep rest)) = Some base.
Proof.
  intros Hb. induction base as [|c base IH]; simpl.
  - rewrite Ascii.eqb_refl. reflexivity.
  - simpl in Hb. apply andb_true_iff in Hb as [Hc Hb].
    apply negb_true_iff in Hc. rewrite Hc.
    specialize (IH Hb). destruct (split_on sep _); [discriminate|].
    simpl in *. congruence.
Qed.

Lemma re_sub_skip_all (r : regex) (n : nat) (s : string) :
  (String.length s <= n)%nat -> re_sub_aux r n s = "".
Proof.
  revert n. induction s as [|c s IH]; intros n Hn; [reflexivity|].
  simpl in *. destruct n as [|n]; [lia|]. apply IH. lia.
Qed.

(** Removing the old flags from the info string of a canonical name
    leaves the colon. *)
Lemma sub_old_flags (letters : string) :
  str_forall is_upper letters = true ->
  re_sub oldflagsre (String ":" (String "2" (String "," letters))) = ":".
Proof.
  intros Hl. unfold re_sub. cbn [re_sub_aux].
  replace (run oldflagsre None (String ":" _) _) with (@None nat) by reflexivity.
  f_equal.
  unfold oldflagsre, star. cbn [run lit_match]. simpl Ascii.eqb. cbn iota.
  erewrite many_all; [|exact Hl|reflexivity].
  cbn [String.length Nat.sub]. apply re_sub_skip_all. simpl. lia.
Qed.

Lemma startswith_slash_false (s : string) :
  str_forall (fun c => negb (is_slash c)) s = true -> startswith "/" s = false.
Proof.
  destruct s as [|c s]; [reflexivity|]. simpl.
  intros [Hc _]%andb_true_iff. apply negb_true_iff in Hc.
  unfold startswith. cbn [lit_match]. unfold is_slash in Hc.
  rewrite Ascii.eqb_sym, Hc. reflexivity.
Qed.

Lemma sort_flags_upper (F : list ascii) :
  Forall (fun c => is_upper c = true) F ->
  str_forall is_upper (str_of_list (sort_flags F)) = true.
Proof.
  intros HF. apply str_forall_of_list.
  rewrite (sort_flags_perm F). exact HF.
Qed.

Section SetFlags.
Import MaildirFolder.

(** The name [savemessageflags] computes for a message whose file name
    is already in canonical form is that very name. *)
Lemma canonical_name_rebuilt (base letters tail : string) :
  str_forall (fun c => negb (is_slash c) && negb (Ascii.eqb c ":")) base = true ->
  str_forall is_upper letters = true ->
  tail = base +:+ ":2," +:+ letters ->
  match re_search infore tail with
  | Some info => (info, default "" (head (split_on ":" tail)))
  | None => (":", tail)
  end = (":2," +:+ letters, base)
  /\ base +:+ (re_sub oldflagsre (":2," +:+ letters) +:+ "2," +:+ letters) = tail.
Proof.
  intros Hb Hl ->.
  assert (Hc : str_forall (fun c => negb (Ascii.eqb c ":")) base = true).
  { eapply str_forall_impl; [|exact Hb].
    intros c Hc; apply andb_true_iff in Hc; tauto. }
  cbn [append].
  rewrite search_info, split_head, sub_old_flags; try assumption.
  - split; reflexivity.
  - simpl. eapply str_forall_impl; [|exact Hl]. exact is_upper_not_newline.
Qed.

(** A location that is already the canonical one for the flags is the
    location [savemessageflags] computes: the file lies in [cur] if the
    flags contain S and in [new] otherwise, under a name that ends in
    one colon, 2, a comma and the sorted capital flag letters. *)
Lemma canonical_location_rebuilt (s : St) (file base : string) (F : list ascii) :
  Forall (fun c => is_upper c = true) F ->
  str_forall (fun c => negb (is_slash c) && negb (Ascii.eqb c ":")) base = true ->
  file = path_join (partition_dir s (flags_partition F))
                   (base +:+ ":2," +:+ str_of_list (sort_flags F)) ->
  flagged_path s file F = file.
Proof.
  intros HF Hb Hfile.
  pose proof (sort_flags_upper F HF) as Hl.
  set (letters := str_of_list (sort_flags F)) in *.
  set (tail := base +:+ ":2," +:+ letters) in *.
  set (part := flags_partition F) in *.
  assert (Htail : str_forall (fun c => negb (is_slash c)) tail = true).
  { unfold tail. rewrite str_forall_app. apply andb_true_iff. split.
    - eapply str_forall_impl; [|exact Hb].
      intros c Hc; apply andb_true_iff in Hc; tauto.
    - simpl. eapply str_forall_impl; [|exact Hl].
      intros c Hc. rewrite (is_upper_not_slash c Hc). reflexivity. }
  assert (Hpart : startswith "/" part = false)
    by (unfold part, flags_partition; destruct (bool_decide _); reflexivity).
  destruct (path_join_suffix (path_join (root (self s)) (name (self s))) part Hpart)
    as [pre Hpre].
  assert (Hdir : partition_dir s part <> "" /\ endswith_slash (partition_dir s part) = false).
  { unfold partition_dir. rewrite Hpre. split.
    - unfold part, flags_partition. destruct (bool_decide _), pre; discriminate.
    - rewrite endswith_slash_app; unfold part, flags_partition; destruct (bool_decide _);
        first [reflexivity | discriminate]. }
  destruct Hdir as [Hne Hes].
  rewrite (path_join_plain _ tail (startswith_slash_false _ Htail) Hne Hes) in Hfile.
  unfold flagged_path, flagged_name, basename, path_split. fold part.
  rewrite Hfile, (cut_after_slash _ tail Htail). cbn [snd].
  destruct (canonical_name_rebuilt base letters tail Hb Hl eq_refl) as [Hinfo Hname].
  rewrite Hinfo. fold letters. rewrite Hname.
  apply path_join_plain; [exact (startswith_slash_false _ Htail)|exact Hne|exact Hes].
Qed.

End SetFlags.

(** ** The folder store on concrete folders *)

Section FolderExamples.
Import MaildirFolder Fixtures.

(** The fixtures are what a rescan of their worlds caches. *)
Example one_message_is_scanned :
  cachemessagelist not_yet_scanned = (Ok tt,
    mkSt (self one_message)
         (logged (EListdir "/Mail/INBOX/cur")
            (logged (EListdir "/Mail/INBOX/new") (world one_message)))).
Proof. vm_compute. reflexivity. Qed.

Lemma deletemessage_absent_witness :
  messagelist (self one_message) = Some {[ 5 := record5 ]} /\
  ({[ 5 := record5 ]} : gmap Z msg) !! 7 = None /\
  deletemessage 7 one_message = (Ok tt, one_message).
Proof.
  split; [reflexivity|]. split; [reflexivity|].
  apply (deletemessage_absent_is_silent one_message {[ 5 := record5 ]} 7); reflexivity.
Defined.

Lemma savemessage_placeholder_witness :
  -3 < 0 /\ savemessage (-3) "hello" [] one_message = (Ok (-3), one_message).
Proof.
  split; [lia|].
  apply (savemessage_placeholder_is_noop one_message (-3) "hello" []). lia.
Defined.

(** C1, counterexample: the cached file of message 5 is gone, the
    rescan finds the message in [cur], and [cur] is read-only.  The
    second unlink raises, [deletemessage] raises with it, and the cache
    still holds the record. *)
Lemma deletemessage_keeps_record_when_retry_fails :
  exists s',
    deletemessage 5 stale = (Raise (OSError EACCES), s') /\
    messagelist (self s') = Some {[ 5 := stale_record ]} /\
    trace (world s') =
      [ EUnlink ("/Mail/INBOX/new/" +:+ base5);
        EListdir "/Mail/INBOX/new"; EListdir "/Mail/INBOX/cur";
        EUnlink ("/Mail/INBOX/cur/" +:+ name5) ].
Proof. eexists. vm_compute. repeat split; reflexivity. Qed.

Lemma deletemessage_outcomes_witness :
  exists s' : St,
    deletemessage 5 moved = (Ok tt, s') /\
    added (world moved) (world s')
      [ EUnlink ("/Mail/INBOX/new/" +:+ base5);
        EListdir "/Mail/INBOX/new"; EListdir "/Mail/INBOX/cur";
        EUnlink ("/Mail/INBOX/cur/" +:+ name5) ] /\
    messagelist (self s') = Some (delete 5 ({[ 5 := stale_record ]} : gmap Z msg)) /\
    stat (world s') ["Mail"; "INBOX"; "cur"; name5] = None.
Proof.
  destruct (deletemessage_outcomes moved {[ 5 := stale_record ]} 5 stale_record)
    as (res & s' & tr & E & Ha & H); [reflexivity|reflexivity|].
  vm_compute in H. destruct H as (Htr & Hres & Hm & Hfs).
  exists s'. rewrite Hres in E. rewrite Htr in Ha.
  split; [exact E|]. split; [exact Ha|]. split; [exact Hm|].
  unfold stat. rewrite (Hfs : fs (world s') = _). vm_compute. reflexivity.
Defined.

(** C4, counterexample: the file name repeats the flag S; the rescan
    caches the flags S, S, which are not strictly ascending and hold a
    duplicate. *)
Lemma rescan_keeps_repeated_flag :
  exists (m : gmap Z msg) (s' : St) (r : msg),
    _scanfolder repeated_flag = (Ok m, s') /\
    m !! (-1) = Some r /\
    flags r = ["S"%char; "S"%char] /\
    ~ NoDup (flags r) /\
    ~ Sorted (fun a b => ord a < ord b) (flags r).
Proof.
  eexists _, _, _. split; [vm_compute; reflexivity|].
  split; [vm_compute; reflexivity|]. cbn [flags].
  split; [reflexivity|]. split.
  - intros H. apply NoDup_cons in H as [H _]. apply H. left.
  - intros H. inversion H as [|a l Hs Hd]; subst. inversion Hd as [|b l' Hlt]; subst.
    vm_compute in Hlt. discriminate.
Qed.

Lemma rescan_records_sorted_witness :
  _scanfolder repeated_flag =
    (Ok (scan_files "INBOX" ["/Mail/INBOX/cur/1700000000_0.123.host:2,SS"]),
     mkSt (self repeated_flag)
          (logged (EListdir "/Mail/INBOX/cur")
             (logged (EListdir "/Mail/INBOX/new") (world repeated_flag)))) /\
  NoDup (map fst (map_to_list
           (scan_files "INBOX" ["/Mail/INBOX/cur/1700000000_0.123.host:2,SS"]))) /\
  forall (u : Z) (r : msg),
    scan_files "INBOX" ["/Mail/INBOX/cur/1700000000_0.123.host:2,SS"] !! u = Some r ->
    uid r = u /\ Sorted char_le (flags r).
Proof.
  split; [vm_compute; reflexivity|].
  apply (rescan_records_sorted repeated_flag
           (mkSt (self repeated_flag)
              (logged (EListdir "/Mail/INBOX/cur")
                 (logged (EListdir "/Mail/INBOX/new") (world repeated_flag))))
           (scan_files "INBOX" ["/Mail/INBOX/cur/1700000000_0.123.host:2,SS"])).
  vm_compute. reflexivity.
Defined.

(** C3, counterexample: [cur] holds two files that carry uid 5.  The
    two worlds differ only in the order of the listing, and the rescans
    cache different records under the positive uid 5. *)
Lemma rescan_depends_on_listing_order :
  exists (m1 m2 : gmap Z msg) (s1' s2' : St),
    _scanfolder twice5_ab = (Ok m1, s1') /\
    _scanfolder twice5_ba = (Ok m2, s2') /\
    listed_files twice5_ab "new" ≡ₚ listed_files twice5_ba "new" /\
    listed_files twice5_ab "cur" ≡ₚ listed_files twice5_ba "cur" /\
    m1 !! 5 = Some (mkMsg 5 ["S"%char; "T"%char] ("/Mail/INBOX/cur/" +:+ name5')) /\
    m2 !! 5 = Some (mkMsg 5 ["S"%char] ("/Mail/INBOX/cur/" +:+ name5)) /\
    m1 !! 5 <> m2 !! 5.
Proof.
  eexists _, _, _, _.
  split; [vm_compute; reflexivity|]. split; [vm_compute; reflexivity|].
  split; [vm_compute; reflexivity|]. split; [vm_compute; apply perm_swap|].
  split; [vm_compute; reflexivity|]. split; [vm_compute; reflexivity|].
  vm_compute. discriminate.
Qed.

Lemma rescan_order_independent_witness :
  let m1 := scan_files "INBOX" ["/Mail/INBOX/cur/" +:+ name5; "/Mail/INBOX/cur/" +:+ name6] in
  let m2 := scan_files "INBOX" ["/Mail/INBOX/cur/" +:+ name6; "/Mail/INBOX/cur/" +:+ name5] in
  m1 !! 5 = m2 !! 5.
Proof.
  intros m1 m2.
  apply (rescan_order_independent (inbox None) two_messages_ab two_messages_ba
           (mkSt (inbox None)
              (logged (EListdir "/Mail/INBOX/cur")
                 (logged (EListdir "/Mail/INBOX/new") two_messages_ab)))
           (mkSt (inbox None)
              (logged (EListdir "/Mail/INBOX/cur")
                 (logged (EListdir "/Mail/INBOX/new") two_messages_ba)))
           m1 m2).
  - vm_compute. reflexivity.
  - vm_compute. reflexivity.
  - vm_compute. reflexivity.
  - vm_compute. apply perm_swap.
  - vm_compute. constructor.
  - vm_compute. apply NoDup_cons. split; [|apply NoDup_singleton].
    intros H%list_elem_of_singleton. discriminate H.
  - lia.
Defined.

(** C5, counterexample: both cached messages are given the flags they
    already hold.  The delivered message has no info suffix yet, so its
    file is renamed to get one; message 5 is flagged S but lies in
    [new], so its file is moved to [cur].  In both cases the cached
    location changes. *)
Lemma savemessageflags_same_flags_renames :
  (exists s',
     savemessageflags (-1) (flags delivered_record) delivered = (Ok tt, s') /\
     trace (world s') = [ ERename "/Mail/INBOX/new/1700000050.4711.mx"
                                  "/Mail/INBOX/new/1700000050.4711.mx:2," ] /\
     (messagelist (self s') ≫= (fun m => filename <$> m !! (-1)))
       = Some "/Mail/INBOX/new/1700000050.4711.mx:2,") /\
  (exists s',
     savemessageflags 5 (flags seen_in_new_record) delivered = (Ok tt, s') /\
     trace (world s') = [ ERename ("/Mail/INBOX/new/" +:+ name5)
                                  ("/Mail/INBOX/cur/" +:+ name5) ] /\
     (messagelist (self s') ≫= (fun m => filename <$> m !! 5))
       = Some ("/Mail/INBOX/cur/" +:+ name5)).
Proof.
  split; eexists; (split; [vm_compute; reflexivity|]); split; vm_compute; reflexivity.
Qed.

End FolderExamples.

(** ** What a repository method leaves alone *)

Lemma os_path_exists_inv (p : string) (w w' : World) (r : result bool) :
  os_path_exists p w = (r, w') ->
  w' = logged (EExists p) w /\
  r = Ok (negb (String.eqb p "") && bool_decide (is_Some (stat w (resolve w p)))).
Proof. unfold os_path_exists, bind, log, modify, get, ret. intros [= <- <-]. split; reflexivity. Qed.

Lemma os_path_isdir_inv (p : string) (w w' : World) (r : result bool) :
  os_path_isdir p w = (r, w') ->
  w' = logged (EIsdir p) w /\
  r = Ok (negb (String.eqb p "") && bool_decide (stat w (resolve w p) = Some Dir)).
Proof. unfold os_path_isdir, bind, log, modify, get, ret. intros [= <- <-]. split; reflexivity. Qed.

Lemma os_path_getatime_inv (p : string) (w w' : World) (r : result Z) :
  os_path_getatime p w = (r, w') -> w' = logged (EGetatime p) w.
Proof.
  unfold os_path_getatime, bind, log, modify, get, ret, raise. simpl.
  destruct (String.eqb p ""); [intros [= <- <-]; reflexivity|].
  destruct (stat _ _); intros [= <- <-]; reflexivity.
Qed.

Lemma file_read_inv (p : string) (w w' : World) (r : result string) :
  file_read p w = (r, w') -> w' = logged (ERead p) w.
Proof.
  unfold file_read, bind, log, modify, get, ret, raise. simpl.
  destruct (String.eqb p ""); [intros [= <- <-]; reflexivity|].
  destruct (stat _ _) as [[|i]|]; intros [= <- <-]; reflexivity.
Qed.

Section Frames.
Import MaildirRepository.

Variable keep : bool.
Variable P : event -> bool.

Lemma frame_refl (s : St) : frame keep P s s.
Proof.
  split; [|auto]. exists []. split; [|reflexivity].
  unfold added. rewrite app_nil_r. reflexivity.
Qed.

Lemma frame_trans (s1 s2 s3 : St) : frame keep P s1 s2 -> frame keep P s2 s3 -> frame keep P s1 s3.
Proof.
  intros [(t1 & H1 & F1) (C1 & D1 & N1 & S1)] [(t2 & H2 & F2) (C2 & D2 & N2 & S2)].
  split; [|split; [intros Hk; rewrite (C2 Hk); exact (C1 Hk)|repeat split; congruence]].
  exists (t1 ++ t2). unfold added in *. split.
  - rewrite H2, H1, app_assoc. reflexivity.
  - rewrite forallb_app, F1, F2. reflexivity.
Qed.

Lemma frame_logged (e : event) (s : St) :
  P e = true ->
  frame keep P s (mkSt (self s) (logged e (world s)) (cache s) (dirty_status s)).
Proof.
  intros He. split; [|auto]. exists [e]. split; [reflexivity|].
  simpl. rewrite He. reflexivity.
Qed.

Lemma quiet_ret {A : Type} (a : A) : quiet keep P (ret a).
Proof. intros s r s' [= <- <-]. apply frame_refl. Qed.

Lemma quiet_raise {A : Type} (e : exn) : quiet keep P (raise (A := A) e).
Proof. intros s r s' [= <- <-]. apply frame_refl. Qed.

Lemma quiet_get : quiet keep P get.
Proof. intros s r s' [= <- <-]. apply frame_refl. Qed.

Lemma quiet_bind {A B : Type} (c : M St A) (k : A -> M St B) :
  quiet keep P c -> (forall a, quiet keep P (k a)) -> quiet keep P (bind c k).
Proof.
  intros Hc Hk s r s'. unfold bind.
  destruct (c s) as [[a|e] s1] eqn:E.
  - intros H. eapply frame_trans; [exact (Hc _ _ _ E)|exact (Hk _ _ _ _ H)].
  - intros [= <- <-]. exact (Hc _ _ _ E).
Qed.

Lemma quiet_try_except {A : Type} (c : M St A) (handles : exn -> bool)
    (handler : exn -> M St A) :
  quiet keep P c -> (forall e, quiet keep P (handler e)) -> quiet keep P (try_except c handles handler).
Proof.
  intros Hc Hh s r s'. unfold try_except.
  destruct (c s) as [[a|e] s1] eqn:E.
  - intros [= <- <-]. exact (Hc _ _ _ E).
  - destruct (handles e).
    + intros H. eapply frame_trans; [exact (Hc _ _ _ E)|exact (Hh _ _ _ _ H)].
    + intros [= <- <-]. exact (Hc _ _ _ E).
Qed.

Lemma quiet_for_each {A : Type} (xs : list A) (body : A -> M St unit) :
  (forall x, quiet keep P (body x)) -> quiet keep P (for_each xs body).
Proof.
  intros Hb. induction xs as [|x xs IH]; simpl.
  - apply quiet_ret.
  - apply quiet_bind; [apply Hb|intros _; exact IH].
Qed.

Lemma quiet_map_m {A B : Type} (f : A -> M St B) (xs : list A) :
  (forall x, quiet keep P (f x)) -> quiet keep P (map_m f xs).
Proof.
  intros Hf. induction xs as [|x xs IH]; simpl.
  - apply quiet_ret.
  - apply quiet_bind; [apply Hf|intros y].
    apply quiet_bind; [exact IH|intros ys; apply quiet_ret].
Qed.

(** A system call that only adds the event [e] to the trace. *)
Lemma quiet_os {A : Type} (c : M World A) (e : event) :
  P e = true ->
  (forall w r w', c w = (r, w') -> w' = logged e w) ->
  quiet keep P (os c).
Proof.
  intros He Hc s r s'. unfold os. cbn [the_world with_world St_HasWorld].
  destruct (c (world s)) as [r0 w'] eqn:E. intros [= <- <-].
  rewrite (Hc _ _ _ E). apply frame_logged. exact He.
Qed.

Lemma quiet_log (e : event) : P e = true -> quiet keep P (os (log e)).
Proof. intros He. apply (quiet_os _ e He). intros w r w' [= <- <-]. reflexivity. Qed.

Lemma quiet_listdir (p : string) : P (EListdir p) = true -> quiet keep P (os (os_listdir p)).
Proof.
  intros He. apply (quiet_os _ _ He). intros w r w' H.
  apply os_listdir_inv in H. tauto.
Qed.

Lemma quiet_isdir (p : string) : P (EIsdir p) = true -> quiet keep P (os (os_path_isdir p)).
Proof.
  intros He. apply (quiet_os _ _ He). intros w r w' H.
  apply os_path_isdir_inv in H. tauto.
Qed.

Lemma quiet_exists (p : string) : P (EExists p) = true -> quiet keep P (os (os_path_exists p)).
Proof.
  intros He. apply (quiet_os _ _ He). intros w r w' H.
  apply os_path_exists_inv in H. tauto.
Qed.

Lemma quiet_getatime (p : string) :
  P (EGetatime p) = true -> quiet keep P (os (os_path_getatime p)).
Proof.
  intros He. apply (quiet_os _ _ He). intros w r w' H.
  exact (os_path_getatime_inv _ _ _ _ H).
Qed.

Lemma quiet_read (p : string) : P (ERead p) = true -> quiet keep P (os (file_read p)).
Proof.
  intros He. apply (quiet_os _ _ He). intros w r w' H.
  exact (file_read_inv _ _ _ _ H).
Qed.

Lemma frame_same_world (s s' : St) :
  world s' = world s -> (keep = true -> cache s' = cache s) ->
  dirty_status s' = dirty_status s ->
  deletecounter (self s') = deletecounter (self s) ->
  conf_sep (self s') = conf_sep (self s) ->
  frame keep P s s'.
Proof.
  intros Hw Hc Hd Hn Hs. split; [|auto]. exists []. split; [|reflexivity].
  unfold added. rewrite Hw, app_nil_r. reflexivity.
Qed.

Lemma quiet_set_folders (f : option (list MaildirFolder.t)) : quiet keep P (set_folders f).
Proof. intros s r s' [= <- <-]. apply frame_same_world; auto. Qed.

Lemma quiet_set_folder_atimes (a : list (string * Z * Z)) : quiet keep P (set_folder_atimes a).
Proof. intros s r s' [= <- <-]. apply frame_same_world; auto. Qed.

Lemma quiet_getsep : quiet keep P getsep.
Proof. intros s r s' [= <- <-]. apply frame_refl. Qed.

Lemma quiet_call {A : Type} (e : event) (answer : list event -> result A) :
  P e = true -> quiet keep P (call e answer).
Proof.
  intros He. unfold call. apply quiet_bind; [apply quiet_get|intros s0].
  apply quiet_bind; [apply quiet_log; exact He|intros _].
  destruct (answer _); [apply quiet_ret|apply quiet_raise].
Qed.

Lemma quiet_cache_item (name : string) : quiet keep P (cache_item name).
Proof.
  unfold cache_item. apply quiet_bind; [apply quiet_get|intros s0].
  destruct (cache s0 !! name); [apply quiet_ret|apply quiet_raise].
Qed.

Lemma separator_frame (s s' : St) : frame keep P s s' -> separator s' = separator s.
Proof. intros (_ & _ & _ & _ & H). unfold separator. rewrite H. reflexivity. Qed.

Lemma frame_weaken (s s' : St) : frame true P s s' -> frame keep P s s'.
Proof. intros (Ht & Hc & Hrest). split; [exact Ht|]. split; [auto|exact Hrest]. Qed.

End Frames.

Section LooseFrames.
Import MaildirRepository.
Variable P : event -> bool.

Lemma quiet_set_cache (c : gmap string (gmap Z smsg)) : quiet false P (set_cache c).
Proof. intros s r s' [= <- <-]. apply frame_same_world; auto. discriminate. Qed.

Lemma quiet_set_fs (f : list (path * node)) : quiet false P (os (set_fs f)).
Proof.
  intros s r s' [= <- <-]. split; [|repeat split; auto; discriminate].
  exists []. split; [|reflexivity]. unfold added. simpl. rewrite app_nil_r. reflexivity.
Qed.

End LooseFrames.

Create HintDb quiet.

#[export] Hint Resolve quiet_ret quiet_raise quiet_get quiet_set_folders
  quiet_set_folder_atimes quiet_getsep quiet_log quiet_listdir quiet_isdir
  quiet_exists quiet_getatime quiet_read quiet_call quiet_cache_item
  quiet_set_cache quiet_set_fs : quiet.

(** One step through a computation: split a [bind], or case on the
    scrutinee of an [if] or a [match]. *)
Ltac quiet_step :=
  match goal with
  | |- quiet _ _ (bind _ _) => apply quiet_bind; [|intros ?]
  | |- quiet _ _ (if ?b then _ else _) => destruct b
  | |- quiet _ _ (match ?x with _ => _ end) => destruct x
  | |- quiet _ _ (try_except _ _ _) => apply quiet_try_except; [|intros ?]
  | |- quiet _ _ (for_each _ _) => apply quiet_for_each; intros ?
  | |- quiet _ _ (map_m _ _) => apply quiet_map_m; intros ?
  | |- quiet _ _ _ => solve [auto with quiet]
  end.

Section RepositoryFrames.
Import MaildirRepository.
Variable construct : list arg -> result MaildirFolder.t.
Variable keep : bool.
Variable P : event -> bool.
Hypothesis P_listdir : forall p, P (EListdir p) = true.
Hypothesis P_isdir : forall p, P (EIsdir p) = true.
Hypothesis P_getatime : forall p, P (EGetatime p) = true.

Lemma quiet_append_folder_atimes (foldername : string) :
  quiet keep P (_append_folder_atimes foldername).
Proof. unfold _append_folder_atimes. repeat quiet_step. Qed.

Lemma quiet_getfolders_scandir (depth : nat) (root : string) (extension : option string) :
  quiet keep P (_getfolders_scandir construct depth root extension).
Proof.
  revert extension. induction depth as [|depth IH]; intros extension; cbn [_getfolders_scandir].
  - apply quiet_raise.
  - pose proof quiet_append_folder_atimes. repeat quiet_step; auto with quiet.
Qed.

Lemma quiet_getfolders : quiet keep P (getfolders construct).
Proof.
  unfold getfolders. pose proof quiet_getfolders_scandir. repeat quiet_step; auto with quiet.
Qed.

Lemma quiet_getfolder (foldername : string) : quiet keep P (getfolder construct foldername).
Proof. unfold getfolder. pose proof quiet_getfolders. repeat quiet_step; auto with quiet. Qed.

End RepositoryFrames.

(** ** Creating and discovering folders *)

Section MakeFolder.
Import MaildirRepository.

Lemma for_each_assert {S A : Type} (xs : list A) (ok : A -> bool) (msg : string) (s : S) :
  for_each xs (fun x => assert (ok x) msg) s =
  if forallb ok xs then (Ok tt, s) else (Raise (AssertionError msg), s).
Proof.
  induction xs as [|x xs IH]; [reflexivity|].
  cbn [for_each forallb]. unfold bind, assert at 1.
  destruct (ok x); [exact IH|reflexivity].
Qed.

(** C7 (as corrected): outside dry-run mode, a folder name that contains
    [../], or begins with [/], or (when the separator is [/]) has a
    segment equal to [new], [cur] or [tmp], makes [makefolder] raise an
    [AssertionError] with the repository object and the world exactly as
    they were: no system call has been made.  In dry-run mode
    [makefolder] returns before it validates anything. *)
Theorem makefolder_rejects_before_any_call (s : St) (foldername : string) :
  dryrun (self s) = false ->
  contains "../" foldername = true \/
  startswith "/" foldername = true \/
  (separator s = "/" /\
   exists component, component ∈ split_on "/" foldername /\ component ∈ reserved) ->
  exists msg, makefolder foldername s = (Raise (AssertionError msg), s).
Proof.
  intros Hdry Hbad. unfold makefolder.
  unfold bind at 1, get at 1. rewrite Hdry.
  unfold bind at 1, getsep at 1, bind at 1, get at 1, ret at 1.
  fold (separator s). unfold bind at 1.
  set (ok := fun component : string => negb (bool_decide (component ∈ reserved))).
  destruct (String.eqb_spec (separator s) "/") as [Hsep|Hsep].
  - rewrite (for_each_assert (split_on "/" foldername) ok).
    destruct (forallb ok (split_on "/" foldername)) eqn:Hall; [|eauto].
    assert (Hrest : contains "../" foldername = true \/ startswith "/" foldername = true).
    { destruct Hbad as [H|[H|(_ & c & Hc & Hr)]]; auto.
      exfalso. rewrite forallb_forall in Hall.
      apply list_elem_of_In in Hc. specialize (Hall c Hc). unfold ok in Hall.
      rewrite bool_decide_eq_true_2 in Hall by exact Hr. discriminate. }
    unfold bind at 1, assert at 1.
    destruct (contains "../" foldername); [eauto|].
    destruct Hrest as [[=]|Hs]. cbn [negb].
    unfold bind at 1, assert at 1. rewrite Hs. eauto.
  - assert (Hrest : contains "../" foldername = true \/ startswith "/" foldername = true).
    { destruct Hbad as [H|[H|(Heq & _)]]; auto; contradiction. }
    unfold ret at 1. unfold bind at 1, assert at 1.
    destruct (contains "../" foldername); [eauto|].
    destruct Hrest as [[=]|Hs]. cbn [negb].
    unfold bind at 1, assert at 1. rewrite Hs. eauto.
Qed.

End MakeFolder.

(** ** The repository on concrete worlds *)

Section RepositoryExamples.
Import MaildirRepository Fixtures RepoFixtures MoveFixtures.

(** C7, counterexample: in dry-run mode a name with a parent-directory
    segment is not rejected; [makefolder] returns without an error (and
    without creating anything).  Outside dry-run mode the check is on
    the text [../]: a name whose last segment is [..] passes it, and the
    three partitions are created in the directory above the root. *)
Lemma makefolder_accepts_traversal :
  (contains "../" "../outside" = true /\
   makefolder "../outside"
     (start (repository (Some "/") true 0) (base_world [(["Mail"], Dir)] []))
   = (Ok tt, start (repository (Some "/") true 0) (base_world [(["Mail"], Dir)] []))) /\
  (split_on "/" ".." = [".."] /\
   exists s',
     makefolder ".."
       (start (repository (Some "/") false 0) (base_world [(["Mail"], Dir)] []))
     = (Ok tt, s') /\
     fs (world s') = [(["Mail"], Dir); (["cur"], Dir); (["new"], Dir); (["tmp"], Dir)]).
Proof.
  split; [split; reflexivity|].
  split; [reflexivity|]. eexists. split; vm_compute; reflexivity.
Qed.

Lemma makefolder_rejects_witness :
  dryrun (self (start (repository (Some "/") false 0) (base_world [(["Mail"], Dir)] [])))
    = false /\
  contains "../" "../outside" = true /\
  exists msg,
    makefolder "../outside"
      (start (repository (Some "/") false 0) (base_world [(["Mail"], Dir)] []))
    = (Raise (AssertionError msg),
       start (repository (Some "/") false 0) (base_world [(["Mail"], Dir)] [])).
Proof.
  split; [reflexivity|]. split; [reflexivity|].
  apply (makefolder_rejects_before_any_call
           (start (repository (Some "/") false 0) (base_world [(["Mail"], Dir)] []))
           "../outside").
  - reflexivity.
  - left. reflexivity.
Defined.

(** C8: [makefolder("a/b/c")] succeeds, the folder and its three
    partitions exist, and a second [makefolder("a/b/c")] succeeds and
    leaves the file system as it is.  But discovery does not return the
    folder: [_getfolders_scandir] calls the constructor of
    folder/Maildir.py with four arguments, the constructor takes five,
    and [getfolders] raises a [TypeError]. *)
Theorem discover_after_makefolder_raises :
  makefolder "a/b/c"
    (start (repository (Some "/") false 0) (base_world [(["Mail"], Dir)] []))
    = (Ok tt, after_makefolder) /\
  stat (world after_makefolder) ["Mail"; "a"; "b"; "c"; "cur"] = Some Dir /\
  stat (world after_makefolder) ["Mail"; "a"; "b"; "c"; "new"] = Some Dir /\
  stat (world after_makefolder) ["Mail"; "a"; "b"; "c"; "tmp"] = Some Dir /\
  (exists s', makefolder "a/b/c" after_makefolder = (Ok tt, s') /\
              fs (world s') = fs (world after_makefolder)) /\
  (exists s', getfolders MaildirFolder.__init__ after_makefolder = (Raise TypeError, s')).
Proof.
  split; [vm_compute; reflexivity|].
  split; [vm_compute; reflexivity|].
  split; [vm_compute; reflexivity|].
  split; [vm_compute; reflexivity|].
  split; eexists; [split|]; vm_compute; reflexivity.
Qed.

End RepositoryExamples.

(* ===================================================================== *)
(** * Further properties of the folder store *)
(* ===================================================================== *)

(** ** The file table *)

Lemma lookup_path_app (f g : list (path * node)) (p : path) :
  lookup_path (f ++ g) p =
  match lookup_path f p with
  | Some n => Some n
  | None => lookup_path g p
  end.
Proof.
  induction f as [|[q n] f IH]; [reflexivity|].
  simpl. destruct (path_eqb q p); [reflexivity|exact IH].
Qed.

Lemma lookup_path_remove_ne (p q : path) (f : list (path * node)) :
  p <> q -> lookup_path (remove_path q f) p = lookup_path f p.
Proof.
  intros Hne. induction f as [|[a n] f IH]; [reflexivity|].
  unfold remove_path in *. rewrite filter_cons. simpl.
  destruct (decide (a ≠ q)) as [Ha|Ha].
  - simpl. rewrite IH. reflexivity.
  - apply dec_stable in Ha. subst a. unfold path_eqb.
    rewrite bool_decide_eq_false_2 by congruence. exact IH.
Qed.

Lemma stat_nonroot (w : World) (p : path) :
  p <> [] -> stat w p = lookup_path (fs w) p.
Proof. destruct p; [contradiction|reflexivity]. Qed.

Lemma stat_none_nonroot (w : World) (p : path) : stat w p = None -> p <> [].
Proof. intros H ->. discriminate H. Qed.

Lemma stat_file_nonroot (w : World) (p : path) (i : nat) :
  stat w p = Some (File i) -> p <> [].
Proof. intros H ->. discriminate H. Qed.

Ltac world_simpl :=
  cbn [fs inodes cwd trace readonly now lasttime timeseq pid hostname stat_atime
       logged with_fs with_inodes with_clock with_timeseq].

Ltac run_syscall :=
  unfold file_write, os_link, os_rename, os_mkdir, bind, log, set_fs, set_inodes,
    modify, get, ret, raise;
  cbn [fst snd fs inodes cwd trace readonly logged with_fs with_inodes].

(** A successful write leaves a regular file with the content. *)
Lemma file_write_ok (p c : string) (w w' : World) :
  inodes_allocated w ->
  file_write p c w = (Ok tt, w') ->
  exists i : nat,
    stat w' (resolve w p) = Some (File i) /\ inodes w' !! i = Some c /\
    cwd w' = cwd w /\ readonly w' = readonly w /\
    trace w' = trace w ++ [EWrite p c].
Proof.
  intros Hwf. run_syscall.
  change (resolve (logged (EWrite p c) w)) with (resolve w).
  change (stat (logged (EWrite p c) w)) with (stat w).
  destruct (String.eqb p ""); [intros [=]|].
  destruct (stat w (resolve w p)) as [[|i]|] eqn:Hst.
  - intros [=].
  - intros [= <-]. exists i.
    split; [exact Hst|]. split; [|auto].
    world_simpl. apply list_lookup_insert_eq. apply (Hwf (resolve w p)).
    rewrite <- Hst. symmetry. apply stat_nonroot. exact (stat_file_nonroot _ _ _ Hst).
  - destruct (stat w (parent (resolve w p))) as [[|j]|]; try (intros [=]; fail).
    destruct (may_modify _ _); [|intros [=]].
    intros [= <-]. exists (length (inodes w)).
    pose proof (stat_none_nonroot _ _ Hst) as Hne.
    split; [|split; [|auto]].
    + rewrite stat_nonroot by exact Hne. world_simpl.
      rewrite lookup_path_app. rewrite stat_nonroot in Hst by exact Hne.
      rewrite Hst. simpl. unfold path_eqb. rewrite bool_decide_eq_true_2 by reflexivity.
      reflexivity.
    + world_simpl. apply list_lookup_middle. reflexivity.
Qed.

(** A successful link adds the second name for the inode of the first. *)
Lemma os_link_ok (a b : string) (w w' : World) :
  os_link a b w = (Ok tt, w') ->
  exists i : nat,
    stat w (resolve w a) = Some (File i) /\ stat w (resolve w b) = None /\
    w' = with_fs (fs w ++ [(resolve w b, File i)]) (logged (ELink a b) w).
Proof.
  run_syscall.
  destruct (String.eqb a "" || String.eqb b ""); [intros [=]|].
  change (resolve (logged (ELink a b) w)) with (resolve w).
  change (stat (logged (ELink a b) w)) with (stat w).
  destruct (stat w (resolve w a)) as [[|i]|]; try (intros [=]; fail).
  destruct (stat w (resolve w b)); [intros [=]|].
  destruct (stat w (parent (resolve w b))) as [[|j]|]; try (intros [=]; fail).
  destruct (may_modify _ _); [|intros [=]].
  intros [= <-]. exists i. auto.
Qed.

(** [os.rename] only raises [OSError]s and touches neither the contents
    of the files nor the working directory. *)
Lemma os_rename_inv (a b : string) (w w' : World) (r : result unit) :
  os_rename a b w = (r, w') ->
  trace w' = trace w ++ [ERename a b] /\ cwd w' = cwd w /\ inodes w' = inodes w /\
  readonly w' = readonly w /\
  (forall e, r = Raise e -> is_OSError e = true).
Proof.
  run_syscall. repeat case_match; intros [= <- <-];
    (repeat split; try reflexivity); intros ? [= <-]; reflexivity.
Qed.

(** After a successful rename of a regular file the new name leads to
    its inode. *)
Lemma os_rename_file_ok (a b : string) (w w' : World) (i : nat) :
  os_rename a b w = (Ok tt, w') ->
  stat w (resolve w a) = Some (File i) ->
  stat w' (resolve w b) = Some (File i).
Proof.
  intros H Ha. revert H. run_syscall.
  change (resolve (logged (ERename a b) w)) with (resolve w).
  change (stat (logged (ERename a b) w)) with (stat w).
  destruct (String.eqb a "" || String.eqb b ""); [intros [=]|].
  rewrite Ha.
  destruct (stat w (parent (resolve w b))) as [[|j]|]; try (intros [=]; fail).
  destruct (negb _); [intros [=]|].
  destruct (stat w (resolve w b)) as [[|j]|] eqn:Hb; [intros [=]| |].
  - destruct (bool_decide (i = j)) eqn:Hij.
    + intros [= <-]. apply bool_decide_eq_true_1 in Hij. subst j. exact Hb.
    + intros [= <-]. pose proof (stat_file_nonroot _ _ _ Hb) as Hne.
      rewrite stat_nonroot by exact Hne. world_simpl. rewrite lookup_path_app.
      destruct (decide (resolve w b = resolve w a)) as [E|E].
      * rewrite E. rewrite lookup_path_remove. simpl. unfold path_eqb.
        rewrite bool_decide_eq_true_2 by reflexivity. reflexivity.
      * rewrite lookup_path_remove_ne by exact E. rewrite lookup_path_remove.
        simpl. unfold path_eqb. rewrite bool_decide_eq_true_2 by reflexivity. reflexivity.
  - intros [= <-]. pose proof (stat_none_nonroot _ _ Hb) as Hne.
    rewrite stat_nonroot by exact Hne. world_simpl. rewrite lookup_path_app.
    destruct (decide (resolve w b = resolve w a)) as [E|E].
    + rewrite E. rewrite lookup_path_remove. simpl. unfold path_eqb.
      rewrite bool_decide_eq_true_2 by reflexivity. reflexivity.
    + rewrite lookup_path_remove_ne by exact E.
      rewrite stat_nonroot in Hb by exact Hne. rewrite Hb.
      simpl. unfold path_eqb. rewrite bool_decide_eq_true_2 by reflexivity. reflexivity.
Qed.

Lemma file_write_inv (p c : string) (w w' : World) (r : result unit) :
  file_write p c w = (r, w') -> trace w' = trace w ++ [EWrite p c].
Proof. run_syscall. repeat case_match; intros [= <- <-]; reflexivity. Qed.

Lemma os_link_inv (a b : string) (w w' : World) (r : result unit) :
  os_link a b w = (r, w') -> trace w' = trace w ++ [ELink a b].
Proof. run_syscall. repeat case_match; intros [= <- <-]; reflexivity. Qed.

Section FolderStore.
Import MaildirFolder.

(** ** Setting flags *)

(** [savemessageflags] on a cached uid, step by step. *)
Lemma savemessageflags_unfold (s : St) (m : gmap Z msg) (u : Z) (r : msg) (F : list ascii) :
  messagelist (self s) = Some m ->
  m !! u = Some r ->
  savemessageflags u F s =
  if String.eqb (flagged_path s (filename r) F) (filename r) then (Ok tt, s)
  else match os_rename (filename r) (flagged_path s (filename r) F) (world s) with
       | (Ok _, w') =>
           (Ok tt, with_messagelist
                     (Some (<[u := mkMsg (uid r) (sort_flags F)
                                     (flagged_path s (filename r) F)]> m))
                     (mkSt (self s) w'))
       | (Raise e, w') => (Raise e, mkSt (self s) w')
       end.
Proof.
  intros Hm Hu.
  unfold savemessageflags, messagelist_item, getfullname, getroot, getname, bind, get, ret.
  rewrite Hm, Hu. cbv beta iota.
  unfold flagged_path, flagged_name, flags_partition, basename, path_split, partition_dir.
  destruct (cut_last_slash (filename r)) as [h tl]. cbn [snd].
  replace (if bool_decide ("S"%char ∈ F)
           then path_join (path_join (root (self s)) (name (self s))) "cur"
           else path_join (path_join (root (self s)) (name (self s))) "new")
    with (path_join (path_join (root (self s)) (name (self s)))
            (if bool_decide ("S"%char ∈ F) then "cur" else "new"))
    by (destruct (bool_decide _); reflexivity).
  destruct (match re_search infore tl with
            | Some info => (info, default "" (head (split_on ":" tl)))
            | None => (":", tl)
            end) as [infostr newname].
  destruct (String.eqb _ (filename r)); [reflexivity|].
  cbn [negb]. unfold os. cbn [the_world with_world St_HasWorld].
  destruct (os_rename _ _ (world s)) as [[[]|e] w']; [|reflexivity].
  cbn [self messagelist world]. rewrite Hm, Hu. unfold set_messagelist, modify.
  cbn [self messagelist fmap option_fmap option_map]. rewrite Hm. reflexivity.
Qed.

(** A state is not the state in which one more call has been made. *)
Lemma trace_grew_neq (w w' : World) (e : event) :
  trace w' = trace w ++ [e] -> w' <> w.
Proof.
  intros H E. rewrite E in H. apply (f_equal (@length event)) in H.
  rewrite length_app in H. cbn in H. lia.
Qed.

(** C5 (as corrected): [savemessageflags] compares locations, not flag
    sets.  For a cached message and flags [F], the flags the message
    holds or others, it computes a location from the cached file name
    and [F]: the partition is [cur] when [F] contains S and [new]
    otherwise, and the name is the cached base name up to its first
    colon, then its old info string without the parts [2,] and capital
    letters, then [2,] and the letters of [F], sorted.  The call is a
    no-op, with the folder object and the world as they were and
    nothing renamed, exactly when this location is the cached one.
    That is the case for a file that lies in the partition of [F]
    under a name made of a part without colon, [:2,] and the sorted
    capital letters of [F].  In every other case, also with the flags
    the message holds, [rename] is called once, from the cached
    location to the computed one; the record takes the sorted flags
    and the new location when the rename succeeds, and stays when it
    raises. *)
Theorem savemessageflags_noop_exactly_when_canonical
    (s : St) (m : gmap Z msg) (u : Z) (r : msg) (F : list ascii) :
  messagelist (self s) = Some m ->
  m !! u = Some r ->
  let target := flagged_path s (filename r) F in
  (savemessageflags u F s = (Ok tt, s) <-> target = filename r) /\
  (forall base : string,
     Forall (fun c => is_upper c = true) F ->
     str_forall (fun c => negb (is_slash c) && negb (Ascii.eqb c ":")) base = true ->
     filename r = path_join (partition_dir s (flags_partition F))
                            (base +:+ ":2," +:+ str_of_list (sort_flags F)) ->
     target = filename r) /\
  (target <> filename r ->
   exists (res : result unit) (s' : St),
     savemessageflags u F s = (res, s') /\
     added (world s) (world s') [ERename (filename r) target] /\
     match res with
     | Ok _ =>
         messagelist (self s') = Some (<[u := mkMsg (uid r) (sort_flags F) target]> m)
     | Raise e => is_OSError e = true /\ messagelist (self s') = Some m
     end).
Proof.
  intros Hm Hu target. rewrite (savemessageflags_unfold s m u r F Hm Hu). fold target.
  split; [|split].
  - destruct (String.eqb_spec target (filename r)) as [E|E]; [tauto|].
    split; [|contradiction]. intros H. exfalso.
    destruct (os_rename (filename r) target (world s)) as [[[]|e] w'] eqn:Hrn;
      [|discriminate H].
    apply os_rename_inv in Hrn as (Ht & _). injection H as H.
    apply (trace_grew_neq _ _ _ Ht). rewrite <- H. reflexivity.
  - intros base HF Hb Hfile. exact (canonical_location_rebuilt s _ base F HF Hb Hfile).
  - intros E. destruct (String.eqb_spec target (filename r)) as [E'|_]; [contradiction|].
    destruct (os_rename (filename r) target (world s)) as [[[]|e] w'] eqn:Hrn;
      eexists _, _; (split; [reflexivity|]);
      pose proof (os_rename_inv _ _ _ _ _ Hrn) as (Ht & _ & _ & _ & Herr);
      (split; [exact Ht|]).
    + reflexivity.
    + split; [exact (Herr e eq_refl)|exact Hm].
Qed.

(** ** Saving a message *)

Lemma same_files_refl (w : World) : same_files w w.
Proof. repeat split. Qed.

Lemma same_files_trans (w1 w2 w3 : World) :
  same_files w1 w2 -> same_files w2 w3 -> same_files w1 w3.
Proof. unfold same_files. intros (?&?&?&?&?&?) (?&?&?&?&?&?). repeat split; congruence. Qed.

Lemma gettimeseq_inv (w : World) :
  exists (tv ts : Z) (w1 : World),
    gettimeseq w = (Ok (tv, ts), w1) /\ same_files w w1 /\ trace w1 = trace w.
Proof.
  unfold gettimeseq, bind, get, set_timeseq, modify, ret.
  destruct (now w =? lasttime w); eexists _, _, _; (split; [reflexivity|]);
    repeat split.
Qed.

(** The loop that picks a name only checks and sleeps: it looks at most
    [remaining] times, sleeps after every look that found the name
    taken, and gives up with an [IOError] after the last one. *)
Lemma choose_name_inv (remaining : nat) (tried : string) (u : Z) (tmpdir : string)
    (s s' : St) (r : result string) :
  choose_name remaining tried u tmpdir s = (r, s') ->
  self s' = self s /\ same_files (world s) (world s') /\
  exists tr : list event,
    added (world s) (world s') tr /\
    forallb is_exists_or_sleep tr = true /\
    match r with
    | Ok name =>
        (sleeps tr < remaining)%nat /\
        (exists tv ts : Z,
           name = message_name tv ts (pid (world s)) (hostname (world s)) u
                    (visiblename (self s))) /\
        (path_join tmpdir name = "" \/
         stat (world s') (resolve (world s') (path_join tmpdir name)) = None)
    | Raise e =>
        sleeps tr = remaining /\
        exists name, e = IOError ("Couldn't write to file " +:+ name)
    end.
Proof.
  revert tried s. induction remaining as [|n IH]; intros tried s; cbn [choose_name].
  - intros [= <- <-]. split; [reflexivity|]. split; [apply same_files_refl|].
    exists []. unfold added. rewrite app_nil_r. repeat split. exists tried. reflexivity.
  - unfold bind at 1. unfold os at 1. cbn [the_world with_world St_HasWorld].
    set (w := world s).
    destruct (gettimeseq_inv w) as (tv & ts & w1 & E & F1 & T1). rewrite E.
    destruct F1 as (Hfs & Hino & Hcwd & Hro & Hpid & Hhost).
    unfold bind at 1, get at 1. cbn [self world].
    rewrite Hpid, Hhost.
    fold (message_name tv ts (pid w) (hostname w) u (visiblename (self s))).
    set (nm := message_name tv ts (pid w) (hostname w) u (visiblename (self s))).
    unfold bind at 1. unfold os at 1. cbn [the_world with_world St_HasWorld self world].
    unfold os_path_exists, bind, log, modify, get, ret. cbn [fst snd].
    change (resolve (logged (EExists (path_join tmpdir nm)) w1)) with (resolve w1).
    change (stat (logged (EExists (path_join tmpdir nm)) w1)) with (stat w1).
    destruct (negb (String.eqb (path_join tmpdir nm) "") &&
              bool_decide (is_Some (stat w1 (resolve w1 (path_join tmpdir nm))))) eqn:Htaken.
    + unfold os, time_sleep, bind, log, modify, get, set_clock.
      cbn [fst snd self world the_world with_world St_HasWorld].
      intros H. apply IH in H as (Hself & Hsame & tr & Ha & Hf & Hr).
      cbn [self world] in *. split; [exact Hself|]. split.
      { eapply same_files_trans; [|exact Hsame]. repeat split; world_simpl; assumption. }
      exists (EExists (path_join tmpdir nm) :: ESleep 2 :: tr). split.
      { unfold added in *. rewrite Ha. world_simpl. rewrite T1, <- !app_assoc. reflexivity. }
      split; [simpl; exact Hf|].
      change (sleeps (EExists (path_join tmpdir nm) :: ESleep 2 :: tr)) with (S (sleeps tr)).
      destruct r as [name|e].
      * destruct Hr as (Hlt & Hname & Hfree). cbn [pid hostname with_clock logged] in Hname.
        rewrite Hpid, Hhost in Hname. split; [lia|]. split; assumption.
      * destruct Hr as [-> Hmsg]. split; [reflexivity|exact Hmsg].
    + intros [= <- <-]. cbn [self world]. split; [reflexivity|]. split.
      { repeat split; world_simpl; assumption. }
      exists [EExists (path_join tmpdir nm)]. split.
      { unfold added. world_simpl. rewrite T1. reflexivity. }
      split; [reflexivity|]. split; [unfold sleeps; simpl; lia|].
      split; [exists tv, ts; reflexivity|].
      apply andb_false_iff in Htaken as [Hnil|Hnone].
      * left. apply negb_false_iff in Hnil. apply String.eqb_eq in Hnil. exact Hnil.
      * right. apply bool_decide_eq_false_1 in Hnone.
        change (resolve (logged _ w1)) with (resolve w1).
        change (stat (logged (EExists (path_join tmpdir nm)) w1)) with (stat w1).
        destruct (stat w1 _); [exfalso; apply Hnone; eauto|reflexivity].
Qed.

(** [savemessage] for a uid that is not cached yet, step by step. *)
Lemma savemessage_fresh_unfold (s : St) (m : gmap Z msg) (u : Z) (c : string)
    (F : list ascii) :
  messagelist (self s) = Some m ->
  m !! u = None ->
  0 <= u ->
  savemessage u c F s =
  match choose_name 16 "None" u (partition_dir s "tmp") s with
  | (Raise e, s1) => (Raise e, s1)
  | (Ok name, s1) =>
      let tmp := path_join (partition_dir s "tmp")
                   (default "" (head (split_on "," name))) in
      let dst := path_join (partition_dir s (flags_partition F)) name in
      match file_write tmp c (world s1) with
      | (Raise e, w2) => (Raise e, mkSt (self s) w2)
      | (Ok _, w2) =>
          match os_link tmp dst w2 with
          | (Raise e, w3) => (Raise e, mkSt (self s) w3)
          | (Ok _, w3) =>
              match os_unlink tmp w3 with
              | (Raise e, w4) => (Raise e, mkSt (self s) w4)
              | (Ok _, w4) =>
                  match savemessageflags u F
                          (with_messagelist (Some (<[u := mkMsg u [] dst]> m))
                             (mkSt (self s) w4)) with
                  | (Ok _, s5) => (Ok u, s5)
                  | (Raise e, s5) => (Raise e, s5)
                  end
              end
          end
      end
  end.
Proof.
  intros Hm Hu Hpos. unfold savemessage.
  destruct (u <? 0) eqn:Hneg; [apply Z.ltb_lt in Hneg; lia|].
  unfold bind at 1. unfold messagelist_contains, bind, get, ret. rewrite Hm, Hu.
  rewrite bool_decide_eq_false_2 by (intros [? [=]]).
  unfold getfullname, getroot, getname, bind, get, ret. cbv beta iota.
  replace (if bool_decide ("S"%char ∈ F)
           then path_join (path_join (root (self s)) (name (self s))) "cur"
           else path_join (path_join (root (self s)) (name (self s))) "new")
    with (partition_dir s (flags_partition F))
    by (unfold partition_dir, flags_partition; destruct (bool_decide _); reflexivity).
  fold (partition_dir s "tmp").
  destruct (choose_name 16 "None" u (partition_dir s "tmp") s) as [[nm|e] s1] eqn:Hch;
    [|reflexivity].
  apply choose_name_inv in Hch as (Hself & _).
  cbv zeta. unfold os. cbn [the_world with_world St_HasWorld].
  destruct (file_write _ c (world s1)) as [[[]|e] w2]; rewrite ?Hself; [|reflexivity].
  cbn [self world].
  destruct (os_link _ _ w2) as [[[]|e] w3]; [|reflexivity].
  cbn [self world].
  destruct (os_unlink _ w3) as [[[]|e] w4]; [|reflexivity].
  cbn [self world]. rewrite Hm. unfold set_messagelist, modify.
  destruct (savemessageflags u F _) as [[[]|e] s5]; reflexivity.
Qed.

Lemma resolve_cwd (w w' : World) (p : string) : cwd w' = cwd w -> resolve w' p = resolve w p.
Proof. intros H. unfold resolve. rewrite H. reflexivity. Qed.

Lemma stat_fs (w w' : World) (p : path) : fs w' = fs w -> stat w' p = stat w p.
Proof. intros H. unfold stat. rewrite H. reflexivity. Qed.

Lemma os_link_nonempty (a b : string) (w w' : World) :
  os_link a b w = (Ok tt, w') -> a <> "" /\ b <> "".
Proof.
  run_syscall.
  destruct (String.eqb_spec a ""), (String.eqb_spec b ""); try (intros [=]; fail).
  intros _. split; assumption.
Qed.

Lemma os_rename_nonempty (a b : string) (w w' : World) :
  os_rename a b w = (Ok tt, w') -> a <> "" /\ b <> "".
Proof.
  run_syscall.
  destruct (String.eqb_spec a ""), (String.eqb_spec b ""); try (intros [=]; fail).
  intros _. split; assumption.
Qed.

Lemma file_read_file (p : string) (w : World) (i : nat) :
  p <> "" -> stat w (resolve w p) = Some (File i) ->
  file_read p w = (Ok (default "" (inodes w !! i)), logged (ERead p) w).
Proof.
  intros Hp Hst. unfold file_read, bind, log, modify, get, ret. cbn [fst snd].
  change (resolve (logged (ERead p) w)) with (resolve w).
  change (stat (logged (ERead p) w)) with (stat w).
  rewrite Hst. destruct (String.eqb_spec p ""); [contradiction|reflexivity].
Qed.

(** [getmessage] on a cached uid, step by step. *)
Lemma getmessage_unfold (s : St) (m : gmap Z msg) (u : Z) (r : msg) :
  messagelist (self s) = Some m ->
  m !! u = Some r ->
  getmessage u s =
  match file_read (filename r) (world s) with
  | (Ok text, w') => (Ok (str_replace crlf lf text), mkSt (self s) w')
  | (Raise e, w') => (Raise e, mkSt (self s) w')
  end.
Proof.
  intros Hm Hu. unfold getmessage, messagelist_item, bind, get, ret. rewrite Hm, Hu.
  unfold os. cbn [the_world with_world St_HasWorld].
  destruct (file_read _ _) as [[text|e] w']; reflexivity.
Qed.

(** A message that was just saved under a new uid reads back as the
    text that was saved. *)
Lemma saved_message_reads_back (s s1 : St) (m : gmap Z msg) (u u' : Z) (c : string)
    (F : list ascii) :
  inodes_allocated (world s) ->
  messagelist (self s) = Some m ->
  m !! u = None ->
  0 <= u ->
  savemessage u c F s = (Ok u', s1) ->
  u' = u /\
  exists (r : msg) (i : nat),
    (exists m1, messagelist (self s1) = Some m1 /\ m1 !! u = Some r) /\
    filename r <> "" /\
    stat (world s1) (resolve (world s1) (filename r)) = Some (File i) /\
    inodes (world s1) !! i = Some c.
Proof.
  intros Hwf Hm Hu Hpos. rewrite (savemessage_fresh_unfold s m u c F Hm Hu Hpos).
  destruct (choose_name 16 "None" u (partition_dir s "tmp") s) as [[nm|e] s0] eqn:Hch; [|intros [=]].
  apply choose_name_inv in Hch as (_ & (Hfs0 & Hino0 & Hcwd0 & _) & _).
  cbv zeta.
  set (tmp := path_join (partition_dir s "tmp") (default "" (head (split_on "," nm)))).
  set (dst := path_join (partition_dir s (flags_partition F)) nm).
  destruct (file_write tmp c (world s0)) as [[[]|e] w2] eqn:Hwr; [|intros [=]].
  apply file_write_ok in Hwr as (i & Hst2 & Hino2 & Hcwd2 & _).
  2:{ intros p j Hp. rewrite Hfs0 in Hp. rewrite Hino0. exact (Hwf p j Hp). }
  destruct (os_link tmp dst w2) as [[[]|e] w3] eqn:Hln; [|intros [=]].
  pose proof (os_link_nonempty _ _ _ _ Hln) as [_ Hdst].
  apply os_link_ok in Hln as (j & Hsrc & Hnone & ->).
  rewrite (resolve_cwd _ _ tmp Hcwd2) in Hsrc. rewrite Hst2 in Hsrc.
  injection Hsrc as <-.
  set (w3 := with_fs _ _).
  assert (H3 : stat w3 (resolve w2 dst) = Some (File i)).
  { pose proof (stat_none_nonroot _ _ Hnone) as Hnr.
    rewrite stat_nonroot by exact Hnr. unfold w3. world_simpl.
    rewrite lookup_path_app.
    rewrite stat_nonroot in Hnone by exact Hnr. rewrite Hnone. simpl.
    unfold path_eqb. rewrite bool_decide_eq_true_2 by reflexivity. reflexivity. }
  assert (Hne : resolve w2 dst <> resolve w2 tmp).
  { intros E. rewrite E in Hnone. rewrite (resolve_cwd _ _ tmp Hcwd2) in Hnone.
    rewrite Hst2 in Hnone. discriminate. }
  assert (C3 : cwd w3 = cwd w2) by reflexivity.
  assert (I3 : inodes w3 = inodes w2) by reflexivity.
  clearbody w3.
  rewrite os_unlink_spec.
  destruct (String.eqb tmp ""); [intros [=]|].
  destruct (stat w3 (resolve w3 tmp)) as [[|k]|]; try destruct (may_modify _ _);
    try (intros [=]; fail).
  set (w4 := with_fs _ _).
  assert (H4 : stat w4 (resolve w4 dst) = Some (File i)).
  { change (resolve w4 dst) with (resolve w3 dst).
    rewrite (resolve_cwd _ _ _ C3).
    pose proof (stat_none_nonroot _ _ Hnone) as Hnr.
    rewrite stat_nonroot by exact Hnr. unfold w4. world_simpl.
    rewrite (resolve_cwd _ _ _ C3).
    rewrite lookup_path_remove_ne by exact Hne.
    rewrite stat_nonroot in H3 by exact Hnr. exact H3. }
  assert (I4 : inodes w4 !! i = Some c) by (unfold w4; world_simpl; rewrite I3; exact Hino2).
  clearbody w4.
  set (s4 := with_messagelist _ _).
  assert (Hm4 : messagelist (self s4) = Some (<[u := mkMsg u [] dst]> m)) by reflexivity.
  rewrite (savemessageflags_unfold s4 _ u (mkMsg u [] dst) F Hm4 (lookup_insert_eq _ _ _)).
  cbn [filename uid].
  destruct (String.eqb _ dst).
  - intros [= <- <-]. split; [reflexivity|]. exists (mkMsg u [] dst), i.
    split; [eexists; split; [exact Hm4|apply lookup_insert_eq]|].
    split; [exact Hdst|]. split; [exact H4|exact I4].
  - change (world s4) with w4.
    destruct (os_rename dst _ w4) as [[[]|e] w5] eqn:Hrn; [|intros [=]].
    intros [= <- <-]. split; [reflexivity|].
    pose proof (os_rename_nonempty _ _ _ _ Hrn) as [_ Htgt].
    pose proof (os_rename_inv _ _ _ _ _ Hrn) as (_ & Hcwd5 & Hino5 & _).
    pose proof (os_rename_file_ok _ _ _ _ i Hrn H4) as H5.
    eexists (mkMsg u (sort_flags F) _), i.
    split; [eexists; split; [reflexivity|apply lookup_insert_eq]|].
    cbn [filename world with_messagelist].
    split; [exact Htgt|]. rewrite (resolve_cwd _ _ _ Hcwd5). split; [exact H5|].
    rewrite Hino5. exact I4.
Qed.
End FolderStore.

(** ** The fields of a message name *)

Lemma uint_digits (d : Decimal.uint) :
  str_forall is_digit (NilEmpty.string_of_uint d) = true.
Proof. induction d; simpl; try rewrite IHd; reflexivity. Qed.

Lemma digits_value_acc (d : Decimal.uint) (acc : positive) :
  digits_value (Z.pos acc) (NilEmpty.string_of_uint d) = Z.pos (Pos.of_uint_acc d acc).
Proof.
  revert acc. induction d; intros acc; cbn [NilEmpty.string_of_uint digits_value Pos.of_uint_acc];
    [reflexivity|..]; rewrite <- IHd; f_equal;
    match goal with |- context [ord ?c] => let v := eval vm_compute in (ord c) in change (ord c) with v end;
    lia.
Qed.

Lemma digits_value_uint (d : Decimal.uint) :
  digits_value 0 (NilEmpty.string_of_uint d) = Z.of_N (Pos.of_uint d).
Proof.
  induction d; cbn [NilEmpty.string_of_uint digits_value Pos.of_uint]; [reflexivity|exact IHd|..];
    match goal with |- context [ord ?c] => let v := eval vm_compute in (ord c) in change (ord c) with v end;
    cbn [Z.of_N]; rewrite <- digits_value_acc; reflexivity.
Qed.

Lemma string_of_pos (p : positive) :
  NilZero.string_of_uint (Pos.to_uint p) = NilEmpty.string_of_uint (Pos.to_uint p) /\
  NilEmpty.string_of_uint (Pos.to_uint p) <> "".
Proof.
  pose proof (DecimalPos.Unsigned.to_uint_nonnil p) as H.
  destruct (Pos.to_uint p); [contradiction|..]; split; first [reflexivity|discriminate].
Qed.

(** ['%d' % n] for [n >= 0] is a non-empty string of digits that
    [long] reads back as [n]. *)
Lemma str_of_Z_nonneg (n : Z) :
  0 <= n ->
  str_forall is_digit (str_of_Z n) = true /\ str_of_Z n <> "" /\
  digits_value 0 (str_of_Z n) = n.
Proof.
  intros Hn. unfold str_of_Z. destruct n as [|p|p]; [repeat split; discriminate| |lia].
  cbn [Z.to_int NilZero.string_of_int].
  destruct (string_of_pos p) as [-> Hne].
  split; [apply uint_digits|]. split; [exact Hne|].
  rewrite digits_value_uint, DecimalPos.Unsigned.of_to. reflexivity.
Qed.

Lemma str_of_Z_numeric (n : Z) : str_forall is_numeric (str_of_Z n) = true.
Proof.
  assert (H : forall p, str_forall is_numeric (NilZero.string_of_uint (Pos.to_uint p)) = true).
  { intros p. destruct (string_of_pos p) as [-> _].
    eapply str_forall_impl; [|apply uint_digits].
    intros c Hc. unfold is_numeric. rewrite Hc. reflexivity. }
  unfold str_of_Z. destruct n as [|p|p]; [reflexivity|apply H|].
  cbn [Z.to_int NilZero.string_of_int str_forall]. rewrite H. reflexivity.
Qed.

Lemma le_bytes_range (n : nat) (x : Z) :
  Forall (fun b => 0 <= b <= 255) (MD5.le_bytes n x).
Proof.
  unfold MD5.le_bytes. apply Forall_map, Forall_forall. intros i _. cbv beta.
  change 255 with (Z.ones 8). rewrite Z.land_ones by lia.
  pose proof (Z.mod_pos_bound (Z.shiftr x (8 * Z.of_nat i)) (2 ^ 8) ltac:(lia)).
  change (Z.ones 8) with 255. change (2 ^ 8) with 256 in *. lia.
Qed.

Lemma hexdigit_hexlower (n : Z) : 0 <= n < 16 -> is_hexlower (MD5.hexdigit n) = true.
Proof.
  intros H. replace n with (Z.of_nat (Z.to_nat n)) by lia.
  assert (Hk : (Z.to_nat n < 16)%nat) by lia.
  revert Hk. generalize (Z.to_nat n). clear. intros k Hk.
  do 16 (destruct k as [|k]; [reflexivity|]). lia.
Qed.

Lemma hex_of_bytes (l : list Z) :
  Forall (fun b => 0 <= b <= 255) l ->
  str_forall is_hexlower
    (str_of_list (flat_map (fun b => [MD5.hexdigit (b / 16); MD5.hexdigit (b mod 16)]) l)) = true /\
  String.length
    (str_of_list (flat_map (fun b => [MD5.hexdigit (b / 16); MD5.hexdigit (b mod 16)]) l))
  = (2 * length l)%nat.
Proof.
  induction 1 as [|b l Hb Hl [IH1 IH2]]; [split; reflexivity|].
  cbn [flat_map app str_of_list str_forall String.length length].
  rewrite IH1, IH2.
  rewrite !hexdigit_hexlower.
  - split; [reflexivity|lia].
  - pose proof (Z.mod_pos_bound b 16 ltac:(lia)). lia.
  - split; [apply Z.div_pos; lia|]. apply Z.div_lt_upper_bound; lia.
Qed.

(** The fingerprint is 32 hexadecimal digits in lower case. *)
Lemma hexdigest_shape (s : string) :
  str_forall is_hexlower (MD5.hexdigest s) = true /\
  String.length (MD5.hexdigest s) = 32%nat.
Proof.
  unfold MD5.hexdigest, MD5.digest.
  destruct (MD5.blocks _ _ _) as [[[a b] c] d].
  destruct (hex_of_bytes (MD5.le_bytes 4 a ++ MD5.le_bytes 4 b ++ MD5.le_bytes 4 c ++
                          MD5.le_bytes 4 d)) as [H1 H2].
  { repeat (apply Forall_app; split); apply le_bytes_range. }
  split; [exact H1|]. rewrite H2. reflexivity.
Qed.

(** ** Searching a message name *)

Lemma substring_prefix (a b : string) : substring 0 (String.length a) (a +:+ b) = a.
Proof.
  induction a as [|c a IH]; simpl; [destruct b; reflexivity|]. rewrite IH. reflexivity.
Qed.

Lemma list_of_str_of_list (l : list ascii) : list_of_str (str_of_list l) = l.
Proof. induction l as [|c l IH]; simpl; [reflexivity|]. rewrite IH. reflexivity. Qed.

(** A pattern that starts with the character [a] does not match where
    another character stands. *)
Lemma search_skip (a : ascii) (lit : string) (r2 : regex) (pre s : string) :
  str_forall (fun c => negb (Ascii.eqb c a)) pre = true ->
  re_search (RSeq (RLit (String a lit)) r2) (pre +:+ s)
  = re_search (RSeq (RLit (String a lit)) r2) s.
Proof.
  intros Hp. induction pre as [|c pre IH]; [reflexivity|].
  simpl in Hp. apply andb_true_iff in Hp as [Hc Hp]. apply negb_true_iff in Hc.
  cbn [append re_search run lit_match]. rewrite Ascii.eqb_sym, Hc. exact (IH Hp).
Qed.

Lemma search_none (a : ascii) (lit : string) (r2 : regex) (s : string) :
  str_forall (fun c => negb (Ascii.eqb c a)) s = true ->
  re_search (RSeq (RLit (String a lit)) r2) s = None.
Proof.
  intros Hs. rewrite <- (str_app_nil_r s). rewrite search_skip by exact Hs. reflexivity.
Qed.

(** A greedy repetition takes a whole run of the class when what
    follows the run lets the rest of the pattern match. *)
Lemma many_greedy {T : Type} (cls : ascii -> bool) (lo : nat) (k : string -> option T)
    (d rest : string) (t : T) :
  str_forall cls d = true -> (lo <= String.length d)%nat ->
  k rest = Some t ->
  match rest with EmptyString => True | String c _ => cls c = false end ->
  many cls lo None k (d +:+ rest) = Some t.
Proof.
  intros Hd Hlo Hk Hrest. revert lo Hlo. induction d as [|c d IH]; intros lo Hlo.
  - simpl in Hlo. assert (lo = O) by lia. subst lo. cbn [append].
    destruct rest as [|c r]; simpl; [exact Hk|]. rewrite Hrest. simpl. exact Hk.
  - simpl in Hd. apply andb_true_iff in Hd as [Hc Hd].
    cbn [append many]. rewrite Hc. cbn [andb negb fmap option_fmap option_map].
    case_bool_decide; [discriminate|]. cbn [negb].
    rewrite (IH Hd (Nat.pred lo)); [reflexivity|]. simpl in Hlo. lia.
Qed.

(** A repetition of exactly [n] takes [n] characters of the class. *)
Lemma many_exact {T : Type} (cls : ascii -> bool) (k : string -> option T)
    (d rest : string) :
  str_forall cls d = true ->
  many cls (String.length d) (Some (String.length d)) k (d +:+ rest) = k rest.
Proof.
  intros Hd. induction d as [|c d IH].
  - cbn [append String.length many]. destruct rest as [|c r]; [reflexivity|].
    cbn [many]. destruct (cls c); reflexivity.
  - simpl in Hd. apply andb_true_iff in Hd as [Hc Hd].
    cbn [append String.length many]. rewrite Hc.
    case_bool_decide; [discriminate|]. cbn [andb negb Nat.pred fmap option_fmap option_map].
    rewrite (IH Hd). destruct (k rest); reflexivity.
Qed.

(** A continuation that needs a [start] character fails after every
    run without one. *)
Lemma many_none {T : Type} (cls : ascii -> bool) (start : ascii)
    (k : string -> option T) (s : string) :
  k "" = None ->
  (forall c r, Ascii.eqb c start = false -> k (String c r) = None) ->
  str_forall (fun c => negb (Ascii.eqb c start)) s = true ->
  many cls 0 None k s = None.
Proof.
  intros Hnil Hk Hs. induction s as [|c s IH]; [exact Hnil|].
  simpl in Hs. apply andb_true_iff in Hs as [Hc Hs]. apply negb_true_iff in Hc.
  cbn [many Nat.pred fmap option_fmap option_map]. rewrite (IH Hs).
  rewrite (Hk c s Hc). destruct (cls c && _); reflexivity.
Qed.

Lemma many_step {T : Type} (cls : ascii -> bool) (k : string -> option T)
    (c : ascii) (r : string) :
  cls c = true ->
  many cls 0 None k (String c r) =
  match many cls 0 None k r with
  | Some t => Some t
  | None => k (String c r)
  end.
Proof. intros Hc. cbn [many Nat.pred fmap option_fmap option_map]. rewrite Hc. reflexivity. Qed.

(** The end of [flagmatchre]: 2, a comma and the capital letters. *)
Lemma run_flag_letters (letters : string) :
  str_forall is_upper letters = true ->
  run (RSeq (RLit "2,") (RGroup (plus is_upper))) None (String "2" (String "," letters))
      (fun cap _ => Some (default "" cap))
  = if String.eqb letters "" then None else Some letters.
Proof.
  intros Hl. unfold plus. cbn [run lit_match]. cbn [Ascii.eqb Bool.eqb].
  destruct letters as [|c l] eqn:E; [reflexivity|]. rewrite <- E in *.
  replace (String.eqb letters "") with false by (rewrite E; reflexivity).
  rewrite <- (str_app_nil_r letters) at 1.
  erewrite many_greedy; [|exact Hl| |reflexivity|exact I].
  - rewrite ?str_app_nil_r. cbn [String.length]. rewrite Nat.sub_0_r, substring_all. reflexivity.
  - rewrite E. simpl. lia.
Qed.

Lemma run_flag_letters_none (c : ascii) (r : string) :
  Ascii.eqb c "2" = false ->
  run (RSeq (RLit "2,") (RGroup (plus is_upper))) None (String c r)
      (fun cap _ => Some (default "" cap)) = None.
Proof. intros Hc. cbn [run lit_match]. rewrite Ascii.eqb_sym, Hc. reflexivity. Qed.

Lemma search_info_none (s : string) :
  str_forall (fun c => negb (Ascii.eqb c ":")) s = true -> re_search infore s = None.
Proof.
  induction s as [|c s IH]; [reflexivity|].
  cbn [str_forall]. intros [Hc Hs]%andb_true_iff. apply negb_true_iff in Hc.
  cbn [re_search]. unfold infore at 1. cbn [run lit_match].
  rewrite Ascii.eqb_sym, Hc. exact (IH Hs).
Qed.

Lemma plain_chars (c : ascii) :
  is_plain c = true ->
  is_slash c = false /\ Ascii.eqb c ":" = false /\ Ascii.eqb c "," = false.
Proof.
  unfold is_plain. intros [[H1 H2]%andb_true_iff H3]%andb_true_iff.
  apply negb_true_iff in H1, H2, H3. auto.
Qed.

Lemma digit_chars (c : ascii) :
  is_digit c = true ->
  is_plain c = true /\ is_upper c = false.
Proof.
  intros H. unfold is_plain, is_slash.
  destruct (Ascii.eqb_spec c "/") as [->|]; [discriminate H|].
  destruct (Ascii.eqb_spec c ":") as [->|]; [discriminate H|].
  destruct (Ascii.eqb_spec c ",") as [->|]; [discriminate H|].
  split; [reflexivity|].
  unfold is_digit, is_upper, in_range in *.
  change (ord "0") with 48 in H. change (ord "9") with 57 in H.
  change (ord "A") with 65. change (ord "Z") with 90. lia.
Qed.

Lemma numeric_plain (c : ascii) : is_numeric c = true -> is_plain c = true.
Proof.
  unfold is_numeric. intros [H|H]%orb_true_iff; [exact (proj1 (digit_chars c H))|].
  apply Ascii.eqb_eq in H. subst c. reflexivity.
Qed.

Lemma hexlower_chars (c : ascii) :
  is_hexlower c = true -> is_plain c = true.
Proof.
  unfold is_hexlower. intros [H|H]%orb_true_iff; [exact (proj1 (digit_chars c H))|].
  unfold is_plain, is_slash.
  destruct (Ascii.eqb_spec c "/") as [->|]; [discriminate H|].
  destruct (Ascii.eqb_spec c ":") as [->|]; [discriminate H|].
  destruct (Ascii.eqb_spec c ",") as [->|]; [discriminate H|].
  reflexivity.
Qed.

Lemma upper_chars (c : ascii) :
  is_upper c = true -> is_plain c = true /\ Ascii.eqb c "2" = false.
Proof.
  intros H. unfold is_plain, is_slash.
  destruct (Ascii.eqb_spec c "/") as [->|]; [discriminate H|].
  destruct (Ascii.eqb_spec c ":") as [->|]; [discriminate H|].
  destruct (Ascii.eqb_spec c ",") as [->|]; [discriminate H|].
  destruct (Ascii.eqb_spec c "2") as [->|]; [discriminate H|].
  split; reflexivity.
Qed.

Section EncodedName.
Variables A D H L : string.
Hypothesis HA : str_forall is_plain A = true.
Hypothesis HD : str_forall is_digit D = true.
Hypothesis HDne : D <> "".
Hypothesis HH : str_forall is_hexlower H = true.
Hypothesis HHlen : String.length H = 32%nat.
Hypothesis HL : str_forall is_upper L = true.

Abbreviation encoded := (encoded_name A D H).
Abbreviation encoded_full := (encoded_full_name A D H L).

Lemma encoded_plain_but_comma :
  str_forall (fun c => negb (is_slash c) && negb (Ascii.eqb c ":")) encoded = true.
Proof.
  unfold encoded_name. rewrite !str_forall_app. cbn [str_forall].
  repeat (apply andb_true_iff; split); try reflexivity.
  - eapply str_forall_impl; [|exact HA]. intros c Hc.
    destruct (plain_chars c Hc) as (-> & -> & _). reflexivity.
  - eapply str_forall_impl; [|exact HD]. intros c Hc.
    destruct (plain_chars c (proj1 (digit_chars c Hc))) as (-> & -> & _). reflexivity.
  - eapply str_forall_impl; [|exact HH]. intros c Hc.
    destruct (plain_chars c (hexlower_chars c Hc)) as (-> & -> & _). reflexivity.
Qed.

Lemma encoded_full_eq : encoded_full = encoded +:+ ":2," +:+ L.
Proof. unfold encoded_full_name, encoded_name. rewrite !str_app_assoc. reflexivity. Qed.

Lemma encoded_full_no_slash :
  str_forall (fun c => negb (is_slash c)) encoded_full = true.
Proof.
  rewrite encoded_full_eq, str_forall_app. apply andb_true_iff. split.
  - eapply str_forall_impl; [|exact encoded_plain_but_comma].
    intros c [Hc _]%andb_true_iff. exact Hc.
  - cbn [append str_forall]. cbn. eapply str_forall_impl; [|exact HL].
    intros c Hc. rewrite (is_upper_not_slash c Hc). reflexivity.
Qed.

Lemma search_folder_field : re_search foldermatchre encoded_full = Some H.
Proof.
  unfold encoded_full_name, foldermatchre, exactly.
  rewrite search_skip.
  2:{ eapply str_forall_impl; [|exact HA]. intros c Hc.
      destruct (plain_chars c Hc) as (_ & _ & ->). reflexivity. }
  change (",U=" +:+ D +:+ ",FMD5=" +:+ H +:+ ":2," +:+ L)
    with (String "," (("U=" +:+ D) +:+ ",FMD5=" +:+ H +:+ ":2," +:+ L)).
  cbn [re_search]. replace (run _ None (String "," _) _) with (@None string) by reflexivity.
  rewrite search_skip.
  2:{ cbn [append str_forall]. cbn. eapply str_forall_impl; [|exact HD]. intros c Hc.
      destruct (plain_chars c (proj1 (digit_chars c Hc))) as (_ & _ & ->). reflexivity. }
  change (",FMD5=" +:+ H +:+ ":2," +:+ L)
    with (String "," (String "F" (String "M" (String "D" (String "5" (String "="
            (H +:+ ":2," +:+ L))))))).
  cbn [re_search run lit_match]. cbn [Ascii.eqb Bool.eqb].
  rewrite <- HHlen. rewrite many_exact by exact HH.
  rewrite str_length_app. rewrite Nat.add_sub. rewrite substring_prefix. reflexivity.
Qed.

Lemma search_uid_field : re_search uidmatchre encoded_full = Some D.
Proof.
  unfold encoded_full_name, uidmatchre, plus.
  rewrite search_skip.
  2:{ eapply str_forall_impl; [|exact HA]. intros c Hc.
      destruct (plain_chars c Hc) as (_ & _ & ->). reflexivity. }
  change (",U=" +:+ D +:+ ",FMD5=" +:+ H +:+ ":2," +:+ L)
    with (String "," (String "U" (String "=" (D +:+ ",FMD5=" +:+ H +:+ ":2," +:+ L)))).
  cbn [re_search run lit_match]. cbn [Ascii.eqb Bool.eqb].
  erewrite many_greedy; [|exact HD| |reflexivity|reflexivity].
  - rewrite str_length_app, Nat.add_sub, substring_prefix. reflexivity.
  - clear -HDne. destruct D; [contradiction|simpl; lia].
Qed.

Lemma search_flag_field :
  re_search flagmatchre encoded_full = if String.eqb L "" then None else Some L.
Proof.
  rewrite encoded_full_eq. unfold flagmatchre, star.
  rewrite search_skip.
  2:{ eapply str_forall_impl; [|exact encoded_plain_but_comma].
      intros c [_ Hc]%andb_true_iff. exact Hc. }
  change (":2," +:+ L) with (String ":" (String "2" (String "," L))).
  cbn [re_search].
  change (run (RSeq (RLit ":") (RSeq (RMany not_newline 0 None)
                                  (RSeq (RLit "2,") (RGroup (plus is_upper)))))
              None (String ":" (String "2" (String "," L)))
              (fun cap _ => Some (default "" cap)))
    with (many not_newline 0 None
            (fun rest => run (RSeq (RLit "2,") (RGroup (plus is_upper))) None rest
                           (fun cap _ => Some (default "" cap)))
            (String "2" (String "," L))).
  rewrite many_step by reflexivity.
  rewrite (many_none not_newline "2").
  - rewrite run_flag_letters by exact HL.
    destruct (String.eqb_spec L "") as [->|]; [|reflexivity].
    apply (search_none ":" ""). reflexivity.
  - reflexivity.
  - intros c r Hc. apply run_flag_letters_none. exact Hc.
  - cbn [str_forall]. apply andb_true_iff. split; [reflexivity|].
    eapply str_forall_impl; [|exact HL]. intros c Hc.
    destruct (upper_chars c Hc) as [_ ->]. reflexivity.
Qed.

End EncodedName.

(** ** The name of a saved message *)

#[export] Instance char_le_trans : Transitive char_le.
Proof. intros a b c. unfold char_le. lia. Qed.

#[export] Instance char_le_antisym : AntiSymm eq char_le.
Proof.
  intros a b Hab Hba. unfold char_le, ord in *.
  assert (E : N_of_ascii a = N_of_ascii b) by lia.
  rewrite <- (ascii_N_embedding a), <- (ascii_N_embedding b), E. reflexivity.
Qed.

Lemma sort_flags_idem (l : list ascii) : sort_flags (sort_flags l) = sort_flags l.
Proof.
  apply (Sorted_unique char_le); try apply sort_flags_sorted. apply sort_flags_perm.
Qed.

Lemma str_of_list_nil (l : list ascii) : str_of_list l = "" -> l = [].
Proof. destruct l; [reflexivity|discriminate]. Qed.

Lemma str_app_inv_head (p a b : string) : p +:+ a = p +:+ b -> a = b.
Proof. induction p as [|c p IH]; simpl; [auto|]. intros [= H]. exact (IH H). Qed.

(** The name [savemessage] builds has the three fields, and nothing
    before the uid field looks like a separator when the host name is
    plain. *)
Lemma message_name_fields (tv ts pid : Z) (host : string) (u : Z) (visible : string) :
  str_forall is_plain host = true ->
  exists prefix : string,
    message_name tv ts pid host u visible
    = encoded_name prefix (str_of_Z u) (MD5.hexdigest visible) /\
    str_forall is_plain prefix = true.
Proof.
  intros Hh.
  exists (str_of_Z tv +:+ "_" +:+ str_of_Z ts +:+ "." +:+ str_of_Z pid +:+ "." +:+ host).
  split.
  - unfold message_name, encoded_name. rewrite !str_app_assoc. reflexivity.
  - rewrite !str_forall_app. cbn [str_forall].
    rewrite !(str_forall_impl is_numeric is_plain _ numeric_plain (str_of_Z_numeric _)).
    rewrite Hh. reflexivity.
Qed.

Section Decoding.
Variables (prefix : string) (u : Z) (visible : string) (F : list ascii).
Hypothesis Hprefix : str_forall is_plain prefix = true.
Hypothesis Hu : 0 <= u.
Hypothesis HF : Forall (fun c => is_upper c = true) F.

Abbreviation nm := (encoded_name prefix (str_of_Z u) (MD5.hexdigest visible)).
Abbreviation full :=
  (encoded_full_name prefix (str_of_Z u) (MD5.hexdigest visible)
     (str_of_list (sort_flags F))).

Lemma nm_no_slash : str_forall (fun c => negb (is_slash c)) nm = true.
Proof.
  destruct (str_of_Z_nonneg u Hu) as (Hd & _ & _).
  destruct (hexdigest_shape visible) as [Hh _].
  eapply str_forall_impl; [|exact (encoded_plain_but_comma _ _ _ Hprefix Hd Hh)].
  intros c [Hc _]%andb_true_iff. exact Hc.
Qed.

Lemma full_no_slash : str_forall (fun c => negb (is_slash c)) full = true.
Proof.
  destruct (str_of_Z_nonneg u Hu) as (Hd & _ & _).
  destruct (hexdigest_shape visible) as [Hh _].
  apply encoded_full_no_slash; try assumption. apply sort_flags_upper. exact HF.
Qed.

(** Setting flags on a fresh name appends the info string. *)
Lemma flagged_fresh_name : flagged_name nm F = full.
Proof.
  destruct (str_of_Z_nonneg u Hu) as (Hd & _ & _).
  destruct (hexdigest_shape visible) as [Hh _].
  unfold flagged_name. rewrite search_info_none.
  - change (re_sub oldflagsre ":") with ":". rewrite encoded_full_eq. reflexivity.
  - eapply str_forall_impl; [|exact (encoded_plain_but_comma _ _ _ Hprefix Hd Hh)].
    intros c [_ Hc]%andb_true_iff. exact Hc.
Qed.

Lemma full_longer : full <> nm.
Proof.
  rewrite encoded_full_eq. intros E.
  apply (f_equal String.length) in E. rewrite str_length_app in E. simpl in E. lia.
Qed.

(** The full name decodes to the uid and the flags. *)
Lemma full_decodes (dir : string) :
  owned_uid visible (dir +:+ String "/" full) = Some u /\
  name_flags (dir +:+ String "/" full) = sort_flags F.
Proof.
  destruct (str_of_Z_nonneg u Hu) as (Hd & Hdne & Hval).
  destruct (hexdigest_shape visible) as [Hh Hlen].
  pose proof (sort_flags_upper F HF) as Hl.
  assert (Hb : basename (dir +:+ String "/" full) = full).
  { unfold basename. rewrite (cut_after_slash _ _ full_no_slash). reflexivity. }
  split.
  - unfold owned_uid. rewrite Hb.
    rewrite (search_folder_field _ _ _ _ Hprefix Hd Hh Hlen).
    rewrite String.eqb_refl. cbn [negb].
    rewrite (search_uid_field _ _ _ _ Hprefix Hd Hdne). cbn. rewrite Hval. reflexivity.
  - unfold name_flags. rewrite Hb.
    rewrite (search_flag_field _ _ _ _ Hprefix Hd Hh Hl).
    destruct (String.eqb_spec (str_of_list (sort_flags F)) "") as [E|_].
    + apply str_of_list_nil in E. rewrite E. reflexivity.
    + rewrite list_of_str_of_list. apply sort_flags_idem.
Qed.

End Decoding.

Section SavedName.
Import MaildirFolder.

Lemma partition_join (s : St) (F : list ascii) (tail : string) :
  str_forall (fun c => negb (is_slash c)) tail = true ->
  path_join (partition_dir s (flags_partition F)) tail
  = partition_dir s (flags_partition F) +:+ String "/" tail.
Proof.
  intros Htail.
  assert (Hpart : startswith "/" (flags_partition F) = false)
    by (unfold flags_partition; destruct (bool_decide _); reflexivity).
  destruct (path_join_suffix (path_join (root (self s)) (name (self s)))
              (flags_partition F) Hpart) as [pre Hpre].
  apply path_join_plain.
  - apply startswith_slash_false. exact Htail.
  - unfold partition_dir. rewrite Hpre.
    unfold flags_partition. destruct (bool_decide _), pre; discriminate.
  - unfold partition_dir. rewrite Hpre.
    rewrite endswith_slash_app; unfold flags_partition; destruct (bool_decide _);
      first [reflexivity | discriminate].
Qed.

(** What [savemessage] leaves in the cache for a new uid, when the host
    name is plain and the flags are capital letters. *)
Lemma saved_record (s s1 : St) (m : gmap Z msg) (u u' : Z) (c : string) (F : list ascii) :
  messagelist (self s) = Some m ->
  m !! u = None ->
  0 <= u ->
  Forall (fun x => is_upper x = true) F ->
  str_forall is_plain (hostname (world s)) = true ->
  savemessage u c F s = (Ok u', s1) ->
  exists prefix : string,
    str_forall is_plain prefix = true /\
    messagelist (self s1) =
      Some (<[u := mkMsg u (sort_flags F)
                    (partition_dir s (flags_partition F) +:+
                     String "/" (encoded_full_name prefix (str_of_Z u)
                                   (MD5.hexdigest (visiblename (self s)))
                                   (str_of_list (sort_flags F))))]> m).
Proof.
  intros Hm Hu Hpos HF Hhost. rewrite (savemessage_fresh_unfold s m u c F Hm Hu Hpos).
  destruct (choose_name 16 "None" u (partition_dir s "tmp") s) as [[nm|e] s0] eqn:Hch; [|intros [=]].
  apply choose_name_inv in Hch as (_ & _ & tr & _ & _ & _ & (tv & ts & ->) & _).
  destruct (message_name_fields tv ts (pid (world s)) (hostname (world s)) u
              (visiblename (self s)) Hhost) as (prefix & -> & Hprefix).
  cbv zeta.
  destruct (file_write _ c (world s0)) as [[[]|e] w2]; [|intros [=]].
  destruct (os_link _ _ w2) as [[[]|e] w3]; [|intros [=]].
  destruct (os_unlink _ w3) as [[[]|e] w4]; [|intros [=]].
  set (dst := path_join (partition_dir s (flags_partition F)) _).
  set (s4 := with_messagelist _ _).
  assert (Hm4 : messagelist (self s4) = Some (<[u := mkMsg u [] dst]> m)) by reflexivity.
  rewrite (savemessageflags_unfold s4 _ u (mkMsg u [] dst) F Hm4 (lookup_insert_eq _ _ _)).
  cbn [filename uid].
  assert (Hdst : dst = partition_dir s (flags_partition F) +:+
                       String "/" (encoded_name prefix (str_of_Z u)
                                     (MD5.hexdigest (visiblename (self s))))).
  { unfold dst. apply partition_join. apply nm_no_slash; assumption. }
  assert (Htgt : flagged_path s4 dst F =
                 partition_dir s (flags_partition F) +:+
                 String "/" (encoded_full_name prefix (str_of_Z u)
                               (MD5.hexdigest (visiblename (self s)))
                               (str_of_list (sort_flags F)))).
  { unfold flagged_path. change (partition_dir s4) with (partition_dir s).
    assert (Hb : basename dst = encoded_name prefix (str_of_Z u)
                                  (MD5.hexdigest (visiblename (self s)))).
    { rewrite Hdst. unfold basename.
      rewrite (cut_after_slash _ _ (nm_no_slash prefix u _ Hprefix Hpos)). reflexivity. }
    rewrite Hb, (flagged_fresh_name prefix u _ F Hprefix Hpos).
    apply partition_join. apply full_no_slash; assumption. }
  rewrite Htgt.
  destruct (String.eqb_spec
              (partition_dir s (flags_partition F) +:+
               String "/" (encoded_full_name prefix (str_of_Z u)
                             (MD5.hexdigest (visiblename (self s)))
                             (str_of_list (sort_flags F)))) dst) as [E|_].
  { exfalso. rewrite Hdst in E. apply str_app_inv_head in E. injection E as E.
    exact (full_longer prefix u _ F E). }
  destruct (os_rename dst _ (world s4)) as [[[]|e] w5]; [|intros [=]].
  intros [= <- <-]. exists prefix. split; [exact Hprefix|].
  cbn [self messagelist with_messagelist]. rewrite insert_insert_eq. reflexivity.
Qed.

End SavedName.

Section FolderTheorems.
Import MaildirFolder.

(** X1: [gettimeseq] never hands out the same (time, sequence) pair
    twice in a row: when the globals [lasttime] and [timeseq] are only
    touched by [gettimeseq], the next call answers with another pair,
    and with a larger one if the clock has not gone backwards. *)
Theorem gettimeseq_never_repeats (w : World) :
  exists (p : Z * Z) (w1 : World),
    gettimeseq w = (Ok p, w1) /\
    forall w2 : World,
      lasttime w2 = lasttime w1 -> timeseq w2 = timeseq w1 ->
      exists (q : Z * Z) (w3 : World),
        gettimeseq w2 = (Ok q, w3) /\ q <> p /\
        (now w <= now w2 -> timeseq_lt p q).
Proof.
  unfold gettimeseq, bind, get, set_timeseq, modify, ret, timeseq_lt.
  destruct (now w =? lasttime w) eqn:E1; eexists _, _; (split; [reflexivity|]);
    intros w2 Hl Ht; cbn [lasttime timeseq with_timeseq] in Hl, Ht; rewrite Hl, Ht;
    destruct (now w2 =? _) eqn:E2; eexists _, _; (split; [reflexivity|]);
    cbn [fst snd]; (split; [intros [=]|intros Hle]); lia.
Qed.

(** X2: [getmessage], [getmessageflags] and [savemessageflags] on a uid
    that is not in the cache raise [KeyError] and touch nothing: no
    file is opened or renamed. *)
Theorem uncached_uid_raises_KeyError (s : St) (m : gmap Z msg) (u : Z) (F : list ascii) :
  messagelist (self s) = Some m ->
  m !! u = None ->
  getmessage u s = (Raise KeyError, s) /\
  getmessageflags u s = (Raise KeyError, s) /\
  savemessageflags u F s = (Raise KeyError, s).
Proof.
  intros Hm Hu.
  unfold getmessage, getmessageflags, savemessageflags, messagelist_item, bind, get, raise.
  rewrite Hm, Hu. auto.
Qed.

(** Without a cache [savemessage] fails at its first look into it. *)
Lemma savemessage_unscanned (s : St) (u : Z) (c : string) (F : list ascii) :
  messagelist (self s) = None ->
  0 <= u ->
  savemessage u c F s = (Raise TypeError, s).
Proof.
  intros Hm Hu. unfold savemessage, messagelist_contains, bind, get, raise.
  destruct (u <? 0) eqn:E; [apply Z.ltb_lt in E; lia|]. cbv beta. rewrite Hm. reflexivity.
Qed.

(** X3: before [cachemessagelist] has run the cache is [None], and
    every method that looks a uid up in it raises [TypeError] without
    touching anything; [savemessage] does so for every uid that is not
    a placeholder. *)
Theorem unscanned_folder_raises_TypeError (s : St) (u : Z) (c : string) (F : list ascii) :
  messagelist (self s) = None ->
  getmessage u s = (Raise TypeError, s) /\
  getmessageflags u s = (Raise TypeError, s) /\
  savemessageflags u F s = (Raise TypeError, s) /\
  deletemessage u s = (Raise TypeError, s) /\
  (0 <= u -> savemessage u c F s = (Raise TypeError, s)).
Proof.
  intros Hm.
  unfold getmessage, getmessageflags, savemessageflags, deletemessage, savemessage,
    messagelist_item, messagelist_contains, bind, get, raise.
  rewrite Hm. repeat split. intros Hu.
  destruct (u <? 0) eqn:E; [apply Z.ltb_lt in E; lia|]. cbv beta. rewrite Hm. reflexivity.
Qed.

(** X4: [savemessageflags] on a cached uid makes at most one system
    call, the rename of the cached location to the location it
    computes from the flags, inside [cur] when S is among them and
    inside [new] otherwise.  The cache follows the file: the record
    takes the sorted flags and the new location exactly when the rename
    succeeded, every other record stays, and a regular file is found
    under its new name; when the rename raises, the error is an
    [OSError] and the cache is as before. *)
Theorem savemessageflags_cache_follows_rename
    (s : St) (m : gmap Z msg) (u : Z) (r : msg) (F : list ascii) :
  messagelist (self s) = Some m ->
  m !! u = Some r ->
  exists (res : result unit) (s' : St),
    savemessageflags u F s = (res, s') /\
    let target := path_join (partition_dir s (if bool_decide ("S"%char ∈ F)
                                              then "cur" else "new"))
                            (flagged_name (basename (filename r)) F) in
    (target = filename r -> res = Ok tt /\ s' = s) /\
    (target <> filename r ->
       added (world s) (world s') [ERename (filename r) target] /\
       match res with
       | Ok _ =>
           messagelist (self s') = Some (<[u := mkMsg (uid r) (sort_flags F) target]> m) /\
           forall i : nat,
             stat (world s) (resolve (world s) (filename r)) = Some (File i) ->
             stat (world s') (resolve (world s') target) = Some (File i)
       | Raise e => is_OSError e = true /\ messagelist (self s') = Some m
       end).
Proof.
  intros Hm Hu. rewrite (savemessageflags_unfold s m u r F Hm Hu).
  unfold flagged_path, flags_partition. cbv zeta.
  set (target := path_join _ _).
  destruct (String.eqb_spec target (filename r)) as [E|E].
  - eexists _, _. split; [reflexivity|]. split; [auto|]. intros H. contradiction.
  - destruct (os_rename (filename r) target (world s)) as [[[]|e] w'] eqn:Hrn;
      eexists _, _; (split; [reflexivity|]); (split; [intros H; contradiction|]);
      intros _; pose proof (os_rename_inv _ _ _ _ _ Hrn) as (Ht & Hcwd & _ & _ & Herr);
      (split; [exact Ht|]).
    + split; [reflexivity|]. intros i Hi. cbn [world with_messagelist].
      rewrite (resolve_cwd _ _ _ Hcwd). exact (os_rename_file_ok _ _ _ _ i Hrn Hi).
    + split; [exact (Herr e eq_refl)|exact Hm].
Qed.

(** X5: a message saved under a new uid reads back: when [savemessage]
    returns, it returns the uid, and [getmessage] on that uid returns
    the saved text with every CR LF replaced by LF; a text without
    carriage returns comes back unchanged. *)
Theorem savemessage_then_getmessage
    (s s1 : St) (m : gmap Z msg) (u u' : Z) (c : string) (F : list ascii) :
  inodes_allocated (world s) ->
  messagelist (self s) = Some m ->
  m !! u = None ->
  0 <= u ->
  savemessage u c F s = (Ok u', s1) ->
  u' = u /\
  exists s2 : St,
    getmessage u s1 = (Ok (str_replace crlf lf c), s2) /\
    self s2 = self s1 /\ same_files (world s1) (world s2) /\
    (str_forall (fun x => negb (Ascii.eqb x "013")) c = true ->
     str_replace crlf lf c = c).
Proof.
  intros Hwf Hm Hu Hpos Hsave.
  destruct (saved_message_reads_back s s1 m u u' c F Hwf Hm Hu Hpos Hsave)
    as (-> & r & i & (m1 & Hm1 & Hr) & Hne & Hst & Hino).
  split; [reflexivity|].
  rewrite (getmessage_unfold s1 m1 u r Hm1 Hr), (file_read_file _ _ i Hne Hst), Hino.
  eexists. split; [reflexivity|]. split; [reflexivity|]. split; [repeat split|].
  clear. unfold str_replace, crlf. induction c as [|x c IH]; [reflexivity|].
  cbn [str_forall]. intros [Hx Hc]%andb_true_iff. apply negb_true_iff in Hx.
  cbn [replace_aux]. unfold startswith. cbn [lit_match].
  rewrite Ascii.eqb_sym, Hx. rewrite (IH Hc). reflexivity.
Qed.

(** X6: a message saved under a new uid is found again under that uid:
    when the host name holds no slash, colon or comma and the flags are
    capital letters, [savemessage] leaves the message right inside
    [cur] (with S among the flags) or [new], records the sorted flags,
    changes no other record, and a scan of a directory with that file
    reads the uid and the flags back from its name. *)
Theorem saved_message_is_found_again
    (s s1 : St) (m : gmap Z msg) (u u' : Z) (c : string) (F : list ascii) :
  messagelist (self s) = Some m ->
  m !! u = None ->
  0 <= u ->
  Forall (fun x => is_upper x = true) F ->
  str_forall is_plain (hostname (world s)) = true ->
  savemessage u c F s = (Ok u', s1) ->
  exists (r : msg) (nm : string),
    messagelist (self s1) = Some (<[u := r]> m) /\
    uid r = u /\ flags r = sort_flags F /\
    filename r = partition_dir s (if bool_decide ("S"%char ∈ F) then "cur" else "new")
                 +:+ String "/" nm /\
    str_forall (fun x => negb (is_slash x)) nm = true /\
    owned_uid (visiblename (self s)) (filename r) = Some u /\
    name_flags (filename r) = sort_flags F /\
    forall (st : gmap Z msg * Z),
      scan_file (visiblename (self s)) st (filename r)
      = (<[u := r]> st.1, st.2).
Proof.
  intros Hm Hu Hpos HF Hhost Hsave.
  destruct (saved_record s s1 m u u' c F Hm Hu Hpos HF Hhost Hsave) as (prefix & Hp & Hm1).
  destruct (full_decodes prefix u (visiblename (self s)) F Hp Hpos HF
              (partition_dir s (flags_partition F))) as [Ho Hn].
  eexists _, _. split; [exact Hm1|]. cbn [uid flags filename].
  split; [reflexivity|]. split; [reflexivity|]. split; [reflexivity|].
  split; [apply full_no_slash; assumption|]. split; [exact Ho|]. split; [exact Hn|].
  intros [m0 c0]. rewrite scan_file_eq, Ho, Hn. reflexivity.
Qed.

End FolderTheorems.

Section FolderTheorems2.
Import MaildirFolder.

(** [savemessageflags] adds nothing to the trace or one rename, and
    leaves the contents of the files alone. *)
Lemma savemessageflags_trace (s s' : St) (u : Z) (F : list ascii) (res : result unit) :
  savemessageflags u F s = (res, s') ->
  inodes (world s') = inodes (world s) /\
  (added (world s) (world s') [] \/
   exists a b, added (world s) (world s') [ERename a b]).
Proof.
  destruct (messagelist (self s)) as [m|] eqn:Hm.
  - destruct (m !! u) as [r|] eqn:Hu.
    + rewrite (savemessageflags_unfold s m u r F Hm Hu).
      destruct (String.eqb _ _).
      * intros [= <- <-]. split; [reflexivity|]. left. unfold added. rewrite app_nil_r. reflexivity.
      * destruct (os_rename _ _ (world s)) as [[[]|e] w'] eqn:Hrn; intros [= <- <-];
          pose proof (os_rename_inv _ _ _ _ _ Hrn) as (Ht & _ & Hi & _);
          (split; [exact Hi|]); right; eexists _, _; exact Ht.
    + unfold savemessageflags, messagelist_item, bind, get, raise. rewrite Hm, Hu.
      intros [= <- <-]. split; [reflexivity|]. left. unfold added. rewrite app_nil_r. reflexivity.
  - unfold savemessageflags, messagelist_item, bind, get, raise. rewrite Hm.
    intros [= <- <-]. split; [reflexivity|]. left. unfold added. rewrite app_nil_r. reflexivity.
Qed.

(** Under a cached uid [savemessage] is [savemessageflags], whatever
    the content. *)
Lemma savemessage_known_uid_unfold
    (s : St) (m : gmap Z msg) (u : Z) (r : msg) (c : string) (F : list ascii) :
  messagelist (self s) = Some m ->
  m !! u = Some r ->
  0 <= u ->
  savemessage u c F s =
  match savemessageflags u F s with
  | (Ok _, s') => (Ok u, s')
  | (Raise e, s') => (Raise e, s')
  end.
Proof.
  intros Hm Hu Hpos. unfold savemessage.
  destruct (u <? 0) eqn:Hneg; [apply Z.ltb_lt in Hneg; lia|].
  unfold bind at 1. unfold messagelist_contains, bind, get, ret. rewrite Hm, Hu.
  rewrite bool_decide_eq_true_2 by eauto.
  destruct (savemessageflags u F s) as [[[]|e] s']; reflexivity.
Qed.

(** X7: [savemessage] under a uid that is already cached never writes
    the message: whatever the content, it only sets the flags, so the
    contents of all files stay as they are, the only system call is at
    most one rename of the cached file, and the uid is what it returns. *)
Theorem savemessage_known_uid_keeps_content
    (s : St) (m : gmap Z msg) (u : Z) (r : msg) (c : string) (F : list ascii) :
  messagelist (self s) = Some m ->
  m !! u = Some r ->
  0 <= u ->
  exists (res : result Z) (s' : St),
    savemessage u c F s = (res, s') /\
    (forall c' : string, savemessage u c' F s = (res, s')) /\
    inodes (world s') = inodes (world s) /\
    (added (world s) (world s') [] \/
     exists target, added (world s) (world s') [ERename (filename r) target]) /\
    (forall v, res = Ok v -> v = u).
Proof.
  intros Hm Hu Hpos.
  pose proof (fun c0 => savemessage_known_uid_unfold s m u r c0 F Hm Hu Hpos) as E.
  destruct (savemessageflags u F s) as [r0 s0] eqn:Hsf.
  exists (match r0 with Ok _ => Ok u | Raise e => Raise e end), s0.
  split; [rewrite E; destruct r0 as [[]|]; reflexivity|].
  split; [intros c'; rewrite E; destruct r0 as [[]|]; reflexivity|].
  rewrite (savemessageflags_unfold s m u r F Hm Hu) in Hsf.
  destruct (String.eqb _ _) in Hsf.
  - injection Hsf as <- <-. split; [reflexivity|]. split; [|intros v [= <-]; reflexivity].
    left. unfold added. rewrite app_nil_r. reflexivity.
  - destruct (os_rename _ _ (world s)) as [[[]|e] w'] eqn:Hrn; injection Hsf as <- <-;
      pose proof (os_rename_inv _ _ _ _ _ Hrn) as (Ht & _ & Hi & _);
      (split; [exact Hi|]); (split; [right; eexists; exact Ht|]); intros v [= <-]; reflexivity.
Qed.

(** X8: [savemessage] looks before it writes, and it does not wait for
    ever.  Its calls come in two runs: first the looks for a free name
    in [tmp], with a sleep after each look that found the name taken,
    then the calls that change the file system.  It sleeps at most 16
    times; after the 16th sleep it raises [IOError], and then the
    folder object and the files are as they were. *)
Theorem savemessage_looks_before_it_writes (s : St) (u : Z) (c : string) (F : list ascii) :
  exists tr1 tr2 : list event,
    added (world s) (world (savemessage u c F s).2) (tr1 ++ tr2) /\
    forallb is_exists_or_sleep tr1 = true /\
    (sleeps tr1 <= 16)%nat /\
    forallb is_fs_mutation tr2 = true /\
    (sleeps tr1 = 16%nat ->
       tr2 = [] /\
       (exists msg, (savemessage u c F s).1 = Raise (IOError msg)) /\
       self (savemessage u c F s).2 = self s /\
       same_files (world s) (world (savemessage u c F s).2)).
Proof.
  assert (Hquiet : forall r s', savemessage u c F s = (r, s') ->
            (added (world s) (world s') [] \/
             exists a b, added (world s) (world s') [ERename a b]) ->
            exists tr1 tr2 : list event,
              added (world s) (world (savemessage u c F s).2) (tr1 ++ tr2) /\
              forallb is_exists_or_sleep tr1 = true /\
              (sleeps tr1 <= 16)%nat /\
              forallb is_fs_mutation tr2 = true /\
              (sleeps tr1 = 16%nat ->
                 tr2 = [] /\
                 (exists msg, (savemessage u c F s).1 = Raise (IOError msg)) /\
                 self (savemessage u c F s).2 = self s /\
                 same_files (world s) (world (savemessage u c F s).2))).
  { intros r s' -> [Ha|(a & b & Ha)]; cbn [fst snd].
    - exists [], []. split; [exact Ha|]. split; [reflexivity|].
      split; [unfold sleeps; simpl; lia|]. split; [reflexivity|].
      unfold sleeps; simpl; intros [=].
    - exists [], [ERename a b]. split; [exact Ha|]. split; [reflexivity|].
      split; [unfold sleeps; simpl; lia|]. split; [reflexivity|].
      unfold sleeps; simpl; intros [=]. }
  destruct (u <? 0) eqn:Hneg.
  { apply (Hquiet (Ok u) s); [unfold savemessage; rewrite Hneg; reflexivity|].
    left. unfold added. rewrite app_nil_r. reflexivity. }
  apply Z.ltb_ge in Hneg.
  destruct (messagelist (self s)) as [m|] eqn:Hm.
  2:{ apply (Hquiet _ _ (savemessage_unscanned s u c F Hm Hneg)).
      left. unfold added. rewrite app_nil_r. reflexivity. }
  destruct (m !! u) as [r|] eqn:Hu.
  { pose proof (savemessage_known_uid_unfold s m u r c F Hm Hu Hneg) as E.
    destruct (savemessageflags u F s) as [r0 s0] eqn:Hsf.
    apply savemessageflags_trace in Hsf as [_ Ha].
    destruct r0 as [[]|e]; exact (Hquiet _ _ E Ha). }
  clear Hquiet. rewrite (savemessage_fresh_unfold s m u c F Hm Hu Hneg).
  destruct (choose_name 16 "None" u (partition_dir s "tmp") s) as [[nm|e] s0] eqn:Hch;
    apply choose_name_inv in Hch as (Hself & Hsame & tr & Ha & Hf & Hr).
  2:{ destruct Hr as [Hn [name ->]]. exists tr, []. cbn [fst snd]. rewrite app_nil_r.
      split; [exact Ha|]. split; [exact Hf|]. split; [lia|]. split; [reflexivity|].
      intros _. split; [reflexivity|]. split; [eauto|]. split; assumption. }
  destruct Hr as (Hlt & _ & _). cbv zeta.
  set (tmp := path_join (partition_dir s "tmp") _).
  set (dst := path_join (partition_dir s (flags_partition F)) nm).
  unfold added in Ha.
  destruct (file_write tmp c (world s0)) as [[[]|e] w2] eqn:Hwr;
    apply file_write_inv in Hwr; cbn [fst snd world].
  2:{ exists tr, [EWrite tmp c]. unfold added. rewrite Hwr, Ha, app_assoc.
      split; [reflexivity|]. split; [exact Hf|]. split; [lia|]. split; [reflexivity|].
      intros E; lia. }
  destruct (os_link tmp dst w2) as [[[]|e] w3] eqn:Hln;
    apply os_link_inv in Hln; cbn [fst snd world].
  2:{ exists tr, [EWrite tmp c; ELink tmp dst]. unfold added.
      rewrite Hln, Hwr, Ha, <- !app_assoc.
      split; [reflexivity|]. split; [exact Hf|]. split; [lia|]. split; [reflexivity|].
      intros E; lia. }
  destruct (os_unlink tmp w3) as [[[]|e] w4] eqn:Hun;
    apply os_unlink_trace in Hun; unfold added in Hun; cbn [fst snd world].
  2:{ exists tr, [EWrite tmp c; ELink tmp dst; EUnlink tmp]. unfold added.
      rewrite Hun, Hln, Hwr, Ha, <- !app_assoc.
      split; [reflexivity|]. split; [exact Hf|]. split; [lia|]. split; [reflexivity|].
      intros E; lia. }
  destruct (savemessageflags u F _) as [r5 s5] eqn:Hsf.
  apply savemessageflags_trace in Hsf as [_ Hsf]. cbn [world with_messagelist] in Hsf.
  assert (Hs5 : world (match r5 with
                       | Ok _ => (Ok u, s5)
                       | Raise e => (Raise e, s5)
                       end).2 = world s5) by (destruct r5; reflexivity).
  rewrite Hs5. unfold added in *.
  destruct Hsf as [Hsf|(a & b & Hsf)].
  - exists tr, [EWrite tmp c; ELink tmp dst; EUnlink tmp].
    rewrite Hsf, Hun, Hln, Hwr, Ha, <- !app_assoc.
    split; [reflexivity|]. split; [exact Hf|]. split; [lia|]. split; [reflexivity|].
    intros E; lia.
  - exists tr, [EWrite tmp c; ELink tmp dst; EUnlink tmp; ERename a b].
    rewrite Hsf, Hun, Hln, Hwr, Ha, <- !app_assoc.
    split; [reflexivity|]. split; [exact Hf|]. split; [lia|]. split; [reflexivity|].
    intros E; lia.
Qed.

End FolderTheorems2.

(** ** Placeholder uids *)

Lemma many_inv {T : Type} (cls : ascii -> bool) (lo : nat) (hi : option nat)
    (k : string -> option T) (s : string) (t : T) :
  many cls lo hi k s = Some t ->
  exists a rest : string, s = a +:+ rest /\ str_forall cls a = true /\ k rest = Some t.
Proof.
  revert lo hi. induction s as [|c s IH]; intros lo hi.
  - cbn [many]. destruct lo; [|intros [=]]. intros H. exists "", "". auto.
  - cbn [many]. destruct (cls c && negb (bool_decide (hi = Some 0%nat))) eqn:E.
    + destruct (many cls (Nat.pred lo) (Nat.pred <$> hi) k s) as [t'|] eqn:Hm.
      * intros [= <-]. apply IH in Hm as (a & rest & -> & Ha & Hk).
        apply andb_true_iff in E as [Hc _].
        exists (String c a), rest. cbn [append str_forall]. rewrite Hc, Ha. auto.
      * destruct lo; [|intros [=]]. intros H. exists "", (String c s). auto.
    + destruct lo; [|intros [=]]. intros H. exists "", (String c s). auto.
Qed.

(** What [uidmatchre] captures is a string of digits. *)
Lemma search_uid_digits (s g : string) :
  re_search uidmatchre s = Some g -> str_forall is_digit g = true.
Proof.
  induction s as [|c s IH].
  - cbn. intros [=].
  - cbn [re_search].
    destruct (run uidmatchre None (String c s) (fun cap _ => Some (default "" cap)))
      as [g'|] eqn:Hrun.
    + intros [= <-]. clear IH. unfold uidmatchre, plus in Hrun. cbn [run] in Hrun.
      destruct (lit_match ",U=" (String c s)) as [s1|]; [|discriminate].
      apply many_inv in Hrun as (a & rest & -> & Ha & Hk).
      injection Hk as <-. cbn [default].
      rewrite str_length_app, Nat.add_sub, substring_prefix. exact Ha.
    + exact IH.
Qed.

Lemma digits_value_nonneg (s : string) (acc : Z) :
  0 <= acc -> str_forall is_digit s = true -> 0 <= digits_value acc s.
Proof.
  revert acc. induction s as [|c s IH]; intros acc Hacc; [intros _; exact Hacc|].
  cbn [str_forall digits_value]. intros [Hc Hs]%andb_true_iff. apply IH; [|exact Hs].
  unfold is_digit, in_range in Hc. change (ord "0") with 48 in Hc. lia.
Qed.

(** A uid read off a file name is never negative. *)
Lemma owned_uid_nonneg (visible file : string) (v : Z) :
  owned_uid visible file = Some v -> 0 <= v.
Proof.
  unfold owned_uid. destruct (re_search foldermatchre _); [|intros [=]].
  destruct (negb _); [intros [=]|].
  destruct (re_search uidmatchre _) as [g|] eqn:Hg; [|intros [=]].
  intros [= <-]. apply digits_value_nonneg; [lia|exact (search_uid_digits _ _ Hg)].
Qed.

Section Placeholders.
Import MaildirFolder.
Variable visible : string.

(** Keys between the counter and zero are out of the scan's reach. *)
Lemma scan_keeps (files : list string) (m : gmap Z msg) (c k : Z) :
  c < k < 0 -> (foldl (scan_file visible) (m, c) files).1 !! k = m !! k.
Proof.
  revert m c. induction files as [|f files IH]; intros m c Hk; [reflexivity|].
  cbn [foldl]. rewrite scan_file_eq.
  destruct (owned_uid visible f) as [v|] eqn:Ho.
  - rewrite IH by exact Hk. apply lookup_insert_ne.
    pose proof (owned_uid_nonneg _ _ _ Ho). lia.
  - rewrite IH by lia. apply lookup_insert_ne. lia.
Qed.

Lemma scan_placeholders (files : list string) (m : gmap Z msg) (c : Z) :
  c < 0 ->
  (forall k, k <= c -> m !! k = None) ->
  forall k, k <= c ->
    (foldl (scan_file visible) (m, c) files).1 !! k
    = (fun f => mkMsg k (name_flags f) f) <$> (foreign_files visible files !! Z.to_nat (c - k)).
Proof.
  revert m c. induction files as [|f files IH]; intros m c Hc Hm k Hk.
  - cbn. rewrite Hm by exact Hk. reflexivity.
  - cbn [foldl]. rewrite scan_file_eq. unfold foreign_files. rewrite filter_cons.
    destruct (owned_uid visible f) as [v|] eqn:Ho.
    + destruct (decide (Some v = None)) as [[=]|_].
      apply IH; [exact Hc| |exact Hk].
      intros k' Hk'. rewrite lookup_insert_ne; [apply Hm; exact Hk'|].
      pose proof (owned_uid_nonneg _ _ _ Ho). lia.
    + destruct (decide (@None Z = None)) as [_|H]; [|contradiction].
      destruct (decide (k = c)) as [->|Hne].
      * rewrite scan_keeps by lia. rewrite lookup_insert_eq.
        replace (Z.to_nat (c - c)) with O by lia. reflexivity.
      * rewrite (IH _ (c - 1)); [| lia | | lia].
        -- replace (Z.to_nat (c - k)) with (S (Z.to_nat (c - 1 - k))) by lia. reflexivity.
        -- intros k' Hk'. rewrite lookup_insert_ne by lia. apply Hm. lia.
Qed.

End Placeholders.

Section FolderTheorems3.
Import MaildirFolder.

Lemma stat_logged (e : event) (w : World) (p : path) : stat (logged e w) p = stat w p.
Proof. reflexivity. Qed.

Lemma resolve_logged (e : event) (w : World) (p : string) :
  resolve (logged e w) p = resolve w p.
Proof. reflexivity. Qed.

Lemma missing_logged (e : event) (w : World) (p : path) : missing (logged e w) p = missing w p.
Proof. reflexivity. Qed.

Lemma missing_fs (w w' : World) (p : path) : fs w' = fs w -> missing w' p = missing w p.
Proof. intros H. unfold missing. rewrite (stat_fs _ _ _ H). reflexivity. Qed.

(** A scan changes neither the folder object nor the files. *)
Lemma scanfolder_world (s s' : St) (r : result (gmap Z msg)) :
  _scanfolder s = (r, s') -> self s' = self s /\ same_files (world s) (world s').
Proof.
  rewrite scanfolder_unfold.
  destruct (os_listdir _ (world s)) as [[names_new|e] w1] eqn:H1;
    apply os_listdir_inv in H1 as (-> & _).
  - destruct (os_listdir _ _) as [[names_cur|e] w2] eqn:H2;
      apply os_listdir_inv in H2 as (-> & _); intros [= <- <-]; repeat split.
  - intros [= <- <-]. repeat split.
Qed.

(** The outcome of a scan is a function of the folder's location and
    fingerprint and of the files. *)
Lemma scanfolder_same (s t : St) (r : result (gmap Z msg)) (s' : St) :
  root (self t) = root (self s) ->
  name (self t) = name (self s) ->
  visiblename (self t) = visiblename (self s) ->
  fs (world t) = fs (world s) ->
  cwd (world t) = cwd (world s) ->
  _scanfolder s = (r, s') ->
  exists t', _scanfolder t = (r, t').
Proof.
  intros Hr Hn Hv Hfs Hcwd.
  assert (Hp : forall d, partition_dir t d = partition_dir s d)
    by (intros; unfold partition_dir; rewrite Hr, Hn; reflexivity).
  rewrite !scanfolder_unfold, !os_listdir_spec, !Hp, Hv.
  rewrite !stat_logged, !resolve_logged, !missing_logged.
  rewrite !(stat_fs (world s) (world t)) by exact Hfs.
  rewrite !(missing_fs (world s) (world t)) by exact Hfs.
  rewrite !(resolve_cwd (world s) (world t)) by exact Hcwd.
  cbn [fs logged]. rewrite Hfs.
  intros H. repeat case_match; simplify_eq; eexists; reflexivity.
Qed.

(** X9: the files of a scan that do not carry this folder's fingerprint
    and a uid get the ids -1, -2, ... in listing order, [new] before
    [cur]: the record under the negative id [k] is the file number
    [-k] among them, and there is no other negative id in the result.
    A uid that is read off a file name is never negative, so the two
    kinds of ids cannot clash. *)
Theorem scan_numbers_foreign_files (s s' : St) (m : gmap Z msg) :
  _scanfolder s = (Ok m, s') ->
  (forall (k : Z),
     k < 0 ->
     m !! k = (fun f => mkMsg k (name_flags f) f) <$>
              (foreign_files (visiblename (self s))
                 (listed_files s "new" ++ listed_files s "cur") !! Z.to_nat (- k - 1))) /\
  (forall (file : string) (v : Z),
     owned_uid (visiblename (self s)) file = Some v -> 0 <= v).
Proof.
  intros H. apply scanfolder_ok in H as (-> & _). split.
  - intros k Hk. unfold scan_files.
    rewrite scan_placeholders; [|lia|intros; apply lookup_empty|lia].
    replace (Z.to_nat (-1 - k)) with (Z.to_nat (- k - 1)) by lia. reflexivity.
  - intros file v. apply owned_uid_nonneg.
Qed.

(** X10: [cachemessagelist] replaces the cache all or nothing, and
    changes no file.  When one of the two listings raises, the error is
    an [OSError] and the folder object, with its old cache, is as
    before.  When it returns, the cache is the result of the scan, and
    running it again right away gives the same cache. *)
Theorem cachemessagelist_all_or_nothing (s : St) :
  exists (r : result unit) (s1 : St),
    cachemessagelist s = (r, s1) /\
    same_files (world s) (world s1) /\
    match r with
    | Ok _ =>
        exists (m : gmap Z msg) (s2 : St),
          messagelist (self s1) = Some m /\
          cachemessagelist s1 = (Ok tt, s2) /\
          messagelist (self s2) = Some m
    | Raise e => is_OSError e = true /\ self s1 = self s
    end.
Proof.
  unfold cachemessagelist, bind.
  destruct (_scanfolder s) as [[m|e] s1] eqn:Hsc.
  - pose proof (scanfolder_world _ _ _ Hsc) as (Hself & Hsame).
    eexists _, _. split; [reflexivity|]. split; [exact Hsame|].
    unfold set_messagelist, modify. cbn [world self with_messagelist messagelist].
    destruct Hsame as (Hfs & _ & Hcwd & _).
    destruct (scanfolder_same s (with_messagelist (Some m) s1)) with (r := Ok m) (s' := s1)
      as [t' Ht']; try (cbn [world self with_messagelist root name visiblename];
                        rewrite ?Hself; auto; fail).
    rewrite Ht'. eexists _, _. split; [reflexivity|]. split; reflexivity.
  - pose proof (scanfolder_world _ _ _ Hsc) as (Hself & Hsame).
    apply scanfolder_frame in Hsc as (_ & _ & Herr & _).
    eexists _, _. split; [reflexivity|]. split; [exact Hsame|].
    split; [exact (Herr e eq_refl)|exact Hself].
Qed.

End FolderTheorems3.

(* ===================================================================== *)
(** * Further properties of the repository *)
(* ===================================================================== *)

(** ** Directories that are created *)

Lemma only_new_directories_refl (w : World) : only_new_directories w w.
Proof.
  split; [reflexivity|]. split; [reflexivity|]. intros p. destruct (stat w p); auto.
Qed.

Lemma only_new_directories_trans (w1 w2 w3 : World) :
  only_new_directories w1 w2 -> only_new_directories w2 w3 -> only_new_directories w1 w3.
Proof.
  intros (C1 & I1 & H1) (C2 & I2 & H2). split; [congruence|]. split; [congruence|].
  intros p. specialize (H1 p). specialize (H2 p).
  destruct (stat w1 p) as [n|].
  - rewrite H1 in H2. exact H2.
  - destruct H1 as [H1|H1]; rewrite H1 in H2; auto.
Qed.

Lemma only_new_directories_logged (e : event) (w : World) :
  only_new_directories w (logged e w).
Proof.
  split; [reflexivity|]. split; [reflexivity|]. intros p.
  change (stat (logged e w) p) with (stat w p). destruct (stat w p); auto.
Qed.

(** What [os.mkdir] does: on success the directory is new and its
    parent is a directory; [EEXIST] is raised exactly for a path that
    exists. *)
Lemma os_mkdir_inv (p : string) (w w' : World) (r : result unit) :
  os_mkdir p w = (r, w') ->
  trace w' = trace w ++ [EMkdir p] /\
  only_new_directories w w' /\
  match r with
  | Ok _ =>
      p <> "" /\ stat w (resolve w p) = None /\
      stat w (parent (resolve w p)) = Some Dir /\
      stat w' (resolve w p) = Some Dir
  | Raise e =>
      is_OSError e = true /\ fs w' = fs w /\
      (has_errno EEXIST e = true -> p <> "" /\ is_Some (stat w (resolve w p)))
  end.
Proof.
  run_syscall.
  change (resolve (logged (EMkdir p) w)) with (resolve w).
  change (stat (logged (EMkdir p) w)) with (stat w).
  assert (Hmiss : forall q, has_errno EEXIST (OSError (missing (logged (EMkdir p) w) q)) = true
                            -> False).
  { intros q. unfold missing. destruct (stat _ _) as [[|]|]; intros [=]. }
  destruct (String.eqb_spec p "") as [->|Hp].
  { intros [= <- <-]. split; [reflexivity|]. split; [apply only_new_directories_logged|].
    split; [reflexivity|]. split; [reflexivity|]. intros H. destruct (Hmiss _ H). }
  destruct (stat w (resolve w p)) as [n|] eqn:Hst.
  { intros [= <- <-]. split; [reflexivity|]. split; [apply only_new_directories_logged|].
    split; [reflexivity|]. split; [reflexivity|]. intros _. split; [exact Hp|eauto]. }
  destruct (stat w (parent (resolve w p))) as [[|i]|] eqn:Hpar.
  2,3: intros [= <- <-]; (split; [reflexivity|]); (split; [apply only_new_directories_logged|]);
       (split; [reflexivity|]); (split; [reflexivity|]); intros H; destruct (Hmiss _ H).
  destruct (may_modify _ _).
  2:{ intros [= <- <-]. split; [reflexivity|]. split; [apply only_new_directories_logged|].
      split; [reflexivity|]. split; [reflexivity|]. intros [=]. }
  intros [= <- <-]. split; [reflexivity|].
  pose proof (stat_none_nonroot _ _ Hst) as Hne.
  assert (Hnew : stat (with_fs (fs w ++ [(resolve w p, Dir)]) (logged (EMkdir p) w))
                      (resolve w p) = Some Dir).
  { rewrite stat_nonroot by exact Hne. world_simpl. rewrite lookup_path_app.
    rewrite stat_nonroot in Hst by exact Hne. rewrite Hst. simpl.
    unfold path_eqb. rewrite bool_decide_eq_true_2 by reflexivity. reflexivity. }
  split.
  - split; [reflexivity|]. split; [reflexivity|]. intros q.
    destruct q as [|c q]; [reflexivity|]. unfold stat. world_simpl.
    rewrite lookup_path_app. destruct (lookup_path (fs w) (c :: q)); [reflexivity|].
    simpl. destruct (path_eqb _ _); auto.
  - auto.
Qed.

Lemma os_path_exists_only (p : string) (w w' : World) (r : result bool) :
  os_path_exists p w = (r, w') -> only_new_directories w w'.
Proof. intros H. apply os_path_exists_inv in H as [-> _]. apply only_new_directories_logged. Qed.

Lemma os_path_isdir_only (p : string) (w w' : World) (r : result bool) :
  os_path_isdir p w = (r, w') -> only_new_directories w w'.
Proof. intros H. apply os_path_isdir_inv in H as [-> _]. apply only_new_directories_logged. Qed.

(** [os.makedirs] only adds directories. *)
Lemma makedirs_only (depth : nat) (name : string) (w w' : World) (r : result unit) :
  makedirs_rec depth name w = (r, w') -> only_new_directories w w'.
Proof.
  revert name w w' r. induction depth as [|depth IH]; intros name w w' r.
  - cbn [makedirs_rec]. destruct (path_split name) as [h t].
    destruct (if String.eqb t "" then path_split h else (h, t)) as [h' t'].
    intros H. apply os_mkdir_inv in H. tauto.
  - cbn [makedirs_rec]. destruct (path_split name) as [h t].
    destruct (if String.eqb t "" then path_split h else (h, t)) as [h' t'].
    unfold bind at 1.
    destruct (negb (String.eqb h' "") && negb (String.eqb t' "")).
    + unfold bind at 1.
      destruct (os_path_exists h' w) as [[there|e] w1] eqn:Hex;
        pose proof (os_path_exists_only _ _ _ _ Hex) as O1;
        [|apply os_path_exists_inv in Hex as [_ [=]]].
      unfold ret at 1. destruct (negb there).
      * unfold bind at 1, try_except.
        destruct (makedirs_rec depth h' w1) as [[[]|e] w2] eqn:Hrec;
          pose proof (IH _ _ _ _ Hrec) as O2.
        -- destruct (String.eqb t' ".").
           ++ intros [= <- <-]. eapply only_new_directories_trans; eassumption.
           ++ intros H. apply os_mkdir_inv in H as (_ & O3 & _).
              eapply only_new_directories_trans; [|exact O3].
              eapply only_new_directories_trans; eassumption.
        -- destruct (is_OSError e).
           ++ destruct (has_errno EEXIST e).
              ** cbn [ret]. destruct (String.eqb t' ".").
                 --- intros [= <- <-]. eapply only_new_directories_trans; eassumption.
                 --- intros H. apply os_mkdir_inv in H as (_ & O3 & _).
                     eapply only_new_directories_trans; [|exact O3].
                     eapply only_new_directories_trans; eassumption.
              ** intros [= <- <-]. eapply only_new_directories_trans; eassumption.
           ++ intros [= <- <-]. eapply only_new_directories_trans; eassumption.
      * intros H. apply os_mkdir_inv in H as (_ & O3 & _).
        eapply only_new_directories_trans; eassumption.
    + unfold ret at 1. intros H. apply os_mkdir_inv in H. tauto.
Qed.

(** ** Paths below a directory *)

Lemma split_on_nonempty (sep : ascii) (x : string) : split_on sep x <> [].
Proof.
  destruct x as [|c x]; cbn [split_on]; [discriminate|].
  destruct (Ascii.eqb c sep); [discriminate|]. destruct (split_on sep x); discriminate.
Qed.

Lemma split_on_app (sep : ascii) (x t : string) :
  split_on sep (x +:+ String sep t) = split_on sep x ++ split_on sep t.
Proof.
  induction x as [|c x IH]; cbn [append split_on].
  - rewrite Ascii.eqb_refl. reflexivity.
  - rewrite IH. destruct (Ascii.eqb c sep); [reflexivity|].
    pose proof (split_on_nonempty sep x). destruct (split_on sep x); [contradiction|reflexivity].
Qed.

Lemma split_on_name (name : string) :
  str_forall (fun c => negb (is_slash c)) name = true -> split_on "/" name = [name].
Proof.
  induction name as [|c name IH]; [reflexivity|].
  cbn [str_forall split_on]. intros [Hc Hn]%andb_true_iff.
  apply negb_true_iff in Hc. unfold is_slash in Hc. rewrite Hc, (IH Hn). reflexivity.
Qed.

Lemma norm_comps_app (i : bool) (acc l l' : list string) :
  norm_comps i acc (l ++ l') = norm_comps i (norm_comps i acc l) l'.
Proof.
  revert acc. induction l as [|c l IH]; intros acc; [reflexivity|].
  cbn [app norm_comps]. repeat case_match; apply IH.
Qed.

Lemma endswith_slash_inv (d : string) :
  endswith_slash d = true -> exists y, d = y +:+ "/".
Proof.
  induction d as [|c d IH]; [intros [=]|].
  cbn [endswith_slash]. destruct d as [|c' d'].
  - intros Hc. unfold is_slash in Hc. apply Ascii.eqb_eq in Hc. subst c. exists "". reflexivity.
  - intros H. destruct (IH H) as [y Hy]. exists (String c y). cbn [append]. rewrite <- Hy.
    reflexivity.
Qed.

(** Below a directory [d], the entry [name] resolves to the path of [d]
    with [name] at its end. *)
Lemma resolve_join (w : World) (d name : string) :
  d <> "" -> is_entry_name name ->
  resolve w (path_join d name) = resolve w d ++ [name].
Proof.
  intros Hd (Hne & Hdot & Hdots & Hslash).
  assert (Hstart : startswith "/" name = false) by (apply startswith_slash_false; exact Hslash).
  assert (Hlast : forall acc, norm_comps true acc [name] = acc ++ [name]).
  { intros acc. cbn [norm_comps].
    destruct (String.eqb_spec name ""); [contradiction|].
    destruct (String.eqb_spec name "."); [contradiction|].
    destruct (String.eqb_spec name ".."); [contradiction|]. reflexivity. }
  assert (Hsame : forall x, startswith "/" (d +:+ x) = startswith "/" d).
  { intros x. destruct d; [contradiction|]. unfold startswith. cbn [append lit_match].
    destruct (Ascii.eqb _ _); reflexivity. }
  unfold resolve, path_join. rewrite Hstart.
  destruct (String.eqb_spec d ""); [contradiction|]. cbn [orb].
  destruct (endswith_slash d) eqn:He.
  - destruct (endswith_slash_inv d He) as [y ->].
    replace ((y +:+ "/") +:+ name) with (y +:+ String "/" name)
      by (rewrite str_app_assoc; reflexivity).
    change (y +:+ "/") with (y +:+ String "/" "").
    assert (Hs2 : startswith "/" (y +:+ String "/" name)
                  = startswith "/" (y +:+ String "/" ""))
      by (destruct y; [reflexivity|]; unfold startswith; cbn [append lit_match];
          destruct (Ascii.eqb _ _); reflexivity).
    rewrite Hs2. destruct (startswith "/" (y +:+ String "/" "")).
    + rewrite !split_on_app, !norm_comps_app, (split_on_name name Hslash), Hlast.
      reflexivity.
    + replace (cwd w +:+ "/" +:+ y +:+ String "/" name)
        with ((cwd w +:+ "/" +:+ y) +:+ String "/" name)
        by (rewrite !str_app_assoc; reflexivity).
      replace (cwd w +:+ "/" +:+ y +:+ String "/" "")
        with ((cwd w +:+ "/" +:+ y) +:+ String "/" "")
        by (rewrite !str_app_assoc; reflexivity).
      rewrite !split_on_app, !norm_comps_app, (split_on_name name Hslash), Hlast.
      reflexivity.
  - replace (d +:+ "/" +:+ name) with (d +:+ String "/" name) by reflexivity.
    rewrite Hsame. destruct (startswith "/" d).
    + rewrite split_on_app, norm_comps_app, (split_on_name name Hslash), Hlast. reflexivity.
    + replace (cwd w +:+ "/" +:+ d +:+ String "/" name)
        with ((cwd w +:+ "/" +:+ d) +:+ String "/" name)
        by (rewrite !str_app_assoc; reflexivity).
      rewrite split_on_app, norm_comps_app, (split_on_name name Hslash), Hlast.
      reflexivity.
Qed.

Lemma reserved_entry_names (sub : string) :
  sub ∈ ["cur"; "new"; "tmp"] -> is_entry_name sub.
Proof.
  intros H. repeat (apply elem_of_cons in H; destruct H as [-> | H]);
    [| | |apply elem_of_nil in H; contradiction]; repeat split; discriminate.
Qed.

Section Building.
Import MaildirRepository.

Lemma builds_ret {A : Type} (a : A) : builds (ret a).
Proof. intros s r s' [= <- <-]. split; [reflexivity|]. split; [reflexivity|]. split; [reflexivity|].
  apply only_new_directories_refl. Qed.

Lemma builds_raise {A : Type} (e : exn) : builds (raise (A := A) e).
Proof. intros s r s' [= <- <-]. split; [reflexivity|]. split; [reflexivity|]. split; [reflexivity|].
  apply only_new_directories_refl. Qed.

Lemma builds_get : builds get.
Proof. intros s r s' [= <- <-]. split; [reflexivity|]. split; [reflexivity|]. split; [reflexivity|].
  apply only_new_directories_refl. Qed.

Lemma builds_bind {A B : Type} (c : M St A) (k : A -> M St B) :
  builds c -> (forall a, builds (k a)) -> builds (bind c k).
Proof.
  intros Hc Hk s r s'. unfold bind. destruct (c s) as [[a|e] s1] eqn:E.
  - intros H. destruct (Hc _ _ _ E) as (S1 & C1 & D1 & O1).
    destruct (Hk _ _ _ _ H) as (S2 & C2 & D2 & O2).
    split; [congruence|]. split; [congruence|]. split; [congruence|].
      eapply only_new_directories_trans; eassumption.
  - intros [= <- <-]. exact (Hc _ _ _ E).
Qed.

Lemma builds_try_except {A : Type} (c : M St A) (handles : exn -> bool)
    (handler : exn -> M St A) :
  builds c -> (forall e, builds (handler e)) -> builds (try_except c handles handler).
Proof.
  intros Hc Hh s r s'. unfold try_except. destruct (c s) as [[a|e] s1] eqn:E.
  - intros [= <- <-]. exact (Hc _ _ _ E).
  - destruct (handles e).
    + intros H. destruct (Hc _ _ _ E) as (S1 & C1 & D1 & O1).
      destruct (Hh _ _ _ _ H) as (S2 & C2 & D2 & O2).
      split; [congruence|]. split; [congruence|]. split; [congruence|].
      eapply only_new_directories_trans; eassumption.
    + intros [= <- <-]. exact (Hc _ _ _ E).
Qed.

Lemma builds_for_each {A : Type} (xs : list A) (body : A -> M St unit) :
  (forall x, builds (body x)) -> builds (for_each xs body).
Proof.
  intros Hb. induction xs as [|x xs IH]; cbn [for_each].
  - apply builds_ret.
  - apply builds_bind; [apply Hb|intros _; exact IH].
Qed.

Lemma builds_os {A : Type} (c : M World A) :
  (forall w r w', c w = (r, w') -> only_new_directories w w') -> builds (os c).
Proof.
  intros Hc s r s'. unfold os. cbn [the_world with_world St_HasWorld].
  destruct (c (world s)) as [r0 w'] eqn:E. intros [= <- <-].
  split; [reflexivity|]. split; [reflexivity|]. split; [reflexivity|]. exact (Hc _ _ _ E).
Qed.

Lemma builds_mkdir (p : string) : builds (os (os_mkdir p)).
Proof. apply builds_os. intros w r w' H. apply os_mkdir_inv in H. tauto. Qed.

Lemma builds_isdir (p : string) : builds (os (os_path_isdir p)).
Proof. apply builds_os. intros w r w'. apply os_path_isdir_only. Qed.

Lemma builds_makedirs (p : string) : builds (os (os_makedirs p)).
Proof. apply builds_os. intros w r w'. apply makedirs_only. Qed.

Lemma builds_assert (cond : bool) (msg : string) : builds (assert cond msg).
Proof. unfold assert. destruct cond; [apply builds_ret|apply builds_raise]. Qed.

Lemma builds_tolerate (full_path : string) (e : exn) : builds (tolerate_existing full_path e).
Proof.
  unfold tolerate_existing. destruct (has_errno EEXIST e); [|apply builds_raise].
  apply builds_bind; [apply builds_isdir|].
  intros []; [apply builds_ret|apply builds_raise].
Qed.

Lemma builds_makefolder (foldername : string) : builds (makefolder foldername).
Proof.
  unfold makefolder. apply builds_bind; [apply builds_get|intros s0].
  destruct (dryrun (self s0)); [apply builds_ret|].
  apply builds_bind; [unfold getsep; apply builds_bind; [apply builds_get|intros; apply builds_ret]|].
  intros sep. apply builds_bind.
  { destruct (String.eqb sep "/"); [|apply builds_ret].
    apply builds_for_each. intros x. apply builds_assert. }
  intros _. apply builds_bind; [apply builds_assert|intros _].
  apply builds_bind; [apply builds_assert|intros _].
  apply builds_bind.
  { apply builds_try_except; [apply builds_makedirs|apply builds_tolerate]. }
  intros _. apply builds_for_each. intros sub.
  apply builds_try_except; [apply builds_mkdir|apply builds_tolerate].
Qed.

Lemma normpath_nonempty (p : string) : normpath p <> "".
Proof.
  unfold normpath. destruct (String.eqb p ""); [discriminate|].
  cbv zeta.
  match goal with
  | |- context [String.eqb ?b ""] => destruct (String.eqb_spec b ""); [discriminate|assumption]
  end.
Qed.

Lemma stat_kept (w w' : World) (p : path) (n : node) :
  only_new_directories w w' -> stat w p = Some n -> stat w' p = Some n.
Proof. intros (_ & _ & H) Hp. specialize (H p). rewrite Hp in H. exact H. Qed.

(** One partition of [makefolder]: when the [mkdir] under its [try]
    returns, the folder is a directory and the partition exists. *)
Lemma make_partition (full sub : string) (s s' : St) :
  full <> "" -> is_entry_name sub ->
  try_except (os (os_mkdir (path_join full sub))) is_OSError (tolerate_existing full) s
  = (Ok tt, s') ->
  stat (world s') (resolve (world s') full) = Some Dir /\
  is_Some (stat (world s') (resolve (world s') (path_join full sub))).
Proof.
  intros Hfull Hsub. unfold try_except, os. cbn [the_world with_world St_HasWorld].
  destruct (os_mkdir _ (world s)) as [[[]|e] w1] eqn:Hmk;
    apply os_mkdir_inv in Hmk as (_ & (Hcwd & Hrest) & Hr).
  - intros [= <-]. cbn [world]. destruct Hr as (_ & _ & Hpar & Hnew).
    rewrite !(resolve_cwd _ _ _ Hcwd). split; [|rewrite Hnew; eauto].
    rewrite (resolve_join _ _ _ Hfull Hsub) in Hpar. unfold parent in Hpar.
    rewrite removelast_last in Hpar.
    exact (stat_kept _ _ _ _ (conj Hcwd Hrest) Hpar).
  - destruct Hr as (Herr & Hfs & Hex). rewrite Herr.
    unfold tolerate_existing. destruct (has_errno EEXIST e); [|intros [=]].
    destruct (Hex eq_refl) as (_ & n & Hn).
    unfold bind, os. cbn [the_world with_world St_HasWorld world].
    destruct (os_path_isdir full w1) as [r2 w2] eqn:Hd.
    apply os_path_isdir_inv in Hd as [-> ->].
    destruct (negb (String.eqb full "") && bool_decide (stat w1 (resolve w1 full) = Some Dir))
      eqn:Hcond; [|intros [=]].
    intros [= <-]. cbn [world]. rewrite !resolve_logged, !stat_logged.
    apply andb_true_iff in Hcond as [_ Hdir]. apply bool_decide_eq_true_1 in Hdir.
    split; [exact Hdir|]. rewrite (resolve_cwd _ _ _ Hcwd).
    rewrite (stat_fs _ _ _ Hfs), Hn. eauto.
Qed.

End Building.

Section RepositoryTheorems.
Import MaildirRepository.

Lemma bind_ok_inv {S A B : Type} (c : M S A) (k : A -> M S B) (s s' : S) (b : B) :
  bind c k s = (Ok b, s') -> exists a s1, c s = (Ok a, s1) /\ k a s1 = (Ok b, s').
Proof.
  unfold bind. destruct (c s) as [[a|e] s1]; [|intros [=]]. intros H. eauto.
Qed.

Lemma assert_ok_inv {S : Type} (cond : bool) (msg : string) (s s' : S) :
  assert cond msg s = (Ok tt, s') -> s' = s.
Proof. unfold assert. destruct cond; intros [=]. congruence. Qed.

(** X11: the constructor makes sure the top-level directory is there,
    and creates nothing else.  When it returns, the root is a directory
    and the object starts with no folder list, no recorded access times
    and a counter of 0; every entry that existed is untouched.  It
    creates one level only: when it raises, the error is the [OSError]
    of [mkdir] and the file system is as before. *)
Theorem init_makes_the_root (localroot : string) (sep : option string)
    (restoreatime dry : bool) (w : World) :
  exists (r : result t) (w' : World),
    __init__ localroot sep restoreatime dry w = (r, w') /\
    only_new_directories w w' /\
    match r with
    | Ok repo =>
        stat w' (resolve w' localroot) = Some Dir /\
        root repo = localroot /\ folders repo = None /\
        folder_atimes repo = [] /\ deletecounter repo = 0 /\
        (stat w (resolve w localroot) = Some Dir -> fs w' = fs w)
    | Raise e => is_OSError e = true /\ fs w' = fs w
    end.
Proof.
  unfold __init__, bind.
  destruct (os_path_isdir localroot w) as [r1 w1] eqn:Hd.
  apply os_path_isdir_inv in Hd as [-> ->].
  destruct (negb (String.eqb localroot "") &&
            bool_decide (stat w (resolve w localroot) = Some Dir)) eqn:Hcond.
  - eexists _, _. split; [reflexivity|]. split; [apply only_new_directories_logged|].
    apply andb_true_iff in Hcond as [_ Hdir]. apply bool_decide_eq_true_1 in Hdir.
    cbn [root folders folder_atimes deletecounter]. repeat split. exact Hdir.
  - destruct (os_mkdir localroot (logged (EIsdir localroot) w)) as [[[]|e] w2] eqn:Hmk;
      eexists _, _; (split; [reflexivity|]);
      apply os_mkdir_inv in Hmk as (_ & Hgrow & Hr);
      (split; [eapply only_new_directories_trans; [apply only_new_directories_logged|exact Hgrow]|]).
    + destruct Hr as (Hne & Hnone & _ & Hnew).
      cbn [root folders folder_atimes deletecounter].
      destruct Hgrow as (Hcwd & _). rewrite (resolve_cwd _ _ _ Hcwd).
      repeat split; [exact Hnew|]. intros Hdir. exfalso.
      rewrite resolve_logged, stat_logged in Hnone. congruence.
    + destruct Hr as (Herr & Hfs & _). split; [exact Herr|exact Hfs].
Qed.

(** X12: when [makefolder] returns outside dry-run mode, the folder is
    a directory and holds entries [cur], [new] and [tmp]. *)
Theorem makefolder_leaves_the_partitions (foldername : string) (s s' : St) :
  dryrun (self s) = false ->
  makefolder foldername s = (Ok tt, s') ->
  let full_path := abspath (cwd (world s)) (path_join (root (self s)) foldername) in
  stat (world s') (resolve (world s') full_path) = Some Dir /\
  forall subdir : string,
    subdir ∈ ["cur"; "new"; "tmp"] ->
    is_Some (stat (world s') (resolve (world s') (path_join full_path subdir))).
Proof.
  intros Hdry. unfold makefolder. unfold bind at 1, get at 1. rewrite Hdry.
  set (full := abspath (cwd (world s)) (path_join (root (self s)) foldername)).
  assert (Hfull : full <> "") by apply normpath_nonempty.
  intros H. apply bind_ok_inv in H as (sep & s0 & Hsep & H).
  injection Hsep as <- <-.
  apply bind_ok_inv in H as ([] & s1 & Hseg & H).
  assert (s1 = s) as ->.
  { destruct (String.eqb _ "/"); [|unfold ret in Hseg; congruence].
    rewrite for_each_assert in Hseg. destruct (forallb _ _); congruence. }
  apply bind_ok_inv in H as ([] & s1 & Ha1 & H). apply assert_ok_inv in Ha1 as ->.
  apply bind_ok_inv in H as ([] & s1 & Ha2 & H). apply assert_ok_inv in Ha2 as ->.
  apply bind_ok_inv in H as ([] & s2 & Hmk & H).
  assert (B : forall sub, builds (try_except (os (os_mkdir (path_join full sub))) is_OSError
                                    (tolerate_existing full)))
    by (intros sub; apply builds_try_except; [apply builds_mkdir|apply builds_tolerate]).
  cbn [for_each] in H.
  apply bind_ok_inv in H as ([] & s3 & Hcur & H).
  apply bind_ok_inv in H as ([] & s4 & Hnew & H).
  apply bind_ok_inv in H as ([] & s5 & Htmp & H).
  injection H as <-.
  pose proof (B _ _ _ _ Hnew) as (_ & _ & _ & O4).
  pose proof (B _ _ _ _ Htmp) as (_ & _ & _ & O5).
  apply make_partition in Hcur as [_ Ecur];
    [|exact Hfull|apply reserved_entry_names; set_solver].
  apply make_partition in Hnew as [_ Enew];
    [|exact Hfull|apply reserved_entry_names; set_solver].
  apply make_partition in Htmp as [Dfull Etmp];
    [|exact Hfull|apply reserved_entry_names; set_solver].
  cbv zeta. split; [exact Dfull|].
  pose proof O4 as (C4 & _). pose proof O5 as (C5 & _).
  intros sub Hin. repeat (apply elem_of_cons in Hin; destruct Hin as [-> | Hin]);
    [| | |apply elem_of_nil in Hin; contradiction].
  - destruct Ecur as [n Hn]. exists n.
    rewrite (resolve_cwd _ _ _ C5), (resolve_cwd _ _ _ C4).
    exact (stat_kept _ _ _ _ O5 (stat_kept _ _ _ _ O4 Hn)).
  - destruct Enew as [n Hn]. exists n.
    rewrite (resolve_cwd _ _ _ C5). exact (stat_kept _ _ _ _ O5 Hn).
  - exact Etmp.
Qed.

(** X13: [makefolder] never removes or replaces anything: whatever its
    outcome, every entry of the file system is still there, every new
    entry is a directory, the contents of the files are unchanged, and
    so are the repository object and the state of the move engine.  In
    dry-run mode it does nothing at all. *)
Theorem makefolder_only_adds_directories (foldername : string) (s : St) :
  exists (r : result unit) (s' : St),
    makefolder foldername s = (r, s') /\
    self s' = self s /\ cache s' = cache s /\ dirty_status s' = dirty_status s /\
    only_new_directories (world s) (world s') /\
    (dryrun (self s) = true -> r = Ok tt /\ s' = s).
Proof.
  destruct (makefolder foldername s) as [r s'] eqn:H.
  exists r, s'. split; [reflexivity|].
  destruct (builds_makefolder foldername _ _ _ H) as (H1 & H2 & H3 & H4).
  repeat (split; [assumption|]).
  intros Hdry. revert H. unfold makefolder, bind at 1, get at 1. rewrite Hdry.
  intros [= <- <-]. split; reflexivity.
Qed.

End RepositoryTheorems.

(** ** What a run keeps *)

Section Keeps.
Context {S : Type} (R : S -> S -> Prop) `{!Reflexive R} `{!Transitive R}.

Lemma keeps_ret {A : Type} (a : A) : keeps R (ret a).
Proof. intros s r s' [= <- <-]. reflexivity. Qed.

Lemma keeps_raise {A : Type} (e : exn) : keeps R (raise (A := A) e).
Proof. intros s r s' [= <- <-]. reflexivity. Qed.

Lemma keeps_get : keeps R get.
Proof. intros s r s' [= <- <-]. reflexivity. Qed.

(** The continuation may rely on what the first computation returns. *)
Lemma keeps_bind_post {A B : Type} (c : M S A) (k : A -> M S B) (Q : A -> S -> Prop) :
  keeps R c ->
  (forall s a s', c s = (Ok a, s') -> Q a s') ->
  (forall a s r s', Q a s -> k a s = (r, s') -> R s s') ->
  keeps R (bind c k).
Proof.
  intros Hc HQ Hk s r s'. unfold bind. destruct (c s) as [[a|e] s1] eqn:E.
  - intros H. transitivity s1; [exact (Hc _ _ _ E)|].
    exact (Hk _ _ _ _ (HQ _ _ _ E) H).
  - intros [= <- <-]. exact (Hc _ _ _ E).
Qed.

Lemma keeps_bind {A B : Type} (c : M S A) (k : A -> M S B) :
  keeps R c -> (forall a, keeps R (k a)) -> keeps R (bind c k).
Proof.
  intros Hc Hk. apply (keeps_bind_post c k (fun _ _ => True)); [exact Hc|auto|].
  intros a s r s' _. apply Hk.
Qed.

Lemma keeps_try_except {A : Type} (c : M S A) (handles : exn -> bool)
    (handler : exn -> M S A) :
  keeps R c -> (forall e, keeps R (handler e)) -> keeps R (try_except c handles handler).
Proof.
  intros Hc Hh s r s'. unfold try_except. destruct (c s) as [[a|e] s1] eqn:E.
  - intros [= <- <-]. exact (Hc _ _ _ E).
  - destruct (handles e).
    + intros H. transitivity s1; [exact (Hc _ _ _ E)|exact (Hh _ _ _ _ H)].
    + intros [= <- <-]. exact (Hc _ _ _ E).
Qed.

Lemma keeps_on_close {A : Type} (c : M S A) (cleanup : M S unit) :
  keeps R c -> keeps R cleanup -> keeps R (on_close c cleanup).
Proof.
  intros Hc Hu s r s'. unfold on_close. destruct (c s) as [[a|e] s1] eqn:E.
  - intros [= <- <-]. exact (Hc _ _ _ E).
  - intros [= <- <-]. transitivity s1; [exact (Hc _ _ _ E)|].
    exact (Hu s1 _ _ (surjective_pairing _)).
Qed.

Lemma keeps_for_each {A : Type} (xs : list A) (body : A -> M S unit) :
  (forall x, keeps R (body x)) -> keeps R (for_each xs body).
Proof.
  intros Hb. induction xs as [|x xs IH]; cbn [for_each].
  - apply keeps_ret.
  - apply keeps_bind; [apply Hb|intros _; exact IH].
Qed.

Lemma keeps_map_m {A B : Type} (f : A -> M S B) (xs : list A) :
  (forall x, keeps R (f x)) -> keeps R (map_m f xs).
Proof.
  intros Hf. induction xs as [|x xs IH]; cbn [map_m].
  - apply keeps_ret.
  - apply keeps_bind; [apply Hf|intros y].
    apply keeps_bind; [exact IH|intros ys; apply keeps_ret].
Qed.

End Keeps.

Ltac keeps_step :=
  match goal with
  | |- keeps _ (bind _ _) => apply keeps_bind; try typeclasses eauto; [|intros ?]
  | |- keeps _ (if ?b then _ else _) => destruct b
  | |- keeps _ (match ?x with _ => _ end) => destruct x
  | |- keeps _ (on_close _ _) => apply keeps_on_close; try typeclasses eauto
  | |- keeps _ (try_except _ _ _) =>
      apply keeps_try_except; try typeclasses eauto; [|intros ?]
  | |- keeps _ (for_each _ _) => apply keeps_for_each; try typeclasses eauto; intros ?
  | |- keeps _ (map_m _ _) => apply keeps_map_m; try typeclasses eauto; intros ?
  | |- keeps _ (ret _) => apply keeps_ret; typeclasses eauto
  | |- keeps _ (raise _) => apply keeps_raise; typeclasses eauto
  | |- keeps _ get => apply keeps_get; typeclasses eauto
  end.

#[export] Instance scanned_by_refl (P : event -> bool) : Reflexive (scanned_by P).
Proof.
  intros s. split; [apply same_files_refl|]. split; [|repeat split].
  exists []. split; [|reflexivity]. unfold added. rewrite app_nil_r. reflexivity.
Qed.

#[export] Instance scanned_by_trans (P : event -> bool) : Transitive (scanned_by P).
Proof.
  intros s1 s2 s3 (F1 & (t1 & A1 & P1) & H1) (F2 & (t2 & A2 & P2) & H2).
  split; [eapply same_files_trans; eassumption|]. split.
  - exists (t1 ++ t2). unfold added in *. split; [rewrite A2, A1, app_assoc; reflexivity|].
    rewrite forallb_app, P1, P2. reflexivity.
  - destruct H1 as (?&?&?&?&?&?&?), H2 as (?&?&?&?&?&?&?). repeat split; congruence.
Qed.

#[export] Instance extended_refl : Reflexive extended.
Proof. intros s. exists []. unfold added. rewrite app_nil_r. reflexivity. Qed.

#[export] Instance extended_trans : Transitive extended.
Proof.
  intros s1 s2 s3 [t1 A1] [t2 A2]. exists (t1 ++ t2). unfold added in *.
  rewrite A2, A1, app_assoc. reflexivity.
Qed.

Section Scanning.
Import MaildirRepository.
Variable construct : list arg -> result MaildirFolder.t.
Variable P : event -> bool.
Hypothesis P_isdir : forall p, P (EIsdir p) = true.
Hypothesis P_getatime : forall p, P (EGetatime p) = true.

Lemma scanned_os {A : Type} (c : M World A) (e : event) :
  P e = true ->
  (forall w r w', c w = (r, w') -> w' = logged e w) ->
  keeps (scanned_by P) (os c).
Proof.
  intros He Hc s r s'. unfold os. cbn [the_world with_world St_HasWorld].
  destruct (c (world s)) as [r0 w'] eqn:E. intros [= <- <-].
  rewrite (Hc _ _ _ E). split; [repeat split|]. split; [|repeat split].
  exists [e]. split; [reflexivity|]. simpl. rewrite He. reflexivity.
Qed.

Lemma scanned_listdir (p : string) :
  P (EListdir p) = true -> keeps (scanned_by P) (os (os_listdir p)).
Proof.
  intros He. apply (scanned_os _ (EListdir p) He).
  intros w r w' H. apply os_listdir_inv in H. tauto.
Qed.

Lemma scanned_isdir (p : string) : keeps (scanned_by P) (os (os_path_isdir p)).
Proof.
  apply (scanned_os _ (EIsdir p) (P_isdir p)).
  intros w r w' H. apply os_path_isdir_inv in H. tauto.
Qed.

Lemma scanned_getatime (p : string) : keeps (scanned_by P) (os (os_path_getatime p)).
Proof.
  apply (scanned_os _ (EGetatime p) (P_getatime p)).
  intros w r w' H. exact (os_path_getatime_inv _ _ _ _ H).
Qed.

Lemma scanned_set_folders (f : option (list MaildirFolder.t)) :
  keeps (scanned_by P) (set_folders f).
Proof.
  intros s r s' [= <- <-]. split; [repeat split|]. split; [|repeat split].
  exists []. split; [|reflexivity]. unfold added. cbn. rewrite app_nil_r. reflexivity.
Qed.

Lemma scanned_set_folder_atimes (a : list (string * Z * Z)) :
  keeps (scanned_by P) (set_folder_atimes a).
Proof.
  intros s r s' [= <- <-]. split; [repeat split|]. split; [|repeat split].
  exists []. split; [|reflexivity]. unfold added. cbn. rewrite app_nil_r. reflexivity.
Qed.

Lemma scanned_getsep : keeps (scanned_by P) getsep.
Proof. unfold getsep. repeat keeps_step. Qed.

Lemma scanned_append_folder_atimes (foldername : string) :
  keeps (scanned_by P) (_append_folder_atimes foldername).
Proof.
  unfold _append_folder_atimes.
  repeat first [keeps_step | apply scanned_getatime | apply scanned_set_folder_atimes].
Qed.

Hypothesis P_listdir : forall p, P (EListdir p) = true.

Lemma scanned_getfolders_scandir (depth : nat) (root : string) (extension : option string) :
  keeps (scanned_by P) (_getfolders_scandir construct depth root extension).
Proof.
  revert extension. induction depth as [|depth IH]; intros extension; cbn [_getfolders_scandir].
  - keeps_step.
  - repeat first [keeps_step | apply scanned_listdir, P_listdir | apply scanned_isdir
                  | apply scanned_getsep | apply scanned_append_folder_atimes | apply IH].
Qed.

Lemma scanned_getfolders : keeps (scanned_by P) (getfolders construct).
Proof.
  unfold getfolders.
  repeat first [keeps_step | apply scanned_getfolders_scandir | apply scanned_set_folders].
Qed.

Lemma scanned_getfolder (foldername : string) :
  keeps (scanned_by P) (getfolder construct foldername).
Proof.
  unfold getfolder. repeat first [keeps_step | apply scanned_getfolders].
Qed.

(** X14: [getfolder] answers from the folder list that [getfolders]
    caches.  Once [getfolders] has returned the list [l], the list is
    cached, and every [getfolder] is answered from it without any
    system call or change of state: a name that one of the folders of
    [l] carries gives the first such folder, which has the name asked
    for, and any other name an [OfflineImapError] of severity FOLDER
    whose message quotes the name.  [forgetfolders] drops the list and
    nothing else. *)
Theorem getfolder_answers_from_the_cache (s s1 : St) (l : list MaildirFolder.t) :
  getfolders construct s = (Ok l, s1) ->
  folders (self s1) = Some l /\
  getfolders construct s1 = (Ok l, s1) /\
  (forall other : string,
     getfolder construct other s1
     = (match List.find (fun g => String.eqb other (MaildirFolder.name g)) l with
        | Some g => Ok g
        | None => Raise (OfflineImapError
                           ("getfolder() asked for a nonexisting folder '"
                            +:+ other +:+ "'.") "FOLDER")
        end, s1)) /\
  (forall (other : string) (f : MaildirFolder.t) (s2 : St),
     getfolder construct other s1 = (Ok f, s2) ->
     MaildirFolder.name f = other /\ f ∈ l /\ s2 = s1) /\
  (exists s2, forgetfolders s1 = (Ok tt, s2) /\ folders (self s2) = None /\
              world s2 = world s1 /\ cache s2 = cache s1 /\
              folder_atimes (self s2) = folder_atimes (self s1)).
Proof.
  intros Hl.
  assert (Hcached : folders (self s1) = Some l).
  { revert Hl. unfold getfolders, bind at 1, get at 1.
    destruct (folders (self s)) as [l0|] eqn:E; [intros [= <- <-]; exact E|].
    intros H. apply bind_ok_inv in H as (l1 & s2 & _ & H).
    apply bind_ok_inv in H as ([] & s3 & Hset & H).
    injection H as <- <-. injection Hset as <-. reflexivity. }
  assert (Hagain : forall other,
            getfolder construct other s1
            = (match List.find (fun g => String.eqb other (MaildirFolder.name g)) l with
               | Some g => Ok g
               | None => Raise (OfflineImapError
                                  ("getfolder() asked for a nonexisting folder '"
                                   +:+ other +:+ "'.") "FOLDER")
               end, s1)).
  { intros other. unfold getfolder, getfolders, bind, get. rewrite Hcached. unfold ret at 1.
    destruct (List.find (fun g => String.eqb other (MaildirFolder.name g)) l); reflexivity. }
  split; [exact Hcached|]. split.
  { unfold getfolders, bind, get. rewrite Hcached. reflexivity. }
  split; [exact Hagain|]. split.
  - intros other f s2. rewrite Hagain.
    destruct (List.find (fun g => String.eqb other (MaildirFolder.name g)) l)
      as [g|] eqn:Hfind; [|discriminate].
    intros [= <- <-].
    pose proof (List.find_some _ _ Hfind) as [Hin Hname]. apply String.eqb_eq in Hname.
    split; [symmetry; exact Hname|]. split; [apply list_elem_of_In; exact Hin|reflexivity].
  - eexists. split; [reflexivity|]. repeat split.
Qed.

End Scanning.
(** ** Folders right below the root *)

(** A loop that collects results, when each round is known to end with
    the result [g] gives and to keep the relation [I] to the start. *)
Lemma map_m_run {S A B : Type} (f : A -> M S B) (I : S -> S -> Prop) (g : A -> result B)
    (xs : list A) (s0 s : S) :
  (forall x t, I s0 t -> exists t', f x t = (g x, t') /\ I s0 t') ->
  I s0 s -> exists s', map_m f xs s = (results_of g xs, s') /\ I s0 s'.
Proof.
  intros Hf. revert s. induction xs as [|x xs IH]; intros s Hs; cbn [map_m results_of].
  - exists s. split; [reflexivity|exact Hs].
  - destruct (Hf x s Hs) as (t & Hx & Ht). unfold bind at 1. rewrite Hx.
    destruct (g x) as [y|e]; [|exists t; split; [reflexivity|exact Ht]].
    destruct (IH t Ht) as (t' & Hxs & Ht'). unfold bind at 1. rewrite Hxs.
    destruct (results_of g xs); exists t'; split; first [reflexivity|exact Ht'].
Qed.

Lemma results_of_filter (construct : list arg -> result MaildirFolder.t)
    (root sep : string) (keep : string -> bool) (names : list string) :
  match results_of (fun d => if keep d
                             then match construct [AStr root; AStr d; AStr sep; ARepository] with
                                  | Ok f => Ok [f]
                                  | Raise e => Raise e
                                  end
                             else Ok []) names with
  | Ok found => Ok (concat found)
  | Raise e => Raise e
  end = construct_each construct root sep (List.filter keep names).
Proof.
  induction names as [|d names IH]; [reflexivity|]. cbn [results_of List.filter].
  destruct (keep d).
  - cbn [construct_each]. destruct (construct _) as [f|e]; [|reflexivity].
    rewrite <- IH. destruct (results_of _ names); reflexivity.
  - rewrite <- IH. destruct (results_of _ names); reflexivity.
Qed.

Section FlatScan.
Import MaildirRepository.
Variable construct : list arg -> result MaildirFolder.t.

Lemma isdir_now_same (w w' : World) (p : string) :
  same_files w w' -> isdir_now w' p = isdir_now w p.
Proof.
  intros (Hfs & _ & Hcwd & _). unfold isdir_now.
  rewrite (resolve_cwd _ _ _ Hcwd), (stat_fs _ _ _ Hfs). reflexivity.
Qed.

Lemma separator_scanned (P : event -> bool) (s s' : St) :
  scanned_by P s s' -> separator s' = separator s.
Proof. intros (_ & _ & _ & _ & _ & _ & H & _). unfold separator. rewrite H. reflexivity. Qed.

Lemma root_scanned (P : event -> bool) (s s' : St) :
  scanned_by P s s' -> root (self s') = root (self s).
Proof. intros (_ & _ & _ & _ & H & _). exact H. Qed.

Lemma restoreatime_scanned (P : event -> bool) (s s' : St) :
  scanned_by P s s' -> conf_restoreatime (self s') = conf_restoreatime (self s).
Proof. intros (_ & _ & _ & _ & _ & _ & _ & H & _). exact H. Qed.

Lemma os_isdir_run (p : string) (s : St) :
  os (os_path_isdir p) s
  = (Ok (isdir_now (world s) p),
     mkSt (self s) (logged (EIsdir p) (world s)) (cache s) (dirty_status s)).
Proof. reflexivity. Qed.

(** One step of a run whose states stay related to [s0]. *)
Lemma scan_step {A B : Type} (c : M St A) (k : A -> M St B) (s0 t t1 : St) (a : A)
    (r : result B) :
  c t = (Ok a, t1) ->
  scanned_by is_probe t t1 ->
  scanned_by is_probe s0 t ->
  (scanned_by is_probe s0 t1 -> exists t', k a t1 = (r, t') /\ scanned_by is_probe s0 t') ->
  exists t', bind c k t = (r, t') /\ scanned_by is_probe s0 t'.
Proof.
  intros Hc H1 H0 Hk. unfold bind. rewrite Hc. apply Hk. etransitivity; eassumption.
Qed.

Lemma scan_isdir {B : Type} (p : string) (k : bool -> M St B) (s0 t : St) (r : result B) :
  scanned_by is_probe s0 t ->
  (forall t1, scanned_by is_probe s0 t1 ->
     exists t', k (isdir_now (world s0) p) t1 = (r, t') /\ scanned_by is_probe s0 t') ->
  exists t', bind (os (os_path_isdir p)) k t = (r, t') /\ scanned_by is_probe s0 t'.
Proof.
  intros H0 Hk. eapply scan_step; [apply os_isdir_run| |exact H0|].
  - exact (scanned_isdir is_probe (fun _ => eq_refl) _ _ _ _ (os_isdir_run p t)).
  - intros H1. destruct H0 as [F _]. rewrite (isdir_now_same _ _ _ F). apply Hk, H1.
Qed.

(** The access time of a directory can be read. *)
Lemma getatime_of_dir (p : string) (s : St) :
  isdir_now (world s) p = true ->
  exists z, os (os_path_getatime p) s
            = (Ok z, mkSt (self s) (logged (EGetatime p) (world s)) (cache s)
                          (dirty_status s)).
Proof.
  unfold isdir_now. intros H. apply andb_true_iff in H as [Hp Hd].
  apply negb_true_iff in Hp. apply bool_decide_eq_true_1 in Hd.
  unfold os, os_path_getatime, bind, log, modify, get, ret, raise.
  cbn [the_world with_world St_HasWorld fst snd].
  change (resolve (logged (EGetatime p) (world s)) p) with (resolve (world s) p).
  change (stat (logged (EGetatime p) (world s)) (resolve (world s) p))
    with (stat (world s) (resolve (world s) p)).
  rewrite Hp, Hd. eexists. reflexivity.
Qed.

Lemma append_folder_atimes_run (foldername : string) (s : St) :
  isdir_now (world s) (path_join (path_join (root (self s)) foldername) "new") = true ->
  isdir_now (world s) (path_join (path_join (root (self s)) foldername) "cur") = true ->
  exists s', _append_folder_atimes foldername s = (Ok tt, s').
Proof.
  intros Hn Hc. unfold _append_folder_atimes. unfold bind at 1, get at 1.
  destruct (getatime_of_dir _ _ Hn) as [zn En]. unfold bind at 1. rewrite En.
  match goal with |- context [bind _ _ ?t] => set (t1 := t) end.
  assert (Hc1 : isdir_now (world t1)
                  (path_join (path_join (root (self s)) foldername) "cur") = true)
    by exact Hc.
  destruct (getatime_of_dir _ _ Hc1) as [zc Ec]. unfold bind at 1. rewrite Ec.
  eexists. reflexivity.
Qed.

(** X15: with a separator other than [/], a scan of the root looks at
    the root directory only.  The folder names it finds are, in
    directory order, the entries of the root that are directories with
    [cur], [new] and [tmp] inside and are not called like a partition,
    followed by the empty name when the root itself has the three
    partitions.  For each of them in turn the scan calls the folder
    class with the four arguments [(self.root, name, separator, self)],
    and it returns the folders these calls return, or raises what the
    first failing call raises.  It lists the root, once, and no other
    directory, and it changes no file. *)
Theorem flat_scan_finds_the_maildirs (depth : nat) (toppath : string) (s : St) :
  separator s <> "/" ->
  isdir_now (world s) toppath = true ->
  conf_restoreatime (self s) = false \/ toppath = root (self s) ->
  exists s',
    _getfolders_scandir construct (S depth) toppath None s
    = (construct_each construct (root (self s)) (separator s)
         (flat_folder_names (world s) toppath), s') /\
    same_files (world s) (world s') /\
    exists tr, added (world s) (world s') (EListdir toppath :: tr) /\
               forallb (fun e => negb (is_listdir e)) tr = true.
Proof.
  intros Hsep Hroot Hat. cbn [_getfolders_scandir].
  assert (Hls : os (os_listdir toppath) s
                = (Ok (children (fs (world s)) (resolve (world s) toppath)),
                   mkSt (self s) (logged (EListdir toppath) (world s)) (cache s)
                        (dirty_status s))).
  { unfold os. cbn [the_world with_world St_HasWorld]. rewrite os_listdir_spec.
    unfold isdir_now in Hroot. apply andb_true_iff in Hroot as [Hp Hd].
    apply negb_true_iff in Hp. apply bool_decide_eq_true_1 in Hd.
    rewrite Hp, Hd. reflexivity. }
  unfold bind at 1. rewrite Hls.
  set (s1 := mkSt (self s) (logged (EListdir toppath) (world s)) (cache s) (dirty_status s)).
  set (keep := fun d : string => negb (bool_decide (d ∈ ["cur"; "new"; "tmp"])) &&
                                 is_maildir (world s1) (path_join toppath d)).
  set (g := fun d : string =>
              if keep d
              then match construct [AStr (root (self s)); AStr d; AStr (separator s);
                                    ARepository] with
                   | Ok f => Ok [f]
                   | Raise e => Raise e
                   end
              else Ok []).
  match goal with |- context [map_m ?f0 _] => set (f := f0) end.
  destruct (map_m_run f (scanned_by is_probe) g
              (children (fs (world s)) (resolve (world s) toppath) ++ [""]) s1 s1)
    as (s' & Hrun & Hs'); [|reflexivity|].
  - intros d t Ht. unfold f, g, keep.
    rewrite bool_decide_eq_false_2 by (intros [? [=]]). rewrite andb_false_r.
    destruct (bool_decide (d ∈ ["cur"; "new"; "tmp"]));
      [exists t; split; [reflexivity|exact Ht]|].
    cbn [negb andb]. unfold is_maildir.
    apply scan_isdir; [exact Ht|]. intros t1 Ht1.
    destruct (isdir_now (world s1) (path_join toppath d)); cbn [negb andb];
      [|exists t1; split; [reflexivity|exact Ht1]].
    apply scan_isdir; [exact Ht1|]. intros t2 Ht2.
    destruct (isdir_now (world s1) (path_join (path_join toppath d) "cur")) eqn:Ecur;
      cbn [andb].
    + apply scan_isdir; [exact Ht2|]. intros t3 Ht3.
      destruct (isdir_now (world s1) (path_join (path_join toppath d) "new")) eqn:Enew;
        cbn [andb].
      * apply scan_isdir; [exact Ht3|]. intros t4 Ht4.
        destruct (isdir_now (world s1) (path_join (path_join toppath d) "tmp")) eqn:Etmp.
        -- assert (Hpre : exists t5,
                     (if conf_restoreatime (self t4)
                      then _append_folder_atimes d else ret tt) t4 = (Ok tt, t5) /\
                     scanned_by is_probe t4 t5).
           { destruct (conf_restoreatime (self t4)) eqn:Er;
               [|exists t4; split; reflexivity].
             rewrite (restoreatime_scanned _ _ _ Ht4) in Er.
             destruct Hat as [Hat|Hat]; [change (conf_restoreatime (self s) = true) in Er;
                                         congruence|].
             destruct (append_folder_atimes_run d t4) as [t5 E5].
             - rewrite (root_scanned _ _ _ Ht4). change (root (self s1)) with (root (self s)).
               rewrite <- Hat. destruct Ht4 as [F _]. rewrite (isdir_now_same _ _ _ F).
               exact Enew.
             - rewrite (root_scanned _ _ _ Ht4). change (root (self s1)) with (root (self s)).
               rewrite <- Hat. destruct Ht4 as [F _]. rewrite (isdir_now_same _ _ _ F).
               exact Ecur.
             - exists t5. split; [exact E5|].
               exact (scanned_append_folder_atimes is_probe (fun _ => eq_refl) _ _ _ _ E5). }
           destruct Hpre as (t5 & E5 & G5).
           assert (Ht5 : scanned_by is_probe s1 t5) by (etransitivity; eassumption).
           unfold bind at 1. unfold bind at 1, get at 1. unfold bind at 1. rewrite E5.
           unfold bind at 1, get at 1. unfold bind at 1, getsep at 1.
           unfold bind at 1, get at 1. unfold ret at 1.
           change (strip (default "." (conf_sep (self t5)))) with (separator t5).
           rewrite (separator_scanned _ _ _ Ht5), (root_scanned _ _ _ Ht5).
           change (separator s1) with (separator s).
           change (root (self s1)) with (root (self s)).
           destruct (construct _) as [fd|e];
             [|exists t5; split; [reflexivity|exact Ht5]].
           unfold ret at 1. unfold bind at 1, getsep at 1. unfold bind at 1, get at 1.
           unfold ret at 1.
           change (strip (default "." (conf_sep (self t5)))) with (separator t5).
           rewrite (separator_scanned _ _ _ Ht5). change (separator s1) with (separator s).
           rewrite (proj2 (String.eqb_neq _ _) Hsep). cbn [andb].
           exists t5. split; [reflexivity|exact Ht5].
        -- unfold bind at 1, ret at 1. unfold bind at 1, getsep at 1.
           unfold bind at 1, get at 1. unfold ret at 1.
           change (strip (default "." (conf_sep (self t4)))) with (separator t4).
           rewrite (separator_scanned _ _ _ Ht4). change (separator s1) with (separator s).
           rewrite (proj2 (String.eqb_neq _ _) Hsep). cbn [andb].
           exists t4. split; [reflexivity|exact Ht4].
      * unfold bind at 1, ret at 1. unfold bind at 1, ret at 1.
        unfold bind at 1, getsep at 1.
        unfold bind at 1, get at 1. unfold ret at 1.
        change (strip (default "." (conf_sep (self t3)))) with (separator t3).
        rewrite (separator_scanned _ _ _ Ht3). change (separator s1) with (separator s).
        rewrite (proj2 (String.eqb_neq _ _) Hsep). cbn [andb].
        exists t3. split; [reflexivity|exact Ht3].
    + unfold bind at 1, ret at 1. unfold bind at 1, ret at 1. unfold bind at 1, ret at 1.
      unfold bind at 1, getsep at 1.
      unfold bind at 1, get at 1. unfold ret at 1.
      change (strip (default "." (conf_sep (self t2)))) with (separator t2).
      rewrite (separator_scanned _ _ _ Ht2). change (separator s1) with (separator s).
      rewrite (proj2 (String.eqb_neq _ _) Hsep). cbn [andb].
      exists t2. split; [reflexivity|exact Ht2].
  - exists s'. unfold bind at 1. rewrite Hrun. split.
    + unfold flat_folder_names.
      rewrite <- (results_of_filter construct _ _ keep).
      fold g. destruct (results_of g _); reflexivity.
    + destruct Hs' as (F2 & (tr & Ha & Hp) & _). split; [exact F2|].
      exists tr. split.
      * unfold added in *. rewrite Ha. unfold s1. cbn [world logged trace].
        rewrite <- app_assoc. reflexivity.
      * clear -Hp. induction tr as [|e tr IH]; [reflexivity|].
        cbn [forallb] in *. apply andb_true_iff in Hp as [He Hp].
        rewrite (IH Hp). destruct e; try discriminate He; reflexivity.
Qed.

End FlatScan.

(** ** A run of the move engine *)

Section EngineRuns.
Import MaildirRepository.
Variable construct : list arg -> result MaildirFolder.t.
Variable _parse_filename :
  MaildirFolder.t -> string -> option string * option Z * option string * list ascii.
Variable _move_file :
  MaildirFolder.t -> string -> Z -> list ascii -> World -> result (list (path * node)).
Variable remote : Remote.
Variable status : Status.

Lemma extended_os {A : Type} (c : M World A) :
  (forall w r w', c w = (r, w') -> exists tr, added w w' tr) ->
  keeps extended (os c).
Proof.
  intros Hc s r s'. unfold os. cbn [the_world with_world St_HasWorld].
  destruct (c (world s)) as [r0 w'] eqn:E. intros [= <- <-]. exact (Hc _ _ _ E).
Qed.

Lemma extended_same_world {A : Type} (c : M St A) :
  (forall s r s', c s = (r, s') -> world s' = world s) -> keeps extended c.
Proof.
  intros Hc s r s' H. exists []. unfold added. rewrite (Hc _ _ _ H), app_nil_r. reflexivity.
Qed.

Lemma extended_scanned (P : event -> bool) (s s' : St) : scanned_by P s s' -> extended s s'.
Proof. intros (_ & (tr & Ha & _) & _). exists tr. exact Ha. Qed.

Lemma extended_log (e : event) : keeps extended (os (log e)).
Proof. apply extended_os. intros w r w' [= <- <-]. exists [e]. reflexivity. Qed.

Lemma extended_listdir (p : string) : keeps extended (os (os_listdir p)).
Proof.
  apply extended_os. intros w r w' H. apply os_listdir_inv in H as (-> & _).
  exists [EListdir p]. reflexivity.
Qed.

Lemma extended_exists (p : string) : keeps extended (os (os_path_exists p)).
Proof.
  apply extended_os. intros w r w' H. apply os_path_exists_inv in H as (-> & _).
  exists [EExists p]. reflexivity.
Qed.

Lemma extended_read (p : string) : keeps extended (os (file_read p)).
Proof.
  apply extended_os. intros w r w' H. apply file_read_inv in H as ->.
  exists [ERead p]. reflexivity.
Qed.

Lemma extended_unlink (p : string) : keeps extended (os (os_unlink p)).
Proof.
  apply extended_os. intros w r w' H. exists [EUnlink p]. exact (os_unlink_trace _ _ _ _ H).
Qed.

Lemma extended_set_fs (f : list (path * node)) : keeps extended (os (set_fs f)).
Proof.
  apply extended_os. intros w r w' [= <- <-]. exists []. unfold added. cbn.
  rewrite app_nil_r. reflexivity.
Qed.

Lemma extended_set_cache (c : gmap string (gmap Z smsg)) : keeps extended (set_cache c).
Proof. apply extended_same_world. intros s r s' [= <- <-]. reflexivity. Qed.

Lemma extended_set_dirty_status (d : gset string) : keeps extended (set_dirty_status d).
Proof. apply extended_same_world. intros s r s' [= <- <-]. reflexivity. Qed.

Lemma extended_set_deletecounter (n : Z) : keeps extended (set_deletecounter n).
Proof. apply extended_same_world. intros s r s' [= <- <-]. reflexivity. Qed.

Lemma extended_set_folders (f : option (list MaildirFolder.t)) :
  keeps extended (set_folders f).
Proof. apply extended_same_world. intros s r s' [= <- <-]. reflexivity. Qed.

Lemma extended_getsep : keeps extended getsep.
Proof. apply extended_same_world. intros s r s' [= <- <-]. reflexivity. Qed.

Lemma extended_cache_item (name : string) : keeps extended (cache_item name).
Proof.
  apply extended_same_world. intros s r s'. unfold cache_item, bind, get.
  destruct (cache s !! name); intros [= <- <-]; reflexivity.
Qed.

Lemma extended_call {A : Type} (e : event) (answer : list event -> result A) :
  keeps extended (call e answer).
Proof. unfold call. repeat first [keeps_step | apply extended_log]. Qed.

Lemma extended_getfolders : keeps extended (getfolders construct).
Proof.
  intros s r s' H. apply (extended_scanned is_scan_call).
  exact (scanned_getfolders construct is_scan_call (fun _ => eq_refl) (fun _ => eq_refl)
           (fun _ => eq_refl) _ _ _ H).
Qed.

Lemma extended_getfolder (name : string) : keeps extended (getfolder construct name).
Proof.
  intros s r s' H. apply (extended_scanned is_scan_call).
  exact (scanned_getfolder construct is_scan_call (fun _ => eq_refl) (fun _ => eq_refl)
           (fun _ => eq_refl) _ _ _ _ H).
Qed.

Lemma extended_checkpoint : keeps extended (checkpoint status).
Proof.
  unfold checkpoint.
  repeat first [keeps_step | apply extended_log | apply extended_set_dirty_status].
Qed.

Lemma extended_commit (x : move) (f : MaildirFolder.t) (ro so sn : string) (uid newuid : Z)
    (old_flags flags : list ascii) :
  keeps extended (commit _move_file remote status x f ro so sn uid newuid old_flags flags).
Proof.
  unfold commit.
  repeat first [keeps_step | apply extended_log | apply extended_set_dirty_status
                | apply extended_set_deletecounter | apply extended_call
                | apply extended_set_fs | apply extended_cache_item
                | apply extended_set_cache | apply extended_checkpoint].
Qed.

Lemma extended_replay (x : move) :
  keeps extended (replay construct _parse_filename _move_file remote status x).
Proof.
  unfold replay.
  repeat first [keeps_step | apply extended_exists | apply extended_getfolder
                | apply extended_getsep | apply extended_call | apply extended_cache_item
                | apply extended_commit].
Qed.

Lemma extended_list_markers (folder : MaildirFolder.t) : keeps extended (list_markers folder).
Proof. unfold list_markers. repeat first [keeps_step | apply extended_listdir]. Qed.

Lemma extended_read_move (folder : MaildirFolder.t) (entry : string) :
  keeps extended (read_move folder entry).
Proof. unfold read_move. repeat first [keeps_step | apply extended_read]. Qed.

Lemma extended_loop :
  keeps extended (syncmoves_loop construct _parse_filename _move_file remote status).
Proof.
  unfold syncmoves_loop, process_folder, process.
  repeat first [keeps_step | apply extended_getfolders | apply extended_list_markers
                | apply extended_read_move | apply extended_replay | apply extended_unlink].
Qed.

Lemma extended_finish : keeps extended (syncmoves_finish remote status).
Proof.
  unfold syncmoves_finish, forgetfolders.
  repeat first [keeps_step | apply extended_call | apply extended_log
                | apply extended_set_folders].
Qed.

End EngineRuns.

Section NoMarkers.
Import MaildirRepository.
Variable construct : list arg -> result MaildirFolder.t.
Variable _parse_filename :
  MaildirFolder.t -> string -> option string * option Z * option string * list ascii.
Variable _move_file :
  MaildirFolder.t -> string -> Z -> list ascii -> World -> result (list (path * node)).
Variable remote : Remote.
Variable status : Status.

(** Listing the markers of a folder never fails. *)
Lemma list_markers_run (folder : MaildirFolder.t) (s : St) :
  exists entries s',
    list_markers folder s = (Ok entries, s') /\ scanned s s'.
Proof.
  pose proof (scanned_listdir is_scan_call
                (path_join (path_join (MaildirFolder.root folder) (MaildirFolder.name folder)) "mv")
                eq_refl) as Hk.
  unfold list_markers, try_except.
  destruct (os (os_listdir _) s) as [[entries|e] s1] eqn:Hls.
  - eexists _, _. split; [reflexivity|]. exact (Hk _ _ _ Hls).
  - assert (He : is_OSError e = true).
    { revert Hls. unfold os. cbn [the_world with_world St_HasWorld].
      destruct (os_listdir _ (world s)) as [r w1] eqn:Hl. intros [= -> _].
      apply os_listdir_inv in Hl as (_ & _ & Herr). exact (Herr e eq_refl). }
    rewrite He. eexists _, _. split; [reflexivity|]. exact (Hk _ _ _ Hls).
Qed.

(** Reading a marker opens the marker file, and does nothing else to
    the world. *)
Lemma read_move_reads (folder : MaildirFolder.t) (entry : string) (s s' : St)
    (r : result move) :
  read_move folder entry s = (r, s') ->
  world s' = logged (ERead (path_join (path_join (path_join (MaildirFolder.root folder)
                                                    (MaildirFolder.name folder)) "mv") entry))
               (world s).
Proof.
  unfold read_move, bind at 1, os at 1. cbn [the_world with_world St_HasWorld].
  destruct (file_read _ (world s)) as [rd w2] eqn:Hrd.
  apply file_read_inv in Hrd as ->.
  destruct rd as [content|e]; [|intros [= <- <-]; reflexivity].
  unfold bind, get. cbn [self world].
  destruct (relpath _ _ _); intros [= <- <-]; reflexivity.
Qed.

(** The look for a first marker either finds none, having only listed
    directories, or opens a marker file. *)
Lemma first_move_cases (folders : list MaildirFolder.t) (s s' : St) (r : result bool) :
  first_move folders s = (r, s') ->
  (r = Ok false /\ scanned s s') \/
  (exists tr p, added (world s) (world s') tr /\ ERead p ∈ tr).
Proof.
  revert s. induction folders as [|folder folders IH]; intros s; cbn [first_move].
  - intros [= <- <-]. left. split; reflexivity.
  - unfold bind at 1.
    destruct (list_markers_run folder s) as (entries & s1 & -> & F1).
    destruct entries as [|entry rest].
    + intros H. apply IH in H as [[-> F2]|(tr & p & Ha & Hin)].
      * left. split; [reflexivity|]. etransitivity; eassumption.
      * right. destruct F1 as (_ & (tr1 & Ha1 & _) & _).
        exists (tr1 ++ tr), p. unfold added in *.
        split; [rewrite Ha, Ha1, app_assoc; reflexivity|].
        apply elem_of_app. right. exact Hin.
    + intros H. right.
      destruct F1 as (_ & (tr1 & Ha1 & _) & _).
      assert (Hw : world s' = logged (ERead (path_join (path_join (path_join
                     (MaildirFolder.root folder) (MaildirFolder.name folder)) "mv") entry))
                     (world s1)).
      { revert H. unfold bind at 1.
        destruct (read_move folder entry s1) as [[x|e] s2] eqn:Hrm;
          apply read_move_reads in Hrm; intros [= _ <-]; exact Hrm. }
      eexists (tr1 ++ [_]), _. unfold added in *. rewrite Hw. cbn [logged trace].
      split; [rewrite Ha1, app_assoc; reflexivity|].
      apply elem_of_app. right. apply elem_of_cons. left. reflexivity.
Qed.

(** X16: without a marker file there is nothing to do.  Unless a
    marker file was opened, [syncmoves] has only scanned directories:
    its calls are [listdir], [isdir] and [getatime], the files are the
    same, and it has contacted neither the remote nor the status
    repository and has left the status caches, the dirty set and the
    counter alone. *)
Theorem syncmoves_without_markers (s : St) :
  exists (r : result unit) (s' : St) (tr : list event),
    syncmoves construct _parse_filename _move_file remote status s = (r, s') /\
    added (world s) (world s') tr /\
    ((exists p, ERead p ∈ tr) \/ (r = Ok tt /\ scanned s s') \/
     (exists e, r = Raise e /\ scanned s s')).
Proof.
  destruct (syncmoves construct _parse_filename _move_file remote status s) as [r s'] eqn:H.
  exists r, s'. revert H. unfold syncmoves, bind at 1, syncmoves_setup, bind at 1.
  destruct (getfolders construct s) as [[folders|e] s1] eqn:Hgf;
    pose proof (scanned_getfolders construct is_scan_call (fun _ => eq_refl)
                  (fun _ => eq_refl) (fun _ => eq_refl) _ _ _ Hgf) as F1.
  2:{ intros [= <- <-]. pose proof F1 as (_ & (tr & Ha & _) & _).
      exists tr. split; [reflexivity|]. split; [exact Ha|]. right. right. eauto. }
  unfold bind at 1.
  destruct (first_move folders s1) as [any s2] eqn:Hfm.
  apply first_move_cases in Hfm as [[-> F2]|(tr2 & p & Ha2 & Hin)].
  - cbn [negb]. intros [= <- <-].
    assert (F : scanned s s2) by (etransitivity; eassumption).
    pose proof F as (_ & (tr & Ha & _) & _).
    exists tr. split; [reflexivity|]. split; [exact Ha|]. right. left. auto.
  - intros H.
    assert (E : extended s2 s').
    { destruct any as [[|]|e]; cbn [negb] in H.
      - revert H.
        set (rest := bind _ _).
        assert (K : keeps extended rest).
        { unfold rest.
          repeat first [keeps_step | apply extended_set_cache | apply extended_log
                        | apply extended_set_dirty_status]. }
        unfold bind at 1.
        destruct (rest s2) as [[b|e] s3] eqn:Hrest; pose proof (K _ _ _ Hrest) as E3.
        + destruct (negb b).
          * intros [= _ <-]. exact E3.
          * intros H. transitivity s3; [exact E3|].
            revert H. apply keeps_bind; try typeclasses eauto;
              [apply extended_loop|intros _; apply extended_finish].
        + intros [= _ <-]. exact E3.
      - injection H as _ <-. reflexivity.
      - injection H as _ <-. reflexivity. }
    destruct E as [tr3 Ha3]. pose proof F1 as (_ & (tr1 & Ha1 & _) & _).
    exists (tr1 ++ tr2 ++ tr3). split; [reflexivity|]. unfold added in *. split.
    + rewrite Ha3, Ha2, Ha1, <- !app_assoc. reflexivity.
    + left. exists p. apply elem_of_app. right. apply elem_of_app. left. exact Hin.
Qed.

End NoMarkers.

#[export] Instance frame_reflexive (keep : bool) (P : event -> bool) :
  Reflexive (frame keep P) := frame_refl keep P.

#[export] Instance frame_transitive (keep : bool) (P : event -> bool) :
  Transitive (frame keep P) := frame_trans keep P.

Section CopyFails.
Import MaildirRepository.
Variable construct : list arg -> result MaildirFolder.t.
Variable _parse_filename :
  MaildirFolder.t -> string -> option string * option Z * option string * list ascii.
Variable _move_file :
  MaildirFolder.t -> string -> Z -> list ascii -> World -> result (list (path * node)).
Variable remote : Remote.
Variable status : Status.

(** X17: a marker whose message the remote store does not copy is
    skipped or ends the run, but is never half replayed: when no copy
    on the remote store answers with a uid above 0 (it raises, as with
    [NotImplementedError], which skips the marker, or answers 0 or
    less), the loop body makes no call but lookups and that copy: no
    delete or expunge flag on the remote store, no local rename, no
    save of a status folder; and the status caches, the dirty set and
    the counter stay as they were. *)
Theorem replay_stops_when_copy_fails (x : move) (s : St) :
  (forall tr a u b n, remotecopymessage remote tr a u b = Ok n -> n <= 0) ->
  exists (r : result unit) (s' : St),
    replay construct _parse_filename _move_file remote status x s = (r, s') /\
    frame true is_lookup_or_copy s s'.
Proof.
  intros Hcopy.
  destruct (replay construct _parse_filename _move_file remote status x s) as [r s'] eqn:H.
  exists r, s'. split; [reflexivity|]. revert s r s' H.
  change (keeps (frame true is_lookup_or_copy)
            (replay construct _parse_filename _move_file remote status x)).
  pose proof (quiet_getfolder construct true is_lookup_or_copy (fun _ => eq_refl)
                (fun _ => eq_refl) (fun _ => eq_refl)) as Hgf.
  unfold replay.
  keeps_step; [keeps_step|].
  keeps_step; [apply quiet_exists; reflexivity|].
  keeps_step; [keeps_step|].
  keeps_step; [apply Hgf|].
  keeps_step; [apply Hgf|].
  keeps_step; [apply quiet_getsep|].
  keeps_step; [apply quiet_call; reflexivity|].
  keeps_step; [apply quiet_call; reflexivity|].
  keeps_step; [apply quiet_cache_item|].
  keeps_step; [apply quiet_cache_item|].
  destruct (_parse_filename a0 (old_filename x)) as [[[? ?] ?] old_flags].
  destruct (_parse_filename a0 (filename x)) as [[[? uid] ?] flags].
  keeps_step; [keeps_step|].
  apply (keeps_bind_post _ _ _
           (fun copied _ => match copied with Some n => n <= 0 | None => True end)).
  - apply quiet_try_except; [|intros ?; apply quiet_ret].
    apply quiet_bind; [apply quiet_call; reflexivity|intros ?; apply quiet_ret].
  - intros s0 copied s1. unfold try_except, bind at 1, call, bind at 1, get at 1.
    unfold bind at 1, os at 1, log, modify. cbn [the_world with_world St_HasWorld world].
    destruct (remotecopymessage remote _ _ _ _) as [n|e] eqn:Hc.
    + intros [= <- <-]. exact (Hcopy _ _ _ _ _ Hc).
    + cbn [raise]. destruct (is_NotImplementedError e); [intros [= <- <-]; exact I|intros [=]].
  - intros [n|] s0 r s1 Hn.
    + apply Z.leb_le in Hn. rewrite Hn. intros [= <- <-]. reflexivity.
    + intros [= <- <-]. reflexivity.
Qed.

End CopyFails.

Section EngineEnds.
Import MaildirRepository.
Variable construct : list arg -> result MaildirFolder.t.
Variable _parse_filename :
  MaildirFolder.t -> string -> option string * option Z * option string * list ascii.
Variable _move_file :
  MaildirFolder.t -> string -> Z -> list ascii -> World -> result (list (path * node)).
Variable remote : Remote.
Variable status : Status.

(** Loading the status folders: each one enters the trace and the
    cache. *)
Lemma load_status_folders (names : list string) (s : St) :
  for_each names (fun name =>
    os (log (EStatusCache name)) ;;
    let* s := get in
    set_cache (<[name := status_load status name]> (cache s))) s
  = (Ok tt,
     mkSt (self s)
          (mkWorld (fs (world s)) (inodes (world s)) (cwd (world s)) (now (world s))
             (lasttime (world s)) (timeseq (world s)) (pid (world s)) (hostname (world s))
             (stat_atime (world s)) (readonly (world s))
             (trace (world s) ++ map EStatusCache names))
          (foldl (fun c name => <[name := status_load status name]> c) (cache s) names)
          (dirty_status s)).
Proof.
  revert s. induction names as [|n names IH]; intros s.
  - cbn. rewrite app_nil_r. destruct s as [sf [] c d]. reflexivity.
  - cbn [for_each]. unfold bind at 1. unfold bind at 1, os at 1, log, modify.
    cbn [the_world with_world St_HasWorld]. unfold bind at 1, get at 1, set_cache, modify.
    rewrite IH. cbn [self world cache dirty_status logged fs inodes cwd now lasttime timeseq
                     pid hostname stat_atime readonly trace foldl map].
    rewrite <- app_assoc. reflexivity.
Qed.

Lemma lookup_loaded (names : list string) (c : gmap string (gmap Z smsg)) (name : string) :
  foldl (fun c n => <[n := status_load status n]> c) c names !! name
  = if bool_decide (name ∈ names) then Some (status_load status name) else c !! name.
Proof.
  revert c. induction names as [|n names IH]; intros c; [reflexivity|].
  cbn [foldl]. rewrite IH.
  destruct (bool_decide (name ∈ names)) eqn:E1.
  - apply bool_decide_eq_true_1 in E1. rewrite bool_decide_eq_true_2 by set_solver. reflexivity.
  - apply bool_decide_eq_false_1 in E1. destruct (decide (n = name)) as [->|Hne].
    + rewrite lookup_insert_eq, bool_decide_eq_true_2 by set_solver. reflexivity.
    + rewrite lookup_insert_ne by exact Hne.
      rewrite bool_decide_eq_false_2; [reflexivity|].
      intros [Heq|Hin]%elem_of_cons; [exact (Hne (eq_sym Heq))|exact (E1 Hin)].
Qed.

(** The state in which [syncmoves] starts its loop. *)
Lemma setup_state (s s' : St) :
  syncmoves_setup construct status s = (Ok true, s') ->
  dirty_status s' = ∅ /\
  cache s' = foldl (fun c name => <[name := status_load status name]> c) ∅
               (status_getfolders status) /\
  exists tr, trace (world s') =
             tr ++ EStatusGetfolders :: map EStatusCache (status_getfolders status).
Proof.
  unfold syncmoves_setup. intros H.
  apply bind_ok_inv in H as (folders & s1 & _ & H).
  apply bind_ok_inv in H as (any & s2 & _ & H).
  destruct any; cbn [negb] in H; [|discriminate H].
  revert H. unfold bind at 1, set_cache at 1, modify at 1.
  unfold bind at 1, os at 1, log at 1, modify at 1. cbn [the_world with_world St_HasWorld].
  unfold bind at 1. rewrite load_status_folders.
  unfold bind at 1, set_dirty_status, modify. intros [= <-].
  cbn [self world cache dirty_status trace logged].
  split; [reflexivity|]. split; [reflexivity|].
  exists (trace (world s2)). rewrite <- app_assoc. reflexivity.
Qed.

(** X18: when [syncmoves] has found a marker and goes on, it starts
    from a fresh cache: [cache] holds exactly the folders of the status
    repository, each with the message list that was loaded for it, the
    dirty set is empty, and the last calls made are
    [statusrepos.getfolders()] and one [cachemessagelist] per status
    folder, in order. *)
Theorem setup_loads_every_status_folder (s s' : St) :
  syncmoves_setup construct status s = (Ok true, s') ->
  dirty_status s' = ∅ /\
  (forall name : string,
     cache s' !! name = if bool_decide (name ∈ status_getfolders status)
                        then Some (status_load status name) else None) /\
  exists tr, trace (world s') =
             tr ++ EStatusGetfolders :: map EStatusCache (status_getfolders status).
Proof.
  intros H. apply setup_state in H as (Hd & Hc & Ht).
  split; [exact Hd|]. split; [|exact Ht].
  intros name. rewrite Hc, lookup_loaded, lookup_empty. reflexivity.
Qed.

End EngineEnds.

#[export] Instance same_cache_refl : Reflexive same_cache.
Proof. intros s. reflexivity. Qed.

#[export] Instance same_cache_trans : Transitive same_cache.
Proof. intros s1 s2 s3 H1 H2. unfold same_cache in *. congruence. Qed.

Section StatusCache.
Import MaildirRepository.
Variable construct : list arg -> result MaildirFolder.t.
Variable _parse_filename :
  MaildirFolder.t -> string -> option string * option Z * option string * list ascii.
Variable _move_file :
  MaildirFolder.t -> string -> Z -> list ascii -> World -> result (list (path * node)).
Variable remote : Remote.
Variable status : Status.

Lemma same_cache_os {A : Type} (c : M World A) : keeps same_cache (os c).
Proof.
  intros s r s'. unfold os. cbn [the_world with_world St_HasWorld].
  destruct (c (world s)) as [r0 w']. intros [= <- <-]. reflexivity.
Qed.

Lemma same_cache_call {A : Type} (e : event) (answer : list event -> result A) :
  keeps same_cache (call e answer).
Proof. unfold call. repeat first [keeps_step | apply same_cache_os]. Qed.

Lemma same_cache_set_deletecounter (n : Z) : keeps same_cache (set_deletecounter n).
Proof. intros s r s' [= <- <-]. reflexivity. Qed.

Lemma same_cache_set_dirty_status (d : gset string) : keeps same_cache (set_dirty_status d).
Proof. intros s r s' [= <- <-]. reflexivity. Qed.

Lemma same_cache_checkpoint : keeps same_cache (checkpoint status).
Proof.
  unfold checkpoint.
  repeat first [keeps_step | apply same_cache_os | apply same_cache_set_dirty_status].
Qed.

Lemma cache_item_inv (name : string) (s s' : St) (m : gmap Z smsg) :
  cache_item name s = (Ok m, s') -> s' = s /\ cache s !! name = Some m.
Proof.
  unfold cache_item, bind, get. destruct (cache s !! name); intros [=]. subst. auto.
Qed.

(** X20: when a replay commits, the status cache is updated in two
    steps: the copy enters the list of the destination's status folder
    under the id the remote store gave it, with the flags parsed from the
    old file name; then the old id is taken out of the list of the
    source's status folder.  Both lists must be in the cache, and no
    other status list changes. *)
Theorem commit_updates_the_status_cache (x : move) (f : MaildirFolder.t)
    (remote_old status_old status_new : string) (uid newuid : Z)
    (old_flags flags : list ascii) (s s' : St) :
  commit _move_file remote status x f remote_old status_old status_new uid newuid old_flags flags s
    = (Ok tt, s') ->
  exists new_list old_list : gmap Z smsg,
    cache s !! status_new = Some new_list /\
    <[status_new := <[newuid := mkSmsg newuid old_flags]> new_list]> (cache s) !! status_old
      = Some old_list /\
    cache s' = <[status_old := delete uid old_list]>
                 (<[status_new := <[newuid := mkSmsg newuid old_flags]> new_list]> (cache s)).
Proof.
  unfold commit. intros H.
  apply bind_ok_inv in H as (? & s1 & [= <- <-] & H).
  apply bind_ok_inv in H as ([] & s2 & H2%same_cache_set_deletecounter & H).
  apply bind_ok_inv in H as (? & ? & [= <- <-] & H).
  apply bind_ok_inv in H as ([] & s3 & H3 & H).
  assert (C3 : same_cache s2 s3).
  { destruct (negb _); [exact (same_cache_os _ _ _ _ H3)|].
    injection H3 as <-. reflexivity. }
  clear H3.
  apply bind_ok_inv in H as ([] & s4 & H4%same_cache_call & H).
  apply bind_ok_inv in H as ([] & s5 & H5%same_cache_os & H).
  apply bind_ok_inv in H as (? & ? & [= <- <-] & H).
  apply bind_ok_inv in H as ([] & s6 & H6 & H).
  assert (C6 : same_cache s5 s6).
  { destruct (_move_file _ _ _ _ _); [exact (same_cache_os _ _ _ _ H6)|discriminate H6]. }
  clear H6.
  assert (C : cache s6 = cache s).
  { unfold same_cache in *. congruence. }
  clear H2 C3 H4 H5 C6.
  apply bind_ok_inv in H as (new_list & ? & [-> Hnew]%cache_item_inv & H).
  apply bind_ok_inv in H as (? & ? & [= <- <-] & H).
  apply bind_ok_inv in H as ([] & s7 & [= <-] & H).
  apply bind_ok_inv in H as (old_list & ? & [-> Hold]%cache_item_inv & H).
  cbn [cache] in Hold.
  apply bind_ok_inv in H as (? & ? & [= <- <-] & H).
  apply bind_ok_inv in H as ([] & s8 & H8 & H).
  cbn [cache] in H8.
  apply bind_ok_inv in H as (? & ? & [= <- <-] & H).
  apply bind_ok_inv in H as ([] & s9 & H9%same_cache_set_dirty_status & H).
  apply bind_ok_inv in H as (? & ? & [= <- <-] & H).
  assert (C10 : same_cache s9 s').
  { destruct (_ =? 0); [exact (same_cache_checkpoint _ _ _ H)|].
    injection H as <-. reflexivity. }
  clear H. rewrite C in Hnew, Hold, H8.
  exists new_list, old_list. split; [exact Hnew|]. split; [exact Hold|].
  unfold same_cache in *. rewrite C10, H9. clear C10 H9.
  destruct (bool_decide (is_Some (old_list !! uid))) eqn:E.
  - injection H8 as <-. reflexivity.
  - injection H8 as <-. cbn [cache].
    apply bool_decide_eq_false_1 in E.
    assert (old_list !! uid = None) as Hn.
    { destruct (old_list !! uid) eqn:E'; [|reflexivity]. exfalso. apply E. eauto. }
    rewrite (delete_id _ _ Hn). symmetry. apply insert_id. exact Hold.
Qed.

End StatusCache.

(** ** Scans that leave the access times alone *)

#[export] Instance plain_scan_refl : Reflexive plain_scan.
Proof. intros s _. split; reflexivity. Qed.

#[export] Instance plain_scan_trans : Transitive plain_scan.
Proof.
  intros s1 s2 s3 H1 H2 Hoff. destruct (H1 Hoff) as [S1 A1].
  assert (Hoff2 : MaildirRepository.conf_restoreatime (MaildirRepository.self s2) = false).
  { destruct S1 as (_ & _ & _ & _ & _ & _ & _ & E & _). rewrite E. exact Hoff. }
  destruct (H2 Hoff2) as [S2 A2]. split; [etransitivity; eassumption|congruence].
Qed.

Section PlainScan.
Import MaildirRepository.
Variable construct : list arg -> result MaildirFolder.t.

Lemma plain_scan_of {A : Type} (c : M St A) :
  keeps (scanned_by is_dir_call) c ->
  (forall s r s', c s = (r, s') -> folder_atimes (self s') = folder_atimes (self s)) ->
  keeps plain_scan c.
Proof. intros Hc Ha s r s' H _. split; [exact (Hc _ _ _ H)|exact (Ha _ _ _ H)]. Qed.

Lemma plain_scan_os {A : Type} (c : M World A) (e : event) :
  is_dir_call e = true ->
  (forall w r w', c w = (r, w') -> w' = logged e w) ->
  keeps plain_scan (os c).
Proof.
  intros He Hc. apply plain_scan_of; [exact (scanned_os is_dir_call c e He Hc)|].
  intros s r s'. unfold os. cbn [the_world with_world St_HasWorld].
  destruct (c (world s)). intros [= <- <-]. reflexivity.
Qed.

Lemma plain_scan_listdir (p : string) : keeps plain_scan (os (os_listdir p)).
Proof.
  apply (plain_scan_os _ (EListdir p) eq_refl).
  intros w r w' H. apply os_listdir_inv in H. tauto.
Qed.

Lemma plain_scan_isdir (p : string) : keeps plain_scan (os (os_path_isdir p)).
Proof.
  apply (plain_scan_os _ (EIsdir p) eq_refl).
  intros w r w' H. apply os_path_isdir_inv in H. tauto.
Qed.

Lemma plain_scan_getsep : keeps plain_scan getsep.
Proof. unfold getsep. repeat keeps_step. Qed.

Lemma plain_scan_set_folders (f : option (list MaildirFolder.t)) :
  keeps plain_scan (set_folders f).
Proof.
  apply plain_scan_of; [apply scanned_set_folders|].
  intros s r s' [= <- <-]. reflexivity.
Qed.

(** The guard of [_append_folder_atimes]. *)
Lemma plain_scan_guarded {B : Type} (foldername : string) (k : M St B) :
  keeps plain_scan k ->
  keeps plain_scan
    (let* s := get in
     (if conf_restoreatime (self s) then _append_folder_atimes foldername else ret tt) ;;
     k).
Proof.
  intros Hk s r s' H Hoff. revert H. unfold bind at 1, get at 1. rewrite Hoff.
  unfold bind at 1, ret at 1. intros H. exact (Hk _ _ _ H Hoff).
Qed.

Lemma plain_scan_getfolders_scandir (depth : nat) (root : string) (extension : option string) :
  keeps plain_scan (_getfolders_scandir construct depth root extension).
Proof.
  revert extension. induction depth as [|depth IH]; intros extension; cbn [_getfolders_scandir].
  - keeps_step.
  - repeat first [apply plain_scan_guarded | apply plain_scan_listdir | apply plain_scan_isdir
                  | apply plain_scan_getsep | apply IH | keeps_step].
Qed.

(** X22: with [restoreatime] off, discovering the folders looks at no
    access time and records none: whatever [getfolders] returns or
    raises, its calls are [listdir] and [isdir] only, [folder_atimes] is
    as it was, and the files and the rest of the repository object but
    the folder list are unchanged. *)
Theorem getfolders_without_restoreatime (s : St) :
  conf_restoreatime (self s) = false ->
  exists (r : result (list MaildirFolder.t)) (s' : St),
    getfolders construct s = (r, s') /\
    folder_atimes (self s') = folder_atimes (self s) /\
    scanned_by is_dir_call s s'.
Proof.
  intros Hoff. destruct (getfolders construct s) as [r s'] eqn:H.
  exists r, s'. split; [reflexivity|].
  assert (K : keeps plain_scan (getfolders construct)).
  { unfold getfolders.
    repeat first [apply plain_scan_getfolders_scandir | apply plain_scan_set_folders
                  | keeps_step]. }
  destruct (K _ _ _ H Hoff) as [Hs Ha]. split; [exact Ha|exact Hs].
Qed.

End PlainScan.

(** ** What a marker names *)

Lemma entry_name_no_slash (x : string) :
  is_entry_name x -> str_forall (fun c => negb (is_slash c)) x = true.
Proof. intros (_ & _ & _ & H). exact H. Qed.

Lemma join_with_cons (sep x : string) (l : list string) :
  l <> [] -> join_with sep (x :: l) = x +:+ sep +:+ join_with sep l.
Proof. destruct l; [contradiction|reflexivity]. Qed.

Lemma split_on_join (l : list string) :
  Forall is_entry_name l -> l <> [] -> split_on "/" (join_with "/" l) = l.
Proof.
  induction 1 as [|x l Hx Hl IH]; [contradiction|]. intros _.
  destruct l as [|y l].
  - apply split_on_name, entry_name_no_slash, Hx.
  - rewrite join_with_cons by discriminate.
    change (x +:+ "/" +:+ join_with "/" (y :: l))
      with (x +:+ String "/" (join_with "/" (y :: l))).
    rewrite split_on_app, IH by discriminate.
    rewrite (split_on_name x) by (apply entry_name_no_slash, Hx). reflexivity.
Qed.

Lemma norm_entry_names (b : bool) (acc l : list string) :
  Forall is_entry_name l -> norm_comps b acc l = acc ++ l.
Proof.
  intros H. revert acc. induction H as [|x l (Hne & Hdot & Hdots & _) Hl IH]; intros acc.
  - rewrite app_nil_r. reflexivity.
  - cbn [norm_comps].
    destruct (String.eqb_spec x ""); [contradiction|].
    destruct (String.eqb_spec x "."); [contradiction|].
    destruct (String.eqb_spec x ".."); [contradiction|].
    cbn [orb negb]. rewrite IH, <- app_assoc. reflexivity.
Qed.

Lemma norm_rooted (l : list string) :
  Forall is_entry_name l -> norm_comps true [] (split_on "/" (rooted l)) = l.
Proof.
  intros H. unfold rooted. cbn [split_on]. rewrite Ascii.eqb_refl. cbn [norm_comps String.eqb orb].
  destruct l as [|x l]; [reflexivity|].
  rewrite split_on_join by (exact H || discriminate). apply (norm_entry_names true [] _ H).
Qed.

Lemma rooted_not_double (l : list string) :
  Forall is_entry_name l -> startswith "//" (rooted l) = false.
Proof.
  intros H. unfold rooted. destruct H as [|x k (Hne & _ & _ & Hs) Hk]; [reflexivity|].
  destruct x as [|c x]; [contradiction|].
  cbn [str_forall] in Hs. apply andb_true_iff in Hs as [Hc _]. apply negb_true_iff in Hc.
  unfold is_slash in Hc.
  destruct k; unfold startswith; cbn [join_with append lit_match]; rewrite Ascii.eqb_refl;
    rewrite Ascii.eqb_sym, Hc; reflexivity.
Qed.

(** An absolute path of plain components is normal. *)
Lemma abspath_rooted (cwd : string) (l : list string) :
  Forall is_entry_name l -> abspath cwd (rooted l) = rooted l.
Proof.
  intros H. unfold abspath.
  assert (Hs : startswith "/" (rooted l) = true) by reflexivity.
  rewrite Hs. unfold normpath. rewrite Hs, (rooted_not_double l H), (norm_rooted l H).
  reflexivity.
Qed.

Lemma filter_entry_names (k : list string) :
  Forall is_entry_name k -> filter (fun x : string => x <> "") k = k.
Proof.
  induction 1 as [|y k (Hne & _) Hk IH]; [reflexivity|].
  rewrite filter_cons_True by exact Hne. rewrite IH. reflexivity.
Qed.

Lemma nonempty_comps_rooted (l : list string) :
  Forall is_entry_name l -> nonempty_comps (rooted l) = l.
Proof.
  intros H. unfold nonempty_comps, rooted. cbn [split_on]. rewrite Ascii.eqb_refl.
  rewrite filter_cons_False by (intros E; apply E; reflexivity).
  destruct l as [|x l].
  - cbn [join_with split_on]. rewrite filter_cons_False by (intros E; apply E; reflexivity).
    reflexivity.
  - rewrite split_on_join by (exact H || discriminate).
    apply filter_entry_names, H.
Qed.

Lemma common_prefix_len_app (l k : list string) :
  common_prefix_len l (l ++ k) = length l.
Proof.
  induction l as [|x l IH]; [reflexivity|].
  cbn [common_prefix_len app length]. rewrite String.eqb_refl, IH. reflexivity.
Qed.

(** The path of an entry below [start], relative to [start]. *)
Lemma relpath_rooted (cwd : string) (l : list string) (x : string) (more : list string) :
  Forall is_entry_name (l ++ x :: more) ->
  relpath cwd (rooted (l ++ x :: more)) (rooted l) = Some (foldl path_join x more).
Proof.
  intros H. pose proof H as Hl. apply Forall_app in Hl as [Hl _].
  unfold relpath. change (String.eqb (rooted (l ++ x :: more)) "") with false. cbv iota.
  rewrite !abspath_rooted, !nonempty_comps_rooted by assumption.
  rewrite common_prefix_len_app, Nat.sub_diag, drop_app_length. reflexivity.
Qed.

Lemma entry_name_not_endswith (x : string) :
  is_entry_name x -> endswith_slash x = false.
Proof.
  intros (Hne & _ & _ & Hs). induction x as [|c x IH]; [reflexivity|].
  cbn [str_forall] in Hs. apply andb_true_iff in Hs as [Hc Hs].
  apply negb_true_iff in Hc. cbn [endswith_slash].
  destruct x as [|c' x']; [exact Hc|]. apply IH; [discriminate|exact Hs].
Qed.

Lemma entry_name_not_startswith (x : string) :
  is_entry_name x -> startswith "/" x = false.
Proof. intros H. apply startswith_slash_false, entry_name_no_slash, H. Qed.

Lemma join_entry (a x : string) :
  a <> "" -> endswith_slash a = false -> is_entry_name x ->
  path_join a x = a +:+ String "/" x /\
  a +:+ String "/" x <> "" /\ endswith_slash (a +:+ String "/" x) = false.
Proof.
  intros Ha He Hx. split; [|split].
  - apply path_join_plain; [apply entry_name_not_startswith, Hx|exact Ha|exact He].
  - destruct a; [contradiction|discriminate].
  - rewrite endswith_slash_app by discriminate.
    destruct Hx as (Hne & Hrest). destruct x as [|c x]; [contradiction|].
    exact (entry_name_not_endswith (String c x) (conj Hne Hrest)).
Qed.

Lemma rstrip_slash_app (a : string) :
  a <> "" -> endswith_slash a = false -> rstrip_slash (a +:+ "/") = a.
Proof.
  induction a as [|c a IH]; [contradiction|]. intros _ He.
  cbn [append rstrip_slash]. destruct a as [|c' a'].
  - cbn [endswith_slash] in He. cbn. rewrite He. reflexivity.
  - cbn [endswith_slash] in He. rewrite IH by (discriminate || exact He).
    rewrite andb_false_r. reflexivity.
Qed.

Lemma not_all_slashes (a : string) :
  a <> "" -> endswith_slash a = false -> str_forall is_slash (a +:+ "/") = false.
Proof.
  induction a as [|c a IH]; [contradiction|]. intros _ He.
  cbn [append str_forall]. destruct a as [|c' a'].
  - cbn [endswith_slash] in He. rewrite He. reflexivity.
  - cbn [endswith_slash] in He. rewrite IH by (discriminate || exact He).
    apply andb_false_r.
Qed.

(** [dirname] and [basename] of an entry below [a]. *)
Lemma dirname_entry (a x : string) :
  a <> "" -> endswith_slash a = false -> is_entry_name x ->
  dirname (a +:+ String "/" x) = a /\ basename (a +:+ String "/" x) = x.
Proof.
  intros Ha He Hx. unfold dirname, basename.
  rewrite (cut_after_slash a x (entry_name_no_slash x Hx)). cbn [fst snd].
  split; [|reflexivity]. unfold trim_head. rewrite (not_all_slashes a Ha He).
  destruct (String.eqb_spec (a +:+ "/") "") as [E|_].
  - destruct a; [contradiction|discriminate E].
  - cbn [negb andb]. apply rstrip_slash_app; assumption.
Qed.

Lemma rooted_snoc (l : list string) (x : string) :
  l <> [] -> rooted (l ++ [x]) = rooted l +:+ String "/" x.
Proof.
  intros Hl. unfold rooted. cbn [append]. f_equal.
  induction l as [|y l IH]; [contradiction|]. destruct l as [|z l].
  - reflexivity.
  - change ((y :: z :: l) ++ [x]) with (y :: ((z :: l) ++ [x])).
    rewrite join_with_cons
      by (intros E; symmetry in E; exact (app_cons_not_nil _ _ _ E)).
    rewrite IH by discriminate.
    rewrite (join_with_cons "/" y (z :: l)) by discriminate.
    rewrite !str_app_assoc. reflexivity.
Qed.

Lemma join_plain (l : list string) :
  Forall is_entry_name l -> l <> [] ->
  join_with "/" l <> "" /\ endswith_slash (join_with "/" l) = false.
Proof.
  induction 1 as [|x l Hx Hl IH]; [contradiction|]. intros _.
  destruct l as [|y l].
  - cbn [join_with]. split; [destruct Hx as (H & _); exact H|].
    apply entry_name_not_endswith, Hx.
  - destruct IH as [Hne He]; [discriminate|].
    rewrite join_with_cons by discriminate. split.
    + destruct Hx as (H & _). destruct x; [contradiction|discriminate].
    + rewrite endswith_slash_app by discriminate.
      change ("/" +:+ join_with "/" (y :: l)) with (String "/" (join_with "/" (y :: l))).
      cbn [endswith_slash]. destruct (join_with "/" (y :: l)); [contradiction|exact He].
Qed.

Lemma rooted_plain (l : list string) :
  Forall is_entry_name l -> l <> [] -> rooted l <> "" /\ endswith_slash (rooted l) = false.
Proof.
  intros H Hl. split; [discriminate|].
  destruct (join_plain l H Hl) as [Hne He]. unfold rooted. cbn [endswith_slash].
  destruct (join_with "/" l); [contradiction|exact He].
Qed.

Section Markers.
Import MaildirRepository.

(** X23: what a marker names is what [_getmoves] yields.  When the
    marker [entry] in the [mv] directory of [folder] holds, up to white
    space around it, the absolute path of a message [NM] in partition
    [P] of folder [G] below the root, the tuple has the marker's own
    path, the name of [folder] as the old folder, [G] as the new folder,
    [entry] as the old file name, [P/NM] as the file name and the path
    itself as the full name; and reading it has opened the marker file
    and done nothing else. *)
Theorem marker_names_its_move (folder : MaildirFolder.t) (entry : string)
    (rs : list string) (G P NM : string) (s : St) (i : nat) :
  let marker := path_join (path_join (path_join (MaildirFolder.root folder)
                                        (MaildirFolder.name folder)) "mv") entry in
  let newdest := rooted (rs ++ [G; P; NM]) in
  root (self s) = rooted rs ->
  Forall is_entry_name (rs ++ [G; P; NM]) ->
  marker <> "" ->
  stat (world s) (resolve (world s) marker) = Some (File i) ->
  strip (default "" (inodes (world s) !! i)) = newdest ->
  read_move folder entry s
  = (Ok (mkMove marker (MaildirFolder.name folder) G entry (P +:+ "/" +:+ NM) newdest),
     mkSt (self s) (logged (ERead marker) (world s)) (cache s) (dirty_status s)).
Proof.
  intros marker newdest Hroot Hall Hm Hst Hcontent.
  pose proof Hall as Hparts. apply Forall_app in Hparts as [Hrs Hparts].
  pose proof (Forall_inv Hparts) as HG.
  pose proof (Forall_inv (Forall_inv_tail Hparts)) as HP.
  pose proof (Forall_inv (Forall_inv_tail (Forall_inv_tail Hparts))) as HNM.
  unfold read_move. fold marker. unfold bind at 1, os at 1.
  cbn [the_world with_world St_HasWorld].
  rewrite (file_read_file marker (world s) i Hm Hst). rewrite Hcontent.
  unfold bind, get. cbn [self world]. change (cwd (logged _ (world s))) with (cwd (world s)).
  rewrite Hroot. unfold newdest at 1.
  rewrite (relpath_rooted (cwd (world s)) rs G [P; NM] Hall). cbn [foldl].
  assert (HGne : G <> "") by (destruct HG as (H & _); exact H).
  destruct (join_entry G P HGne (entry_name_not_endswith G HG) HP) as (E1 & N1 & S1).
  rewrite E1.
  destruct (join_entry _ NM N1 S1 HNM) as (E2 & N2 & S2). rewrite E2.
  destruct (dirname_entry _ NM N1 S1 HNM) as [D1 _]. rewrite D1.
  destruct (dirname_entry G P HGne (entry_name_not_endswith G HG) HP) as [D2 _]. rewrite D2.
  assert (Hshape : newdest = (rooted (rs ++ [G]) +:+ String "/" P) +:+ String "/" NM).
  { unfold newdest.
    change (rs ++ [G; P; NM]) with (rs ++ [G] ++ [P] ++ [NM]).
    rewrite !app_assoc. rewrite rooted_snoc by (destruct rs; discriminate).
    rewrite rooted_snoc by (destruct rs; discriminate). reflexivity. }
  assert (HrG : Forall is_entry_name (rs ++ [G])).
  { apply Forall_app. split; [exact Hrs|constructor; [exact HG|constructor]]. }
  destruct (rooted_plain (rs ++ [G]) HrG ltac:(destruct rs; discriminate)) as [N0 S0].
  destruct (join_entry _ P N0 S0 HP) as (_ & N3 & S3).
  destruct (dirname_entry _ NM N3 S3 HNM) as [D3 B3].
  destruct (dirname_entry _ P N0 S0 HP) as [_ B4].
  rewrite Hshape, D3, B3, B4.
  rewrite (path_join_plain P NM (entry_name_not_startswith NM HNM)
             ltac:(destruct HP as (H & _); exact H) (entry_name_not_endswith P HP)).
  unfold ret. reflexivity.
Qed.

End Markers.

Section EngineFinish.
Import MaildirRepository.
Variable construct : list arg -> result MaildirFolder.t.
Variable _parse_filename :
  MaildirFolder.t -> string -> option string * option Z * option string * list ascii.
Variable _move_file :
  MaildirFolder.t -> string -> Z -> list ascii -> World -> result (list (path * node)).
Variable remote : Remote.
Variable status : Status.

(** Saving a list of status folders cannot fail. *)
Lemma save_all_run (names : list string) (s : St) :
  for_each names (fun name => os (log (EStatusSave name))) s
  = (Ok tt,
     mkSt (self s)
          (mkWorld (fs (world s)) (inodes (world s)) (cwd (world s)) (now (world s))
             (lasttime (world s)) (timeseq (world s)) (pid (world s)) (hostname (world s))
             (stat_atime (world s)) (readonly (world s))
             (trace (world s) ++ map EStatusSave names))
          (cache s) (dirty_status s)).
Proof.
  revert s. induction names as [|n names IH]; intros s.
  - cbn. rewrite app_nil_r. destruct s as [sf [] c d]. reflexivity.
  - cbn [for_each]. unfold bind at 1, os at 1, log, modify.
    cbn [the_world with_world St_HasWorld]. rewrite IH.
    cbn [self world cache dirty_status logged fs inodes cwd now lasttime timeseq
         pid hostname stat_atime readonly trace map].
    rewrite <- app_assoc. reflexivity.
Qed.

(** Expunging the remote folders one after the other: the run stops at
    the first one that fails. *)
Lemma expunge_all_run (names : list string) (s : St) :
  exists (r : result unit) (done : list string) (w' : World),
    for_each names (fun name =>
      call (ERemoteDoexpunge name) (fun tr => remote_doexpunge remote tr name)) s
    = (r, mkSt (self s) w' (cache s) (dirty_status s)) /\
    fs w' = fs (world s) /\
    added (world s) w' (map ERemoteDoexpunge done) /\
    (r = Ok tt -> done = names).
Proof.
  revert s. induction names as [|n names IH]; intros s.
  - exists (Ok tt), [], (world s). cbn. unfold added. rewrite app_nil_r.
    destruct s; auto.
  - cbn [for_each]. unfold bind at 1, call at 1, bind at 1, get at 1.
    unfold bind at 1, os at 1, log at 1, modify at 1. cbn [the_world with_world St_HasWorld].
    destruct (remote_doexpunge remote (trace (world s)) n) as [[]|e].
    + unfold ret at 1.
      destruct (IH (mkSt (self s) (logged (ERemoteDoexpunge n) (world s)) (cache s)
                      (dirty_status s))) as (r & done & w' & -> & Hfs & Ha & Hr).
      exists r, (n :: done), w'. cbn [self world cache dirty_status] in *.
      split; [reflexivity|]. split; [exact Hfs|]. split.
      * unfold added in *. rewrite Ha. cbn [trace logged map]. rewrite <- app_assoc.
        reflexivity.
      * intros H. rewrite (Hr H). reflexivity.
    + unfold raise at 1.
      exists (Raise e), [n], (logged (ERemoteDoexpunge n) (world s)).
      split; [reflexivity|]. split; [reflexivity|]. split; [reflexivity|]. intros [=].
Qed.

Lemma status_order_NoDup (tr : list event) (X : gset string) :
  NoDup (status_order status tr X).
Proof. rewrite (status_order_enumerates status tr X). apply NoDup_elements. Qed.

Lemma status_order_spec (tr : list event) (X : gset string) (name : string) :
  name ∈ status_order status tr X <-> name ∈ X.
Proof. rewrite (status_order_enumerates status tr X). apply elem_of_elements. Qed.

(** X19: the end of [syncmoves] expunges every remote folder, then
    saves every status folder of the cache once, and only then forgets the
    folder lists.  When listing or expunging the remote folders raises,
    nothing has been saved and nothing forgotten: the repository object
    is as it was and the only calls made are those on the remote side.
    The local files, the cache and the dirty set are the same in both
    cases. *)
Theorem finish_saves_before_it_forgets (s : St) :
  exists (r : result unit) (s' : St) (tr : list event),
    syncmoves_finish remote status s = (r, s') /\
    added (world s) (world s') tr /\
    fs (world s') = fs (world s) /\
    cache s' = cache s /\ dirty_status s' = dirty_status s /\
    match r with
    | Ok _ =>
        folders (self s') = None /\
        exists names saved,
          remote_getfolders remote (trace (world s)) = Ok names /\
          NoDup saved /\
          (forall name, name ∈ saved <-> is_Some (cache s !! name)) /\
          tr = ERemoteGetfolders :: map ERemoteDoexpunge names ++
               map EStatusSave saved ++ [ERemoteForget; EStatusForget]
    | Raise _ => self s' = self s /\ forallb is_expunge_call tr = true
    end.
Proof.
  unfold syncmoves_finish. unfold bind at 1, call at 1, bind at 1, get at 1.
  unfold bind at 1, os at 1, log at 1, modify at 1. cbn [the_world with_world St_HasWorld].
  destruct (remote_getfolders remote (trace (world s))) as [names|e] eqn:Hnames.
  - unfold ret at 1. unfold bind at 1.
    destruct (expunge_all_run names
                (mkSt (self s) (logged ERemoteGetfolders (world s)) (cache s) (dirty_status s)))
      as (r & done & w' & -> & Hfs & Ha & Hr).
    cbn [self world cache dirty_status logged fs trace] in *.
    destruct r as [[]|e].
    + rewrite (Hr eq_refl) in Ha. clear Hr.
      unfold bind at 1, get at 1. unfold bind at 1. rewrite save_all_run.
      cbv [bind forgetfolders set_folders set_self get os log modify ret
           the_world with_world St_HasWorld].
      cbn [self world cache dirty_status logged fs trace].
      eexists (Ok tt), _, (ERemoteGetfolders :: map ERemoteDoexpunge names ++
                           map EStatusSave (status_order status (trace w') (dom (cache s))) ++
                           [ERemoteForget; EStatusForget]).
      split; [reflexivity|].
      cbn [self world cache dirty_status folders fs trace logged].
      unfold added in *. cbn [trace] in *.
      split; [|split; [exact Hfs|split; [reflexivity|split; [reflexivity|]]]].
      * rewrite Ha. cbn [trace logged]. repeat rewrite <- app_assoc. reflexivity.
      * split; [reflexivity|]. exists names, (status_order status (trace w') (dom (cache s))).
        split; [reflexivity|]. split; [apply status_order_NoDup|].
        split; [|rewrite Ha; reflexivity].
        intros name. rewrite status_order_spec. apply elem_of_dom.
    + eexists (Raise e), _, (ERemoteGetfolders :: map ERemoteDoexpunge done).
      split; [reflexivity|]. cbn [self world cache dirty_status].
      split; [|split; [exact Hfs|split; [reflexivity|split; [reflexivity|]]]].
      * unfold added in *. rewrite Ha. cbn [trace logged]. rewrite <- app_assoc.
        reflexivity.
      * split; [reflexivity|]. cbn [forallb is_expunge_call].
        clear. induction done as [|d done IH]; [reflexivity|exact IH].
  - unfold raise at 1. eexists (Raise e), _, [ERemoteGetfolders].
    split; [reflexivity|]. cbn [self world cache dirty_status fs logged].
    repeat split; reflexivity.
Qed.

Lemma bind_raise_inv {A B : Type} (keep : bool) (P : event -> bool)
    (c : M St A) (k : A -> M St B) (s s' : St) (r : result B) :
  quiet keep P c ->
  bind c k s = (r, s') ->
  (frame keep P s s' /\ exists e, r = Raise e) \/
  exists a s1, frame keep P s s1 /\ c s = (Ok a, s1) /\ k a s1 = (r, s').
Proof.
  intros Hc. unfold bind. destruct (c s) as [[a|e] s1] eqn:E.
  - intros H. right. exists a, s1. split; [exact (Hc _ _ _ E)|]. split; [reflexivity|exact H].
  - intros [= <- <-]. left. split; [exact (Hc _ _ _ E)|eauto].
Qed.

(** X21: the body of the loop needs the status folders of both sides
    in the cache.  When one of them is missing, a marker that is not
    skipped for its folder names or its destination makes the body raise
    (the [KeyError] of the lookup, unless a folder handle could not be
    had before), and nothing has been copied or moved: the calls made
    are lookups, and the cache, the dirty set and the counter are
    untouched. *)
Theorem replay_needs_both_status_folders (x : move) (s s' : St) (r : result unit) :
  cache s !! status_name status s (oldfolder x) = None \/
  cache s !! status_name status s (newfolder x) = None ->
  replay construct _parse_filename _move_file remote status x s = (r, s') ->
  frame true is_lookup s s' /\
  (r = Ok tt -> oldfolder x = newfolder x \/ destination_missing x s).
Proof.
  intros Hmiss.
  pose proof (quiet_getfolder construct true is_lookup (fun _ => eq_refl) (fun _ => eq_refl)
                (fun _ => eq_refl)) as Hgf.
  unfold replay. intros H.
  destruct (String.eqb_spec (oldfolder x) (newfolder x)) as [Heq|_].
  { injection H as <- <-. split; [apply frame_refl|auto]. }
  unfold bind at 1, os at 1 in H. cbn [the_world with_world St_HasWorld] in H.
  destruct (os_path_exists (fullname x) (world s)) as [r0 w1] eqn:Hex.
  apply os_path_exists_inv in Hex as [-> ->].
  assert (F1 : frame true is_lookup s
                 (mkSt (self s) (logged (EExists (fullname x)) (world s)) (cache s)
                    (dirty_status s))).
  { apply frame_logged. reflexivity. }
  destruct (negb (String.eqb (fullname x) "")) eqn:Hname; cbn [andb negb] in H.
  2:{ injection H as <- <-. split; [exact F1|]. intros _. right. left.
      apply negb_false_iff in Hname. apply String.eqb_eq in Hname. exact Hname. }
  case_bool_decide as Hstat; cbn [negb] in H.
  2:{ injection H as <- <-. split; [exact F1|]. intros _. right. right.
      destruct (stat _ _) eqn:E; [|reflexivity]. exfalso. apply Hstat. eauto. }
  clear Hname Hstat.
  set (s1 := mkSt _ _ _ _) in *.
  apply (bind_raise_inv true is_lookup) in H; [|auto].
  destruct H as [[F [e ->]]|(local_oldfolder & s2 & F2 & _ & H)].
  { split; [eapply frame_trans; eassumption|intros [=]]. }
  pose proof (frame_trans _ _ _ _ _ F1 F2) as F12. clear F1 F2.
  apply (bind_raise_inv true is_lookup) in H; [|auto].
  destruct H as [[F [e ->]]|(local_newfolder & s3 & F3 & _ & H)].
  { split; [eapply frame_trans; eassumption|intros [=]]. }
  pose proof (frame_trans _ _ _ _ _ F12 F3) as F13. clear F12 F3.
  unfold bind at 1 in H. unfold getsep at 1 in H. unfold bind at 1, get, ret in H.
  change (strip (default "." (conf_sep (self s3)))) with (separator s3) in H.
  rewrite (separator_frame _ _ _ _ F13) in H.
  fold (remote_name remote s (oldfolder x)) (remote_name remote s (newfolder x))
       (status_name status s (oldfolder x)) (status_name status s (newfolder x)) in H.
  apply (bind_raise_inv true is_lookup) in H; [|apply quiet_call; reflexivity].
  destruct H as [[F [e ->]]|([] & s4 & F4 & _ & H)].
  { split; [eapply frame_trans; eassumption|intros [=]]. }
  pose proof (frame_trans _ _ _ _ _ F13 F4) as F14. clear F13 F4.
  apply (bind_raise_inv true is_lookup) in H; [|apply quiet_call; reflexivity].
  destruct H as [[F [e ->]]|([] & s5 & F5 & _ & H)].
  { split; [eapply frame_trans; eassumption|intros [=]]. }
  pose proof (frame_trans _ _ _ _ _ F14 F5) as F15. clear F14 F5.
  assert (C : cache s5 = cache s) by (apply F15; reflexivity).
  unfold bind at 1, cache_item at 1, bind at 1, get at 1 in H. rewrite C in H.
  destruct (cache s !! status_name status s (oldfolder x)) as [old_list|] eqn:Eold.
  2:{ injection H as <- <-. split; [exact F15|intros [=]]. }
  unfold ret at 1 in H.
  unfold bind at 1, cache_item at 1, bind at 1, get at 1 in H. rewrite C in H.
  destruct Hmiss as [[=]|Hmiss]. rewrite Hmiss in H.
  injection H as <- <-. split; [exact F15|intros [=]].
Qed.

End EngineFinish.

(** ** The status folders over a whole run *)

#[export] Instance same_folders_refl : Reflexive same_folders.
Proof. intros s name. reflexivity. Qed.

#[export] Instance same_folders_trans : Transitive same_folders.
Proof. intros s1 s2 s3 H1 H2 name. rewrite (H2 name). apply H1. Qed.

Section WholeRun.
Import MaildirRepository.
Variable construct : list arg -> result MaildirFolder.t.
Variable _parse_filename :
  MaildirFolder.t -> string -> option string * option Z * option string * list ascii.
Variable _move_file :
  MaildirFolder.t -> string -> Z -> list ascii -> World -> result (list (path * node)).
Variable remote : Remote.
Variable status : Status.

Lemma same_folders_of {A : Type} (c : M St A) :
  keeps same_cache c -> keeps same_folders c.
Proof. intros Hc s r s' H name. rewrite (Hc _ _ _ H). reflexivity. Qed.

Lemma same_cache_scanned (P : event -> bool) (s s' : St) :
  scanned_by P s s' -> same_cache s s'.
Proof. intros (_ & _ & H & _). exact H. Qed.

Lemma same_cache_getfolders : keeps same_cache (getfolders construct).
Proof.
  intros s r s' H. apply (same_cache_scanned is_scan_call).
  exact (scanned_getfolders construct is_scan_call (fun _ => eq_refl) (fun _ => eq_refl)
           (fun _ => eq_refl) _ _ _ H).
Qed.

Lemma same_cache_getfolder (name : string) : keeps same_cache (getfolder construct name).
Proof.
  intros s r s' H. apply (same_cache_scanned is_scan_call).
  exact (scanned_getfolder construct is_scan_call (fun _ => eq_refl) (fun _ => eq_refl)
           (fun _ => eq_refl) _ _ _ _ H).
Qed.

Lemma same_cache_getsep : keeps same_cache getsep.
Proof. intros s r s' [= <- <-]. reflexivity. Qed.

Lemma same_cache_cache_item (name : string) : keeps same_cache (cache_item name).
Proof.
  intros s r s'. unfold cache_item, bind, get.
  destruct (cache s !! name); intros [= <- <-]; reflexivity.
Qed.

Lemma same_cache_set_folders (f : option (list MaildirFolder.t)) :
  keeps same_cache (set_folders f).
Proof. intros s r s' [= <- <-]. reflexivity. Qed.

(** Replacing the list of a folder that is in the cache. *)
Lemma same_folders_insert (name : string) (m : gmap Z smsg) (s : St) :
  is_Some (cache s !! name) ->
  same_folders s (mkSt (self s) (world s) (<[name := m]> (cache s)) (dirty_status s)).
Proof.
  intros Hin other. cbn [cache]. destruct (decide (name = other)) as [<-|Hne].
  - rewrite lookup_insert_eq. split; [intros _; exact Hin|eauto].
  - rewrite lookup_insert_ne by exact Hne. reflexivity.
Qed.

(** What follows a lookup in the cache may rely on the folder being
    there. *)
Lemma same_folders_lookup {B : Type} (name : string) (k : gmap Z smsg -> M St B) :
  (forall m s r s', cache s !! name = Some m -> k m s = (r, s') -> same_folders s s') ->
  keeps same_folders (bind (cache_item name) k).
Proof.
  intros Hk s r s'. unfold bind at 1, cache_item at 1, bind at 1, get at 1.
  destruct (cache s !! name) as [m|] eqn:E.
  - unfold ret at 1. exact (Hk _ _ _ _ E).
  - intros [= <- <-]. reflexivity.
Qed.

(** A commit changes lists of the cache, never its folders. *)
Lemma same_folders_commit (x : move) (f : MaildirFolder.t) (ro so sn : string)
    (uid newuid : Z) (old_flags flags : list ascii) :
  keeps same_folders (commit _move_file remote status x f ro so sn uid newuid old_flags flags).
Proof.
  assert (Htail : keeps same_folders
            (let* s := get in
             set_dirty_status ({[so]} ∪ ({[sn]} ∪ dirty_status s)) ;;
             let* s := get in
             if deletecounter (self s) mod save_interval =? 0 then checkpoint status else ret tt)).
  { repeat first [keeps_step | apply same_folders_of, same_cache_set_dirty_status
                  | apply same_folders_of, same_cache_checkpoint]. }
  unfold commit.
  keeps_step; [keeps_step|].
  keeps_step; [apply same_folders_of, same_cache_set_deletecounter|].
  keeps_step; [keeps_step|].
  keeps_step; [keeps_step; [apply same_folders_of, same_cache_os|keeps_step]|].
  keeps_step; [apply same_folders_of, same_cache_call|].
  keeps_step; [apply same_folders_of, same_cache_os|].
  keeps_step; [keeps_step|].
  keeps_step; [keeps_step; [apply same_folders_of, same_cache_os|keeps_step]|].
  apply same_folders_lookup. intros new_list s r s' Hnew.
  unfold bind at 1, get at 1. unfold bind at 1, set_cache at 1, modify at 1. intros H.
  transitivity (mkSt (self s) (world s)
                  (<[sn := <[newuid := mkSmsg newuid old_flags]> new_list]> (cache s))
                  (dirty_status s)).
  { apply same_folders_insert. eauto. }
  revert H. generalize (mkSt (self s) (world s)
                          (<[sn := <[newuid := mkSmsg newuid old_flags]> new_list]> (cache s))
                          (dirty_status s)).
  clear s Hnew. intros s. revert s r s'.
  change (keeps same_folders
            (let* old_list := cache_item so in
             let* s := get in
             (if bool_decide (is_Some (old_list !! uid))
              then set_cache (<[so := delete uid old_list]> (cache s))
              else ret tt) ;;
             let* s := get in
             set_dirty_status ({[so]} ∪ ({[sn]} ∪ dirty_status s)) ;;
             let* s := get in
             if deletecounter (self s) mod save_interval =? 0 then checkpoint status else ret tt)).
  apply same_folders_lookup. intros old_list s r s' Hold.
  unfold bind at 1, get at 1. destruct (bool_decide (is_Some (old_list !! uid))).
  - unfold bind at 1, set_cache at 1, modify at 1. intros H.
    transitivity (mkSt (self s) (world s) (<[so := delete uid old_list]> (cache s))
                    (dirty_status s)).
    + apply same_folders_insert. eauto.
    + exact (Htail _ _ _ H).
  - unfold bind at 1, ret at 1. exact (Htail _ _ _).
Qed.

Lemma same_folders_replay (x : move) :
  keeps same_folders (replay construct _parse_filename _move_file remote status x).
Proof.
  unfold replay.
  repeat first [apply same_folders_commit | apply same_folders_of, same_cache_os
                | apply same_folders_of, same_cache_getfolder
                | apply same_folders_of, same_cache_getsep
                | apply same_folders_of, same_cache_call
                | apply same_folders_of, same_cache_cache_item
                | keeps_step].
Qed.

Lemma same_folders_loop :
  keeps same_folders (syncmoves_loop construct _parse_filename _move_file remote status).
Proof.
  unfold syncmoves_loop, process_folder, process, list_markers, read_move.
  repeat first [apply same_folders_replay | apply same_folders_of, same_cache_os
                | apply same_folders_of, same_cache_getfolders
                | keeps_step].
Qed.

(** The end of a run that returns. *)
Lemma finish_ok (s s' : St) :
  syncmoves_finish remote status s = (Ok tt, s') ->
  folders (self s') = None /\
  exists tr saved,
    trace (world s') = tr ++ map EStatusSave saved ++ [ERemoteForget; EStatusForget] /\
    NoDup saved /\
    forall name : string, name ∈ saved <-> is_Some (cache s !! name).
Proof.
  unfold syncmoves_finish. intros H.
  apply bind_ok_inv in H as (names & s1 & H1%same_cache_call & H).
  unfold bind at 1 in H.
  destruct (expunge_all_run remote names s1) as (r & done & w' & E & _ & _ & _).
  rewrite E in H. destruct r as [[]|e]; [|discriminate H].
  unfold bind at 1, get at 1 in H. unfold bind at 1 in H. rewrite save_all_run in H.
  cbv [bind forgetfolders set_folders set_self get os log modify ret
       the_world with_world St_HasWorld] in H.
  cbn [self world cache dirty_status logged fs trace] in H. injection H as <-.
  cbn [self world folders trace logged]. split; [reflexivity|].
  exists (trace w'), (status_order status (trace w') (dom (cache s1))).
  split; [repeat rewrite <- app_assoc; reflexivity|].
  split; [apply status_order_NoDup|].
  intros name. rewrite status_order_spec, elem_of_dom. unfold same_cache in H1.
  rewrite H1. reflexivity.
Qed.

(** X24: a run of [syncmoves] that returns has either found no marker
    and stopped after its first look, or it has saved the folders of
    the status repository, all of them and each once, and then told
    the three repositories to forget their folder lists: these saves
    and the two [forgetfolders] calls on the other repositories are the
    last calls it made, and its own folder list is dropped.  (The loop
    changes lists of the status cache but not the set of its folders,
    so what is saved at the end is what was loaded at the start.) *)
Theorem syncmoves_saves_every_status_folder (s s' : St) :
  syncmoves construct _parse_filename _move_file remote status s = (Ok tt, s') ->
  syncmoves_setup construct status s = (Ok false, s') \/
  (folders (self s') = None /\
   exists (tr : list event) (saved : list string),
     trace (world s') = tr ++ map EStatusSave saved ++ [ERemoteForget; EStatusForget] /\
     NoDup saved /\
     forall name : string, name ∈ saved <-> name ∈ status_getfolders status).
Proof.
  unfold syncmoves. intros H.
  apply bind_ok_inv in H as (any & s1 & Hsetup & H).
  destruct any; cbn [negb] in H.
  2:{ injection H as <-. left. exact Hsetup. }
  right. apply bind_ok_inv in H as ([] & s2 & Hloop & Hfin).
  apply same_folders_loop in Hloop.
  apply finish_ok in Hfin as (Hf & tr & saved & Ht & Hnd & Hsaved).
  apply setup_state in Hsetup as (_ & Hc & _).
  split; [exact Hf|]. exists tr, saved.
  split; [exact Ht|]. split; [exact Hnd|].
  intros name. rewrite Hsaved, (Hloop name), Hc, lookup_loaded, lookup_empty.
  case_bool_decide as Hin.
  - split; [intros _; exact Hin|eauto].
  - split; [intros [? [=]]|contradiction].
Qed.

End WholeRun.

(** ** The body of the loop, case by case *)

Lemma bind_inv {S A B : Type} (c : M S A) (k : A -> M S B) (s s' : S) (r : result B) :
  bind c k s = (r, s') ->
  (exists e, c s = (Raise e, s') /\ r = Raise e) \/
  exists a s1, c s = (Ok a, s1) /\ k a s1 = (r, s').
Proof.
  unfold bind. destruct (c s) as [[a|e] s1].
  - intros H. right. eauto.
  - intros [= <- <-]. left. eauto.
Qed.

Lemma scanned_by_mono (P Q : event -> bool) (s s' : MaildirRepository.St) :
  (forall e, P e = true -> Q e = true) -> scanned_by P s s' -> scanned_by Q s s'.
Proof.
  intros HPQ (F & (tr & Ha & Hp) & Hrest). split; [exact F|]. split; [|exact Hrest].
  exists tr. split; [exact Ha|]. clear Ha. induction tr as [|e tr IH]; [reflexivity|].
  cbn [forallb] in *. apply andb_true_iff in Hp as [He Hp].
  rewrite (HPQ _ He), (IH Hp). reflexivity.
Qed.

Lemma scanned_called (P : event -> bool) (e : event) (s : MaildirRepository.St) :
  P e = true -> scanned_by P s (called e s).
Proof.
  intros He. split; [repeat split|]. split; [|repeat split].
  exists [e]. split; [reflexivity|]. cbn. rewrite He. reflexivity.
Qed.

(** A lookup neither changes the remote store nor the local file
    system. *)
Lemma lookups_change_nothing (e : event) :
  is_lookup e = true -> is_remote_update e = false /\ is_fs_mutation e = false.
Proof. destruct e; intros [=]; split; reflexivity. Qed.

Lemma scan_call_is_lookup (e : event) : is_scan_call e = true -> is_lookup e = true.
Proof. destruct e; intros [=]; reflexivity. Qed.

Section ReplayCases.
Import MaildirRepository.
Variable construct : list arg -> result MaildirFolder.t.
Variable _parse_filename :
  MaildirFolder.t -> string -> option string * option Z * option string * list ascii.
Variable _move_file :
  MaildirFolder.t -> string -> Z -> list ascii -> World -> result (list (path * node)).
Variable remote : Remote.
Variable status : Status.

Lemma call_run {A : Type} (e : event) (answer : list event -> result A) (s : St) :
  call e answer s = (answer (trace (world s)), called e s).
Proof.
  unfold call, bind, get, os, log, modify. cbn [the_world with_world St_HasWorld].
  destruct (answer (trace (world s))); reflexivity.
Qed.

Lemma cache_item_run (name : string) (s : St) :
  cache_item name s
  = (match cache s !! name with Some m => Ok m | None => Raise KeyError end, s).
Proof. unfold cache_item, bind, get. destruct (cache s !! name); reflexivity. Qed.

Lemma os_exists_run (p : string) (s : St) :
  os (os_path_exists p) s
  = (Ok (negb (String.eqb p "") &&
         bool_decide (is_Some (stat (world s) (resolve (world s) p)))),
     called (EExists p) s).
Proof. reflexivity. Qed.

Lemma destination_missing_iff (x : move) (s : St) :
  negb (String.eqb (fullname x) "") &&
  bool_decide (is_Some (stat (world s) (resolve (world s) (fullname x)))) = false
  <-> destination_missing x s.
Proof.
  unfold destination_missing. destruct (String.eqb_spec (fullname x) "") as [E|E];
    cbn [negb andb].
  - split; auto.
  - case_bool_decide as H.
    + split; [discriminate|]. intros [?|Hn]; [contradiction|].
      rewrite Hn in H. destruct H as [? [=]].
    + split; [|reflexivity]. intros _. right.
      destruct (stat _ _); [exfalso; apply H; eauto|reflexivity].
Qed.

(** The body of the loop, case by case: the marker is skipped for its
    folder names or its destination; or a lookup fails; or the lookups
    lead to a state from which the parsed uid and the answer of the
    copy decide how the body goes on. *)
Lemma replay_cases (x : move) (s s' : St) (r : result unit) :
  replay construct _parse_filename _move_file remote status x s = (r, s') ->
  (oldfolder x = newfolder x /\ r = Ok tt /\ s' = s) \/
  (oldfolder x <> newfolder x /\ destination_missing x s /\
   r = Ok tt /\ s' = called (EExists (fullname x)) s) \/
  (oldfolder x <> newfolder x /\ ~ destination_missing x s /\
   ((exists e, r = Raise e) /\ scanned_by is_lookup s s' \/
    exists (local_oldfolder local_newfolder : MaildirFolder.t) (s7 : St)
           (scan : list event),
      looked_up remote status x s s7 scan /\
      let uid := parsed_uid (_parse_filename local_oldfolder (filename x)) in
      let ro := remote_name remote s (oldfolder x) in
      let rn := remote_name remote s (newfolder x) in
      if uid_negative uid then r = Ok tt /\ s' = s7
      else
        match remotecopymessage remote (trace (world s7)) ro (default 0 uid) rn with
        | Raise e =>
            s' = called (ERemoteCopy ro (default 0 uid) rn) s7 /\
            r = if is_NotImplementedError e then Ok tt else Raise e
        | Ok newuid =>
            if newuid <=? 0
            then r = Ok tt /\ s' = called (ERemoteCopy ro (default 0 uid) rn) s7
            else commit _move_file remote status x local_newfolder ro
                   (status_name status s (oldfolder x))
                   (status_name status s (newfolder x)) (default 0 uid) newuid
                   (_parse_filename local_oldfolder (old_filename x)).2
                   (_parse_filename local_oldfolder (filename x)).2
                   (called (ERemoteCopy ro (default 0 uid) rn) s7) = (r, s')
        end)).
Proof.
  pose proof (scanned_getfolder construct is_scan_call (fun _ => eq_refl) (fun _ => eq_refl)
                (fun _ => eq_refl)) as Hgf.
  unfold replay. intros H.
  destruct (String.eqb_spec (oldfolder x) (newfolder x)) as [Heq|Hne].
  { injection H as <- <-. left. auto. }
  right. unfold bind at 1 in H. rewrite os_exists_run in H.
  destruct (negb (String.eqb (fullname x) "") && bool_decide _) eqn:Hthere; cbn [negb] in H.
  2:{ injection H as <- <-. left. apply destination_missing_iff in Hthere. auto. }
  right. split; [exact Hne|]. split.
  { intros Hm. apply destination_missing_iff in Hm. congruence. }
  clear Hthere.
  assert (F1 : scanned_by is_lookup s (called (EExists (fullname x)) s))
    by (apply scanned_called; reflexivity).
  set (s1 := called (EExists (fullname x)) s) in *.
  apply bind_inv in H as [(e & Hc & ->)|(local_oldfolder & s2 & Hc & H)].
  { left. split; [eauto|]. etransitivity; [exact F1|].
    exact (scanned_by_mono _ _ _ _ scan_call_is_lookup (Hgf _ _ _ _ Hc)). }
  pose proof (Hgf _ _ _ _ Hc) as G2. clear Hc.
  apply bind_inv in H as [(e & Hc & ->)|(local_newfolder & s3 & Hc & H)].
  { left. split; [eauto|]. etransitivity; [exact F1|].
    apply (scanned_by_mono _ _ _ _ scan_call_is_lookup).
    etransitivity; [exact G2|exact (Hgf _ _ _ _ Hc)]. }
  assert (G3 : scanned_by is_scan_call s1 s3)
    by (etransitivity; [exact G2|exact (Hgf _ _ _ _ Hc)]).
  clear Hc G2 s2.
  unfold bind at 1 in H. unfold getsep at 1 in H. unfold bind at 1, get, ret in H.
  change (strip (default "." (conf_sep (self s3)))) with (separator s3) in H.
  assert (Hsep : separator s3 = separator s).
  { destruct G3 as (_ & _ & _ & _ & _ & _ & Hs & _). unfold separator. rewrite Hs.
    reflexivity. }
  rewrite Hsep in H.
  fold (remote_name remote s (oldfolder x)) (remote_name remote s (newfolder x))
       (status_name status s (oldfolder x)) (status_name status s (newfolder x)) in H.
  set (ro := remote_name remote s (oldfolder x)) in *.
  set (rn := remote_name remote s (newfolder x)) in *.
  set (so := status_name status s (oldfolder x)) in *.
  set (sn := status_name status s (newfolder x)) in *.
  assert (F3 : scanned_by is_lookup s s3).
  { etransitivity; [exact F1|]. exact (scanned_by_mono _ _ _ _ scan_call_is_lookup G3). }
  destruct G3 as (_ & (scan & Hscan & Hp) & Hcache3 & _).
  unfold added in Hscan. change (trace (world s1)) with (trace (world s) ++ [EExists (fullname x)])
    in Hscan. rewrite <- app_assoc in Hscan. cbn [app] in Hscan.
  change (cache s1) with (cache s) in Hcache3.
  (* the two lookups on the remote side *)
  unfold bind at 1 in H. rewrite call_run in H. rewrite Hscan in H.
  assert (F4 : scanned_by is_lookup s (called (ERemoteGetfolder ro) s3)).
  { etransitivity; [exact F3|]. apply scanned_called. reflexivity. }
  destruct (remote_getfolder remote _ ro) as [[]|e] eqn:Hro.
  2:{ injection H as <- <-. left. split; [eauto|exact F4]. }
  unfold bind at 1 in H. rewrite call_run in H.
  change (trace (world (called (ERemoteGetfolder ro) s3)))
    with (trace (world s3) ++ [ERemoteGetfolder ro]) in H.
  rewrite Hscan in H. rewrite <- app_assoc in H. cbn [app] in H.
  assert (F5 : scanned_by is_lookup s
                 (called (ERemoteGetfolder rn) (called (ERemoteGetfolder ro) s3))).
  { etransitivity; [exact F4|]. apply scanned_called. reflexivity. }
  set (s5 := called (ERemoteGetfolder rn) (called (ERemoteGetfolder ro) s3)) in *.
  destruct (remote_getfolder remote _ rn) as [[]|e] eqn:Hrn.
  2:{ injection H as <- <-. left. split; [eauto|exact F5]. }
  (* the two lookups in the status cache *)
  unfold bind at 1 in H. rewrite cache_item_run in H.
  change (cache s5) with (cache s3) in H. rewrite Hcache3 in H.
  destruct (cache s !! so) as [old_list|] eqn:Hso.
  2:{ injection H as <- <-. left. split; [eauto|exact F5]. }
  unfold bind at 1 in H. rewrite cache_item_run in H.
  change (cache s5) with (cache s3) in H. rewrite Hcache3 in H.
  destruct (cache s !! sn) as [new_list|] eqn:Hsn.
  2:{ injection H as <- <-. left. split; [eauto|exact F5]. }
  right. exists local_oldfolder, local_newfolder, s5, scan. split.
  { split; [exact F5|]. split; [exact Hp|]. split.
    - unfold added, s5. cbn [world called trace logged]. rewrite Hscan.
      rewrite <- !app_assoc. reflexivity.
    - split; [exact Hro|]. split; [exact Hrn|eauto]. }
  cbv zeta. unfold parsed_uid.
  destruct (_parse_filename local_oldfolder (old_filename x)) as [[[? ?] ?] old_flags].
  destruct (_parse_filename local_oldfolder (filename x)) as [[[? uid] ?] flags].
  cbn [fst snd]. destruct (uid_negative uid).
  { injection H as <- <-. auto. }
  unfold bind at 1, try_except, bind at 1 in H. rewrite call_run in H.
  destruct (remotecopymessage remote (trace (world s5)) ro (default 0 uid) rn) as [newuid|e].
  - destruct (newuid <=? 0).
    + injection H as <- <-. auto.
    + exact H.
  - destruct (is_NotImplementedError e); injection H as <- <-; auto.
Qed.

End ReplayCases.

(** ** Markers the move engine skips *)

(** [os.unlink] in terms of its outcome. *)
Lemma os_unlink_run (p : string) (w : World) :
  exists w',
    os_unlink p w = (match unlink_outcome w p with
                     | inr _ => Ok tt
                     | inl e => Raise e
                     end, w') /\
    trace w' = trace w ++ [EUnlink p] /\
    fs w' = match unlink_outcome w p with inr f => f | inl _ => fs w end.
Proof.
  unfold unlink_outcome. destruct (os_unlink p w) as [[[]|e] w'] eqn:E; exists w'.
  - split; [reflexivity|]. split; [exact (os_unlink_trace _ _ _ _ E)|reflexivity].
  - split; [reflexivity|]. split; [exact (os_unlink_trace _ _ _ _ E)|].
    revert E. rewrite os_unlink_spec.
    destruct (if String.eqb p "" then None else _) as [[|i]|];
      try destruct (may_modify _ _); intros [= _ <-]; reflexivity.
Qed.

Section SkippedMarkers.
Import MaildirRepository.
Variable construct : list arg -> result MaildirFolder.t.
Variable _parse_filename :
  MaildirFolder.t -> string -> option string * option Z * option string * list ascii.
Variable _move_file :
  MaildirFolder.t -> string -> Z -> list ascii -> World -> result (list (path * node)).
Variable remote : Remote.
Variable status : Status.

Abbreviation replay := (replay construct _parse_filename _move_file remote status).
Abbreviation process := (process construct _parse_filename _move_file remote status).

(** The [finally] of the generator: whatever the body of the loop
    did, the marker is unlinked next, once.  An error of that unlink
    is raised in the loop when the body returned, and dropped when the
    body raised. *)
Lemma process_after_replay (x : move) (s s1 : St) (r : result unit) :
  replay x s = (r, s1) ->
  exists (r2 : result unit) (s2 : St),
    process x s = (r2, s2) /\
    self s2 = self s1 /\ cache s2 = cache s1 /\ dirty_status s2 = dirty_status s1 /\
    added (world s1) (world s2) [EUnlink (fn x)] /\
    match unlink_outcome (world s1) (fn x) with
    | inr f => r2 = r /\ fs (world s2) = f
    | inl e => r2 = (match r with Ok _ => Raise e | Raise e0 => Raise e0 end) /\
               fs (world s2) = fs (world s1)
    end.
Proof.
  intros H. unfold MaildirRepository.process, bind, on_close. rewrite H.
  destruct (os_unlink_run (fn x) (world s1)) as (w' & E & Ht & Hfs).
  assert (Hos : os (os_unlink (fn x)) s1
                = (match unlink_outcome (world s1) (fn x) with
                   | inr _ => Ok tt
                   | inl e => Raise e
                   end, mkSt (self s1) w' (cache s1) (dirty_status s1))).
  { unfold os. cbn [the_world with_world St_HasWorld]. rewrite E. reflexivity. }
  destruct r as [[]|e0]; rewrite Hos; cbn [snd].
  - destruct (unlink_outcome (world s1) (fn x)) as [e|f];
      eexists _, _; (split; [reflexivity|]); cbn [self world cache dirty_status];
      repeat split; assumption.
  - eexists _, _. split; [reflexivity|]. cbn [self world cache dirty_status].
    destruct (unlink_outcome (world s1) (fn x)) as [e|f]; repeat split; assumption.
Qed.

(** C2 (as corrected): a marker whose source folder equals its
    destination folder is skipped without any call, and one whose
    destination no longer exists after the one test of the
    destination.  A marker whose parsed id is a placeholder, negative
    or absent, is skipped only after the folder handles were looked up:
    after the test of the destination and the scans of the local
    lookups, [getfolder] is called on the remote repository for the
    old and for the new folder, and the two status folders are taken
    from the cache; when one of these lookups fails the body raises.
    In all three cases the calls made are local reads and these
    lookups on the remote repository; no file, no status cache, and
    neither the dirty set nor the counter is touched.  Then the marker
    is unlinked, once, whether the body returned or raised: when the
    unlink succeeds the marker is gone and the outcome is that of the
    body; when it fails the file system is as before, and its error is
    raised if the body returned and dropped if the body raised. *)
Theorem skipped_marker_is_unlinked (x : move) (s : St) :
  oldfolder x = newfolder x \/ destination_missing x s \/
  (forall f, uid_negative (parsed_uid (_parse_filename f (filename x))) = true) ->
  exists (r : result unit) (s1 : St),
    replay x s = (r, s1) /\
    scanned_by is_lookup s s1 /\
    (oldfolder x = newfolder x -> r = Ok tt /\ s1 = s) /\
    (oldfolder x <> newfolder x -> destination_missing x s ->
       r = Ok tt /\ s1 = called (EExists (fullname x)) s) /\
    (oldfolder x <> newfolder x -> ~ destination_missing x s -> r = Ok tt ->
       exists scan, looked_up remote status x s s1 scan) /\
    exists (r2 : result unit) (s2 : St),
      process x s = (r2, s2) /\
      self s2 = self s1 /\ cache s2 = cache s1 /\ dirty_status s2 = dirty_status s1 /\
      added (world s1) (world s2) [EUnlink (fn x)] /\
      match unlink_outcome (world s) (fn x) with
      | inr f => r2 = r /\ fs (world s2) = f
      | inl e => r2 = (match r with Ok _ => Raise e | Raise e0 => Raise e0 end) /\
                 fs (world s2) = fs (world s)
      end.
Proof.
  intros Hskip.
  destruct (replay x s) as [r s1] eqn:H. exists r, s1. split; [reflexivity|].
  pose proof (process_after_replay x s s1 r H) as Hproc.
  assert (Hbody : scanned_by is_lookup s s1 /\
            (oldfolder x = newfolder x -> r = Ok tt /\ s1 = s) /\
            (oldfolder x <> newfolder x -> destination_missing x s ->
               r = Ok tt /\ s1 = called (EExists (fullname x)) s) /\
            (oldfolder x <> newfolder x -> ~ destination_missing x s -> r = Ok tt ->
               exists scan, looked_up remote status x s s1 scan)).
  { apply replay_cases in H.
    destruct H as [(Heq & -> & ->)|[(Hne & Hm & -> & ->)|(Hne & Hm & H)]].
    - split; [reflexivity|]. repeat split; intros; contradiction.
    - split; [apply scanned_called; reflexivity|].
      split; [intros; contradiction|]. split; [auto|]. intros; contradiction.
    - destruct Hskip as [Heq|[Hm'|Hneg]]; [contradiction|contradiction|].
      destruct H as [[[e ->] F]|(lo & ln & s7 & scan & Hl & H)].
      + split; [exact F|]. split; [intros; contradiction|].
        split; [intros; contradiction|]. intros _ _ [=].
      + cbv zeta in H. rewrite Hneg in H. destruct H as [-> ->].
        split; [apply Hl|]. split; [intros; contradiction|].
        split; [intros; contradiction|]. intros _ _ _. exists scan. exact Hl. }
  destruct Hbody as (F & H1 & H2 & H3).
  split; [exact F|]. split; [exact H1|]. split; [exact H2|]. split; [exact H3|].
  destruct Hproc as (r2 & s2 & Hp & Hself & Hc & Hd & Ha & Hout).
  exists r2, s2. split; [exact Hp|]. split; [exact Hself|]. split; [exact Hc|].
  split; [exact Hd|]. split; [exact Ha|].
  destruct F as ((Hfs & _ & Hcwd & Hro & _) & _).
  rewrite (unlink_outcome_same (world s) (world s1) (fn x) Hfs Hcwd Hro) in Hout.
  rewrite Hfs in Hout. exact Hout.
Qed.

End SkippedMarkers.

(** ** Checkpoints of the move engine *)

Lemma saves_none (tr : list event) :
  forallb not_status_save tr = true -> saves tr = [].
Proof.
  unfold saves. induction tr as [|e tr IH]; [reflexivity|]. cbn [forallb].
  intros [He Ht]%andb_true_iff. rewrite filter_cons.
  unfold not_status_save in He. apply negb_true_iff in He. rewrite He.
  destruct (decide (false = true)) as [[=]|_]. exact (IH Ht).
Qed.

Lemma saves_all (names : list string) : saves (map EStatusSave names) = map EStatusSave names.
Proof.
  unfold saves. induction names as [|n names IH]; [reflexivity|]. cbn [map].
  rewrite filter_cons. cbn [is_status_save].
  destruct (decide (true = true)); [|contradiction]. rewrite IH. reflexivity.
Qed.

Lemma saves_app (a b : list event) : saves (a ++ b) = saves a ++ saves b.
Proof. apply filter_app. Qed.

Lemma lookup_not_save (tr : list event) :
  forallb is_lookup tr = true -> forallb not_status_save tr = true.
Proof.
  induction tr as [|e tr IH]; [reflexivity|]. cbn [forallb].
  intros [He Ht]%andb_true_iff. rewrite (IH Ht), andb_true_r.
  destruct e; try discriminate He; reflexivity.
Qed.

Section Checkpoints.
Import MaildirRepository.
Variable construct : list arg -> result MaildirFolder.t.
Variable _parse_filename :
  MaildirFolder.t -> string -> option string * option Z * option string * list ascii.
Variable _move_file :
  MaildirFolder.t -> string -> Z -> list ascii -> World -> result (list (path * node)).
Variable remote : Remote.
Variable status : Status.

Abbreviation replay := (replay construct _parse_filename _move_file remote status).
Abbreviation commit := (commit _move_file remote status).

(** [checkpoint] saves every dirty status folder, once, and empties
    the set. *)
Lemma checkpoint_run (s : St) :
  exists (w' : World) (saved : list string),
    checkpoint status s = (Ok tt, mkSt (self s) w' (cache s) ∅) /\
    added (world s) w' (map EStatusSave saved) /\
    saved ≡ₚ elements (dirty_status s).
Proof.
  unfold checkpoint, bind at 1, get at 1. unfold bind. rewrite save_all_run.
  eexists _, _. split; [reflexivity|]. split; [reflexivity|].
  apply status_order_enumerates.
Qed.

(** What the part of the loop body after the copy does to the counter,
    the dirty set and the saved status folders: the counter grows at
    once; the dirty set and the saves follow only when the remote
    delete, the local rename and the updates of the cache have gone
    through. *)
Lemma commit_runs (x : move) (f : MaildirFolder.t) (ro so sn : string) (uid newuid : Z)
    (old_flags flags : list ascii) (s s' : St) (r : result unit) :
  commit x f ro so sn uid newuid old_flags flags s = (r, s') ->
  deletecounter (self s') = deletecounter (self s) + 1 /\
  exists tr, added (world s) (world s') tr /\
    match r with
    | Ok _ =>
        if (deletecounter (self s) + 1) mod save_interval =? 0
        then dirty_status s' = ∅ /\
             saves tr ≡ₚ map EStatusSave (elements ({[so]} ∪ ({[sn]} ∪ dirty_status s)))
        else dirty_status s' = {[so]} ∪ ({[sn]} ∪ dirty_status s) /\ saves tr = []
    | Raise _ => dirty_status s' = dirty_status s /\ saves tr = []
    end.
Proof.
  unfold MaildirRepository.commit.
  unfold bind at 1, get at 1. unfold bind at 1, set_deletecounter at 1.
  unfold bind at 1, get at 1, set_self at 1, modify at 1.
  unfold bind at 1, get at 1. cbn [self world cache dirty_status deletecounter].
  set (s0 := mkSt _ _ _ _). intros H.
  assert (N0 : deletecounter (self s0) = deletecounter (self s) + 1) by reflexivity.
  assert (D0 : dirty_status s0 = dirty_status s) by reflexivity.
  assert (W0 : world s0 = world s) by reflexivity.
  assert (Hstop : forall t, frame false not_status_save s0 t ->
            deletecounter (self t) = deletecounter (self s) + 1 /\
            exists tr, added (world s) (world t) tr /\
                       dirty_status t = dirty_status s /\ saves tr = []).
  { intros t ((tr & Ha & Hf) & _ & D & N & _). split; [congruence|].
    exists tr. unfold added in *. rewrite W0 in Ha.
    split; [exact Ha|]. split; [congruence|exact (saves_none _ Hf)]. }
  (* the expunge flag *)
  apply (bind_raise_inv false not_status_save) in H.
  2:{ destruct (negb _); auto with quiet. }
  destruct H as [[F [e ->]]|([] & s2 & F & _ & H)]; [exact (Hstop _ F)|].
  (* the remote delete *)
  apply (bind_raise_inv false not_status_save) in H; [|auto with quiet].
  destruct H as [[F3 [e ->]]|([] & s3 & F3 & _ & H)];
    [exact (Hstop _ (frame_trans _ _ _ _ _ F F3))|].
  pose proof (frame_trans _ _ _ _ _ F F3) as F'. clear F F3. rename F' into F.
  (* the local rename *)
  apply (bind_raise_inv false not_status_save) in H; [|auto with quiet].
  destruct H as [[F4 [e ->]]|([] & s4 & F4 & _ & H)];
    [exact (Hstop _ (frame_trans _ _ _ _ _ F F4))|].
  pose proof (frame_trans _ _ _ _ _ F F4) as F'. clear F F4. rename F' into F.
  unfold bind at 1, get at 1 in H.
  apply (bind_raise_inv false not_status_save) in H.
  2:{ destruct (_move_file _ _ _ _ _); auto with quiet. }
  destruct H as [[F5 [e ->]]|([] & s5 & F5 & _ & H)];
    [exact (Hstop _ (frame_trans _ _ _ _ _ F F5))|].
  pose proof (frame_trans _ _ _ _ _ F F5) as F'. clear F F5. rename F' into F.
  (* the status caches *)
  apply (bind_raise_inv false not_status_save) in H; [|auto with quiet].
  destruct H as [[F6 [e ->]]|(new_list & s6 & F6 & _ & H)];
    [exact (Hstop _ (frame_trans _ _ _ _ _ F F6))|].
  pose proof (frame_trans _ _ _ _ _ F F6) as F'. clear F F6. rename F' into F.
  unfold bind at 1, get at 1 in H.
  apply (bind_raise_inv false not_status_save) in H; [|auto with quiet].
  destruct H as [[F7 [e ->]]|([] & s7 & F7 & _ & H)];
    [exact (Hstop _ (frame_trans _ _ _ _ _ F F7))|].
  pose proof (frame_trans _ _ _ _ _ F F7) as F'. clear F F7. rename F' into F.
  apply (bind_raise_inv false not_status_save) in H; [|auto with quiet].
  destruct H as [[F8 [e ->]]|(old_list & s8 & F8 & _ & H)];
    [exact (Hstop _ (frame_trans _ _ _ _ _ F F8))|].
  pose proof (frame_trans _ _ _ _ _ F F8) as F'. clear F F8. rename F' into F.
  unfold bind at 1, get at 1 in H.
  apply (bind_raise_inv false not_status_save) in H.
  2:{ destruct (bool_decide _); auto with quiet. }
  destruct H as [[F9 [e ->]]|([] & s9 & F9 & _ & H)];
    [exact (Hstop _ (frame_trans _ _ _ _ _ F F9))|].
  pose proof (frame_trans _ _ _ _ _ F F9) as F'. clear F F9. rename F' into F.
  clear Hstop.
  (* the dirty set and the checkpoint *)
  destruct F as ((tr & Ha & Hf) & _ & D & N & _).
  unfold bind at 1, get at 1 in H. unfold bind at 1, set_dirty_status at 1, modify at 1 in H.
  unfold bind at 1, get at 1 in H. cbn [self] in H.
  rewrite N, N0 in H. rewrite D, D0 in H. unfold added in Ha. rewrite W0 in Ha.
  destruct ((deletecounter (self s) + 1) mod save_interval =? 0).
  - destruct (checkpoint_run (mkSt (self s9) (world s9) (cache s9)
                                ({[so]} ∪ ({[sn]} ∪ dirty_status s))))
      as (w' & saved & E & Hw & Hperm).
    rewrite E in H. injection H as <- <-. cbn [self world dirty_status] in *.
    split; [congruence|].
    exists (tr ++ map EStatusSave saved).
    unfold added in *. split; [rewrite Hw, Ha, app_assoc; reflexivity|].
    split; [reflexivity|].
    rewrite saves_app, (saves_none _ Hf), saves_all. cbn [app].
    rewrite Hperm. reflexivity.
  - injection H as <- <-. cbn [self world dirty_status].
    split; [congruence|].
    exists tr. split; [exact Ha|]. split; [reflexivity|exact (saves_none _ Hf)].
Qed.

(** C9 (as corrected): the checkpoint interval is the constant 100 of
    [syncmoves], and what is counted is [deletecounter], an attribute
    of the repository object that is never reset: it grows by one for
    each marker whose message the remote store has copied under a uid
    above 0, right after the copy and before the remote delete and the
    local rename, so also when one of these then fails.  A marker that
    is skipped, or whose copy raises or answers 0 or less, leaves the
    counter and the dirty set alone.  When the body of the loop, after
    such a copy, goes through, the two status folders of the marker
    join the dirty set; and exactly when the new count is a multiple of
    100, every dirty status folder is then saved, once, in whatever
    order the set hands them out, and the set is emptied.  When the
    body raises after the copy, the dirty set is as before and nothing
    is saved. *)
Theorem checkpoint_every_100_replays (x : move) (s s' : St) (r : result unit) :
  replay x s = (r, s') ->
  exists tr, added (world s) (world s') tr /\
    ((forallb is_lookup tr = true /\
      deletecounter (self s') = deletecounter (self s) /\
      dirty_status s' = dirty_status s)
     \/
     exists (lookups : list event) (a : string) (u : Z) (b : string) (after : list event),
       tr = lookups ++ ERemoteCopy a u b :: after /\
       forallb is_lookup lookups = true /\
       match remotecopymessage remote (trace (world s) ++ lookups) a u b with
       | Raise e =>
           after = [] /\ r = (if is_NotImplementedError e then Ok tt else Raise e) /\
           deletecounter (self s') = deletecounter (self s) /\
           dirty_status s' = dirty_status s
       | Ok newuid =>
           if newuid <=? 0
           then after = [] /\ r = Ok tt /\
                deletecounter (self s') = deletecounter (self s) /\
                dirty_status s' = dirty_status s
           else
             deletecounter (self s') = deletecounter (self s) + 1 /\
             let dirty := {[status_name status s (oldfolder x)]} ∪
                          ({[status_name status s (newfolder x)]} ∪ dirty_status s) in
             match r with
             | Ok _ =>
                 if (deletecounter (self s) + 1) mod 100 =? 0
                 then dirty_status s' = ∅ /\
                      saves after ≡ₚ map EStatusSave (elements dirty)
                 else dirty_status s' = dirty /\ saves after = []
             | Raise _ => dirty_status s' = dirty_status s /\ saves after = []
             end
       end).
Proof.
  intros H. apply replay_cases in H.
  destruct H as [(_ & -> & ->)|[(_ & _ & -> & ->)|(_ & _ & H)]].
  - exists []. split; [unfold added; rewrite app_nil_r; reflexivity|]. left. auto.
  - exists [EExists (fullname x)]. split; [reflexivity|]. left. auto.
  - destruct H as [[_ F]|(lo & ln & s7 & scan & Hl & H)].
    + destruct F as (_ & (tr & Ha & Hp) & _ & D & _ & N & _).
      exists tr. split; [exact Ha|]. left. auto.
    + destruct Hl as (F & Hscan & Ha & _).
      destruct F as (_ & (tr7 & Ha7 & Hp7) & _ & D7 & _ & N7 & _).
      assert (Etr : tr7 = EExists (fullname x) :: scan ++
                      [ERemoteGetfolder (remote_name remote s (oldfolder x));
                       ERemoteGetfolder (remote_name remote s (newfolder x))]).
      { unfold added in *. rewrite Ha in Ha7. exact (eq_sym (app_inv_head _ _ _ Ha7)). }
      rewrite <- Etr in Ha. clear Etr Hscan. cbv zeta in H.
      destruct (uid_negative _).
      { destruct H as [-> ->]. exists tr7. split; [exact Ha|]. left. auto. }
      set (uid := default 0 (parsed_uid (_parse_filename lo (filename x)))) in *.
      set (ro := remote_name remote s (oldfolder x)) in *.
      set (rn := remote_name remote s (newfolder x)) in *.
      unfold added in Ha. rewrite Ha in H.
      destruct (remotecopymessage remote (trace (world s) ++ tr7) ro uid rn)
        as [newuid|e] eqn:Hcopy.
      * destruct (newuid <=? 0) eqn:Hpos.
        -- destruct H as [-> ->]. exists (tr7 ++ [ERemoteCopy ro uid rn]).
           split; [unfold added; cbn [world called trace logged]; rewrite Ha, app_assoc;
                   reflexivity|].
           right. exists tr7, ro, uid, rn, []. split; [reflexivity|].
           split; [exact Hp7|]. rewrite Hcopy, Hpos. auto.
        -- apply commit_runs in H as (N & tr & Hc & Hr).
           cbn [self world called dirty_status] in N, Hc, Hr.
           exists (tr7 ++ ERemoteCopy ro uid rn :: tr). split.
           { unfold added in *. rewrite Hc. cbn [trace logged]. rewrite Ha.
             rewrite <- !app_assoc. reflexivity. }
           right. exists tr7, ro, uid, rn, tr. split; [reflexivity|].
           split; [exact Hp7|]. rewrite Hcopy, Hpos.
           split; [congruence|]. cbv zeta. rewrite N7, D7 in Hr.
           unfold save_interval in Hr. exact Hr.
      * destruct H as [-> ->]. exists (tr7 ++ [ERemoteCopy ro uid rn]).
        split; [unfold added; cbn [world called trace logged]; rewrite Ha, app_assoc;
                reflexivity|].
        right. exists tr7, ro, uid, rn, []. split; [reflexivity|].
        split; [exact Hp7|]. rewrite Hcopy. auto.
Qed.

End Checkpoints.

(** ** The further properties on concrete worlds *)

Lemma inodes_allocated_check (w : World) :
  inodes_allocatedb w = true -> inodes_allocated w.
Proof.
  unfold inodes_allocatedb, inodes_allocated. generalize (length (inodes w)). intros n.
  induction (fs w) as [|[q nd] rest IH]; intros Hall p i; [intros [=]|].
  cbn [forallb lookup_path] in *. apply andb_true_iff in Hall as [Hq Hrest].
  destruct (path_eqb q p).
  - intros [= ->]. cbn in Hq. apply Nat.ltb_lt in Hq. exact Hq.
  - apply IH. exact Hrest.
Qed.

Section FolderWitnesses.
Import MaildirFolder Fixtures.

Lemma savemessageflags_canonical_witness :
  (savemessageflags 5 ["S"%char] one_message = (Ok tt, one_message) <->
   flagged_path one_message (filename record5) ["S"%char] = filename record5) /\
  savemessageflags 5 ["S"%char] one_message = (Ok tt, one_message) /\
  flags record5 = ["S"%char].
Proof.
  destruct (savemessageflags_noop_exactly_when_canonical one_message {[ 5 := record5 ]} 5
              record5 ["S"%char]) as (Hiff & Hcanon & _); [reflexivity|reflexivity|].
  split; [exact Hiff|]. split; [|reflexivity].
  apply Hiff. apply (Hcanon base5).
  - repeat constructor.
  - vm_compute. reflexivity.
  - vm_compute. reflexivity.
Defined.

Lemma uncached_uid_witness :
  getmessage 6 one_message = (Raise KeyError, one_message) /\
  getmessageflags 6 one_message = (Raise KeyError, one_message) /\
  savemessageflags 6 ["S"%char] one_message = (Raise KeyError, one_message).
Proof.
  apply (uncached_uid_raises_KeyError one_message {[ 5 := record5 ]} 6 ["S"%char]).
  - reflexivity.
  - vm_compute. reflexivity.
Defined.

Lemma unscanned_folder_witness :
  getmessage 5 not_yet_scanned = (Raise TypeError, not_yet_scanned) /\
  getmessageflags 5 not_yet_scanned = (Raise TypeError, not_yet_scanned) /\
  savemessageflags 5 [] not_yet_scanned = (Raise TypeError, not_yet_scanned) /\
  deletemessage 5 not_yet_scanned = (Raise TypeError, not_yet_scanned) /\
  (0 <= 5 -> savemessage 5 "text" [] not_yet_scanned = (Raise TypeError, not_yet_scanned)).
Proof.
  apply (unscanned_folder_raises_TypeError not_yet_scanned 5 "text" []).
  reflexivity.
Defined.

Lemma savemessageflags_witness :
  exists (res : result unit) (s' : St),
    savemessageflags 5 ["T"%char; "S"%char] one_message = (res, s') /\
    let target := path_join (partition_dir one_message
                               (if bool_decide ("S"%char ∈ ["T"%char; "S"%char])
                                then "cur" else "new"))
                            (flagged_name (basename (filename record5))
                               ["T"%char; "S"%char]) in
    (target = filename record5 -> res = Ok tt /\ s' = one_message) /\
    (target <> filename record5 ->
       added (world one_message) (world s') [ERename (filename record5) target] /\
       match res with
       | Ok _ =>
           messagelist (self s')
           = Some (<[5 := mkMsg (uid record5) (sort_flags ["T"%char; "S"%char]) target]>
                     {[ 5 := record5 ]}) /\
           forall i : nat,
             stat (world one_message) (resolve (world one_message) (filename record5))
               = Some (File i) ->
             stat (world s') (resolve (world s') target) = Some (File i)
       | Raise e => is_OSError e = true /\ messagelist (self s') = Some {[ 5 := record5 ]}
       end).
Proof.
  apply (savemessageflags_cache_follows_rename one_message {[ 5 := record5 ]} 5 record5
           ["T"%char; "S"%char]).
  - reflexivity.
  - vm_compute. reflexivity.
Defined.

Lemma savemessage_then_getmessage_witness :
  let text := "one" +:+ crlf +:+ "two" in
  let s1 := (savemessage 6 text ["S"%char] one_message).2 in
  exists s2 : St,
    getmessage 6 s1 = (Ok (str_replace crlf lf text), s2) /\
    str_replace crlf lf text = "one" +:+ lf +:+ "two".
Proof.
  intros text s1.
  destruct (savemessage_then_getmessage one_message s1 {[ 5 := record5 ]} 6 6 text
              ["S"%char]) as (_ & s2 & Hget & _).
  - apply inodes_allocated_check. vm_compute. reflexivity.
  - reflexivity.
  - vm_compute. reflexivity.
  - lia.
  - vm_compute. reflexivity.
  - exists s2. split; [exact Hget|]. vm_compute. reflexivity.
Defined.

Lemma saved_message_witness :
  let s1 := (savemessage 6 "text" ["T"%char; "S"%char] one_message).2 in
  exists (r : msg) (nm : string),
    messagelist (self s1) = Some (<[6 := r]> {[ 5 := record5 ]}) /\
    uid r = 6 /\ flags r = sort_flags ["T"%char; "S"%char] /\
    filename r = partition_dir one_message
                   (if bool_decide ("S"%char ∈ ["T"%char; "S"%char]) then "cur" else "new")
                 +:+ String "/" nm /\
    str_forall (fun x => negb (is_slash x)) nm = true /\
    owned_uid (visiblename (self one_message)) (filename r) = Some 6 /\
    name_flags (filename r) = sort_flags ["T"%char; "S"%char] /\
    forall (st : gmap Z msg * Z),
      scan_file (visiblename (self one_message)) st (filename r)
      = (<[6 := r]> st.1, st.2).
Proof.
  intros s1.
  apply (saved_message_is_found_again one_message s1 {[ 5 := record5 ]} 6 6 "text"
           ["T"%char; "S"%char]).
  - reflexivity.
  - vm_compute. reflexivity.
  - lia.
  - repeat constructor.
  - reflexivity.
  - vm_compute. reflexivity.
Defined.

Lemma savemessage_known_uid_witness :
  exists (res : result Z) (s' : St),
    savemessage 5 "other text" ["S"%char] one_message = (res, s') /\
    (forall c' : string, savemessage 5 c' ["S"%char] one_message = (res, s')) /\
    inodes (world s') = inodes (world one_message) /\
    (added (world one_message) (world s') [] \/
     exists target,
       added (world one_message) (world s') [ERename (filename record5) target]) /\
    (forall v, res = Ok v -> v = 5).
Proof.
  apply (savemessage_known_uid_keeps_content one_message {[ 5 := record5 ]} 5 record5
           "other text" ["S"%char]).
  - reflexivity.
  - vm_compute. reflexivity.
  - lia.
Defined.

Lemma scan_numbers_witness :
  exists (m : gmap Z msg) (s' : St),
    _scanfolder delivered = (Ok m, s') /\
    (forall (k : Z),
       k < 0 ->
       m !! k = (fun f => mkMsg k (name_flags f) f) <$>
                (foreign_files (visiblename (self delivered))
                   (listed_files delivered "new" ++ listed_files delivered "cur")
                 !! Z.to_nat (- k - 1))) /\
    (forall (file : string) (v : Z),
       owned_uid (visiblename (self delivered)) file = Some v -> 0 <= v).
Proof.
  destruct (_scanfolder delivered) as [[m|e] s'] eqn:E; [|vm_compute in E; discriminate E].
  exists m, s'. split; [reflexivity|].
  apply (scan_numbers_foreign_files delivered s' m). exact E.
Defined.

End FolderWitnesses.

Section RepositoryWitnesses.
Import MaildirRepository Fixtures RepoFixtures MoveFixtures MoreFixtures.

Lemma makefolder_partitions_witness :
  let s := start (repository (Some "/") false 0) (base_world [(["Mail"], Dir)] []) in
  let full_path := abspath (cwd (world s)) (path_join (root (self s)) "a/b/c") in
  stat (world after_makefolder) (resolve (world after_makefolder) full_path) = Some Dir /\
  forall subdir : string,
    subdir ∈ ["cur"; "new"; "tmp"] ->
    is_Some (stat (world after_makefolder)
               (resolve (world after_makefolder) (path_join full_path subdir))).
Proof.
  intros s.
  apply (makefolder_leaves_the_partitions "a/b/c" s after_makefolder).
  - reflexivity.
  - vm_compute. reflexivity.
Defined.

Lemma getfolder_cache_witness :
  let s := start (repository None false 0) (base_world [(["Mail"], Dir)] []) in
  let s1 := (getfolders MaildirFolder.__init__ s).2 in
  folders (self s1) = Some [] /\
  getfolders MaildirFolder.__init__ s1 = (Ok [], s1) /\
  (forall other : string,
     getfolder MaildirFolder.__init__ other s1
     = (match List.find (fun g => String.eqb other (MaildirFolder.name g)) [] with
        | Some g => Ok g
        | None => Raise (OfflineImapError
                           ("getfolder() asked for a nonexisting folder '"
                            +:+ other +:+ "'.") "FOLDER")
        end, s1)) /\
  (forall (other : string) (f : MaildirFolder.t) (s2 : St),
     getfolder MaildirFolder.__init__ other s1 = (Ok f, s2) ->
     MaildirFolder.name f = other /\ f ∈ [] /\ s2 = s1) /\
  (exists s2, forgetfolders s1 = (Ok tt, s2) /\ folders (self s2) = None /\
              world s2 = world s1 /\ cache s2 = cache s1 /\
              folder_atimes (self s2) = folder_atimes (self s1)).
Proof.
  intros s s1.
  apply (getfolder_answers_from_the_cache MaildirFolder.__init__ s s1 []).
  vm_compute. reflexivity.
Defined.

Lemma flat_scan_witness :
  let s := start (repository None false 0) (mail_world [] []) in
  flat_folder_names (world s) "/Mail" = ["INBOX"; "INBOX.Archive"] /\
  exists s' : St,
    _getfolders_scandir MaildirFolder.__init__ 3 "/Mail" None s = (Raise TypeError, s') /\
    same_files (world s) (world s') /\
    exists tr, added (world s) (world s') (EListdir "/Mail" :: tr) /\
               forallb (fun e => negb (is_listdir e)) tr = true.
Proof.
  intros s. split; [vm_compute; reflexivity|].
  destruct (flat_scan_finds_the_maildirs MaildirFolder.__init__ 2%nat "/Mail" s)
    as (s' & E & F & T).
  - vm_compute. intros [=].
  - vm_compute. reflexivity.
  - left. reflexivity.
  - exists s'. split; [|split; [exact F|exact T]].
    rewrite E. vm_compute. reflexivity.
Defined.

Lemma copy_fails_witness :
  let s := loaded (discovered 0) one_move in
  exists (r : result unit) (s' : St),
    replay MaildirFolder.__init__ codec_parse codec_move_file unwilling_remote status_store
      first_move_tuple s = (r, s') /\
    frame true is_lookup_or_copy s s'.
Proof.
  intros s.
  apply (replay_stops_when_copy_fails MaildirFolder.__init__ codec_parse codec_move_file
           unwilling_remote status_store first_move_tuple s).
  intros tr a u b n. vm_compute. intros [=].
Defined.

Lemma setup_witness :
  let s := start (discovered 0) one_move in
  let s' := (syncmoves_setup MaildirFolder.__init__ status_store s).2 in
  dirty_status s' = ∅ /\
  (forall name : string,
     cache s' !! name = if bool_decide (name ∈ status_getfolders status_store)
                        then Some (status_load status_store name) else None) /\
  exists tr, trace (world s') =
             tr ++ EStatusGetfolders :: map EStatusCache (status_getfolders status_store).
Proof.
  intros s s'.
  apply (setup_loads_every_status_folder MaildirFolder.__init__ status_store s s').
  vm_compute. reflexivity.
Defined.

Lemma commit_witness :
  let s := loaded (discovered 0) one_move in
  let s' := (commit codec_move_file willing_remote status_store first_move_tuple archive_handle
               "INBOX" "INBOX" "INBOX.Archive" 1 1001 ["S"%char] ["S"%char] s).2 in
  exists new_list old_list : gmap Z smsg,
    cache s !! "INBOX.Archive" = Some new_list /\
    <["INBOX.Archive" := <[1001 := mkSmsg 1001 ["S"%char]]> new_list]> (cache s) !! "INBOX"
      = Some old_list /\
    cache s' = <["INBOX" := delete 1 old_list]>
                 (<["INBOX.Archive" := <[1001 := mkSmsg 1001 ["S"%char]]> new_list]>
                    (cache s)).
Proof.
  intros s s'.
  apply (commit_updates_the_status_cache codec_move_file willing_remote status_store
           first_move_tuple
           archive_handle "INBOX" "INBOX" "INBOX.Archive" 1 1001 ["S"%char] ["S"%char] s s').
  vm_compute. reflexivity.
Defined.

Lemma missing_status_folder_witness :
  let s := start (discovered 0) one_move in
  let run := replay MaildirFolder.__init__ codec_parse codec_move_file willing_remote status_store
               first_move_tuple s in
  frame true is_lookup s run.2 /\
  (run.1 = Ok tt ->
   oldfolder first_move_tuple = newfolder first_move_tuple \/
   destination_missing first_move_tuple s).
Proof.
  intros s run.
  apply (replay_needs_both_status_folders MaildirFolder.__init__ codec_parse codec_move_file
           willing_remote status_store first_move_tuple s run.2 run.1).
  - left. vm_compute. reflexivity.
  - apply surjective_pairing.
Defined.

Lemma plain_scan_witness :
  let s := start (repository None false 0) (mail_world [] []) in
  exists (r : result (list MaildirFolder.t)) (s' : St),
    getfolders MaildirFolder.__init__ s = (r, s') /\
    folder_atimes (self s') = folder_atimes (self s) /\
    scanned_by is_dir_call s s'.
Proof.
  intros s. apply (getfolders_without_restoreatime MaildirFolder.__init__ s). reflexivity.
Defined.

Lemma marker_witness :
  let s := start (repository None false 0) one_move in
  read_move (Fixtures.inbox None) first_name s
  = (Ok first_move_tuple,
     mkSt (self s) (logged (ERead ("/Mail/INBOX/mv/" +:+ first_name)) (world s))
          (cache s) (dirty_status s)).
Proof.
  intros s.
  apply (marker_names_its_move (Fixtures.inbox None) first_name ["Mail"]
           "INBOX.Archive" "cur" first_name s 0).
  - reflexivity.
  - repeat constructor; discriminate.
  - discriminate.
  - vm_compute. reflexivity.
  - vm_compute. reflexivity.
Defined.

Lemma whole_run_witness :
  let s := start (discovered 0) one_move in
  let s' := (syncmoves MaildirFolder.__init__ codec_parse codec_move_file willing_remote
               status_store s).2 in
  syncmoves_setup MaildirFolder.__init__ status_store s = (Ok false, s') \/
  (folders (self s') = None /\
   exists (tr : list event) (saved : list string),
     trace (world s') = tr ++ map EStatusSave saved ++ [ERemoteForget; EStatusForget] /\
     NoDup saved /\
     forall name : string, name ∈ saved <-> name ∈ status_getfolders status_store).
Proof.
  intros s s'.
  apply (syncmoves_saves_every_status_folder MaildirFolder.__init__ codec_parse codec_move_file
           willing_remote status_store s s').
  vm_compute. reflexivity.
Defined.

End RepositoryWitnesses.

(** ** The move engine on concrete markers *)

Section EngineExamples.
Import MaildirRepository Fixtures RepoFixtures MoveFixtures.

(** The marker of the placeholder fixture is read as this tuple. *)
Example placeholder_move_is_read :
  (read_move inbox_handle delivered_name (loaded (discovered 0) placeholder_marker)).1
  = Ok placeholder_move.
Proof. vm_compute. reflexivity. Qed.

(** A marker that names a place inside its own folder is skipped at
    once. *)
Example same_folder_marker_is_skipped :
  let s := loaded (discovered 0) placeholder_marker in
  replay MaildirFolder.__init__ codec_parse codec_move_file willing_remote status_store
    same_folder_move s = (Ok tt, s).
Proof. reflexivity. Qed.

(** C2, counterexample: the marker's parsed id is absent.  With a remote
    store that has both folders, the marker is skipped and removed, but
    [getfolder] has been called twice on the remote repository.  With a
    remote store that lacks the destination folder, that call raises and
    the run ends with the error; the marker is removed all the same.
    The folder list of the repository object is given: discovery cannot
    build it with the folder class as it is. *)
Lemma placeholder_marker_reaches_remote :
  uid_negative (parsed_uid (codec_parse inbox_handle (filename placeholder_move))) = true /\
  (exists s',
     process MaildirFolder.__init__ codec_parse codec_move_file willing_remote status_store
       placeholder_move (loaded (discovered 0) placeholder_marker)
     = (Ok tt, s') /\
     filter (fun e => is_remote e = true) (trace (world s'))
     = [ERemoteGetfolder "INBOX"; ERemoteGetfolder "INBOX/Archive"] /\
     stat (world s') ["Mail"; "INBOX"; "mv"; delivered_name] = None) /\
  (exists s',
     process MaildirFolder.__init__ codec_parse codec_move_file remote_without_archive
       status_store placeholder_move (loaded (discovered 0) placeholder_marker)
     = (Raise (OfflineImapError "no such folder" "FOLDER"), s') /\
     filter (fun e => is_remote e = true) (trace (world s'))
     = [ERemoteGetfolder "INBOX"; ERemoteGetfolder "INBOX/Archive"] /\
     stat (world s') ["Mail"; "INBOX"; "mv"; delivered_name] = None).
Proof.
  split; [vm_compute; reflexivity|]. split.
  - eexists. split; [vm_compute; reflexivity|]. split; vm_compute; reflexivity.
  - eexists. split; [vm_compute; reflexivity|]. split; vm_compute; reflexivity.
Qed.

Lemma skipped_marker_witness :
  let s := loaded (discovered 0) placeholder_marker in
  stat (world s) ["Mail"; "INBOX"; "mv"; delivered_name] = Some (File 0) /\
  exists (r : result unit) (s1 : St),
    replay MaildirFolder.__init__ codec_parse codec_move_file willing_remote status_store
      placeholder_move s = (r, s1) /\
    scanned_by is_lookup s s1 /\
    (oldfolder placeholder_move = newfolder placeholder_move -> r = Ok tt /\ s1 = s) /\
    (oldfolder placeholder_move <> newfolder placeholder_move ->
     destination_missing placeholder_move s ->
       r = Ok tt /\ s1 = called (EExists (fullname placeholder_move)) s) /\
    (oldfolder placeholder_move <> newfolder placeholder_move ->
     ~ destination_missing placeholder_move s -> r = Ok tt ->
       exists scan, looked_up willing_remote status_store placeholder_move s s1 scan) /\
    exists (r2 : result unit) (s2 : St),
      process MaildirFolder.__init__ codec_parse codec_move_file willing_remote status_store
        placeholder_move s = (r2, s2) /\
      self s2 = self s1 /\ cache s2 = cache s1 /\ dirty_status s2 = dirty_status s1 /\
      added (world s1) (world s2) [EUnlink (fn placeholder_move)] /\
      match unlink_outcome (world s) (fn placeholder_move) with
      | inr f => r2 = r /\ fs (world s2) = f
      | inl e => r2 = (match r with Ok _ => Raise e | Raise e0 => Raise e0 end) /\
                 fs (world s2) = fs (world s)
      end.
Proof.
  intros s. split; [vm_compute; reflexivity|].
  apply (skipped_marker_is_unlinked MaildirFolder.__init__ codec_parse codec_move_file
           willing_remote status_store placeholder_move s).
  right. right. intros f. vm_compute. reflexivity.
Defined.

(** The same marker in full: the body returns, the marker is there
    before and gone after, and the calls are the test of the
    destination, the two lookups on the remote repository and the
    unlink. *)
Example placeholder_marker_is_skipped :
  let s := loaded (discovered 0) placeholder_marker in
  let run := process MaildirFolder.__init__ codec_parse codec_move_file willing_remote
               status_store placeholder_move s in
  run.1 = Ok tt /\
  trace (world run.2)
  = [ EExists (fullname placeholder_move);
      ERemoteGetfolder "INBOX"; ERemoteGetfolder "INBOX/Archive";
      EUnlink (fn placeholder_move) ] /\
  stat (world run.2) ["Mail"; "INBOX"; "mv"; delivered_name] = None.
Proof. vm_compute. repeat split; reflexivity. Qed.

Lemma checkpoint_witness :
  let s := loaded (discovered 99) one_move in
  let run := replay MaildirFolder.__init__ codec_parse codec_move_file willing_remote
               status_store first_move_tuple s in
  exists tr, added (world s) (world run.2) tr /\
    ((forallb is_lookup tr = true /\
      deletecounter (self run.2) = deletecounter (self s) /\
      dirty_status run.2 = dirty_status s)
     \/
     exists (lookups : list event) (a : string) (u : Z) (b : string) (after : list event),
       tr = lookups ++ ERemoteCopy a u b :: after /\
       forallb is_lookup lookups = true /\
       match remotecopymessage willing_remote (trace (world s) ++ lookups) a u b with
       | Raise e =>
           after = [] /\ run.1 = (if is_NotImplementedError e then Ok tt else Raise e) /\
           deletecounter (self run.2) = deletecounter (self s) /\
           dirty_status run.2 = dirty_status s
       | Ok newuid =>
           if newuid <=? 0
           then after = [] /\ run.1 = Ok tt /\
                deletecounter (self run.2) = deletecounter (self s) /\
                dirty_status run.2 = dirty_status s
           else
             deletecounter (self run.2) = deletecounter (self s) + 1 /\
             let dirty := {[status_name status_store s (oldfolder first_move_tuple)]} ∪
                          ({[status_name status_store s (newfolder first_move_tuple)]}
                           ∪ dirty_status s) in
             match run.1 with
             | Ok _ =>
                 if (deletecounter (self s) + 1) mod 100 =? 0
                 then dirty_status run.2 = ∅ /\
                      saves after ≡ₚ map EStatusSave (elements dirty)
                 else dirty_status run.2 = dirty /\ saves after = []
             | Raise _ => dirty_status run.2 = dirty_status s /\ saves after = []
             end
       end).
Proof.
  intros s run.
  apply (checkpoint_every_100_replays MaildirFolder.__init__ codec_parse codec_move_file
           willing_remote status_store first_move_tuple s run.2 run.1).
  apply surjective_pairing.
Defined.

(** On that replay the counter reaches 100 and both status folders are
    saved. *)
Example checkpoint_at_100 :
  let run := replay MaildirFolder.__init__ codec_parse codec_move_file willing_remote
               status_store first_move_tuple (loaded (discovered 99) one_move) in
  run.1 = Ok tt /\
  deletecounter (self run.2) = 100 /\
  size (dirty_status run.2) = 0%nat /\
  saves (trace (world run.2)) = [EStatusSave "INBOX"; EStatusSave "INBOX.Archive"].
Proof. vm_compute. repeat split; reflexivity. Qed.

(** When the remote delete fails on that replay, the counter has
    reached 100 all the same, and nothing is saved. *)
Example count_100_without_save :
  let run := replay MaildirFolder.__init__ codec_parse codec_move_file remote_delete_fails
               status_store first_move_tuple (loaded (discovered 99) one_move) in
  run.1 = Raise (OfflineImapError "delete failed" "MESSAGE") /\
  deletecounter (self run.2) = 100 /\
  saves (trace (world run.2)) = [].
Proof. vm_compute. repeat split; reflexivity. Qed.

(** C9, counterexample.  First run: 100 markers are processed, the
    first is replayed and the other 99 are skipped; when the loop ends
    no status folder has been saved and the dirty set still holds the
    two folders of the replayed marker.  Second run: the repository
    object has replayed one marker before, and 100 markers are replayed;
    the only checkpoint comes after the 99th marker of the run, and
    after the 100th the dirty set is not empty.  The folder list of
    the repository object is given: discovery cannot build it with the
    folder class as it is. *)
Lemma no_checkpoint_after_100_markers :
  (let run := setup_and_loop willing_remote (start (discovered 0) one_move_of_100) in
   run.1 = Ok tt /\
   length (marker_unlinks (trace (world run.2))) = 100%nat /\
   deletecounter (self run.2) = 1 /\
   saves (trace (world run.2)) = [] /\
   size (dirty_status run.2) = 2%nat) /\
  (let run := setup_and_loop willing_remote (start (discovered 1) hundred_moves) in
   run.1 = Ok tt /\
   length (marker_unlinks (trace (world run.2))) = 100%nat /\
   deletecounter (self run.2) = 101 /\
   length (saves (trace (world run.2))) = 2%nat /\
   length (marker_unlinks (before_first_save (trace (world run.2)))) = 98%nat /\
   size (dirty_status run.2) = 2%nat).
Proof. vm_compute. repeat split; reflexivity. Qed.

(** [getfolder] on a repository object that holds a folder list. *)
Example getfolder_from_the_list :
  let s := start (discovered 0) one_move in
  getfolder MaildirFolder.__init__ "INBOX.Archive" s = (Ok archive_handle, s) /\
  getfolder MaildirFolder.__init__ "Drafts" s
  = (Raise (OfflineImapError "getfolder() asked for a nonexisting folder 'Drafts'."
              "FOLDER"), s).
Proof. vm_compute. split; reflexivity. Qed.

End EngineExamples.

Section FlagExamples.
Import MaildirFolder Fixtures.

(** A name with a colon before its info string is rebuilt as it is:
    setting the flags the message holds renames nothing. *)
Example savemessageflags_colon_in_name :
  flags colon_record = ["S"%char] /\
  savemessageflags 7 ["S"%char] colon_in_name = (Ok tt, colon_in_name).
Proof. vm_compute. split; reflexivity. Qed.

End FlagExamples.
